(* ===== verification/_CoqProject ===== *)
-Q . S2P
Prelude.v
PyStr.v
Sha256.v
Json.v
Protocol.v
Wire.v
Payloads.v
Transfer.v
Fs.v
Incoming.v
Outgoing.v
Session.v
Bridge.v
Clipboard.v
Config.v
Db.v
Identity.v
Discovery.v
Advert.v
Peers.v
Service.v
Sending.v
Handshake.v
Views.v
FirstContact.v
Channel.v
Delivery.v
Enrolment.v
Ipc.v
UiClient.v
App.v
Window.v
Notifier.v
Launch.v
Kernel.v
WellFormed.v
Pairing.v
Trust.v
Registry.v
Daemon.v
Stopping.v
Witnesses.v
LifeWitnesses.v
