(* ===== verification/Prelude.v ===== *)
(** * Ferry: the Linux service of the Ferry / Raven file transfer utility

    A verification of the Python service under
    [src/linux/src/ferry_linux]: what it says on the wire, how it agrees on keys
    and trust with a phone, how it sends, receives, interrupts and resumes files,
    what it stores, and how its user interface, another process, commands it
    through a local socket.  File names below are relative to that directory.

    ** The program and its model

    A [FerryService] keeps one [PeerSession] per TCP connection.  The task of a
    connection runs the handshake in plain frames, then reads encrypted frames:
    JSON envelopes, which the service dispatches to handlers, and binary chunks,
    which go to the [IncomingTransfer] of their id.  The local user accepts and
    rejects pairings and transfers, sends, cancels and resumes: the window calls
    [FerryApplication], whose client writes a command to the socket of the IPC
    server, which calls the service; what the service notifies goes the other
    way.  History, trusted devices and resume state are rows of an SQLite
    database, the settings a JSON file.

    - [Prelude]: results and exceptions ([res], [exn]), the state and error
      monad [M] with its weakest preconditions [wp] and invariants [stable],
      octets as big-endian numbers, association lists for dictionaries whose
      order or iteration matters.
    - [PyStr]: Python strings as code points: UTF-8 with its error modes, [int],
      [uuid.UUID], [os.path.normpath], hexadecimal texts.
    - [Sha256]: the hash itself, computed (checked on the standard examples).
    - [Json]: values, [json.dumps] and [json.loads] over the whole grammar, with
      the round trip.
    - [Protocol], [Payloads]: [protocol/models.py].  [Wire]: how long messages are.
    - [Transfer]: [core/transfer.py] up to the transfer classes: state machines,
      metadata, chunk frames, file names and destinations.
    - [Fs]: a file system with buffered writers; every call may fail, as a list of
      outcomes decides.
    - [Incoming], [Outgoing]: [IncomingTransfer], [OutgoingTransfer] and the batch
      records of [core/transfer.py].
    - [Session]: [core/session.py].  [Identity]: [core/identity.py].
    - [Db]: [core/db.py], a table as the list of its rows.
    - [Bridge]: [core/notification_bridge.py].  [Clipboard]: [core/clipboard.py].
    - [Discovery], [Advert]: [core/discovery.py], the peers that are found and the
      own announcement.  [Config]: [core/config.py].
    - [Peers], [Service], [Sending], [Handshake]: [core/service.py]: the tables and
      helpers, the handlers, the tasks of [send_file] and [send_batch], and the
      handshake task with all events of the service ([run_event]).
    - [Ipc]: [core/ipc.py], over any service with the operations of the class
      [UiService].  [UiClient]: [ui/ipc_client.py] and the composition of client
      and server.  [App]: [FerryApplication] of [ui/app.py].  [Window]: the window
      of [ui/window.py]: sessions, rows, dialogs, file choosers and what they do.
      [Notifier]: [core/notifications.py].  [Launch]: [__main__.py], and the
      activation, the backends and the in-process listeners of [ui/app.py].
    - [Daemon]: start, stop, stall monitor and connections of [core/service.py];
      the whole service as the instance of [UiService]; and the daemon (service,
      local interface, scheduled coroutines) as a transition system, in which
      [stop] goes from one of its waits to the next and a cancelled task ends when
      it runs next.  [Stopping]: what keeps [stop] waiting, and what it leaves.
    - [Registry]: the session table.  [WellFormed]: the positions that stand for
      references are always those of objects, which makes the representation of
      objects by positions adequate.
    - [Kernel], [Pairing], [Trust]: what handlers leave alone, the moves of the
      sessions, and the keys that become trusted.
    - [Views]: the class [PeerView] of what a handler sees of a service, with exact
      runs of the shared helpers over any such view; [FirstContact] (a task in the
      handshake), [Channel] and [Delivery] (a session that transfers) and
      [Enrolment] (a session in the pairing) are its instances, with two devices
      that shake hands, a file that goes from one service to another, and the
      pairing up to two established sessions.
    - [Witnesses], [LifeWitnesses]: concrete inputs at which the hypotheses of the
      properties hold.

    Methods of objects run in [M]: a method that raises keeps what it did before.
    A service is one record; its peers and transfers are objects referred to by
    position, since tables share them.  The libraries the code calls are type
    classes: [Crypto] (X25519, HKDF, ChaCha20-Poly1305), [Ed25519] (with PEM),
    [PyRepr] ([repr]), [Toolkit] (GTK), [Host] ([Path.resolve], [uuid4], [mimetypes], texts of
    exceptions, ...), [IpcHost] (the conversions of [Path(x)] and [float(x)], the
    integers SQLite takes as a limit).  The laws that are used of them are [CryptoLaws],
    [Ed25519Laws] and [HostLaws] ([uuid4] is a canonical UUID); [Witnesses] has
    instances of them all.  Reasoning about a handler goes by [wp] where any
    outcome matters, and by [runs] where the one outcome is to be followed
    exactly.

    ** What the theorems show

    - Trust ([Trust]): a session is established only by the consent of both users
      or by a signature under a known key, and a key becomes trusted only by the
      consent of both users; a handshake that goes on has authenticated the peer,
      any other ends its session and leaves the trusted devices alone; two strangers
      that hear each other do get that far ([FirstContact]), and once both users
      accept, in whatever order, they are connected ([Enrolment]).
    - Service to service ([Delivery]): over an established session, the task of
      [send_file] and the handlers of both services deliver exactly the file.
    - Files end to end ([Outgoing], [Incoming]): the sender's generator and the
      receiver's methods compose to the delivery of exactly the file, also across
      an interruption; what [finalise] reports as complete has the declared
      digest, as long as [resume] could read back what was there; no file of the
      user is lost, the one conflict name apart; destinations are the download
      directory or below it; and the three ways in which resuming fails.
    - The channel ([Session]): key agreement, ordered delivery, authenticity and
      replay protection, nonces that are distinct over failed calls too, the state
      machine.
    - Formats ([Protocol], [Payloads], [Transfer], [Identity]): round trips,
      incremental decoding, bounds, and exactly which errors.
    - The local interface ([Ipc], [UiClient], [App]): a connection does nothing
      before its subscription, its task always ends and touches only itself, a
      broadcast reaches exactly the subscribed clients, as often as they
      subscribed, an event arrives at the
      window as it was sent, a command of the window is one call of the service,
      and the two modes of the application agree.
    - The window ([Window]): it follows the sessions of the daemon, shows the
      established ones, accepts nothing but what the user accepts in a dialog that
      shows it, and keeps one row for each active transfer until that transfer, or
      some session, is over.
    - The daemon ([Daemon]): all it does (commands of clients, connections, timers,
      scheduled coroutines, cancelled tasks, start and stop) is a sequence of the
      events of [Handshake], and in this sequence sessions move and keys become
      trusted only as [Trust] allows, with the local client in the place of the
      user; the table of the sessions has exactly sessions whose task is in its
      loop ([Registry]); starting removes part files but none that can be resumed;
      stopping waits for the accepted connections, and when it is over every
      session was asked to end, which is all that is left to happen ([Stopping]).
    - Starting ([Launch]): one window and at most one backend, however often the
      application is activated, and none in process if the service cannot be made.
    - Stores and views ([Db], [Config], [Bridge], [Clipboard], [Discovery]):
      tables behave as maps, the lookup by key that decides trust included,
      migration, settings that are read back as saved, the bounded id map, the rate
      limit over every span of time, markup escaping, no clipboard echo, a sound
      registry of peers, and an announcement that other devices read as it was
      meant ([Advert]).  A notification of a transfer fits every accepted size
      ([Notifier]).

    ** Fuel

    [Json.scan_value] recurses with the length of its input, which
    [Json.scan_consumes] shows to be enough; [PyStr.dec_go] with the bits of the
    number; [Outgoing.drain] and [pieces] with a bound on the number of chunks
    that the theorems relate to the size of the file; [Bridge.unescape] with the
    length of the text; [Ipc.client_loop] with one turn per octet of the stream and
    one more,
    which [Ipc.handle_client_ends] shows to be enough.  No statement assumes that
    fuel was enough.

    ** Idealisations

    [float] values are exact where they are only added and compared (the token
    bucket counts nanoseconds); one writer is open per path; a source file that is
    replaced while it is open is not modelled; there are no symbolic links in
    [Fs], but [Path.resolve] is an arbitrary function in the safety theorems;
    SQLite's locking, its I/O errors and the order of rows with equal sort keys
    are left out, while its integer range is not; a handler runs to its end before the next (its
    only suspensions are drains of small frames), whereas the tasks that send
    files and batches are suspended at every wait and every drain of a chunk;
    [os.walk] lists the files of a directory in the order of the map of files; listeners that raise are logged
    by the code and do nothing in the model.  [task.cancel()] is a request: it is
    recorded, and the task ends when it runs next; a task that is waiting inside
    the handshake ends as if nothing had been exchanged, since the handshake is one
    event; a task that has not been started when [stop] returns never is, because
    the loop is closed then.  [Server.wait_closed] waits for every connection that
    the server accepted, as it does since Python 3.12.  In the local interface a broadcast is one
    step, the text of an exception depends on its class only, the name of a batch
    is a text, and a coroutine that the in-process mode submits runs to its first
    suspension at once.  The window runs its queued calls in order and one at a
    time; arguments that it declares [str] or [int] raise when they are not, which
    the messages of the daemon never are ([Window.notice_understood]).

    ** Not modelled

    The looks of widgets, the settings dialog and the drop target of
    [ui/window.py], which cannot be reached; signals, the creation and removal of
    the socket file; what a cancelled handshake had written before; the style
    sheet, the import of GTK and what the thread of the in-process loop in
    [ui/app.py] does beside running the service.  [argparse], [zeroconf], [ifaddr] and
    Gio are outside, and what they return is an argument.  Three functions that
    nothing calls ([_compute_prefix_sha256], [_record_outgoing_transfer],
    [run_app]) are left out.  The Android application is another program in
    another language. *)
From Stdlib Require Export ZArith Lia.
From Stdlib Require Strings.String Strings.Byte.
From stdpp Require Export base list strings gmap.

#[export] Set Default Goal Selector "!".
Open Scope Z_scope.

(** ** Python values shared by every component *)

(** A Python [str] is its list of code points, [bytes] a list of octets. *)
Abbreviation pystr := (list Z) (only parsing).
Abbreviation byte := Corelib.Init.Byte.byte.
Abbreviation bytes := (list Corelib.Init.Byte.byte) (only parsing).

(** A literal of the source as a Python string. *)
Definition u (s : string) : pystr :=
  map (fun c => Z.of_N (Ascii.N_of_ascii c)) (String.list_ascii_of_string s).

(** The exceptions the modelled code raises or catches. *)
Inductive exn :=
  | ValueError | UnicodeError | JSONDecodeError
  | KeyError | TypeError | AttributeError | OverflowError
  | RuntimeError | AssertionError
  | OSError | FileNotFoundError
  | StructError | EOFError
  | TransferError | SecurityError | SqliteError
  (** Not a Python exception: a fuelled scanner gave up (shown unreachable). *)
  | OutOfFuel.

#[export] Instance exn_eq_dec : EqDecision exn.
Proof. solve_decision. Defined.

(** [isinstance] for the classes that the code's [except] clauses name. *)
Definition is_ValueError (e : exn) : bool :=
  match e with ValueError | UnicodeError | JSONDecodeError => true | _ => false end.
Definition is_OSError (e : exn) : bool :=
  match e with OSError | FileNotFoundError => true | _ => false end.

(** ** Computations that may raise *)

Inductive res (A : Type) := Ok (a : A) | Err (e : exn).
Arguments Ok {A} a.
Arguments Err {A} e.

#[export] Instance res_ret : MRet res := fun A a => Ok a.
#[export] Instance res_bind : MBind res := fun A B f m =>
  match m with Ok a => f a | Err e => Err e end.

#[export] Instance res_eq_dec {A} `{EqDecision A} : EqDecision (res A).
Proof. solve_decision. Defined.

(** [if c: raise e] *)
Definition raise_if (c : bool) (e : exn) : res unit := if c then Err e else Ok tt.

Definition is_ok {A} (r : res A) : bool := match r with Ok _ => true | Err _ => false end.

Fixpoint mapM_res {A B} (f : A -> res B) (l : list A) : res (list B) :=
  match l with
  | [] => Ok []
  | x :: l' => y ← f x; ys ← mapM_res f l'; Ok (y :: ys)
  end.

(** ** Stateful computations that may raise: the state survives an exception *)

Definition M (S A : Type) : Type := S -> res A * S.

#[export] Instance M_ret {S} : MRet (M S) := fun A a s => (Ok a, s).
#[export] Instance M_bind {S} : MBind (M S) := fun A B f m s =>
  match m s with
  | (Ok a, s') => f a s'
  | (Err e, s') => (Err e, s')
  end.

Section state_ops.
Context {S : Type}.
Definition get : M S S := fun s => (Ok s, s).
Definition put (s : S) : M S unit := fun _ => (Ok tt, s).
Definition modify (f : S -> S) : M S unit := fun s => (Ok tt, f s).
Definition raise {A} (e : exn) : M S A := fun s => (Err e, s).
Definition lift {A} (r : res A) : M S A := fun s => (r, s).
(** [try: m  except <p>: h] *)
Definition try_except {A} (m : M S A) (p : exn -> bool) (h : exn -> M S A) : M S A :=
  fun s => match m s with
           | (Err e, s') => if p e then h e s' else (Err e, s')
           | r => r
           end.
(** [try: m  finally: f] *)
Definition finally {A} (m : M S A) (f : S -> S) : M S A :=
  fun s => match m s with (r, s') => (r, f s') end.
(** [try: m  except Exception: pass] around a statement. *)
Definition swallow (m : M S unit) : M S unit := try_except m (fun _ => true) (fun _ => mret tt).
End state_ops.

(** ** Inversion of the error monad *)

Lemma bind_Ok {A B} (m : res A) (f : A -> res B) b :
  (m ≫= f) = Ok b <-> exists a, m = Ok a /\ f a = Ok b.
Proof.
  destruct m as [a|e]; cbn.
  - split; [eauto | by intros (a' & [= ->] & ?)].
  - split; [done | by intros (a' & ? & ?)].
Qed.

Lemma bind_Err {A B} (m : res A) (f : A -> res B) e :
  (m ≫= f) = Err e <-> m = Err e \/ exists a, m = Ok a /\ f a = Err e.
Proof.
  destruct m as [a|e']; cbn.
  - split; [eauto | by intros [? | (a' & [= ->] & ?)]].
  - split; [intros [= ->]; eauto | by intros [[= ->] | (a' & ? & ?)]].
Qed.

Lemma raise_if_Ok c e x : raise_if c e = Ok x <-> c = false.
Proof. destruct c, x; cbn; naive_solver. Qed.

Lemma raise_if_Err c e e' : raise_if c e = Err e' <-> c = true /\ e' = e.
Proof. destruct c; cbn; naive_solver. Qed.

Lemma mret_Ok {A} (a b : A) : mret a = Ok b <-> a = b.
Proof. cbn; split; [by intros [=] | by intros ->]. Qed.

(** Break a successful chain of binds and guards into its steps. *)
Ltac res_inv1 :=
  match goal with
  | H : (_ ≫= _) = Ok _ |- _ => apply bind_Ok in H; destruct H as (? & ? & H)
  | H : raise_if _ _ = Ok _ |- _ => apply raise_if_Ok in H
  | H : mret _ = Ok _ |- _ => apply mret_Ok in H; subst
  | H : Ok _ = Ok _ |- _ => injection H as H; subst
  | H : Err _ = Ok _ |- _ => discriminate H
  | H : Ok _ = Err _ |- _ => discriminate H
  | x : unit |- _ => destruct x
  | H : context [match ?x with Ok _ => _ | Err _ => _ end] |- _ => destruct x eqn:?
  end.
Ltac res_inv := repeat res_inv1.

(** Boolean guards to propositions. *)
Ltac bool_prop :=
  repeat match goal with
  | H : andb _ _ = true |- _ => apply andb_true_iff in H; destruct H
  | H : andb _ _ = false |- _ => apply andb_false_iff in H
  | H : orb _ _ = false |- _ => apply orb_false_iff in H; destruct H
  | H : orb _ _ = true |- _ => apply orb_true_iff in H
  | H : negb _ = true |- _ => apply negb_true_iff in H
  | H : negb _ = false |- _ => apply negb_false_iff in H
  | H : Z.ltb _ _ = true |- _ => apply Z.ltb_lt in H
  | H : Z.ltb _ _ = false |- _ => apply Z.ltb_ge in H
  | H : Z.leb _ _ = true |- _ => apply Z.leb_le in H
  | H : Z.leb _ _ = false |- _ => apply Z.leb_gt in H
  | H : Z.eqb _ _ = true |- _ => apply Z.eqb_eq in H
  | H : Z.eqb _ _ = false |- _ => apply Z.eqb_neq in H
  | H : bool_decide _ = true |- _ => apply bool_decide_eq_true in H
  | H : bool_decide _ = false |- _ => apply bool_decide_eq_false in H
  end.

Lemma ltb_gtb_false a b : (a >? b) = false -> a <= b.
Proof. rewrite Z.gtb_ltb. intros ?%Z.ltb_ge. lia. Qed.

(** ** Weakest preconditions of the stateful monad *)

Definition wp {S A} (m : M S A) (Q : res A -> S -> Prop) (s : S) : Prop := Q (m s).1 (m s).2.
Arguments wp : simpl never.

Section wp.
Context {S : Type}.

Lemma wp_mono {A} (m : M S A) (P Q : res A -> S -> Prop) s :
  wp m P s -> (forall r s', P r s' -> Q r s') -> wp m Q s.
Proof. unfold wp. eauto. Qed.

Lemma wp_and {A} (m : M S A) (P Q : res A -> S -> Prop) s :
  wp m P s -> wp m Q s -> wp m (fun r s' => P r s' /\ Q r s') s.
Proof. done. Qed.

Lemma wp_ret {A} (a : A) (Q : res A -> S -> Prop) s : Q (Ok a) s -> wp (mret a) Q s.
Proof. done. Qed.

Lemma wp_raise {A} e (Q : res A -> S -> Prop) s : Q (Err e) s -> wp (raise e) Q s.
Proof. done. Qed.

Lemma wp_lift {A} (r : res A) (Q : res A -> S -> Prop) s : Q r s -> wp (lift r) Q s.
Proof. done. Qed.

Lemma wp_get (Q : res S -> S -> Prop) s : Q (Ok s) s -> wp get Q s.
Proof. done. Qed.

Lemma wp_put s' (Q : res unit -> S -> Prop) s : Q (Ok tt) s' -> wp (put s') Q s.
Proof. done. Qed.

Lemma wp_modify f (Q : res unit -> S -> Prop) s : Q (Ok tt) (f s) -> wp (modify f) Q s.
Proof. done. Qed.

Lemma wp_bind {A B} (m : M S A) (f : A -> M S B) (Q : res B -> S -> Prop) s :
  wp m (fun r s' => match r with Ok a => wp (f a) Q s' | Err e => Q (Err e) s' end) s ->
  wp (m ≫= f) Q s.
Proof. unfold wp, mbind, M_bind. by destruct (m s) as [[a|e] s']. Qed.

Lemma wp_bind_inv {A B} (m : M S A) (f : A -> M S B) (Q : res B -> S -> Prop) s :
  wp (m ≫= f) Q s ->
  wp m (fun r s' => match r with Ok a => wp (f a) Q s' | Err e => Q (Err e) s' end) s.
Proof. unfold wp, mbind, M_bind. by destruct (m s) as [[a|e] s']. Qed.

Lemma wp_run {A} (m : M S A) (Q : res A -> S -> Prop) s : wp m Q s -> exists r s', m s = (r, s') /\ Q r s'.
Proof. unfold wp. destruct (m s) as [r s']. eauto. Qed.

Lemma wp_intro {A} (m : M S A) (Q : res A -> S -> Prop) s r s' : m s = (r, s') -> Q r s' -> wp m Q s.
Proof. unfold wp. by intros ->. Qed.

Lemma wp_try {A} (m : M S A) (p : exn -> bool) (h : exn -> M S A) (Q : res A -> S -> Prop) s :
  wp m (fun r s' => match r with
                    | Ok a => Q (Ok a) s'
                    | Err e => if p e then wp (h e) Q s' else Q (Err e) s'
                    end) s ->
  wp (try_except m p h) Q s.
Proof. unfold wp, try_except. destruct (m s) as [[a|e] s']; cbn; [done|]. by destruct (p e). Qed.

Lemma wp_swallow (m : M S unit) (Q : res unit -> S -> Prop) s :
  wp m (fun _ s' => Q (Ok tt) s') s -> wp (swallow m) Q s.
Proof. intros H. apply wp_try. eapply wp_mono; [exact H|]. by intros [[]|e] s'. Qed.

Lemma wp_finally {A} (m : M S A) f (Q : res A -> S -> Prop) s :
  wp m (fun r s' => Q r (f s')) s -> wp (finally m f) Q s.
Proof. unfold wp, finally. by destruct (m s). Qed.

Lemma wp_elim {A} (m : M S A) Q s r s' : wp m Q s -> m s = (r, s') -> Q r s'.
Proof. unfold wp. intros H E. by rewrite E in H. Qed.

Lemma mbind_inv {A B} (m : M S A) (f : A -> M S B) b s s'' :
  (m ≫= f) s = (Ok b, s'') -> exists a s', m s = (Ok a, s') /\ f a s' = (Ok b, s'').
Proof. unfold mbind, M_bind. destruct (m s) as [[a|e] s']; [eauto|done]. Qed.
End wp.

(** [m] keeps the invariant [I], whether it returns or raises. *)
Definition stable {S} (I : S -> Prop) {A} (m : M S A) : Prop := forall s, I s -> wp m (fun _ s' => I s') s.

Section stable.
Context {S : Type} (I : S -> Prop).

Lemma stable_bind {A B} (m : M S A) (f : A -> M S B) :
  stable I m -> (forall a, stable I (f a)) -> stable I (m ≫= f).
Proof.
  intros Hm Hf s Hs. apply wp_bind. eapply wp_mono; [by apply Hm|].
  intros [a|e] s' Hs'; [by apply Hf|done].
Qed.

Lemma stable_ret {A} (a : A) : stable I (mret a).
Proof. by intros s Hs. Qed.

Lemma stable_raise {A} e : stable I (raise (A := A) e).
Proof. by intros s Hs. Qed.

Lemma stable_lift {A} (r : res A) : stable I (lift r).
Proof. by intros s Hs. Qed.

Lemma stable_try {A} (m : M S A) (p : exn -> bool) (h : exn -> M S A) :
  stable I m -> (forall e, stable I (h e)) -> stable I (try_except m p h).
Proof.
  intros Hm Hh s Hs. apply wp_try. eapply wp_mono; [by apply Hm|]. intros [a|e] s' Hs'; [done|].
  destruct (p e); [by apply Hh|done].
Qed.

Lemma stable_swallow (m : M S unit) : stable I m -> stable I (swallow m).
Proof. intros Hm. apply stable_try; [done|]. intros e. apply stable_ret. Qed.

Lemma stable_bind_lift {A B} (r : res A) (f : A -> M S B) :
  (forall a, r = Ok a -> stable I (f a)) -> stable I (lift r ≫= f).
Proof. intros Hf s Hs. apply wp_bind, wp_lift. destruct r; [by apply Hf|done]. Qed.

(** What is known of the value a first computation returns. *)
Lemma stable_bind_val {A B} (P : A -> Prop) (m : M S A) (f : A -> M S B) :
  stable I m -> (forall s, wp m (fun r _ => forall a, r = Ok a -> P a) s) ->
  (forall a, P a -> stable I (f a)) -> stable I (m ≫= f).
Proof.
  intros Hm HP Hf s Hs. apply wp_bind. specialize (Hm s Hs). specialize (HP s). unfold wp in *.
  destruct (m s) as [[a|e] s']; cbn in *; [|done]. by apply (Hf a); [apply HP|].
Qed.
End stable.

(** One step through a computation: a bind, a handler or a leaf. *)
Ltac wp_step :=
  match goal with
  | |- wp (_ ≫= _) _ _ => apply wp_bind
  | |- wp (mret _) _ _ => apply wp_ret
  | |- wp (raise _) _ _ => apply wp_raise
  | |- wp (lift _) _ _ => apply wp_lift
  | |- wp get _ _ => apply wp_get
  | |- wp (put _) _ _ => apply wp_put
  | |- wp (modify _) _ _ => apply wp_modify
  | |- wp (swallow _) _ _ => apply wp_swallow
  | |- wp (try_except _ _ _) _ _ => apply wp_try
  | |- wp (finally _ _) _ _ => apply wp_finally
  end.

(** ** Exact runs

    [holds x s]: the part of the state [s] that a computation reads and writes is
    [x].  [runs m x r y]: from such a state [m] ends with the outcome [r] and the
    part [y]. *)
(** [leads]: the same, to a state seen differently. *)
Definition leads {S V W A} (holds : V -> S -> Prop) (holds' : W -> S -> Prop) (m : M S A) (x : V) (r : res A) (y : W) : Prop :=
  forall s, holds x s -> wp m (fun r' s' => r' = r /\ holds' y s') s.

Section runs.
Context {S V : Type} (holds : V -> S -> Prop).

Lemma leads_seq {W W' A B} (holds' : W -> S -> Prop) (holds'' : W' -> S -> Prop) (m : M S A) (f : A -> M S B) x a y r z :
  leads holds holds' m x (Ok a) y -> leads holds' holds'' (f a) y r z -> leads holds holds'' (m ≫= f) x r z.
Proof. intros Hm Hf s Hs. apply wp_bind. eapply wp_mono; [by apply Hm|]. intros r' s' [-> H]. by apply Hf. Qed.
Lemma leads_elim {W A} (holds' : W -> S -> Prop) (m : M S A) x r y s :
  leads holds holds' m x r y -> holds x s -> exists s', m s = (r, s') /\ holds' y s'.
Proof. intros H Hs. destruct (wp_run _ _ _ (H s Hs)) as (r' & s' & E & -> & Hy). eauto. Qed.
Lemma leads_get {W A} (holds' : W -> S -> Prop) (f : S -> M S A) x r z :
  (forall s, holds x s -> leads holds holds' (f s) x r z) -> leads holds holds' (get ≫= f) x r z.
Proof. intros H s Hs. by apply wp_bind, wp_get, H. Qed.
Lemma leads_modify {W} (holds' : W -> S -> Prop) {B} f (k : unit -> M S B) x y r z :
  (forall s, holds x s -> holds' y (f s)) -> leads holds' holds' (k tt) y r z -> leads holds holds' (modify f ≫= k) x r z.
Proof. intros H Hk s Hs. apply wp_bind, wp_modify. by apply Hk, H. Qed.

Definition runs {A} (m : M S A) (x : V) (r : res A) (y : V) : Prop := leads holds holds m x r y.

Lemma runs_bind {A B} (m : M S A) (f : A -> M S B) x a y r z :
  runs m x (Ok a) y -> runs (f a) y r z -> runs (m ≫= f) x r z.
Proof. apply leads_seq. Qed.
Lemma runs_get {A} (f : S -> M S A) x r y : (forall s, holds x s -> runs (f s) x r y) -> runs (get ≫= f) x r y.
Proof. apply leads_get. Qed.
Lemma runs_elim {A} (m : M S A) x r y s : runs m x r y -> holds x s -> exists s', m s = (r, s') /\ holds y s'.
Proof. apply leads_elim. Qed.
Lemma runs_bind_err {A B} (m : M S A) (f : A -> M S B) x e y :
  runs m x (Err e) y -> runs (m ≫= f) x (Err e) y.
Proof. intros Hm s Hs. apply wp_bind. eapply wp_mono; [by apply Hm|]. by intros r' s' [-> H]. Qed.
Lemma runs_ret {A} (a : A) x : runs (mret a) x (Ok a) x.
Proof. by intros s Hs. Qed.
Lemma runs_lift {A} (r : res A) x : runs (lift r) x r x.
Proof. by intros s Hs. Qed.
Lemma runs_lift_bind {A B} (a : A) (f : A -> M S B) x r y : runs (f a) x r y -> runs (lift (Ok a) ≫= f) x r y.
Proof. intros H. eapply runs_bind; [apply runs_lift|exact H]. Qed.
Lemma runs_modify f x y : (forall s, holds x s -> holds y (f s)) -> runs (modify f) x (Ok tt) y.
Proof. intros H s Hs. apply wp_modify. auto. Qed.
Lemma runs_swallow m x r y : runs m x r y -> runs (swallow m) x (Ok tt) y.
Proof. intros H s Hs. apply wp_swallow. eapply wp_mono; [by apply H|]. by intros r' s' [_ ?]. Qed.
Lemma runs_try {A} (m : M S A) p h x a y : runs m x (Ok a) y -> runs (try_except m p h) x (Ok a) y.
Proof. intros H s Hs. apply wp_try. eapply wp_mono; [by apply H|]. by intros r' s' [-> ?]. Qed.
Lemma runs_eq {A} (m : M S A) x r y y' : runs m x r y -> y = y' -> runs m x r y'.
Proof. by intros ? <-. Qed.
Lemma leads_bind {W A B} (holds' : W -> S -> Prop) (m : M S A) (f : A -> M S B) x a y r z :
  runs m x (Ok a) y -> leads holds holds' (f a) y r z -> leads holds holds' (m ≫= f) x r z.
Proof. apply leads_seq. Qed.
End runs.

(** ** Octets *)

Definition b2z (b : byte) : Z := Z.of_N (Byte.to_N b).
Definition z2b (z : Z) : byte :=
  match Byte.of_N (Z.to_N (z mod 256)) with Some b => b | None => Byte.x00 end.

#[export] Instance byte_eq_dec : EqDecision byte := Byte.byte_eq_dec.

Lemma b2z_range b : 0 <= b2z b < 256.
Proof. unfold b2z. pose proof (Byte.to_N_bounded b). lia. Qed.

Lemma z2b_b2z b : z2b (b2z b) = b.
Proof.
  unfold z2b. rewrite Z.mod_small by apply b2z_range.
  unfold b2z. by rewrite N2Z.id, Byte.of_to_N.
Qed.

Lemma b2z_inj b c : b2z b = b2z c -> b = c.
Proof. intros H. by rewrite <-(z2b_b2z b), <-(z2b_b2z c), H. Qed.

Lemma b2z_z2b z : b2z (z2b z) = z mod 256.
Proof.
  unfold z2b. pose proof (Z.mod_pos_bound z 256 ltac:(lia)) as ?.
  destruct (Byte.of_N _) as [b|] eqn:E.
  - unfold b2z. apply Byte.to_of_N in E. lia.
  - apply Byte.of_N_None_iff in E. lia.
Qed.

Lemma b2z_z2b_small z : 0 <= z < 256 -> b2z (z2b z) = z.
Proof. intros. rewrite b2z_z2b. by apply Z.mod_small. Qed.

Lemma z2b_eq z b : 0 <= z < 256 -> z2b z = b <-> z = b2z b.
Proof.
  intros Hz. split; [intros <-; by rewrite b2z_z2b_small | intros ->; apply z2b_b2z].
Qed.

(** ** Big-endian integers: [struct.pack] / [struct.unpack] of [!I] and [!Q] *)

Fixpoint be_bytes (n : nat) (z : Z) : bytes :=
  match n with
  | O => []
  | S m => be_bytes m (z / 256) ++ [z2b z]
  end.

Definition be_val (l : bytes) : Z := fold_left (fun a b => a * 256 + b2z b) l 0.

Definition pack_I (z : Z) : res bytes :=
  if (0 <=? z) && (z <? 2 ^ 32) then Ok (be_bytes 4 z) else Err StructError.
Definition pack_Q (z : Z) : res bytes :=
  if (0 <=? z) && (z <? 2 ^ 64) then Ok (be_bytes 8 z) else Err StructError.

Lemma length_be_bytes n z : length (be_bytes n z) = n.
Proof.
  revert z; induction n as [|n IH]; intros z; cbn; [done|].
  rewrite length_app, IH; cbn; lia.
Qed.

Lemma be_val_snoc l b : be_val (l ++ [b]) = be_val l * 256 + b2z b.
Proof. unfold be_val. by rewrite fold_left_app. Qed.

Lemma be_val_bytes n z : 0 <= z < 256 ^ Z.of_nat n -> be_val (be_bytes n z) = z.
Proof.
  revert z; induction n as [|n IH]; intros z Hz.
  { cbn in Hz |- *. lia. }
  cbn [be_bytes]. rewrite be_val_snoc, IH, b2z_z2b.
  - pose proof (Z.div_mod z 256). lia.
  - rewrite Nat2Z.inj_succ, Z.pow_succ_r in Hz by lia.
    split; [apply Z.div_pos; lia | apply Z.div_lt_upper_bound; lia].
Qed.

Lemma be_val_range l : 0 <= be_val l < 256 ^ Z.of_nat (length l).
Proof.
  induction l as [|b l IH] using rev_ind; [cbn; lia|].
  rewrite be_val_snoc, length_app; cbn [length].
  rewrite Nat.add_1_r, Nat2Z.inj_succ, Z.pow_succ_r by lia.
  pose proof (b2z_range b). nia.
Qed.

Lemma be_bytes_val l : be_bytes (length l) (be_val l) = l.
Proof.
  induction l as [|b l IH] using rev_ind; [done|].
  rewrite length_app; cbn [length]. rewrite Nat.add_1_r; cbn [be_bytes].
  rewrite be_val_snoc. pose proof (b2z_range b).
  rewrite Z.div_add_l, (Z.div_small (b2z b)), Z.add_0_r, IH by lia.
  do 2 f_equal. apply b2z_inj. rewrite b2z_z2b.
  rewrite Z.add_comm, Z.mod_add, Z.mod_small by lia. done.
Qed.

Lemma be_val_inj l k : length l = length k -> be_val l = be_val k -> l = k.
Proof. intros Hl Hv. by rewrite <-(be_bytes_val l), Hl, Hv, be_bytes_val. Qed.

Lemma pack_I_Ok z l : pack_I z = Ok l <-> 0 <= z < 2 ^ 32 /\ l = be_bytes 4 z.
Proof.
  unfold pack_I. destruct ((0 <=? z) && (z <? 2 ^ 32)) eqn:E; bool_prop.
  - naive_solver.
  - split; [done|]. intros ((?&?)&_). destruct E; bool_prop; lia.
Qed.

Lemma pack_Q_Ok z l : pack_Q z = Ok l <-> 0 <= z < 2 ^ 64 /\ l = be_bytes 8 z.
Proof.
  unfold pack_Q. destruct ((0 <=? z) && (z <? 2 ^ 64)) eqn:E; bool_prop.
  - naive_solver.
  - split; [done|]. intros ((?&?)&_). destruct E; bool_prop; lia.
Qed.

Lemma unpack_pack_I z l : pack_I z = Ok l -> be_val l = z.
Proof. intros [? ->]%pack_I_Ok. apply be_val_bytes. done. Qed.

Lemma length_pack_I z l : pack_I z = Ok l -> length l = 4%nat.
Proof. by intros [? ->]%pack_I_Ok. Qed.

(** ** Slices *)

(** [Z]-valued length, as [len(...)]. *)
Definition zlen {A} (l : list A) : Z := Z.of_nat (length l).

(** [l[a:b]] for [0 <= a <= b]. *)
Definition slice {A} (a b : Z) (l : list A) : list A :=
  take (Z.to_nat (b - a)) (drop (Z.to_nat a) l).

Lemma zlen_nonneg {A} (l : list A) : 0 <= zlen l.
Proof. unfold zlen. lia. Qed.

Lemma zlen_app {A} (l k : list A) : zlen (l ++ k) = zlen l + zlen k.
Proof. unfold zlen. rewrite length_app. lia. Qed.

Lemma zlen_pos {A} (l : list A) : l <> [] -> 0 < zlen l.
Proof. unfold zlen. destruct l; cbn; [done|lia]. Qed.
Lemma zlen_nil {A} (l : list A) : zlen l = 0 <-> l = [].
Proof. unfold zlen. destruct l; cbn; split; try done; lia. Qed.

Lemma zlen_slice {A} a b (l : list A) :
  0 <= a -> a <= b -> b <= zlen l -> zlen (slice a b l) = b - a.
Proof. unfold slice, zlen. intros. rewrite length_take, length_drop. lia. Qed.

(** The slice of a concatenation that starts after its first part. *)
Lemma slice_app_r {A} a b (l k : list A) :
  0 <= a -> a = zlen l -> slice a b (l ++ k) = take (Z.to_nat (b - a)) k.
Proof.
  unfold slice, zlen. intros Ha ->. by rewrite Nat2Z.id, drop_app_length.
Qed.

Lemma take_all_app {A} n (l k : list A) : n = length l -> take n (l ++ k) = l.
Proof. intros ->. apply take_app_length. Qed.

(** ** Prefixes as a boolean test, [str.startswith] *)

Definition starts_with {A} `{EqDecision A} (p l : list A) : bool :=
  bool_decide (take (length p) l = p).

Lemma starts_with_spec {A} `{EqDecision A} (p l : list A) :
  starts_with p l = true <-> exists k, l = p ++ k.
Proof.
  unfold starts_with. rewrite bool_decide_eq_true. split.
  - intros H. exists (drop (length p) l). by rewrite <-H at 1; rewrite take_drop.
  - intros (k & ->). apply take_app_length.
Qed.

(** Lists of association pairs with Python [dict] behaviour: the first
    insertion fixes a key's position, later ones overwrite in place. *)
Section assoc.
Context {K V : Type} `{EqDecision K}.
Fixpoint aget (k : K) (d : list (K * V)) : option V :=
  match d with
  | [] => None
  | (k', v) :: d' => if decide (k = k') then Some v else aget k d'
  end.
Fixpoint aset (k : K) (v : V) (d : list (K * V)) : list (K * V) :=
  match d with
  | [] => [(k, v)]
  | (k', v') :: d' => if decide (k = k') then (k', v) :: d' else (k', v') :: aset k v d'
  end.
Fixpoint adel (k : K) (d : list (K * V)) : list (K * V) :=
  match d with
  | [] => []
  | (k', v') :: d' => if decide (k = k') then d' else (k', v') :: adel k d'
  end.

Lemma aget_aset_eq k v d : aget k (aset k v d) = Some v.
Proof.
  induction d as [|[k' v'] d IH]; cbn; [by rewrite decide_True|].
  destruct (decide (k = k')); cbn; [by rewrite decide_True | by rewrite decide_False].
Qed.

Lemma aget_aset_ne k k' v d : k <> k' -> aget k (aset k' v d) = aget k d.
Proof.
  intros Hne. induction d as [|[k1 v1] d IH]; cbn; [by rewrite decide_False|].
  destruct (decide (k' = k1)) as [->|]; cbn.
  - by rewrite !decide_False.
  - by rewrite IH.
Qed.

Lemma aget_None k d : aget k d = None <-> k ∉ d.*1.
Proof.
  induction d as [|[k' v'] d IH]; cbn; [set_solver|].
  rewrite not_elem_of_cons. destruct (decide (k = k')); naive_solver.
Qed.

Lemma aset_fresh k v d : k ∉ d.*1 -> aset k v d = d ++ [(k, v)].
Proof.
  induction d as [|[k' v'] d IH]; cbn; [done|].
  rewrite not_elem_of_cons. intros [??]. rewrite decide_False by done. by rewrite IH.
Qed.

Lemma adel_notin k d : k ∉ d.*1 -> adel k d = d.
Proof.
  induction d as [|[k' v'] d IH]; cbn; [done|].
  rewrite not_elem_of_cons. intros [??]. rewrite decide_False by done. by rewrite IH.
Qed.

Lemma adel_aset_fresh k v d : k ∉ d.*1 -> adel k (aset k v d) = d.
Proof.
  induction d as [|[k' v'] d IH]; cbn; [by rewrite decide_True|].
  rewrite not_elem_of_cons. intros [??]. rewrite !decide_False by done. cbn. rewrite decide_False by done. by rewrite IH.
Qed.

Lemma keys_adel k d : NoDup d.*1 -> forall x, x ∈ (adel k d).*1 <-> x <> k /\ x ∈ d.*1.
Proof.
  intros Hnd x. induction d as [|[k' v'] d IH]; cbn; [set_solver|].
  cbn in Hnd. apply NoDup_cons in Hnd as [Hk Hnd].
  destruct (decide (k = k')) as [->|]; cbn; [set_solver|].
  rewrite !elem_of_cons, IH by done. naive_solver.
Qed.

Lemma NoDup_adel k d : NoDup d.*1 -> NoDup (adel k d).*1.
Proof.
  induction d as [|[k' v'] d IH]; cbn; [done|].
  intros [Hk Hnd]%NoDup_cons.
  destruct (decide (k = k')); cbn; [done|].
  constructor; [|by apply IH]. rewrite keys_adel by done. naive_solver.
Qed.

Lemma aget_adel_eq k d : NoDup d.*1 -> aget k (adel k d) = None.
Proof. intros. apply aget_None. rewrite keys_adel by done. naive_solver. Qed.

Lemma aget_adel_ne k k' d : k <> k' -> aget k (adel k' d) = aget k d.
Proof.
  intros Hne. induction d as [|[k1 v1] d IH]; cbn; [done|].
  destruct (decide (k' = k1)) as [->|]; cbn; [by rewrite decide_False | by rewrite IH].
Qed.

Lemma keys_aset k v d x : x ∈ (aset k v d).*1 <-> x = k \/ x ∈ d.*1.
Proof.
  induction d as [|[k' v'] d IH]; cbn; [set_solver|].
  destruct (decide (k = k')) as [->|]; cbn; rewrite !elem_of_cons; [naive_solver|].
  rewrite IH. naive_solver.
Qed.

Lemma NoDup_aset k v d : NoDup d.*1 -> NoDup (aset k v d).*1.
Proof.
  induction d as [|[k' v'] d IH]; cbn; [intros; apply NoDup_singleton|].
  intros [Hk Hnd]%NoDup_cons.
  destruct (decide (k = k')); cbn; constructor; try done; [|by apply IH].
  rewrite keys_aset. naive_solver.
Qed.

Lemma aget_elem_of k v d : aget k d = Some v -> (k, v) ∈ d.
Proof.
  induction d as [|[k1 v1] d IH]; cbn; [done|]. rewrite elem_of_cons.
  destruct (decide (k = k1)) as [->|]; [intros [= ->]; auto|auto].
Qed.

Lemma aget_In k v d : NoDup d.*1 -> (k, v) ∈ d -> aget k d = Some v.
Proof.
  induction d as [|[k' v'] d IH]; cbn; intros Hn Hin; [by apply elem_of_nil in Hin|].
  apply NoDup_cons in Hn as [Hk Hn]. apply elem_of_cons in Hin as [[= -> ->]|Hin]; [by rewrite decide_True|].
  rewrite decide_False; [by apply IH|]. intros ->. apply Hk. apply list_elem_of_fmap. by exists (k', v).
Qed.

Lemma elem_of_aset k k' v v' d : (k', v') ∈ aset k v d -> (k' = k /\ v' = v) \/ (k', v') ∈ d.
Proof.
  induction d as [|[k1 v1] d IH]; cbn.
  - intros [= -> ->]%list_elem_of_singleton. auto.
  - destruct (decide (k = k1)) as [->|]; rewrite !elem_of_cons; [naive_solver|].
    intros [?|?%IH]; naive_solver.
Qed.
End assoc.

Create HintDb ferry.
#[export] Hint Resolve b2z_range zlen_nonneg NoDup_aset NoDup_adel : ferry.
#[export] Hint Rewrite @zlen_app @length_app @length_take @length_drop length_be_bytes : ferry.
