(* ===== verification/PyStr.v ===== *)
(** * The parts of Python's [str], [int], [uuid] and [posixpath] that Ferry uses

    Strings are lists of code points.  This file holds the UTF-8 codec with its
    strict and "ignore" error handlers, [int(...)] and [str(...)] on integers,
    [uuid.UUID], [os.path.basename] and [os.path.normpath], with the lemmas the
    components share. *)
From S2P Require Import Prelude.

(** ** UTF-8 *)

Definition is_surrogate (c : Z) : bool := (0xD800 <=? c) && (c <=? 0xDFFF).

(** A Unicode scalar value: what [str.encode("utf-8")] accepts. *)
Definition is_scalar (c : Z) : bool := (0 <=? c) && (c <=? 0x10FFFF) && negb (is_surrogate c).

Definition utf8_char (c : Z) : bytes :=
  if c <? 0x80 then [z2b c]
  else if c <? 0x800 then [z2b (0xC0 + c / 64); z2b (0x80 + c mod 64)]
  else if c <? 0x10000 then
    [z2b (0xE0 + c / 4096); z2b (0x80 + c / 64 mod 64); z2b (0x80 + c mod 64)]
  else [z2b (0xF0 + c / 262144); z2b (0x80 + c / 4096 mod 64);
        z2b (0x80 + c / 64 mod 64); z2b (0x80 + c mod 64)].

Definition utf8_encode (s : pystr) : res bytes :=
  if forallb is_scalar s then Ok (concat (map utf8_char s)) else Err UnicodeError.

Definition between (lo hi x : Z) : bool := (lo <=? x) && (x <=? hi).
Definition is_cont (x : Z) : bool := between 0x80 0xBF x.

(** The range CPython allows for the second byte after a lead byte. *)
Definition second_lo (b0 : Z) : Z :=
  if b0 =? 0xE0 then 0xA0 else if b0 =? 0xF0 then 0x90 else 0x80.
Definition second_hi (b0 : Z) : Z :=
  if b0 =? 0xED then 0x9F else if b0 =? 0xF4 then 0x8F else 0xBF.
Definition second_ok (b0 b1 : Z) : bool := between (second_lo b0) (second_hi b0) b1.

(** [bytes.decode("utf-8", errors)]: [ignore] skips each maximal ill-formed
    part, [replace] puts U+FFFD for it, [strict] raises. *)
Inductive errors := Strict | Ignore | Replace.

Section utf8_decode.
Variable mode : errors.
Definition emit (c : Z) (r : res pystr) : res pystr := s ← r; Ok (c :: s).
Definition on_bad (r : res pystr) : res pystr :=
  match mode with Strict => Err UnicodeError | Ignore => r | Replace => emit 0xFFFD r end.

Fixpoint utf8_dec (l : bytes) : res pystr :=
  match l with
  | [] => Ok []
  | b0 :: t0 =>
    let x0 := b2z b0 in
    if x0 <? 0x80 then emit x0 (utf8_dec t0)
    else if between 0xC2 0xDF x0 then
      match t0 with
      | b1 :: t1 =>
        if is_cont (b2z b1) then emit ((x0 - 0xC0) * 64 + (b2z b1 - 0x80)) (utf8_dec t1)
        else on_bad (utf8_dec t0)
      | [] => on_bad (Ok [])
      end
    else if between 0xE0 0xEF x0 then
      match t0 with
      | b1 :: t1 =>
        if second_ok x0 (b2z b1) then
          match t1 with
          | b2 :: t2 =>
            if is_cont (b2z b2) then
              emit ((x0 - 0xE0) * 4096 + (b2z b1 - 0x80) * 64 + (b2z b2 - 0x80)) (utf8_dec t2)
            else on_bad (utf8_dec t1)
          | [] => on_bad (Ok [])
          end
        else on_bad (utf8_dec t0)
      | [] => on_bad (Ok [])
      end
    else if between 0xF0 0xF4 x0 then
      match t0 with
      | b1 :: t1 =>
        if second_ok x0 (b2z b1) then
          match t1 with
          | b2 :: t2 =>
            if is_cont (b2z b2) then
              match t2 with
              | b3 :: t3 =>
                if is_cont (b2z b3) then
                  emit ((x0 - 0xF0) * 262144 + (b2z b1 - 0x80) * 4096
                        + (b2z b2 - 0x80) * 64 + (b2z b3 - 0x80)) (utf8_dec t3)
                else on_bad (utf8_dec t2)
              | [] => on_bad (Ok [])
              end
            else on_bad (utf8_dec t1)
          | [] => on_bad (Ok [])
          end
        else on_bad (utf8_dec t0)
      | [] => on_bad (Ok [])
      end
    else on_bad (utf8_dec t0)
  end.
End utf8_decode.

Definition utf8_decode : bytes -> res pystr := utf8_dec Strict.
(** [errors="ignore"] never raises. *)
Definition utf8_decode_ignore (l : bytes) : pystr :=
  match utf8_dec Ignore l with Ok s => s | Err _ => [] end.
(** [errors="replace"] does not either. *)
Definition utf8_decode_replace (l : bytes) : pystr :=
  match utf8_dec Replace l with Ok s => s | Err _ => [] end.

(** ** Integers as text *)

Fixpoint dec_go (fuel : nat) (z : Z) (acc : pystr) : pystr :=
  match fuel with
  | O => acc
  | S f => let acc' := (48 + z mod 10) :: acc in
           if z <? 10 then acc' else dec_go f (z / 10) acc'
  end.
Definition dec_pos (z : Z) : pystr := dec_go (S (Z.to_nat (Z.log2 z))) z [].

(** CPython refuses decimal conversions of more than 4300 digits. *)
Definition INT_MAX_STR_DIGITS : Z := 4300.

(** [str(i)] *)
Definition str_of_int (z : Z) : res pystr :=
  let ds := dec_pos (Z.abs z) in
  if zlen ds >? INT_MAX_STR_DIGITS then Err ValueError
  else Ok (if z <? 0 then 45 :: ds else ds).

Definition digit_of (base c : Z) : option Z :=
  let d := if between 48 57 c then c - 48
           else if between 97 122 c then c - 87
           else if between 65 90 c then c - 55 else 99 in
  if d <? base then Some d else None.

(** The zero of each run of Unicode decimal digits, and [str.isspace]
    (Unicode 14). *)
Definition unicode_zeros : list Z :=
  [1632; 1776; 1984; 2406; 2534; 2662; 2790; 2918; 3046; 3174; 3302; 3430; 3558; 3664;
   3792; 3872; 4160; 4240; 6112; 6160; 6470; 6608; 6784; 6800; 6992; 7088; 7232; 7248;
   42528; 43216; 43264; 43472; 43504; 43600; 44016; 65296; 66720; 68912; 69734; 69872;
   69942; 70096; 70384; 70736; 70864; 71248; 71360; 71472; 71904; 72016; 72784; 73040;
   73120; 92768; 92864; 93008; 120782; 120792; 120802; 120812; 120822; 123200; 123632;
   125264; 130032].
Definition unicode_spaces : list Z :=
  [133; 160; 5760; 8192; 8193; 8194; 8195; 8196; 8197; 8198; 8199; 8200; 8201; 8202;
   8232; 8233; 8239; 8287; 12288].

(** [int(s)] first maps other scripts' digits and spaces to ASCII. *)
Definition to_ascii1 (c : Z) : Z :=
  if c <? 127 then c
  else if existsb (Z.eqb c) unicode_spaces then 32
  else match find (fun z => between z (z + 9) c) unicode_zeros with
       | Some z => 48 + (c - z)
       | None => 63
       end.
Definition to_ascii (s : pystr) : pystr :=
  if forallb (fun c => c <? 128) s then s else map to_ascii1 s.

Definition is_ws (c : Z) : bool := (c =? 32) || between 9 13 c.

Fixpoint lstrip (p : Z -> bool) (s : pystr) : pystr :=
  match s with
  | c :: t => if p c then lstrip p t else s
  | [] => []
  end.
Definition rstrip (p : Z -> bool) (s : pystr) : pystr := rev (lstrip p (rev s)).
Definition strip (p : Z -> bool) (s : pystr) : pystr := rstrip p (lstrip p s).

(** Digits with single underscores between them; [n] counts the digits. *)
Fixpoint scan_go (base acc n : Z) (s : pystr) : option (Z * Z * pystr) :=
  match s with
  | [] => Some (acc, n, [])
  | c :: t =>
    if c =? 95 then
      match t with
      | c' :: t' => match digit_of base c' with
                    | Some d => scan_go base (acc * base + d) (n + 1) t'
                    | None => None
                    end
      | [] => None
      end
    else match digit_of base c with
         | Some d => scan_go base (acc * base + d) (n + 1) t
         | None => Some (acc, n, s)
         end
  end.
Definition scan_digits (base : Z) (s : pystr) : option (Z * Z * pystr) :=
  match s with
  | c :: t => match digit_of base c with
              | Some d => scan_go base d 1 t
              | None => None
              end
  | [] => None
  end.

Definition int_sign (s : pystr) : bool * pystr :=
  match s with
  | c :: t => if c =? 43 then (false, t) else if c =? 45 then (true, t) else (false, s)
  | [] => (false, s)
  end.

(** The optional [0x] of base 16, which one underscore may follow. *)
Definition skip_0x (base : Z) (s : pystr) : pystr :=
  match s with
  | z :: x :: t =>
    if (base =? 16) && (z =? 48) && ((x =? 120) || (x =? 88))
    then match t with c :: t' => if c =? 95 then t' else t | [] => t end
    else s
  | _ => s
  end.

(** [int(s, base)] for bases 10 and 16 *)
Definition int_of_str (base : Z) (s : pystr) : res Z :=
  let '(neg, t) := int_sign (lstrip is_ws (to_ascii s)) in
  match scan_digits base (skip_0x base t) with
  | Some (v, n, rest) =>
    if negb (forallb is_ws rest) then Err ValueError
    else if (base =? 10) && (n >? INT_MAX_STR_DIGITS) then Err ValueError
    else Ok (if neg then - v else v)
  | None => Err ValueError
  end.

(** ** Substrings *)

(** [s.replace(pat, "")] *)
Fixpoint remove_go (pat : pystr) (skip : nat) (s : pystr) : pystr :=
  match s with
  | [] => []
  | c :: t =>
    match skip with
    | S k => remove_go pat k t
    | O => if starts_with pat s then remove_go pat (pred (length pat)) t
           else c :: remove_go pat 0 t
    end
  end.
Definition remove_sub (pat s : pystr) : pystr := remove_go pat 0 s.

(** [s.replace(a, b)] for single characters *)
Definition replace_char (a b : Z) (s : pystr) : pystr :=
  map (fun c => if c =? a then b else c) s.

(** [pat in s] *)
Fixpoint contains (pat s : pystr) : bool :=
  starts_with pat s || match s with [] => false | _ :: t => contains pat t end.

(** [s.split(sep)] for a one-character separator *)
Fixpoint split (sep : Z) (s : pystr) : list pystr :=
  match s with
  | [] => [[]]
  | c :: t =>
    if c =? sep then [] :: split sep t
    else match split sep t with
         | w :: ws => (c :: w) :: ws
         | [] => [[c]]
         end
  end.

(** [sep.join(l)] *)
Fixpoint join (sep : pystr) (l : list pystr) : pystr :=
  match l with
  | [] => []
  | [x] => x
  | x :: l' => x ++ sep ++ join sep l'
  end.

(** ** [uuid.UUID] *)

Definition is_brace (c : Z) : bool := (c =? 123) || (c =? 125).

(** [uuid.UUID(s).int] *)
Definition uuid_int (s : pystr) : res Z :=
  let hex := remove_sub (u "uuid:") (remove_sub (u "urn:") s) in
  let hex := remove_sub (u "-") (strip is_brace hex) in
  if negb (zlen hex =? 32) then Err ValueError
  else n ← int_of_str 16 hex;
       if (0 <=? n) && (n <? 2 ^ 128) then Ok n else Err ValueError.

Definition hex_digit (d : Z) : Z := if d <? 10 then 48 + d else 87 + d.

(** [n] lowercase hexadecimal digits of [z] *)
Fixpoint hex_digits (n : nat) (z : Z) : pystr :=
  match n with
  | O => []
  | S m => hex_digits m (z / 16) ++ [hex_digit (z mod 16)]
  end.

(** [str(uuid.UUID(int=n))] *)
Definition uuid_str (n : Z) : pystr :=
  let h := hex_digits 32 n in
  take 8 h ++ [45] ++ take 4 (drop 8 h) ++ [45] ++ take 4 (drop 12 h) ++ [45]
  ++ take 4 (drop 16 h) ++ [45] ++ drop 20 h.

(** [bytes.hex()] / [hexdigest()] *)
Definition hex_of_bytes (l : bytes) : pystr :=
  concat (map (fun b => [hex_digit (b2z b / 16); hex_digit (b2z b mod 16)]) l).

(** ** [posixpath] *)

Definition SLASH : Z := 47.
Definition DOT : pystr := [46].
Definition DOTDOT : pystr := [46; 46].

(** [os.path.basename] *)
Definition basename (s : pystr) : pystr :=
  fold_left (fun acc c => if c =? SLASH then [] else acc ++ [c]) s [].

(** One round of the loop of [normpath]; [acc] is [new_comps] reversed. *)
Definition norm_step (slashes : bool) (acc : list pystr) (comp : pystr) : list pystr :=
  if bool_decide (comp = []) || bool_decide (comp = DOT) then acc
  else if negb (bool_decide (comp = DOTDOT))
       || (negb slashes && bool_decide (acc = []))
       || (match acc with x :: _ => bool_decide (x = DOTDOT) | [] => false end)
  then comp :: acc
  else match acc with _ :: acc' => acc' | [] => [] end.

Definition norm_comps (slashes : bool) (s : pystr) : list pystr :=
  rev (fold_left (norm_step slashes) (split SLASH s) []).

Definition initial_slashes (s : pystr) : nat :=
  if starts_with [SLASH; SLASH] s && negb (starts_with [SLASH; SLASH; SLASH] s) then 2
  else if starts_with [SLASH] s then 1 else 0.

(** [os.path.normpath] *)
Definition normpath (s : pystr) : pystr :=
  if bool_decide (s = []) then DOT
  else let n := initial_slashes s in
       let p := repeat SLASH n ++ join [SLASH] (norm_comps (Nat.ltb 0 n) s) in
       if bool_decide (p = []) then DOT else p.

(** ** Examples *)

Example int_of_str_ex : map (int_of_str 10) [u " -1_000 "; u "1__0"; u ""; [1633; 1634]]
  = [Ok (-1000); Err ValueError; Err ValueError; Ok 12].
Proof. vm_compute. reflexivity. Qed.
Example uuid_ex :
  uuid_int (u "urn:uuid:{0000000A-0000-0000-0000-0000000000ff}") = Ok (10 * 2 ^ 96 + 255)
  /\ uuid_str (10 * 2 ^ 96 + 255) = u "0000000a-0000-0000-0000-0000000000ff".
Proof. vm_compute. done. Qed.
Example normpath_ex :
  map normpath [u ""; u "a/../b//./c"; u "../x/.."; u "//a"; u "///a/../.."; u "a/.."]
  = [u "."; u "b/c"; u ".."; u "//a"; u "/"; u "."].
Proof. vm_compute. done. Qed.
Example utf8_ex :
  utf8_encode [0x41; 0xE9; 0x20AC; 0x1F600]
  = Ok (map z2b [0x41; 0xC3; 0xA9; 0xE2; 0x82; 0xAC; 0xF0; 0x9F; 0x98; 0x80])
  /\ utf8_decode_ignore (map z2b [0x41; 0xFF; 0xE2; 0x82; 0x42; 0xC3]) = [0x41; 0x42].
Proof. vm_compute. done. Qed.

(** ** UTF-8 lemmas *)

Lemma is_scalar_spec c :
  is_scalar c = true <-> 0 <= c <= 0x10FFFF /\ ~ (0xD800 <= c <= 0xDFFF).
Proof. unfold is_scalar, is_surrogate. lia. Qed.

(** Reading back an octet that an encoder wrote. *)
Ltac octets :=
  repeat match goal with
  | |- context [b2z (z2b ?z)] => rewrite (b2z_z2b_small z) by (Z.to_euclidean_division_equations; lia)
  end.
(** Decide the range tests of the decoder on arithmetic terms. *)
Ltac decide_range :=
  repeat match goal with
  | |- context [if ?b then _ else _] =>
    lazymatch b with
    | true => fail | false => fail
    | _ => first
      [ replace b with true
          by (symmetry; unfold between, is_cont, second_ok, second_lo, second_hi, between;
              Z.to_euclidean_division_equations; lia)
      | replace b with false
          by (symmetry; unfold between, is_cont, second_ok, second_lo, second_hi, between;
              Z.to_euclidean_division_equations; lia) ]
    end
  end.

Lemma length_utf8_char c : (1 <= length (utf8_char c) <= 4)%nat.
Proof. unfold utf8_char. repeat case_match; cbn; lia. Qed.

Lemma second_ok_3 c :
  0x800 <= c < 0x10000 -> ~ (0xD800 <= c <= 0xDFFF) ->
  second_ok (0xE0 + c / 4096) (0x80 + c / 64 mod 64) = true.
Proof.
  intros. unfold second_ok, second_lo, second_hi, between.
  repeat case_match; bool_prop; Z.to_euclidean_division_equations; lia.
Qed.

Lemma second_ok_4 c :
  0x10000 <= c <= 0x10FFFF ->
  second_ok (0xF0 + c / 262144) (0x80 + c / 4096 mod 64) = true.
Proof.
  intros. unfold second_ok, second_lo, second_hi, between.
  repeat case_match; bool_prop; Z.to_euclidean_division_equations; lia.
Qed.

Lemma utf8_dec_char ign c t :
  is_scalar c = true -> utf8_dec ign (utf8_char c ++ t) = emit c (utf8_dec ign t).
Proof.
  intros Hc%is_scalar_spec. unfold utf8_char.
  destruct (c <? 0x80) eqn:E1; bool_prop; [|destruct (c <? 0x800) eqn:E2; bool_prop;
    [|destruct (c <? 0x10000) eqn:E3; bool_prop]]; cbn [app utf8_dec].
  - octets. decide_range. done.
  - octets. decide_range. f_equal. Z.to_euclidean_division_equations; lia.
  - octets. rewrite second_ok_3 by lia. decide_range.
    f_equal. Z.to_euclidean_division_equations; lia.
  - octets. rewrite second_ok_4 by lia. decide_range.
    f_equal. Z.to_euclidean_division_equations; lia.
Qed.

Lemma utf8_encode_Ok s b :
  utf8_encode s = Ok b <-> forallb is_scalar s = true /\ b = concat (map utf8_char s).
Proof. unfold utf8_encode. destruct (forallb is_scalar s); naive_solver. Qed.

Lemma utf8_dec_concat ign s t :
  forallb is_scalar s = true ->
  utf8_dec ign (concat (map utf8_char s) ++ t) = (k ← utf8_dec ign t; Ok (s ++ k)).
Proof.
  induction s as [|c s IH]; cbn [forallb map concat app]; intros H.
  - by destruct (utf8_dec ign t).
  - apply andb_true_iff in H as [Hc Hs].
    rewrite <-app_assoc, utf8_dec_char, IH by done. by destruct (utf8_dec ign t).
Qed.

Lemma utf8_decode_encode s b : utf8_encode s = Ok b -> utf8_decode b = Ok s.
Proof.
  intros [Hs ->]%utf8_encode_Ok. unfold utf8_decode.
  rewrite <-(app_nil_r (concat _)), utf8_dec_concat by done. cbn. by rewrite app_nil_r.
Qed.

(** A character cut short decodes to nothing under [errors="ignore"]. *)
Lemma utf8_dec_partial c n :
  is_scalar c = true -> (n < length (utf8_char c))%nat ->
  utf8_dec Ignore (take n (utf8_char c)) = Ok [].
Proof.
  intros Hc%is_scalar_spec. unfold utf8_char.
  destruct (c <? 0x80) eqn:E1; bool_prop; [|destruct (c <? 0x800) eqn:E2; bool_prop;
    [|destruct (c <? 0x10000) eqn:E3; bool_prop]]; cbn [length]; intros Hn;
    do 4 (try (destruct n as [|n]; [cbn [take utf8_dec]; try done; octets|])); try lia.
  - by decide_range.
  - by decide_range.
  - rewrite second_ok_3 by lia. by decide_range.
  - by decide_range.
  - rewrite second_ok_4 by lia. by decide_range.
  - rewrite second_ok_4 by lia. by decide_range.
Qed.

Lemma utf8_ignore_truncated n s b :
  utf8_encode s = Ok b ->
  exists p, utf8_decode_ignore (take n b) = p /\ p `prefix_of` s
            /\ (length (concat (map utf8_char p)) <= n)%nat.
Proof.
  intros [Hs ->]%utf8_encode_Ok. unfold utf8_decode_ignore.
  revert n; induction s as [|c s IH]; intros n; cbn [map concat].
  { rewrite take_nil. exists []. split; [done|]. split; [apply prefix_nil | cbn; lia]. }
  cbn [forallb] in Hs. apply andb_true_iff in Hs as [Hc Hs].
  destruct (decide (n < length (utf8_char c))%nat) as [Hn|Hn].
  - rewrite take_app_le, utf8_dec_partial by (done || lia).
    exists []. split; [done|]. split; [apply prefix_nil | cbn; lia].
  - destruct (IH Hs (n - length (utf8_char c))%nat) as (p & Hp & Hpre & Hlen).
    rewrite take_app_ge by lia. rewrite utf8_dec_char by done.
    destruct (utf8_dec Ignore _) as [k|e] eqn:E.
    + cbn. exists (c :: p). subst. split; [done|]. split; [by apply prefix_cons|].
      cbn. rewrite length_app. lia.
    + exists []. split; [done|]. split; [apply prefix_nil | cbn; lia].
Qed.

Lemma concat_utf8_length s : (length s <= length (concat (map utf8_char s)))%nat.
Proof.
  induction s as [|c s IH]; cbn; [done|]. rewrite length_app.
  pose proof (length_utf8_char c). lia.
Qed.

(** ** Decimal text *)

Definition is_digit (c : Z) : bool := between 48 57 c.

Lemma digit_of_10 c : digit_of 10 c = if is_digit c then Some (c - 48) else None.
Proof.
  unfold digit_of, is_digit. destruct (between 48 57 c) eqn:E.
  - unfold between in E. bool_prop. replace (_ <? 10) with true by lia. done.
  - unfold between in *. repeat case_match; bool_prop; try done; lia.
Qed.

Definition dec_val (acc : Z) (l : pystr) : Z := fold_left (fun a c => a * 10 + (c - 48)) l acc.

Lemma dec_val_app acc l k : dec_val acc (l ++ k) = dec_val (dec_val acc l) k.
Proof. unfold dec_val. by rewrite fold_left_app. Qed.

Lemma dec_go_spec fuel z acc :
  0 <= z < 2 ^ Z.of_nat fuel -> (0 < fuel)%nat ->
  exists ds, dec_go fuel z acc = ds ++ acc /\ forallb is_digit ds = true /\ ds <> []
             /\ dec_val 0 ds = z /\ (0 < z -> hd 48 ds <> 48) /\ (z = 0 -> ds = [48]).
Proof.
  revert z acc. induction fuel as [|f IH]; intros z acc Hz Hf; [lia|].
  cbn [dec_go]. pose proof (Z.mod_pos_bound z 10 ltac:(lia)).
  destruct (z <? 10) eqn:E; bool_prop.
  - exists [48 + z mod 10]. rewrite Z.mod_small by lia.
    repeat split; try done.
    + cbn. unfold is_digit, between. lia.
    + cbn. lia.
    + cbn. lia.
    + intros ->. done.
  - rewrite Nat2Z.inj_succ, Z.pow_succ_r in Hz by lia.
    destruct (IH (z / 10) ((48 + z mod 10) :: acc)) as (ds & -> & Hds & Hne & Hv & Hh & _).
    + split; [apply Z.div_pos; lia | apply Z.div_lt_upper_bound; lia].
    + destruct f; [cbn in Hz; lia | lia].
    + exists (ds ++ [48 + z mod 10]). rewrite <-app_assoc. split; [done|].
      rewrite forallb_app, Hds. cbn. split; [unfold is_digit, between; lia|].
      split; [by destruct ds|]. split; [|split].
      * rewrite dec_val_app, Hv. cbn. pose proof (Z.div_mod z 10). lia.
      * intros _. destruct ds; [done|]. apply Hh. apply Z.div_str_pos. lia.
      * lia.
Qed.

Lemma length_dec_go fuel z acc : (length (dec_go fuel z acc) <= fuel + length acc)%nat.
Proof.
  revert z acc; induction fuel as [|fuel IH]; intros z acc; cbn [dec_go]; [lia|]. case_match; [cbn; lia|].
  etransitivity; [apply IH|]. cbn. lia.
Qed.
Lemma length_dec_pos z n : 0 <= z < 2 ^ n -> 0 <= n -> zlen (dec_pos z) <= n + 1.
Proof.
  intros Hz Hn. unfold dec_pos, zlen. pose proof (length_dec_go (S (Z.to_nat (Z.log2 z))) z []) as H. cbn [length] in H.
  assert (Z.log2 z <= n) by (destruct (decide (z = 0)) as [->|]; [cbn; lia|]; apply Z.lt_le_incl, Z.log2_lt_pow2; lia).
  pose proof (Z.log2_nonneg z). lia.
Qed.

Lemma dec_pos_spec z : 0 <= z ->
  forallb is_digit (dec_pos z) = true /\ dec_pos z <> [] /\ dec_val 0 (dec_pos z) = z
  /\ (0 < z -> hd 48 (dec_pos z) <> 48) /\ (z = 0 -> dec_pos z = [48]).
Proof.
  intros Hz. unfold dec_pos.
  destruct (dec_go_spec (S (Z.to_nat (Z.log2 z))) z []) as (ds & -> & H); [|lia|by rewrite app_nil_r].
  rewrite Nat2Z.inj_succ, Z2Nat.id by apply Z.log2_nonneg.
  destruct (decide (z = 0)) as [->|]; [cbn; lia|]. pose proof (Z.log2_spec z). lia.
Qed.

(** ** Which characters a UUID string can hold

    [uuid.UUID] accepts braces, hyphens, [urn:], [uuid:], white space, signs,
    underscores and digits of any script, but no separator of a path. *)

Definition path_safe (c : Z) : Prop := c <> SLASH /\ c <> 46 /\ c <> 92 /\ c <> 0.

Lemma Forall_lstrip (P : Z -> Prop) p s :
  (forall c, p c = true -> P c) -> Forall P (lstrip p s) -> Forall P s.
Proof.
  intros Hp. induction s as [|c s IH]; cbn; [done|].
  destruct (p c) eqn:E; [|done]. constructor; auto.
Qed.

Lemma Forall_strip (P : Z -> Prop) p s :
  (forall c, p c = true -> P c) -> Forall P (strip p s) -> Forall P s.
Proof.
  intros Hp H. apply (Forall_lstrip P p); [done|].
  unfold strip, rstrip in H. apply Forall_rev in H. rewrite rev_involutive in H.
  apply Forall_lstrip in H; [|done]. apply Forall_rev in H. by rewrite rev_involutive in H.
Qed.

Lemma Forall_remove_go (P : Z -> Prop) pat k s :
  pat <> [] -> Forall P pat -> Forall P (take k s) ->
  Forall P (remove_go pat k s) -> Forall P s.
Proof.
  intros Hne Hpat. revert k; induction s as [|c s IH]; intros k Hk; cbn; [done|].
  destruct k as [|k]; cbn in Hk.
  - destruct (starts_with pat (c :: s)) eqn:E.
    + apply starts_with_spec in E as (r & E). destruct pat as [|p0 pat]; [done|].
      injection E as -> ->. inversion Hpat; subst. intros Hr. constructor; [done|].
      eapply IH; [|exact Hr]. cbn. rewrite take_app_length. done.
    + inversion 1; subst. constructor; [done|]. by eapply (IH 0%nat).
  - inversion Hk; subst. intros Hr. constructor; [done|]. by eapply IH.
Qed.

Lemma Forall_remove_sub (P : Z -> Prop) pat s :
  pat <> [] -> Forall P pat -> Forall P (remove_sub pat s) -> Forall P s.
Proof. intros. by eapply Forall_remove_go with (k := 0%nat). Qed.

Lemma digit_of_safe base c d : digit_of base c = Some d -> base <= 36 -> path_safe c.
Proof.
  unfold digit_of, path_safe, SLASH, between. intros H Hb.
  repeat case_match; bool_prop; simplify_eq; lia.
Qed.

Lemma scan_go_safe base s acc n v m rest :
  base <= 36 -> scan_go base acc n s = Some (v, m, rest) ->
  Forall path_safe rest -> Forall path_safe s.
Proof.
  intros Hb. revert acc n. induction s as [s IH] using (induction_ltof1 _ (@length Z)).
  unfold ltof in IH. intros acc n. destruct s as [|c t]; cbn; [done|].
  destruct (c =? 95) eqn:E95; bool_prop.
  - destruct t as [|c' t']; [done|]. destruct (digit_of base c') eqn:Ed; [|done].
    intros H Hr. apply digit_of_safe in Ed; [|done]. subst c.
    constructor; [unfold path_safe, SLASH; lia|]. constructor; [done|].
    eapply (IH t'); [cbn; lia | exact H | exact Hr].
  - destruct (digit_of base c) eqn:Ed; [|by intros [=]; subst].
    intros H Hr. apply digit_of_safe in Ed; [|done]. constructor; [done|].
    eapply (IH t); [cbn; lia | exact H | exact Hr].
Qed.

Lemma is_ws_safe c : is_ws c = true -> path_safe c.
Proof. unfold is_ws, between, path_safe, SLASH. lia. Qed.

Lemma int_of_str_safe base s n : base <= 36 -> int_of_str base s = Ok n -> Forall path_safe s.
Proof.
  intros Hb. unfold int_of_str.
  destruct (int_sign (lstrip is_ws (to_ascii s))) as [neg t] eqn:Es.
  destruct (scan_digits base (skip_0x base t)) as [[[v m] rest]|] eqn:Ec; [|done].
  destruct (negb (forallb is_ws rest)) eqn:Er; [done|]. intros _. bool_prop.
  assert (Forall path_safe rest) as Hrest.
  { apply forallb_True in Er || idtac. rewrite Forall_forall. intros x Hx.
    apply is_ws_safe. rewrite forallb_forall in Er. apply Er. by apply list_elem_of_In. }
  assert (Forall path_safe (skip_0x base t)) as H1.
  { destruct (skip_0x base t) as [|c k]; [done|]. cbn in Ec.
    destruct (digit_of base c) eqn:Ed; [|done].
    constructor; [by eapply digit_of_safe | by eapply scan_go_safe]. }
  assert (Forall path_safe t) as H2.
  { unfold skip_0x in H1. destruct t as [|z [|x t]]; [done..|].
    destruct ((base =? 16) && (z =? 48) && ((x =? 120) || (x =? 88))) eqn:E; [|done].
    assert (path_safe z /\ path_safe x) as [??] by (unfold path_safe, SLASH; lia).
    do 2 (constructor; [done|]). destruct t as [|c t]; [done|].
    destruct (c =? 95) eqn:E95; [|done]. constructor; [unfold path_safe, SLASH; lia | done]. }
  assert (Forall path_safe (lstrip is_ws (to_ascii s))) as H3.
  { unfold int_sign in Es. destruct (lstrip is_ws (to_ascii s)) as [|c k]; [done|].
    repeat case_match; bool_prop; simplify_eq; try done;
      (constructor; [unfold path_safe, SLASH; lia | done]). }
  apply Forall_lstrip in H3; [|apply is_ws_safe].
  unfold to_ascii in H3. destruct (forallb _ s); [done|].
  rewrite Forall_map in H3. eapply Forall_impl; [exact H3|]. cbn. intros c.
  unfold to_ascii1. destruct (c <? 127) eqn:E; [done|]. unfold path_safe, SLASH. bool_prop. lia.
Qed.

Lemma uuid_int_safe s n : uuid_int s = Ok n -> Forall path_safe s.
Proof.
  unfold uuid_int. destruct (negb _); [done|]. intros (m & Hm & _)%bind_Ok.
  apply int_of_str_safe in Hm; [|lia].
  assert (forall l, forallb (fun c => negb (c =? 47) && negb (c =? 46) && negb (c =? 92) && negb (c =? 0)) l = true
    -> Forall path_safe l) as Hl.
  { intros l H. rewrite forallb_forall in H. apply Forall_forall. intros x Hx%list_elem_of_In%H.
    unfold path_safe, SLASH. lia. }
  apply (Forall_remove_sub _ (u "-")) in Hm; [|done|by apply Hl].
  apply (Forall_strip _ is_brace) in Hm; [|unfold is_brace, path_safe, SLASH; lia].
  apply (Forall_remove_sub _ (u "uuid:")) in Hm; [|done|by apply Hl].
  apply (Forall_remove_sub _ (u "urn:")) in Hm; [done|done|by apply Hl].
Qed.

Lemma uuid_int_range s n : uuid_int s = Ok n -> 0 <= n < 2 ^ 128.
Proof.
  unfold uuid_int. destruct (negb _); [done|]. intros (m & _ & H)%bind_Ok.
  destruct ((0 <=? m) && (m <? 2 ^ 128)) eqn:E; [|done]. simplify_eq. lia.
Qed.

(** ** [uuid.UUID(str(uuid)) = uuid] *)

Definition is_hex (c : Z) : bool := between 48 57 c || between 97 102 c.

Lemma is_hex_digit d : 0 <= d < 16 -> is_hex (hex_digit d) = true.
Proof. unfold is_hex, hex_digit, between. intros. case_match; lia. Qed.

Lemma digit_of_hex d : 0 <= d < 16 -> digit_of 16 (hex_digit d) = Some d.
Proof.
  intros Hd. unfold digit_of, hex_digit, between.
  destruct (d <? 10) eqn:E; bool_prop.
  - replace (_ && _) with true by lia. replace (_ <? 16) with true by lia. f_equal. lia.
  - replace ((48 <=? 87 + d) && (87 + d <=? 57)) with false by lia.
    replace ((97 <=? 87 + d) && (87 + d <=? 122)) with true by lia.
    replace (_ <? 16) with true by lia. f_equal. lia.
Qed.

Lemma length_hex_digits n z : length (hex_digits n z) = n.
Proof.
  revert z; induction n as [|n IH]; intros z; cbn; [done|]. rewrite length_app, IH. cbn. lia.
Qed.

Lemma hex_digits_hex n z : Forall (fun c => is_hex c = true) (hex_digits n z).
Proof.
  revert z; induction n as [|n IH]; intros z; cbn; [done|].
  apply Forall_app. split; [done|]. constructor; [|done].
  apply is_hex_digit, Z.mod_pos_bound. lia.
Qed.

Lemma scan_go_hex n z acc m :
  0 <= z < 16 ^ Z.of_nat n ->
  scan_go 16 acc m (hex_digits n z) = Some (acc * 16 ^ Z.of_nat n + z, m + Z.of_nat n, []).
Proof.
  assert (forall k z acc m r, 0 <= z < 16 ^ Z.of_nat k ->
    scan_go 16 acc m (hex_digits k z ++ r)
    = scan_go 16 (acc * 16 ^ Z.of_nat k + z) (m + Z.of_nat k) r) as H.
  { intros k. induction k as [|k IH]; intros z' acc' m' r Hz.
    { cbn in Hz |- *. f_equal; lia. }
    rewrite Nat2Z.inj_succ, Z.pow_succ_r in * by lia.
    cbn [hex_digits]. rewrite <-app_assoc, IH.
    - cbn [app scan_go]. pose proof (Z.mod_pos_bound z' 16 ltac:(lia)).
      assert (is_hex (hex_digit (z' mod 16)) = true) as Hh by by apply is_hex_digit.
      unfold is_hex, between in Hh.
      replace (hex_digit (z' mod 16) =? 95) with false by lia.
      rewrite digit_of_hex by done. f_equal; [|lia].
      pose proof (Z.div_mod z' 16). nia.
    - split; [apply Z.div_pos; lia | apply Z.div_lt_upper_bound; lia]. }
  intros Hz. specialize (H n z acc m [] Hz). by rewrite app_nil_r in H.
Qed.

Lemma remove_go_absent pat p0 s :
  hd_error pat = Some p0 -> p0 ∉ s -> remove_go pat 0 s = s.
Proof.
  intros Hp. induction s as [|c s IH]; cbn; [done|]. rewrite not_elem_of_cons. intros [Hc Hs].
  destruct (starts_with pat (c :: s)) eqn:E.
  - apply starts_with_spec in E as (k & E). destruct pat; cbn in *; simplify_eq.
  - by rewrite IH.
Qed.

(** Removing the hyphens of a text without hyphens elsewhere. *)
Lemma remove_hyphen_app s t : 45 ∉ s -> remove_sub [45] (s ++ t) = s ++ remove_sub [45] t.
Proof.
  unfold remove_sub. induction s as [|c s IH]; cbn; [done|].
  rewrite not_elem_of_cons. intros [Hc Hs]. unfold starts_with. cbn.
  rewrite bool_decide_eq_false_2 by congruence. by rewrite IH.
Qed.

Lemma remove_hyphen_cons t : remove_sub [45] (45 :: t) = remove_sub [45] t.
Proof. done. Qed.

Lemma lstrip_id p s : (forall c, hd_error s = Some c -> p c = false) -> lstrip p s = s.
Proof. destruct s as [|c s]; cbn; [done|]. intros H. by rewrite H. Qed.

Lemma strip_id p s : Forall (fun c => p c = false) s -> strip p s = s.
Proof.
  assert (forall l, Forall (fun c => p c = false) l -> lstrip p l = l) as Hl.
  { intros l H. apply lstrip_id. intros c Hc. destruct l as [|c' l]; [done|].
    apply Forall_cons in H as [H _]. cbn in Hc. by injection Hc as ->. }
  intros H. unfold strip, rstrip. rewrite (Hl s) by done.
  rewrite Hl by by apply Forall_rev. apply rev_involutive.
Qed.

Lemma int_of_hex_digits n z :
  0 <= z < 16 ^ Z.of_nat (S n) -> int_of_str 16 (hex_digits (S n) z) = Ok z.
Proof.
  intros Hz. unfold int_of_str.
  pose proof (hex_digits_hex (S n) z) as Hh. pose proof (length_hex_digits (S n) z) as Hl.
  pose proof (scan_go_hex (S n) z 0 0 Hz) as Hs.
  assert (Hasc : to_ascii (hex_digits (S n) z) = hex_digits (S n) z).
  { unfold to_ascii. replace (forallb _ _) with true; [done|]. symmetry.
    apply forallb_forall. intros x Hx%list_elem_of_In. rewrite Forall_forall in Hh.
    apply Hh in Hx. unfold is_hex, between in Hx. lia. }
  rewrite Hasc. destruct (hex_digits (S n) z) as [|c t] eqn:E; [done|].
  apply Forall_cons in Hh as [Hc Ht]. unfold is_hex, between in Hc.
  cbn [lstrip]. replace (is_ws c) with false by (unfold is_ws, between; lia).
  cbn [int_sign]. replace (c =? 43) with false by lia. replace (c =? 45) with false by lia.
  assert (skip_0x 16 (c :: t) = c :: t) as ->.
  { cbn. destruct t as [|x t']; [done|]. apply Forall_cons in Ht as [Hx _].
    unfold is_hex, between in Hx. replace ((x =? 120) || (x =? 88)) with false by lia.
    by rewrite andb_false_r. }
  cbn [scan_go] in Hs. replace (c =? 95) with false in Hs by lia. cbn [scan_digits].
  destruct (digit_of 16 c) as [d|]; [|by simplify_eq].
  rewrite Z.mul_0_l, !Z.add_0_l in Hs. rewrite Hs. done.
Qed.

Lemma take_drop_5 {A} (l : list A) :
  take 8 l ++ take 4 (drop 8 l) ++ take 4 (drop 12 l) ++ take 4 (drop 16 l) ++ drop 20 l = l.
Proof.
  transitivity (take 8 l ++ drop 8 l); [|apply take_drop]. f_equal.
  transitivity (take 4 (drop 8 l) ++ drop 12 l);
    [|rewrite <-(take_drop 4 (drop 8 l)) at 2; by rewrite drop_drop]. f_equal.
  transitivity (take 4 (drop 12 l) ++ drop 16 l);
    [|rewrite <-(take_drop 4 (drop 12 l)) at 2; by rewrite drop_drop]. f_equal.
  rewrite <-(take_drop 4 (drop 16 l)) at 2. by rewrite drop_drop.
Qed.

Lemma uuid_str_chars n :
  Forall (fun c => is_hex c = true \/ c = 45) (uuid_str n).
Proof.
  unfold uuid_str. pose proof (hex_digits_hex 32 n) as H.
  assert (Forall (fun c => is_hex c = true \/ c = 45) (hex_digits 32 n)) as H'.
  { eapply Forall_impl; [exact H|]. auto. }
  repeat (apply Forall_app; split); auto using Forall_take, Forall_drop.
Qed.

Lemma uuid_str_text n : forallb is_scalar (uuid_str n) = true /\ zlen (uuid_str n) = 36.
Proof.
  split.
  - apply forallb_forall. intros c Hc%list_elem_of_In. pose proof (uuid_str_chars n) as H. rewrite Forall_forall in H.
    apply H in Hc. unfold is_scalar, is_surrogate, is_hex, between in *. lia.
  - unfold uuid_str, zlen. pose proof (length_hex_digits 32 n) as Hl.
    repeat (rewrite ?length_app, ?length_take, ?length_drop, ?Hl; cbn [length]). lia.
Qed.

Lemma uuid_int_str n : 0 <= n < 2 ^ 128 -> uuid_int (uuid_str n) = Ok n.
Proof.
  intros Hn. unfold uuid_int. pose proof (uuid_str_chars n) as Hch. rewrite Forall_forall in Hch.
  assert (forall c, is_hex c = false -> c <> 45 -> c ∉ uuid_str n) as Habs.
  { intros c H1 H2 [?|?]%Hch; congruence. }
  assert (forall pat, hd_error pat = Some 117 -> remove_sub pat (uuid_str n) = uuid_str n) as Hrm.
  { intros pat Hp. apply (remove_go_absent pat 117); [done|]. by apply Habs. }
  rewrite !Hrm by done.
  rewrite strip_id.
  2:{ apply Forall_forall. intros c [Hc|Hc]%Hch; [|by subst]. unfold is_hex, is_brace, between in *. lia. }
  set (h := hex_digits 32 n).
  assert (Forall (fun c => is_hex c = true) h) as Hh by apply hex_digits_hex.
  assert (forall l, Forall (fun c => is_hex c = true) l -> 45 ∉ l) as H45.
  { intros l Hl Hin. rewrite Forall_forall in Hl. by apply Hl in Hin. }
  assert (remove_sub (u "-") (uuid_str n) = h) as ->.
  { change (u "-") with [45]. unfold uuid_str. fold h. cbv zeta.
    rewrite !remove_hyphen_app by (apply H45; auto using Forall_take, Forall_drop).
    cbn [app]. rewrite !remove_hyphen_cons.
    do 3 (rewrite remove_hyphen_app by (apply H45; auto using Forall_take, Forall_drop);
          cbn [app]; rewrite ?remove_hyphen_cons).
    rewrite <-(app_nil_r (drop 20 h)), remove_hyphen_app by (apply H45; auto using Forall_drop).
    change (remove_sub [45] []) with (@nil Z). rewrite app_nil_r. apply take_drop_5. }
  unfold zlen, h. rewrite length_hex_digits. cbn [Z.of_nat negb Z.eqb].
  rewrite int_of_hex_digits by (change (16 ^ Z.of_nat 32) with (2 ^ 128); lia).
  cbn. replace (_ && _) with true by lia. done.
Qed.

(** ** Path text *)

Lemma elem_of_remove_go pat k s x : x ∈ remove_go pat k s -> x ∈ s.
Proof.
  revert k; induction s as [|c s IH]; intros k; cbn; [done|].
  destruct k as [|k]; [case_match|]; rewrite ?elem_of_cons; naive_solver.
Qed.

Lemma elem_of_lstrip p s x : x ∈ lstrip p s -> x ∈ s.
Proof. induction s as [|c s IH]; cbn; [done|]. case_match; [rewrite elem_of_cons; auto | done]. Qed.

Lemma basename_snoc s c : basename (s ++ [c]) = if c =? SLASH then [] else basename s ++ [c].
Proof. unfold basename. by rewrite fold_left_app. Qed.

Lemma basename_no_slash s : SLASH ∉ basename s.
Proof.
  induction s as [|c s IH] using rev_ind; [set_solver|].
  rewrite basename_snoc. destruct (Z.eqb_spec c SLASH); set_solver.
Qed.

Lemma elem_of_basename s x : x ∈ basename s -> x ∈ s.
Proof.
  induction s as [|c s IH] using rev_ind; [done|].
  rewrite basename_snoc. destruct (c =? SLASH); set_solver.
Qed.

Lemma basename_id s : SLASH ∉ s -> basename s = s.
Proof.
  induction s as [|c s IH] using rev_ind; [done|]. intros H.
  rewrite basename_snoc, IH by set_solver. destruct (Z.eqb_spec c SLASH); set_solver.
Qed.

Lemma split_no_sep (sep : Z) (s w : pystr) : w ∈ split sep s -> sep ∉ w.
Proof.
  revert w; induction s as [|c s IH]; intros w; cbn [split].
  - intros ->%list_elem_of_singleton. apply not_elem_of_nil.
  - destruct (Z.eqb_spec c sep) as [->|Hne].
    + intros [->|H]%elem_of_cons; [apply not_elem_of_nil | by apply IH].
    + destruct (split sep s) as [|v vs].
      * intros ->%list_elem_of_singleton. rewrite list_elem_of_singleton. congruence.
      * intros [->|H]%elem_of_cons; [|apply IH; by apply elem_of_cons; right].
        rewrite not_elem_of_cons. split; [congruence|]. apply IH. by apply elem_of_cons; left.
Qed.

Lemma split_single sep s : sep ∉ s -> split sep s = [s].
Proof.
  induction s as [|c s IH]; cbn; [done|]. rewrite not_elem_of_cons. intros [Hc Hs].
  rewrite (proj2 (Z.eqb_neq c sep)) by done. by rewrite IH.
Qed.

Lemma split_app_sep sep x t : sep ∉ x -> split sep (x ++ sep :: t) = x :: split sep t.
Proof.
  induction x as [|c x IH]; cbn; [by rewrite Z.eqb_refl|].
  rewrite not_elem_of_cons. intros [Hc Hs].
  rewrite (proj2 (Z.eqb_neq c sep)) by done. by rewrite IH.
Qed.

Lemma split_join sep l : l <> [] -> Forall (fun w => sep ∉ w) l -> split sep (join [sep] l) = l.
Proof.
  induction l as [|x l IH]; [done|]. intros _ [Hx Hl]%Forall_cons.
  destruct l as [|y l]; [by apply split_single|].
  change (join [sep] (x :: y :: l)) with (x ++ sep :: join [sep] (y :: l)).
  by rewrite split_app_sep, IH.
Qed.

(** Two slash-free words before a slash are the same word. *)
Lemma sep_split_eq (sep : Z) (x y k k' : list Z) :
  sep ∉ x -> sep ∉ y -> x ++ sep :: k = y ++ sep :: k' -> x = y /\ k = k'.
Proof.
  revert y; induction x as [|c x IH]; intros [|d y]; cbn; rewrite ?not_elem_of_cons;
    intros Hx Hy H; simplify_eq.
  - done.
  - naive_solver.
  - naive_solver.
  - destruct (IH y) as [-> ->]; naive_solver.
Qed.

Definition normal_comp (c : pystr) : Prop := c <> [] /\ c <> DOT /\ c <> DOTDOT /\ SLASH ∉ c.

(** [new_comps] of a relative path: leading [..]s, then ordinary names. *)
Definition norm_shape (acc : list pystr) : Prop :=
  exists xs n, acc = xs ++ repeat DOTDOT n /\ Forall normal_comp xs.

Lemma norm_step_shape acc comp :
  SLASH ∉ comp -> norm_shape acc -> norm_shape (norm_step false acc comp).
Proof.
  intros Hs (xs & n & -> & Hxs). unfold norm_step.
  destruct (bool_decide (comp = []) || bool_decide (comp = DOT)) eqn:E1; [by exists xs, n|].
  bool_prop. cbn [negb andb].
  destruct (decide (comp = DOTDOT)) as [->|Hdd].
  - rewrite bool_decide_eq_true_2 by done. cbn [negb orb].
    destruct xs as [|x xs]; cbn [app].
    + exists [], (S n). split; [|done]. destruct n; cbn; [done|]. by rewrite orb_true_r || done.
    + apply Forall_cons in Hxs as [(Hx1 & Hx2 & Hx3 & Hx4) Hxs].
      rewrite bool_decide_eq_false_2, bool_decide_eq_false_2 by done. by exists xs, n.
  - rewrite bool_decide_eq_false_2 by done. cbn. exists (comp :: xs), n. split; [done|].
    constructor; [|done]. done.
Qed.

Lemma norm_comps_shape s :
  exists n ys, norm_comps false s = repeat DOTDOT n ++ ys /\ Forall normal_comp ys.
Proof.
  unfold norm_comps.
  assert (norm_shape (fold_left (norm_step false) (split SLASH s) [])) as (xs & n & -> & Hxs).
  { assert (forall l acc, (forall w, w ∈ l -> SLASH ∉ w) -> norm_shape acc ->
      norm_shape (fold_left (norm_step false) l acc)) as H.
    { induction l as [|w l IH]; cbn; intros acc Hl Hacc; [done|].
      apply IH; [set_solver|]. apply norm_step_shape; [apply Hl; set_solver | done]. }
    apply H; [intros w; apply split_no_sep|]. by exists [], 0%nat. }
  exists n, (rev xs). rewrite rev_app_distr. split.
  - f_equal. clear. induction n as [|n IH]; cbn; [done|].
    rewrite IH. clear. induction n as [|n IH]; cbn; [done|]. by f_equal.
  - by apply Forall_rev.
Qed.

Lemma norm_step_normal sl acc comp : normal_comp comp -> norm_step sl acc comp = comp :: acc.
Proof.
  intros (H1 & H2 & H3 & _). unfold norm_step.
  rewrite !bool_decide_eq_false_2 by done. done.
Qed.

Lemma norm_comps_normal sl l :
  l <> [] -> Forall normal_comp l -> norm_comps sl (join [SLASH] l) = l.
Proof.
  intros Hne Hl. unfold norm_comps. rewrite split_join; [|done|].
  2:{ eapply Forall_impl; [exact Hl|]. by intros w (_ & _ & _ & ?). }
  assert (forall l acc, Forall normal_comp l ->
    fold_left (norm_step sl) l acc = rev l ++ acc) as H.
  { induction l0 as [|w l0 IH]; cbn; intros acc; [done|]. intros [Hw H0]%Forall_cons.
    by rewrite norm_step_normal, IH, <-app_assoc by done. }
  by rewrite H, app_nil_r, rev_involutive.
Qed.

Lemma join_not_nil l : l <> [] -> Forall normal_comp l -> exists c k, join [SLASH] l = c :: k /\ c <> SLASH.
Proof.
  destruct l as [|x l]; [done|]. intros _ [(Hx & _ & _ & Hs) _]%Forall_cons.
  destruct x as [|c x]; [done|]. exists c, (x ++ match l with [] => [] | _ => SLASH :: join [SLASH] l end).
  split; [destruct l; cbn; by rewrite ?app_nil_r | set_solver].
Qed.

(** A relative result of [normpath] that does not start with [..] is [.] or a
    path of ordinary names. *)
Lemma normpath_relative s :
  starts_with [SLASH] (normpath s) = false -> starts_with DOTDOT (normpath s) = false ->
  normpath s = DOT \/ exists l, l <> [] /\ Forall normal_comp l /\ normpath s = join [SLASH] l.
Proof.
  unfold normpath. destruct (bool_decide (s = [])) eqn:E; [by left|]. bool_prop.
  destruct (initial_slashes s) as [|n] eqn:En.
  - cbn [repeat app Nat.ltb Nat.leb]. intros _ Hdd.
    destruct (norm_comps_shape s) as (n & ys & Hn & Hys). rewrite Hn in *.
    destruct n as [|n].
    + cbn [repeat app] in *. destruct (bool_decide (join [SLASH] ys = [])) eqn:Ej; [by left|].
      bool_prop. right. exists ys. split; [by intros ->|]. done.
    + exfalso. cbn [repeat app] in Hdd.
      assert (exists k, join [SLASH] (DOTDOT :: repeat DOTDOT n ++ ys) = DOTDOT ++ k) as (k & Hk).
      { destruct (repeat DOTDOT n ++ ys) as [|w ws]; [exists []; done|]. by eexists. }
      rewrite Hk in Hdd. rewrite bool_decide_eq_false_2 in Hdd by done.
      assert (starts_with DOTDOT (DOTDOT ++ k) = true) by (apply starts_with_spec; by exists k). congruence.
  - cbn [repeat app]. rewrite bool_decide_eq_false_2 by done. intros H.
    exfalso. revert H. unfold starts_with. cbn. by rewrite bool_decide_eq_true_2.
Qed.

Lemma initial_slashes_rel c k : c <> SLASH -> initial_slashes (c :: k) = 0%nat.
Proof.
  intros Hc. unfold initial_slashes, starts_with. cbn.
  rewrite !bool_decide_eq_false_2 by congruence. done.
Qed.

Lemma normpath_normal l :
  l <> [] -> Forall normal_comp l -> normpath (join [SLASH] l) = join [SLASH] l.
Proof.
  intros Hne Hl. destruct (join_not_nil l Hne Hl) as (c & k & E & Hc).
  pose proof (norm_comps_normal false l Hne Hl) as Hn. rewrite E in *.
  unfold normpath. rewrite bool_decide_eq_false_2, initial_slashes_rel by done.
  cbn [repeat app Nat.ltb Nat.leb]. by rewrite Hn, E, bool_decide_eq_false_2.
Qed.

Lemma normpath_idem s :
  starts_with [SLASH] (normpath s) = false -> starts_with DOTDOT (normpath s) = false ->
  normpath (normpath s) = normpath s.
Proof.
  intros H1 H2. destruct (normpath_relative s H1 H2) as [->|(l & Hl & Hn & ->)]; [done|].
  by apply normpath_normal.
Qed.
