(* ===== verification/Sha256.v ===== *)
(** * SHA-256, as [hashlib.sha256] computes it

    Executable on octets, so that digests in the models are digests and not
    an uninterpreted function.  A [hashlib] object is the list of octets fed
    to it so far: [update] appends and [hexdigest] is [hexdigest] below. *)
From S2P Require Import Prelude PyStr.

Definition w32 (z : Z) : Z := z mod 2 ^ 32.
Definition rotr (n x : Z) : Z := Z.lor (Z.shiftr x n) (w32 (Z.shiftl x (32 - n))).
Definition xor3 (a b c : Z) : Z := Z.lxor (Z.lxor a b) c.
Definition bsig0 (x : Z) : Z := xor3 (rotr 2 x) (rotr 13 x) (rotr 22 x).
Definition bsig1 (x : Z) : Z := xor3 (rotr 6 x) (rotr 11 x) (rotr 25 x).
Definition ssig0 (x : Z) : Z := xor3 (rotr 7 x) (rotr 18 x) (Z.shiftr x 3).
Definition ssig1 (x : Z) : Z := xor3 (rotr 17 x) (rotr 19 x) (Z.shiftr x 10).
Definition ch (e f g : Z) : Z := Z.lxor (Z.land e f) (Z.land (Z.lxor e (2 ^ 32 - 1)) g).
Definition maj (a b c : Z) : Z := xor3 (Z.land a b) (Z.land a c) (Z.land b c).

(** The constants are the first 32 bits of the fractional parts of the cube and
    square roots of the first primes. *)
Definition is_prime (n : nat) : bool := forallb (fun d => negb (n mod d =? 0)%nat) (seq 2 (n - 2)).
Definition primes_below (n : nat) : list Z := map Z.of_nat (List.filter is_prime (seq 2 (n - 2))).
(** The integer cube root, bit by bit from the bit [n - 1] down. *)
Fixpoint cbrt_go (n : nat) (r z : Z) : Z :=
  match n with
  | O => r
  | S n => let r' := r + 2 ^ Z.of_nat n in cbrt_go n (if r' * r' * r' <=? z then r' else r) z
  end.
Definition K : list Z := Eval vm_compute in map (fun p => w32 (cbrt_go 40 0 (p * 2 ^ 96))) (primes_below 312).
Definition H0 : list Z := Eval vm_compute in map (fun p => w32 (Z.sqrt (p * 2 ^ 64))) (primes_below 20).

(** The message schedule, newest word first. *)
Fixpoint extend (n : nat) (r : list Z) : list Z :=
  match n with
  | O => r
  | S m => extend m (w32 (ssig1 (nth 1 r 0) + nth 6 r 0 + ssig0 (nth 14 r 0) + nth 15 r 0) :: r)
  end.

Fixpoint words (n : nat) (l : bytes) : list Z :=
  match n with O => [] | S m => be_val (take 4 l) :: words m (drop 4 l) end.

Definition state := (Z * Z * Z * Z * Z * Z * Z * Z)%type.

Definition round (s : state) (kw : Z * Z) : state :=
  let '(a, b, c, d, e, f, g, h) := s in
  let t1 := h + bsig1 e + ch e f g + fst kw + snd kw in
  let t2 := bsig0 a + maj a b c in
  (w32 (t1 + t2), a, b, c, w32 (d + t1), e, f, g).

Definition compress (hs : list Z) (block : bytes) : list Z :=
  let ws := rev (extend 48 (rev (words 16 block))) in
  let s0 := (nth 0 hs 0, nth 1 hs 0, nth 2 hs 0, nth 3 hs 0,
             nth 4 hs 0, nth 5 hs 0, nth 6 hs 0, nth 7 hs 0) in
  let '(a, b, c, d, e, f, g, h) := fold_left round (combine K ws) s0 in
  map (fun p => w32 (fst p + snd p)) (combine hs [a; b; c; d; e; f; g; h]).

Definition pad (m : bytes) : bytes :=
  m ++ z2b 0x80 :: repeat (z2b 0) (Z.to_nat ((55 - zlen m) mod 64)) ++ be_bytes 8 (8 * zlen m).

Section blocks.
Variable f : list Z -> bytes -> list Z.
Fixpoint blocks (n : nat) (l : bytes) (hs : list Z) : list Z :=
  match n with O => hs | S m => blocks m (drop 64 l) (f hs (take 64 l)) end.

Lemma length_blocks n l hs k :
  (forall x y, length x = k -> length (f x y) = k) ->
  length hs = k -> length (blocks n l hs) = k.
Proof. intros Hf. revert l hs; induction n as [|n IH]; intros l hs H; cbn; auto. Qed.
End blocks.

Definition sha256 (m : bytes) : bytes :=
  let p := pad m in
  concat (map (be_bytes 4) (blocks compress (Nat.div (length p) 64) p H0)).

(** [hashlib.sha256(m).hexdigest()] *)
Definition hexdigest (m : bytes) : pystr := hex_of_bytes (sha256 m).


Lemma length_compress hs b : length hs = 8%nat -> length (compress hs b) = 8%nat.
Proof.
  intros Hl. unfold compress.
  destruct (fold_left _ _ _) as [[[[[[[? ?] ?] ?] ?] ?] ?] ?].
  rewrite length_map, length_combine, Hl. done.
Qed.

Lemma length_concat_be l : length (concat (map (be_bytes 4) l)) = (4 * length l)%nat.
Proof. induction l as [|x l IH]; cbn [map concat length]; [done|]. rewrite length_app, length_be_bytes, IH. lia. Qed.

Lemma length_sha256 m : length (sha256 m) = 32%nat.
Proof.
  unfold sha256. rewrite length_concat_be.
  by rewrite (length_blocks compress _ _ H0 8) by (intros; done || by apply length_compress).
Qed.

Lemma length_hex_of_bytes l : length (hex_of_bytes l) = (2 * length l)%nat.
Proof. unfold hex_of_bytes. induction l as [|b l IH]; cbn [map concat length app]; [done|]. rewrite IH. lia. Qed.

Lemma hex_of_bytes_hex l : Forall (fun c => is_hex c = true) (hex_of_bytes l).
Proof.
  unfold hex_of_bytes. induction l as [|b l IH]; cbn [map concat app]; [done|].
  pose proof (b2z_range b).
  repeat constructor; [..|done]; apply is_hex_digit.
  - split; [apply Z.div_pos; lia | apply Z.div_lt_upper_bound; lia].
  - apply Z.mod_pos_bound. lia.
Qed.

Lemma length_hexdigest m : length (hexdigest m) = 64%nat.
Proof. unfold hexdigest. by rewrite length_hex_of_bytes, length_sha256. Qed.

Lemma hexdigest_hex m : Forall (fun c => is_hex c = true) (hexdigest m).
Proof. apply hex_of_bytes_hex. Qed.

Lemma hex_digit_inj a b : 0 <= a < 16 -> 0 <= b < 16 -> hex_digit a = hex_digit b -> a = b.
Proof. unfold hex_digit. intros. repeat case_match; bool_prop; lia. Qed.

Lemma hex_of_bytes_inj l k : hex_of_bytes l = hex_of_bytes k -> l = k.
Proof.
  unfold hex_of_bytes. revert k; induction l as [|b l IH]; intros [|c k]; cbn [map concat app]; try done.
  intros H. injection H as H1 H2 H. apply IH in H as ->. f_equal. apply b2z_inj.
  pose proof (b2z_range b). pose proof (b2z_range c).
  apply hex_digit_inj in H1, H2; try (split; [apply Z.div_pos; lia | apply Z.div_lt_upper_bound; lia]);
    try (apply Z.mod_pos_bound; lia).
  rewrite (Z.div_mod (b2z b) 16), (Z.div_mod (b2z c) 16); lia.
Qed.

Definition of_str (s : string) : bytes := map (fun c => z2b c) (u s).

(** The FIPS 180-4 vectors, and a message of two blocks. *)
Example sha256_empty :
  hexdigest [] = u "e3b0c44298fc1c149afbf4c8996fb92427ae41e4649b934ca495991b7852b855".
Proof. vm_compute. reflexivity. Qed.
Example sha256_abc :
  hexdigest (of_str "abc") = u "ba7816bf8f01cfea414140de5dae2223b00361a396177a9cb410ff61f20015ad".
Proof. vm_compute. reflexivity. Qed.
Example sha256_two_blocks :
  hexdigest (of_str "abcdbcdecdefdefgefghfghighijhijkijkljklmklmnlmnomnopnopq")
  = u "248d6a61d20638b8e5c026930c3e6039a33ce45964ff2167f6ecedd419db06c1".
Proof. vm_compute. reflexivity. Qed.
