(* ===== verification/Json.v ===== *)
(** * JSON values and Python's [json] module

    [json] is what [json.loads] returns; a [dict] is an association list in
    insertion order.  [render] is [json.dumps] with its default
    [ensure_ascii] and the separators as arguments, [loads] the scanner of
    [json.loads] (strict strings, surrogate pairs joined, repeated keys: last
    one wins, [NaN] and [Infinity] accepted).  Conversions [int(x)], [str(x)],
    [bool(x)] of a JSON value are here too.

    The text of a float and of a container under [str] / [repr] is CPython's:
    it enters through the class [PyRepr], and no theorem depends on it. *)
From Stdlib Require Import SpecFloat.
From S2P Require Import Prelude PyStr.

Inductive json :=
  | JNull
  | JBool (b : bool)
  | JInt (z : Z)
  | JFloat (f : spec_float)
  | JStr (s : pystr)
  | JArr (l : list json)
  | JObj (d : list (pystr * json)).

Section json_ind.
Variable P : json -> Prop.
Hypothesis Hnull : P JNull.
Hypothesis Hbool : forall b, P (JBool b).
Hypothesis Hint : forall z, P (JInt z).
Hypothesis Hfloat : forall f, P (JFloat f).
Hypothesis Hstr : forall s, P (JStr s).
Hypothesis Harr : forall l, Forall P l -> P (JArr l).
Hypothesis Hobj : forall d, Forall (fun kv => P kv.2) d -> P (JObj d).
Fixpoint json_ind' (j : json) : P j :=
  match j with
  | JNull => Hnull | JBool b => Hbool b | JInt z => Hint z | JFloat f => Hfloat f
  | JStr s => Hstr s
  | JArr l => Harr l ((fix go l := match l return Forall P l with
                       | [] => Forall_nil_2 _
                       | x :: l' => Forall_cons_2 _ _ _ (json_ind' x) (go l') end) l)
  | JObj d => Hobj d ((fix go d := match d return Forall (fun kv => P kv.2) d with
                       | [] => Forall_nil_2 _
                       | kv :: d' => Forall_cons_2 (fun kv => P kv.2) kv d' (json_ind' kv.2) (go d') end) d)
  end.
End json_ind.

Class PyRepr := {
  float_repr : spec_float -> pystr;    (** [repr] of a [float] *)
  container_str : json -> pystr;       (** [str] of a [list] or [dict] *)
  str_repr : pystr -> pystr            (** [repr] of a [str] *)
}.

(** ** Conversions *)

(** [int(f)] *)
Definition int_of_float (f : spec_float) : res Z :=
  match f with
  | S754_zero _ => Ok 0
  | S754_infinity _ => Err OverflowError
  | S754_nan => Err ValueError
  | S754_finite s m e =>
    let a := if 0 <=? e then Zpos m * 2 ^ e else Zpos m / 2 ^ (- e) in
    Ok (if s then - a else a)
  end.

(** [int(x)] *)
Definition py_int (j : json) : res Z :=
  match j with
  | JInt z => Ok z
  | JBool b => Ok (if b then 1 else 0)
  | JFloat f => int_of_float f
  | JStr s => int_of_str 10 s
  | _ => Err TypeError
  end.

(** [str(x)] *)
Definition py_str `{PyRepr} (j : json) : res pystr :=
  match j with
  | JStr s => Ok s
  | JInt z => str_of_int z
  | JBool b => Ok (if b then u "True" else u "False")
  | JNull => Ok (u "None")
  | JFloat f => Ok (float_repr f)
  | JArr _ | JObj _ => Ok (container_str j)
  end.

(** [bool(x)] *)
Definition py_bool (j : json) : bool :=
  match j with
  | JNull => false
  | JBool b => b
  | JInt z => negb (z =? 0)
  | JFloat (S754_zero _) => false
  | JFloat _ => true
  | JStr s => negb (bool_decide (s = []))
  | JArr l => match l with [] => false | _ => true end
  | JObj d => match d with [] => false | _ => true end
  end.

(** [x == s] for a string [s], and [x == n] for an integer [n]
    ([True == 1], and floats compare by value). *)
Definition eq_str (j : json) (s : pystr) : bool :=
  match j with JStr t => bool_decide (t = s) | _ => false end.
Definition eq_int (j : json) (n : Z) : bool :=
  match j with
  | JInt z => z =? n
  | JBool b => (if b then 1 else 0) =? n
  | JFloat (S754_zero _) => n =? 0
  | JFloat (S754_finite s m e) =>
    let sm := if s then Zneg m else Zpos m in
    if 0 <=? e then sm * 2 ^ e =? n else sm =? n * 2 ^ (- e)
  | _ => false
  end.

(** [d.get(k)], [d.get(k, default)], [d[k]] and [k in d] for a [dict] [d].  The
    source calls them on values it takes to be dicts; on another JSON value
    [.get] is an [AttributeError]. *)
Definition jdict := list (pystr * json).
Definition dget (d : jdict) (k : string) : option json := aget (u k) d.
Definition dget_or (d : jdict) (k : string) (default : json) : json := from_option id default (dget d k).
Definition dindex (d : jdict) (k : string) : res json :=
  match dget d k with Some v => Ok v | None => Err KeyError end.
Definition has_key (d : jdict) (k : string) : bool := bool_decide (is_Some (dget d k)).
Definition as_dict (j : json) : res jdict :=
  match j with JObj d => Ok d | _ => Err AttributeError end.

(** A dict display [{"k": v, ...}] *)
Definition mkdict (l : list (string * json)) : jdict := map (fun p => (u p.1, p.2)) l.

(** ** [json.dumps] *)

Definition esc_u (c : Z) : pystr := 92 :: 117 :: hex_digits 4 c.
Definition escape_char (c : Z) : pystr :=
  if c =? 34 then [92; 34] else if c =? 92 then [92; 92]
  else if c =? 10 then [92; 110] else if c =? 13 then [92; 114]
  else if c =? 9 then [92; 116] else if c =? 12 then [92; 102]
  else if c =? 8 then [92; 98]
  else if between 32 126 c then [c]
  else if c <? 0x10000 then esc_u c
  else let v := c - 0x10000 in esc_u (0xD800 + v / 1024) ++ esc_u (0xDC00 + v mod 1024).
Definition render_str (s : pystr) : pystr := 34 :: concat (map escape_char s) ++ [34].

Definition int_text (z : Z) : pystr :=
  if z <? 0 then 45 :: dec_pos (- z) else dec_pos z.

Section render.
Context `{PyRepr}.
Variable isep ksep : pystr.
Fixpoint render (j : json) : pystr :=
  match j with
  | JNull => u "null"
  | JBool b => if b then u "true" else u "false"
  | JInt z => int_text z
  | JFloat f => match f with
                | S754_nan => u "NaN"
                | S754_infinity s => if s then u "-Infinity" else u "Infinity"
                | _ => float_repr f
                end
  | JStr s => render_str s
  | JArr l => 91 :: join isep (map render l) ++ [93]
  | JObj d => 123 :: join isep (map (fun kv => render_str kv.1 ++ ksep ++ render kv.2) d) ++ [125]
  end.

(** An integer of more than 4300 digits makes [dumps] raise [ValueError]. *)
Fixpoint printable (j : json) : bool :=
  match j with
  | JInt z => zlen (dec_pos (Z.abs z)) <=? INT_MAX_STR_DIGITS
  | JArr l => forallb printable l
  | JObj d => forallb (fun kv => printable kv.2) d
  | _ => true
  end.
Definition dumps_with (j : json) : res pystr :=
  if printable j then Ok (render j) else Err ValueError.
End render.

(** [json.dumps(x)] and [json.dumps(x, separators=(",", ":"))] *)
Definition json_dumps `{PyRepr} : json -> res pystr := dumps_with (u ", ") (u ": ").
Definition json_dumps_compact `{PyRepr} : json -> res pystr := dumps_with (u ",") (u ":").

(** [json.dumps(x, indent=step)]: the members of a list or dict on lines of
    their own. *)
Section render_indent.
Context `{PyRepr}.
Variable step : nat.
Definition line (level : nat) : pystr := 10 :: repeat 32 (step * level).
Fixpoint render_indent (level : nat) (j : json) : pystr :=
  let sep := 44 :: line (S level) in
  match j with
  | JArr ((_ :: _) as l) => 91 :: line (S level) ++ join sep (map (render_indent (S level)) l) ++ line level ++ [93]
  | JObj ((_ :: _) as d) =>
      123 :: line (S level) ++ join sep (map (fun kv => render_str kv.1 ++ u ": " ++ render_indent (S level) kv.2) d)
      ++ line level ++ [125]
  | _ => render sep (u ": ") j
  end.
Definition json_dumps_indent (j : json) : res pystr := if printable j then Ok (render_indent 0 j) else Err ValueError.
End render_indent.

(** ** [json.loads] *)

Definition json_ws (c : Z) : bool := (c =? 32) || (c =? 9) || (c =? 10) || (c =? 13).
Definition skip_ws (s : pystr) : pystr := lstrip json_ws s.

Definition hex4 (a b c d : Z) : option Z :=
  w ← digit_of 16 a; x ← digit_of 16 b; y ← digit_of 16 c; z ← digit_of 16 d;
  Some (w * 4096 + x * 256 + y * 16 + z).

Definition simple_escape (e : Z) : option Z :=
  if e =? 34 then Some 34 else if e =? 92 then Some 92 else if e =? 47 then Some 47
  else if e =? 98 then Some 8 else if e =? 102 then Some 12 else if e =? 110 then Some 10
  else if e =? 114 then Some 13 else if e =? 116 then Some 9 else None.

Definition is_high (x : Z) : bool := between 0xD800 0xDBFF x.
Definition is_low (x : Z) : bool := between 0xDC00 0xDFFF x.

Definition push (c : Z) (r : res (pystr * pystr)) : res (pystr * pystr) :=
  '(s, rest) ← r; Ok (c :: s, rest).

(** The body of a string literal, after its opening quote. *)
Fixpoint scan_str (s : pystr) : res (pystr * pystr) :=
  match s with
  | [] => Err JSONDecodeError
  | c :: t =>
    if c =? 34 then Ok ([], t)
    else if c =? 92 then
      match t with
      | [] => Err JSONDecodeError
      | e :: t1 =>
        if e =? 117 then
          match t1 with
          | h1 :: h2 :: h3 :: h4 :: t2 =>
            match hex4 h1 h2 h3 h4 with
            | None => Err JSONDecodeError
            | Some x =>
              if is_high x then
                match t2 with
                | b :: u' :: k1 :: k2 :: k3 :: k4 :: t3 =>
                  if (b =? 92) && (u' =? 117) then
                    match hex4 k1 k2 k3 k4 with
                    | None => Err JSONDecodeError
                    | Some y =>
                      if is_low y
                      then push (0x10000 + (x - 0xD800) * 1024 + (y - 0xDC00)) (scan_str t3)
                      else push x (scan_str t2)
                    end
                  else push x (scan_str t2)
                | _ => push x (scan_str t2)
                end
              else push x (scan_str t2)
            end
          | _ => Err JSONDecodeError
          end
        else match simple_escape e with
             | Some v => push v (scan_str t1)
             | None => Err JSONDecodeError
             end
      end
    else if c <? 32 then Err JSONDecodeError
    else push c (scan_str t)
  end.

Fixpoint span (p : Z -> bool) (s : pystr) : pystr * pystr :=
  match s with
  | c :: t => if p c then let '(a, b) := span p t in (c :: a, b) else ([], s)
  | [] => ([], [])
  end.

(** The float nearest to [m * 10^e]. *)
Definition float_of_decimal (neg : bool) (m e : Z) : spec_float :=
  if m =? 0 then S754_zero neg
  else let mag := e + zlen (dec_pos m) in
  if 400 <? mag then S754_infinity neg
  else if mag <? -400 then S754_zero neg
  else if 0 <=? e then binary_normalize 53 1024 ((if neg then -1 else 1) * m * 10 ^ e) 0 neg
  else let '(q, e', l) := SFdiv_core_binary 53 1024 m 0 (10 ^ (- e)) 0 in
       binary_round_aux 53 1024 neg q e' l.

(** [\.[0-9]+], if present *)
Definition scan_frac (s : pystr) : pystr * pystr :=
  match s with
  | c :: t => if c =? 46 then match span is_digit t with
                              | ([], _) => ([], s)
                              | r => r
                              end else ([], s)
  | [] => ([], s)
  end.
(** [[eE][-+]?[0-9]+], if present *)
Definition scan_exp (s : pystr) : option Z * pystr :=
  match s with
  | c :: t =>
    if (c =? 101) || (c =? 69) then
      let '(neg, t') := int_sign t in
      match span is_digit t' with
      | ([], _) => (None, s)
      | (ds, r) => (Some (if neg then - dec_val 0 ds else dec_val 0 ds), r)
      end
    else (None, s)
  | [] => (None, s)
  end.

Definition scan_number (s : pystr) : res (json * pystr) :=
  let '(neg, t) := match s with c :: t => if c =? 45 then (true, t) else (false, s) | [] => (false, s) end in
  let '(ds, r) := match t with
                  | c :: t' => if c =? 48 then ([c], t') else span is_digit t
                  | [] => ([], t)
                  end in
  if bool_decide (ds = []) then Err JSONDecodeError
  else
    let '(fs, r1) := scan_frac r in
    let '(ex, r2) := scan_exp r1 in
    if bool_decide (fs = []) && bool_decide (ex = None) then
      if zlen ds >? INT_MAX_STR_DIGITS then Err ValueError
      else Ok (JInt (if neg then - dec_val 0 ds else dec_val 0 ds), r2)
    else Ok (JFloat (float_of_decimal neg (dec_val 0 (ds ++ fs)) (from_option id 0 ex - zlen fs)), r2).

(** A keyword at the head of the input. *)
Definition keyword (w : string) (v : json) (s : pystr) : option (json * pystr) :=
  if starts_with (u w) s then Some (v, drop (length (u w)) s) else None.
Definition scan_keyword (s : pystr) : option (json * pystr) :=
  match keyword "null" JNull s with Some r => Some r | None =>
  match keyword "true" (JBool true) s with Some r => Some r | None =>
  match keyword "false" (JBool false) s with Some r => Some r | None =>
  match keyword "NaN" (JFloat S754_nan) s with Some r => Some r | None =>
  match keyword "Infinity" (JFloat (S754_infinity false)) s with Some r => Some r | None =>
  keyword "-Infinity" (JFloat (S754_infinity true)) s end end end end end.

Fixpoint scan_value (fuel : nat) (s : pystr) : res (json * pystr) :=
  match fuel with
  | O => Err OutOfFuel
  | S f =>
    match s with
    | [] => Err JSONDecodeError
    | c :: t =>
      if c =? 34 then '(x, r) ← scan_str t; Ok (JStr x, r)
      else if c =? 123 then
        match skip_ws t with
        | [] => Err JSONDecodeError
        | c' :: r => if c' =? 125 then Ok (JObj [], r)
                     else '(d, r') ← scan_members f [] (c' :: r); Ok (JObj d, r')
        end
      else if c =? 91 then
        match skip_ws t with
        | [] => Err JSONDecodeError
        | c' :: r => if c' =? 93 then Ok (JArr [], r)
                     else '(l, r') ← scan_elems f (c' :: r); Ok (JArr l, r')
        end
      else match scan_keyword s with
           | Some r => Ok r
           | None => scan_number s
           end
    end
  end
with scan_elems (fuel : nat) (s : pystr) : res (list json * pystr) :=
  match fuel with
  | O => Err OutOfFuel
  | S f =>
    '(v, r) ← scan_value f s;
    match skip_ws r with
    | c :: r' => if c =? 93 then Ok ([v], r')
                 else if c =? 44 then '(vs, r2) ← scan_elems f (skip_ws r'); Ok (v :: vs, r2)
                 else Err JSONDecodeError
    | [] => Err JSONDecodeError
    end
  end
with scan_members (fuel : nat) (acc : jdict) (s : pystr) : res (jdict * pystr) :=
  match fuel with
  | O => Err OutOfFuel
  | S f =>
    match s with
    | [] => Err JSONDecodeError
    | q :: t =>
      if negb (q =? 34) then Err JSONDecodeError
      else
        '(k, r) ← scan_str t;
        match skip_ws r with
        | [] => Err JSONDecodeError
        | c :: r1 =>
          if negb (c =? 58) then Err JSONDecodeError
          else
            '(v, r2) ← scan_value f (skip_ws r1);
            match skip_ws r2 with
            | [] => Err JSONDecodeError
            | c2 :: r3 => if c2 =? 125 then Ok (aset k v acc, r3)
                          else if c2 =? 44 then scan_members f (aset k v acc) (skip_ws r3)
                          else Err JSONDecodeError
            end
        end
    end
  end.

(** [json.loads(s)] *)
Definition json_loads (s : pystr) : res json :=
  if starts_with [0xFEFF] s then Err JSONDecodeError
  else '(j, r) ← scan_value (2 * length s + 2) (skip_ws s);
       if bool_decide (skip_ws r = []) then Ok j else Err JSONDecodeError.

(** Example texts write [''] for the double quote. *)
Definition quoted (s : string) : pystr := replace_char 39 34 (u s).
Example loads_ex :
  json_loads (quoted " {'a': [1, -20, true, null, 'x\n\ud83d\ude00'], 'b': {}, 'a': 1.5e1} ")
  = Ok (JObj [(u "a", JFloat (S754_finite false 8444249301319680 (-49))); (u "b", JObj [])]).
Proof. vm_compute. reflexivity. Qed.
Example loads_bad :
  map json_loads [u "[1,]"; u "{"; u "1 2"; quoted "'\x'"; u "01"; u "nul"; u "-"]
  = repeat (Err JSONDecodeError) 7.
Proof. vm_compute. reflexivity. Qed.

(** ** [loads] after [dumps] *)

(** Values for which the round trip is exact: no float, scalar strings, no
    repeated key, integers [dumps] accepts. *)
Fixpoint json_ok (j : json) : bool :=
  match j with
  | JFloat _ => false
  | JInt z => zlen (dec_pos (Z.abs z)) <=? INT_MAX_STR_DIGITS
  | JStr s => forallb is_scalar s
  | JArr l => forallb json_ok l
  | JObj d => bool_decide (NoDup d.*1) && forallb (fun kv => forallb is_scalar kv.1 && json_ok kv.2) d
  | _ => true
  end.

Lemma hex4_digits c : 0 <= c < 65536 ->
  exists w x y z, hex_digits 4 c = [w; x; y; z] /\ hex4 w x y z = Some c.
Proof.
  intros Hc. cbn [hex_digits app].
  do 4 eexists. split; [reflexivity|]. unfold hex4.
  rewrite !digit_of_hex by (apply Z.mod_pos_bound; lia). cbn [mbind option_bind].
  f_equal. Z.to_euclidean_division_equations; lia.
Qed.

Lemma scan_str_esc_u c t :
  0 <= c < 65536 -> is_high c = false ->
  scan_str (esc_u c ++ t) = push c (scan_str t).
Proof.
  intros Hc Hh. destruct (hex4_digits c Hc) as (w & x & y & z & E & Hx).
  unfold esc_u. rewrite E. cbn [app scan_str]. cbn [Z.eqb Pos.eqb]. rewrite Hx, Hh. done.
Qed.

Lemma scan_str_pair hi lo t :
  is_high hi = true -> is_low lo = true ->
  scan_str (esc_u hi ++ esc_u lo ++ t)
  = push (0x10000 + (hi - 0xD800) * 1024 + (lo - 0xDC00)) (scan_str t).
Proof.
  intros Hh Hl.
  destruct (hex4_digits hi) as (w & x & y & z & E & Hx); [unfold is_high, between in Hh; lia|].
  destruct (hex4_digits lo) as (w' & x' & y' & z' & E' & Hx'); [unfold is_low, between in Hl; lia|].
  unfold esc_u. rewrite E, E'. cbn [app scan_str]. cbn [Z.eqb Pos.eqb andb].
  rewrite Hx, Hh, Hx', Hl. done.
Qed.

Lemma scan_str_escape c t :
  is_scalar c = true -> scan_str (escape_char c ++ t) = push c (scan_str t).
Proof.
  intros Hc%is_scalar_spec. unfold escape_char.
  repeat match goal with
  | |- context [if c =? ?n then _ else _] => destruct (Z.eqb_spec c n) as [->|]; [reflexivity|]
  end.
  destruct (between 32 126 c) eqn:E.
  { unfold between in E. cbn [app scan_str].
    replace (c =? 34) with false by lia. replace (c =? 92) with false by lia.
    replace (c <? 32) with false by lia. done. }
  destruct (c <? 0x10000) eqn:E2; bool_prop.
  - apply scan_str_esc_u; [lia|]. unfold is_high, between. lia.
  - rewrite <-app_assoc, scan_str_pair; [f_equal|unfold is_high, between|unfold is_low, between];
      Z.to_euclidean_division_equations; lia.
Qed.

Lemma scan_str_render s t :
  forallb is_scalar s = true ->
  scan_str (concat (map escape_char s) ++ 34 :: t) = Ok (s, t).
Proof.
  induction s as [|c s IH]; cbn [map concat forallb]; intros H; [done|].
  apply andb_true_iff in H as [Hc Hs].
  rewrite <-app_assoc, scan_str_escape, IH by done. done.
Qed.

Lemma span_app p l t :
  forallb p l = true -> match t with c :: _ => p c = false | [] => True end ->
  span p (l ++ t) = (l, t).
Proof.
  intros Hl Ht. induction l as [|c l IH]; cbn [app].
  - destruct t as [|c t]; cbn [span]; [done|]. by rewrite Ht.
  - cbn in Hl. apply andb_true_iff in Hl as [Hc Hl]. cbn [span]. by rewrite Hc, IH.
Qed.

(** What can follow an integer without extending it. *)
Definition delim (t : pystr) : Prop :=
  match t with
  | c :: _ => is_digit c = false /\ c <> 46 /\ c <> 101 /\ c <> 69
  | [] => True
  end.

Lemma scan_frac_delim t : delim t -> scan_frac t = ([], t).
Proof. destruct t as [|c t]; [done|]. intros (_ & H & _). cbn. by rewrite (proj2 (Z.eqb_neq _ _) H). Qed.
Lemma scan_exp_delim t : delim t -> scan_exp t = (None, t).
Proof.
  destruct t as [|c t]; [done|]. intros (_ & _ & H1 & H2). cbn.
  by rewrite (proj2 (Z.eqb_neq _ _) H1), (proj2 (Z.eqb_neq _ _) H2).
Qed.

(** The digits of a natural number, scanned. *)
Lemma scan_digits_text z t :
  0 <= z -> delim t ->
  exists c k, dec_pos z = c :: k /\ is_digit c = true
  /\ (if c =? 48 then ([c], k ++ t) else span is_digit (c :: k ++ t)) = (c :: k, t)
  /\ dec_val 0 (c :: k) = z.
Proof.
  intros Hz Ht. destruct (dec_pos_spec z Hz) as (Hd & Hne & Hv & Hh & H0).
  destruct (dec_pos z) as [|c k] eqn:E; [done|]. exists c, k.
  assert (is_digit c = true) as Hc by (cbn in Hd; by apply andb_true_iff in Hd as [? _]).
  split; [done|]. split; [done|]. split; [|done].
  destruct (Z.eqb_spec c 48) as [->|Hc48].
  - destruct (decide (z = 0)) as [->|]; [|by assert (0 < z) as Hz0%Hh by lia].
    assert (k = []) as -> by (specialize (H0 eq_refl); congruence). done.
  - apply (span_app is_digit (c :: k)); [done|]. destruct t; [done|]. apply Ht.
Qed.

Lemma scan_int_text z t :
  zlen (dec_pos (Z.abs z)) <= INT_MAX_STR_DIGITS -> delim t ->
  scan_number (int_text z ++ t) = Ok (JInt z, t).
Proof.
  intros Hlen Ht. unfold scan_number, int_text.
  destruct (scan_digits_text (Z.abs z) t) as (c & k & E & Hc & Hs & Hv); [lia|done|].
  destruct (z <? 0) eqn:Ez; bool_prop.
  - rewrite Z.abs_neq in * by lia. rewrite E in *. cbn [app Z.eqb Pos.eqb].
    rewrite Hs, bool_decide_eq_false_2, scan_frac_delim, scan_exp_delim by done.
    rewrite !bool_decide_eq_true_2 by done. cbn [andb].
    replace (_ >? _) with false by lia. rewrite Hv. do 3 f_equal. lia.
  - rewrite Z.abs_eq in * by lia. rewrite E in *. cbn [app].
    unfold is_digit, between in Hc. replace (c =? 45) with false by lia.
    rewrite Hs, bool_decide_eq_false_2, scan_frac_delim, scan_exp_delim by done.
    rewrite !bool_decide_eq_true_2 by done. cbn [andb].
    replace (_ >? _) with false by lia. by rewrite Hv.
Qed.

Lemma skip_ws_app w t : forallb json_ws w = true -> skip_ws (w ++ t) = skip_ws t.
Proof.
  unfold skip_ws. induction w as [|c w IH]; cbn; [done|].
  intros [Hc Hw]%andb_true_iff. by rewrite Hc, IH.
Qed.

Lemma skip_ws_cons c t : json_ws c = false -> skip_ws (c :: t) = c :: t.
Proof. unfold skip_ws. cbn. by intros ->. Qed.

(** The first character of a number's text. *)
Lemma int_text_head z : exists c k, int_text z = c :: k
  /\ (c = 45 \/ is_digit c = true) /\ (c = 45 -> exists d k', k = d :: k' /\ is_digit d = true).
Proof.
  unfold int_text. destruct (dec_pos_spec (Z.abs z)) as (Hd & Hne & _); [lia|].
  destruct (z <? 0) eqn:E; bool_prop.
  - rewrite Z.abs_neq in * by lia. exists 45, (dec_pos (- z)). split; [done|]. split; [auto|].
    intros _. destruct (dec_pos (- z)) as [|d k]; [done|]. exists d, k. split; [done|].
    cbn in Hd. by apply andb_true_iff in Hd as [? _].
  - rewrite Z.abs_eq in * by lia. destruct (dec_pos z) as [|d k]; [done|]. exists d, k.
    cbn in Hd. apply andb_true_iff in Hd as [Hd _]. split; [done|]. split; [auto|].
    intros ->. done.
Qed.

Lemma keyword_head w v c t c0 :
  hd_error (u w) = Some c0 -> c <> c0 -> keyword w v (c :: t) = None.
Proof.
  intros Hw Hc. unfold keyword. destruct (starts_with (u w) (c :: t)) eqn:E; [|done].
  apply starts_with_spec in E as (k & E). destruct (u w); [done|]. cbn in *. simplify_eq.
Qed.

Lemma scan_keyword_int z t : scan_keyword (int_text z ++ t) = None.
Proof.
  destruct (int_text_head z) as (c & k & -> & Hc & H45). unfold scan_keyword. cbn [app].
  rewrite (keyword_head "null" _ c _ 110), (keyword_head "true" _ c _ 116),
    (keyword_head "false" _ c _ 102), (keyword_head "NaN" _ c _ 78),
    (keyword_head "Infinity" _ c _ 73)
    by (try done; unfold is_digit, between in Hc; lia).
  destruct (decide (c = 45)) as [->|Hne]; [|by apply (keyword_head "-Infinity" _ c _ 45)].
  destruct (H45 eq_refl) as (d & k' & -> & Hd). unfold keyword, starts_with.
  rewrite bool_decide_eq_false_2; [done|]. cbn. intros [= -> _]. done.
Qed.

Section roundtrip.
Context `{PyRepr}.
Context (isep ksep iw kw : pystr).
Hypothesis isep_eq : isep = 44 :: iw.
Hypothesis ksep_eq : ksep = 58 :: kw.
Hypothesis iw_ws : forallb json_ws iw = true.
Hypothesis kw_ws : forallb json_ws kw = true.
Notation rend := (render isep ksep).

(** The head of a rendered value is neither white space nor a closer. *)
Lemma render_head j : json_ok j = true ->
  exists c k, rend j = c :: k /\ json_ws c = false /\ c <> 93 /\ c <> 125.
Proof.
  destruct j as [|b|z|f|s|l|d]; cbn [json_ok render]; intros Hok; try done;
    try (by do 2 eexists).
  - destruct b; by do 2 eexists.
  - destruct (int_text_head z) as (c & k & -> & Hc & _). exists c, k. split; [done|].
    unfold is_digit, json_ws, between in *. lia.
Qed.

Definition scans (j : json) : Prop := forall rest fuel,
  delim rest -> (2 * length (rend j) + 1 <= fuel)%nat ->
  scan_value fuel (rend j ++ rest) = Ok (j, rest).

Lemma delim_ws w t : forallb json_ws w = true -> delim t -> delim (w ++ t).
Proof. destruct w as [|c w]; [done|]. intros [Hc _]%andb_true_iff _. cbn. unfold json_ws, is_digit, between in *. lia. Qed.
Lemma delim_sep t : delim (isep ++ t).
Proof. rewrite isep_eq. cbn. done. Qed.

Lemma join_cons (x : pystr) l : l <> [] -> join isep (x :: l) = x ++ isep ++ join isep l.
Proof. by destruct l. Qed.

Lemma length_isep : (1 <= length isep)%nat.
Proof. rewrite isep_eq. cbn. lia. Qed.

Lemma scan_elems_render l rest fuel :
  l <> [] -> Forall (fun j => json_ok j = true /\ scans j) l ->
  (2 * length (join isep (map rend l)) + 2 <= fuel)%nat ->
  scan_elems fuel (join isep (map rend l) ++ 93 :: rest) = Ok (l, rest).
Proof.
  revert fuel; induction l as [|j l IH]; intros fuel Hne Hall Hf; [done|].
  apply Forall_cons in Hall as [[Hj Hs] Hall].
  destruct fuel as [|fuel]; [lia|].
  destruct l as [|j' l].
  - cbn [map join] in *. cbn [scan_elems]. rewrite Hs by (cbn; done || lia). done.
  - change (map rend (j :: j' :: l)) with (rend j :: map rend (j' :: l)) in *.
    rewrite join_cons in * by done. cbn [scan_elems].
    rewrite !length_app in Hf. pose proof length_isep.
    rewrite <-!app_assoc, Hs by (apply delim_sep || lia). cbn [mbind res_bind].
    rewrite isep_eq at 1. cbn [app]. rewrite skip_ws_cons by done. cbn [Z.eqb Pos.eqb].
    rewrite skip_ws_app by done.
    apply Forall_cons in Hall as Hall'. destruct Hall' as [[Hj' _] _].
    destruct (render_head j' Hj') as (c & k & Ek & Hc & _).
    assert (exists k', join isep (map rend (j' :: l)) ++ 93 :: rest = c :: k') as (k' & E).
    { cbn [map]. destruct l; [cbn [map join]; rewrite Ek; by eexists|].
      rewrite join_cons, Ek by done. by eexists. }
    assert (scan_elems fuel (skip_ws (join isep (map rend (j' :: l)) ++ 93 :: rest))
            = Ok (j' :: l, rest)) as ->; [|done].
    rewrite E, skip_ws_cons, <-E by done. apply IH; [done|done|lia].
Qed.

Definition entry (kv : pystr * json) : pystr := render_str kv.1 ++ ksep ++ rend kv.2.

Lemma scan_members_render cw d acc rest fuel :
  forallb json_ws cw = true -> d <> [] -> NoDup (acc ++ d).*1 ->
  Forall (fun kv => forallb is_scalar kv.1 = true /\ json_ok kv.2 = true /\ scans kv.2) d ->
  (2 * length (join isep (map entry d)) + 2 <= fuel)%nat ->
  scan_members fuel acc (join isep (map entry d) ++ cw ++ 125 :: rest) = Ok (acc ++ d, rest).
Proof.
  intros Hcw. revert acc fuel; induction d as [|[k v] d IH]; intros acc fuel Hne Hnd Hall Hf; [done|].
  apply Forall_cons in Hall as [(Hk & Hv & Hs) Hall]. cbn [fst snd] in *.
  destruct fuel as [|fuel]; [lia|].
  assert (Hfresh : k ∉ acc.*1).
  { rewrite fmap_app in Hnd. apply NoDup_app in Hnd as (_ & Hd & _).
    intros Hin. apply (Hd k Hin). cbn. set_solver. }
  assert (Hlen : forall t, length (entry (k, v) ++ t)
                 = (length (render_str k) + length ksep + length (rend v) + length t)%nat).
  { intros t. unfold entry. cbn [fst snd]. rewrite !length_app. lia. }
  assert (Hone : forall t, delim t -> (2 * length (rend v) + 1 <= fuel)%nat ->
    scan_members (S fuel) acc (entry (k, v) ++ t)
    = match skip_ws t with
      | [] => Err JSONDecodeError
      | c2 :: r3 => if c2 =? 125 then Ok (aset k v acc, r3)
                    else if c2 =? 44 then scan_members fuel (aset k v acc) (skip_ws r3)
                    else Err JSONDecodeError
      end).
  { intros t Ht Hfv. unfold entry. cbn [fst snd]. unfold render_str at 1. cbn [app scan_members].
    cbn [Z.eqb Pos.eqb negb]. rewrite <-!app_assoc. cbn [app].
    rewrite scan_str_render by done. cbn [mbind res_bind].
    rewrite ksep_eq at 1. cbn [app]. rewrite skip_ws_cons by done. cbn [Z.eqb Pos.eqb negb].
    rewrite skip_ws_app by done.
    destruct (render_head v Hv) as (c & kk & Ek & Hc & _).
    rewrite Ek at 1. cbn [app]. rewrite skip_ws_cons by done.
    change (c :: kk ++ t) with ((c :: kk) ++ t). rewrite <-Ek, Hs by done. done. }
  destruct d as [|[k' v'] d].
  - cbn [map join] in *. rewrite Hone.
    + rewrite skip_ws_app, skip_ws_cons by done. cbn [Z.eqb Pos.eqb]. by rewrite aset_fresh.
    + by apply delim_ws.
    + specialize (Hlen []). rewrite app_nil_r in Hlen. cbn [length] in Hlen. lia.
  - change (map entry ((k, v) :: (k', v') :: d)) with (entry (k, v) :: map entry ((k', v') :: d)) in *.
    rewrite join_cons in * by done. pose proof length_isep.
    rewrite <-!app_assoc, Hone.
    2: apply delim_sep.
    2: { rewrite Hlen, length_app in Hf. lia. }
    rewrite isep_eq at 1. cbn [app]. rewrite skip_ws_cons by done. cbn [Z.eqb Pos.eqb].
    rewrite skip_ws_app by done.
    assert (exists q, join isep (map entry ((k', v') :: d)) ++ cw ++ 125 :: rest = 34 :: q) as (q & E).
    { unfold entry, render_str. cbn [map fst snd app]. destruct d; [cbn [map join app]; by eexists|].
      rewrite join_cons by done. cbn [app]. by eexists. }
    rewrite E, skip_ws_cons, <-E, IH by (done || (rewrite Hlen, length_app in Hf; lia) ||
      (rewrite aset_fresh, <-app_assoc by done; exact Hnd)).
    by rewrite aset_fresh, <-app_assoc by done.
Qed.

Lemma scan_render j : json_ok j = true -> scans j.
Proof.
  induction j as [|b|z|f|s|l IH|d IH] using json_ind'; intros Hok rest fuel Hd Hf;
    (destruct fuel as [|fuel]; [lia|]); cbn [render json_ok] in *; try done.
  - destruct b; done.
  - cbn [scan_value]. destruct (int_text z ++ rest) as [|c t] eqn:E.
    { destruct (int_text_head z) as (c & k & Ez & _). by rewrite Ez in E. }
    assert (c <> 34 /\ c <> 123 /\ c <> 91) as (? & ? & ?).
    { destruct (int_text_head z) as (c' & k & Ez & Hc & _). rewrite Ez in E.
      injection E as <- _. unfold is_digit, between in Hc. lia. }
    rewrite !(proj2 (Z.eqb_neq c _)) by done.
    rewrite <-E, scan_keyword_int, scan_int_text by (done || bool_prop; lia). done.
  - cbn [scan_value]. unfold render_str. cbn [app scan_value Z.eqb Pos.eqb].
    rewrite <-app_assoc. cbn [app]. by rewrite scan_str_render.
  - cbn [app scan_value Z.eqb Pos.eqb]. rewrite <-app_assoc. cbn [app].
    destruct l as [|j l]; [done|].
    assert (Hall : Forall (fun j => json_ok j = true /\ scans j) (j :: l)).
    { apply Forall_forall. intros x Hx. rewrite forallb_forall in Hok.
      assert (json_ok x = true) as Hx' by (apply Hok; by apply list_elem_of_In).
      split; [done|]. rewrite Forall_forall in IH. by apply IH. }
    apply Forall_cons in Hall as Hall'. destruct Hall' as [[Hj _] _].
    destruct (render_head j Hj) as (c & k & Ek & Hc & Hc93 & _).
    assert (exists k', join isep (map rend (j :: l)) ++ 93 :: rest = c :: k') as (k' & E).
    { cbn [map]. destruct l; [cbn [map join]; rewrite Ek; by eexists|].
      rewrite join_cons, Ek by done. by eexists. }
    rewrite E, skip_ws_cons by done. rewrite (proj2 (Z.eqb_neq c 93)) by done.
    rewrite <-E, scan_elems_render; [done|done|done|].
    cbn [length] in Hf. rewrite length_app in Hf. cbn [length] in Hf. lia.
  - change (map (fun kv => render_str kv.1 ++ ksep ++ rend kv.2) d) with (map entry d) in *.
    cbn [app scan_value Z.eqb Pos.eqb]. rewrite <-app_assoc. cbn [app].
    apply andb_true_iff in Hok as [Hnd Hok]. bool_prop.
    destruct d as [|[k v] d]; [done|].
    assert (exists q, join isep (map entry ((k, v) :: d)) ++ 125 :: rest = 34 :: q) as (q & E).
    { unfold entry, render_str. cbn [map fst snd app]. destruct d; [cbn [map join app]; by eexists|].
      rewrite join_cons by done. cbn [app]. by eexists. }
    rewrite E, skip_ws_cons by done. cbn [Z.eqb Pos.eqb]. rewrite <-E.
    pose proof (scan_members_render [] ((k, v) :: d) [] rest fuel) as Hscan. cbn [app] in Hscan. rewrite Hscan; [done|done|done|done| |].
    + apply Forall_forall. intros x Hx. rewrite forallb_forall in Hok.
      assert (forallb is_scalar x.1 && json_ok x.2 = true) as Hx' by (apply Hok; by apply list_elem_of_In).
      apply andb_true_iff in Hx' as [??]. split; [done|]. split; [done|].
      rewrite Forall_forall in IH. by apply IH.
    + cbn [length] in Hf. rewrite length_app in Hf. cbn [length] in Hf. lia.
Qed.

Lemma render_ascii_head j : json_ok j = true -> starts_with [0xFEFF] (rend j) = false.
Proof.
  destruct j as [|b|z|f|s|l|d]; cbn [json_ok render]; intros Hok; try done.
  - by destruct b.
  - destruct (int_text_head z) as (c & k & -> & Hc & _). unfold starts_with. cbn.
    apply bool_decide_eq_false_2. intros [= ->]. unfold is_digit, between in Hc. lia.
Qed.

Lemma loads_dumps_with j s : json_ok j = true -> dumps_with isep ksep j = Ok s -> json_loads s = Ok j.
Proof.
  intros Hok. unfold dumps_with. destruct (printable j); [|done]. intros [= <-].
  unfold json_loads. rewrite render_ascii_head by done.
  destruct (render_head j Hok) as (c & k & E & Hc & _).
  assert (skip_ws (rend j) = rend j) as -> by (rewrite E; by apply skip_ws_cons).
  pose proof (scan_render j Hok [] (2 * length (rend j) + 2)%nat) as Hs.
  rewrite app_nil_r in Hs. rewrite Hs by (cbn; done || lia). done.
Qed.

Lemma json_ok_printable j : json_ok j = true -> printable j = true.
Proof.
  induction j as [|b|z|f|s|l IH|d IH] using json_ind'; cbn [json_ok printable]; intros Hok; try done.
  - rewrite forallb_forall in *. intros x Hx. rewrite Forall_forall in IH.
    apply IH; [by apply list_elem_of_In | by apply Hok].
  - apply andb_true_iff in Hok as [_ Hok]. rewrite forallb_forall in *. intros x Hx.
    specialize (Hok x Hx). apply andb_true_iff in Hok as [_ Hok].
    rewrite Forall_forall in IH. apply IH; [by apply list_elem_of_In | done].
Qed.
End roundtrip.

Lemma json_loads_dumps `{PyRepr} j s :
  json_ok j = true -> json_dumps j = Ok s -> json_loads s = Ok j.
Proof. by apply (loads_dumps_with (u ", ") (u ": ") (u " ") (u " ")). Qed.

Lemma json_loads_dumps_compact `{PyRepr} j s :
  json_ok j = true -> json_dumps_compact j = Ok s -> json_loads s = Ok j.
Proof. by apply (loads_dumps_with (u ",") (u ":") [] []). Qed.

(** A dict of scalars, one member per line. *)
Definition is_flat (j : json) : bool := match j with JArr (_ :: _) | JObj (_ :: _) => false | _ => true end.

Lemma json_loads_dumps_flat `{PyRepr} step d s :
  json_ok (JObj d) = true -> forallb (fun kv => is_flat kv.2) d = true -> json_dumps_indent step (JObj d) = Ok s ->
  json_loads s = Ok (JObj d).
Proof.
  intros Hok Hfl. unfold json_dumps_indent. destruct (printable _); [|done]. intros Hs.
  assert (s = render_indent step 0 (JObj d)) as -> by congruence. clear Hs.
  destruct d as [|kv0 d0] eqn:Ed; [done|]. rewrite <-Ed in *. set (lv := line step 1). set (sep := 44 :: lv).
  assert (forallb json_ws (line step 0) = true /\ forallb json_ws lv = true) as [W0 W1].
  { unfold lv, line. split; apply forallb_forall; cbn [In]; by intros x [<-|H0%repeat_spec]; subst. }
  assert (render_indent step 0 (JObj d) = 123 :: lv ++ join sep (map (entry sep (u ": ")) d) ++ line step 0 ++ [125]) as ->.
  { clear W0 W1. subst lv sep. rewrite Ed in Hfl |- *. cbn [render_indent].
    rewrite (map_ext_in _ (entry (44 :: line step 1) (u ": "))); [done|]. intros kv Hkv. rewrite forallb_forall in Hfl. specialize (Hfl kv Hkv). unfold entry. do 2 f_equal.
    by destruct kv.2 as [| | | | |[]|[]]. }
  assert (Hall : Forall (fun kv => forallb is_scalar kv.1 = true /\ json_ok kv.2 = true /\ scans sep (u ": ") kv.2) d).
  { cbn [json_ok] in Hok. apply andb_true_iff in Hok as [_ Hok]. rewrite forallb_forall in Hok.
    apply Forall_forall. intros kv Hkv%list_elem_of_In. specialize (Hok kv Hkv). apply andb_true_iff in Hok as [Hk Hv].
    split; [done|]. split; [done|]. by apply (scan_render sep (u ": ") lv (u " ")). }
  assert (NoDup d.*1) as Hnd by (cbn [json_ok] in Hok; by apply andb_true_iff in Hok as [Hn%bool_decide_eq_true _]).
  set (body := join sep (map (entry sep (u ": ")) d)) in *.
  assert (exists q, body ++ line step 0 ++ [125] = 34 :: q) as (q & Eq).
  { unfold body. rewrite Ed. unfold entry, render_str. cbn [map fst snd app]. destruct d0; [cbn [map join app]; by eexists|].
    cbn [map]. rewrite join_cons by done. cbn [app]. by eexists. }
  unfold json_loads. replace (starts_with _ _) with false by done.
  rewrite skip_ws_cons by done. set (n := length _). replace (2 * n + 2)%nat with (S (2 * n + 1)) by lia.
  cbn [scan_value Z.eqb Pos.eqb]. rewrite skip_ws_app by done. rewrite Eq, skip_ws_cons by done. cbn [Z.eqb Pos.eqb].
  pose proof (scan_members_render sep (u ": ") lv (u " ") eq_refl eq_refl W1 eq_refl (line step 0) d [] [] (2 * n + 1)) as Hscan.
  fold body in Hscan. rewrite <-Eq, Hscan; try done; [by rewrite Ed|]. unfold n. cbn [length]. rewrite !length_app. lia.
Qed.

(** ** The scanner's fuel is enough, and it only raises [ValueError]s *)

Definition consumes {A} (s : pystr) (r : res (A * pystr)) : Prop :=
  match r with
  | Ok (_, t) => (length t < length s)%nat
  | Err e => is_ValueError e = true
  end.

Lemma consumes_push s s' c r : consumes s r -> (length s <= length s')%nat -> consumes s' (push c r).
Proof. destruct r as [[x t]|e]; cbn; [lia | done]. Qed.

Lemma scan_str_consumes s : consumes s (scan_str s).
Proof.
  induction s as [s IH] using (induction_ltof1 _ (@length Z)). unfold ltof in IH.
  destruct s as [|c t]; [done|]. cbn [scan_str].
  repeat match goal with
  | |- consumes _ (push _ (scan_str ?t)) => apply (consumes_push t); [apply IH|]; cbn [length]; lia
  | |- consumes _ (Err _) => reflexivity
  | |- consumes _ (Ok _) => cbn; lia
  | |- consumes _ (match ?x with _ => _ end) => destruct x
  end.
Qed.

Lemma span_length p s a b : span p s = (a, b) -> (length a + length b)%nat = length s.
Proof.
  revert a b; induction s as [|c s IH]; cbn; intros a b H; [by simplify_eq|].
  destruct (p c); [|by simplify_eq]. destruct (span p s) as [x y]. simplify_eq. cbn. rewrite <-(IH x b); done.
Qed.

Lemma int_sign_length s n t : int_sign s = (n, t) -> (length t <= length s)%nat.
Proof. unfold int_sign. intros. repeat case_match; simplify_eq; cbn; lia. Qed.

Lemma scan_frac_length s a b : scan_frac s = (a, b) -> (length b <= length s)%nat.
Proof.
  unfold scan_frac. intros. repeat case_match; simplify_eq; cbn; try lia.
  match goal with H : span _ _ = _ |- _ => apply span_length in H; cbn in H; lia end.
Qed.

Lemma scan_exp_length s a b : scan_exp s = (a, b) -> (length b <= length s)%nat.
Proof.
  unfold scan_exp. intros. repeat case_match; simplify_eq; cbn; try lia.
  all: match goal with H : span _ _ = _, H' : int_sign _ = _ |- _ =>
    apply span_length in H; apply int_sign_length in H'; cbn in H; lia end.
Qed.

Lemma scan_number_consumes s : consumes s (scan_number s).
Proof.
  unfold scan_number.
  destruct (match s with c :: t => if c =? 45 then (true, t) else (false, s) | [] => (false, s) end)
    as [neg t] eqn:E1.
  assert (length t <= length s)%nat by (repeat case_match; simplify_eq; cbn; lia).
  destruct (match t with c :: t' => if c =? 48 then ([c], t') else span is_digit t | [] => ([], t) end)
    as [ds r] eqn:E2.
  assert (length ds + length r = length t)%nat.
  { repeat case_match; simplify_eq; try (cbn; lia); by eapply span_length. }
  destruct (bool_decide (ds = [])) eqn:E3; [done|]. bool_prop.
  destruct (scan_frac r) as [fs r1] eqn:E4. apply scan_frac_length in E4.
  destruct (scan_exp r1) as [ex r2] eqn:E5. apply scan_exp_length in E5.
  assert (0 < length ds)%nat by (clear -E3; destruct ds; cbn; [done|lia]).
  clear E1 E2. repeat case_match; cbn; try done; lia.
Qed.

Lemma skip_ws_length s : (length (skip_ws s) <= length s)%nat.
Proof. unfold skip_ws. induction s as [|c s IH]; cbn; [lia|]. case_match; cbn; lia. Qed.

Lemma scan_keyword_consumes s r : scan_keyword s = Some r -> consumes s (Ok r).
Proof.
  assert (forall w v, (0 < length (u w))%nat -> keyword w v s = Some r -> consumes s (Ok r)) as Hk.
  { intros w v Hw. unfold keyword. destruct (starts_with (u w) s) eqn:E; [|done].
    apply starts_with_spec in E as (k & ->). intros [= <-]. cbn.
    rewrite length_drop, length_app. lia. }
  unfold scan_keyword. intros H. repeat case_match; simplify_eq; (eapply Hk; [|eassumption]); cbn; lia.
Qed.

Lemma consumes_le {A} s s' (r : res (A * pystr)) :
  consumes s r -> (length s <= length s')%nat -> consumes s' r.
Proof. destruct r as [[? ?]|?]; cbn; [lia|done]. Qed.

Lemma consumes_bind {A B} s s' (r : res (A * pystr)) (k : A * pystr -> res (B * pystr)) :
  consumes s r -> (forall a t, (length t < length s)%nat -> consumes s' (k (a, t))) ->
  consumes s' (r ≫= k).
Proof. destruct r as [[a t]|e]; cbn; auto. Qed.

Lemma scan_consumes fuel :
  (forall s, (2 * length s + 1 <= fuel)%nat -> consumes s (scan_value fuel s))
  /\ (forall s, (2 * length s + 2 <= fuel)%nat -> consumes s (scan_elems fuel s))
  /\ (forall acc s, (2 * length s + 2 <= fuel)%nat -> consumes s (scan_members fuel acc s)).
Proof.
  induction fuel as [|f (IHv & IHe & IHm)]; [split; [|split]; intros; lia|].
  split; [|split].
  - intros [|c t] Hf; [done|]. cbn [scan_value length] in *.
    destruct (c =? 34).
    { eapply consumes_bind; [apply scan_str_consumes|]. intros; cbn; lia. }
    destruct (c =? 123).
    { pose proof (skip_ws_length t). destruct (skip_ws t) as [|c' r] eqn:E; [done|]. cbn [length] in *.
      case_match; [cbn; lia|]. eapply consumes_bind; [apply IHm; cbn; lia|]. intros; cbn in *; lia. }
    destruct (c =? 91).
    { pose proof (skip_ws_length t). destruct (skip_ws t) as [|c' r] eqn:E; [done|]. cbn [length] in *.
      case_match; [cbn; lia|]. eapply consumes_bind; [apply IHe; cbn; lia|]. intros; cbn in *; lia. }
    destruct (scan_keyword (c :: t)) eqn:E; [by apply scan_keyword_consumes | apply scan_number_consumes].
  - intros s Hf. cbn [scan_elems]. eapply consumes_bind; [apply IHv; lia|]. intros v r Hr.
    pose proof (skip_ws_length r). destruct (skip_ws r) as [|c r']; [done|]. cbn [length] in *.
    case_match; [cbn; lia|]. case_match; [|done]. pose proof (skip_ws_length r').
    eapply consumes_bind; [apply IHe; lia|]. intros; cbn; lia.
  - intros acc [|q t] Hf; [done|]. cbn [scan_members length] in *. case_match; [done|].
    eapply consumes_bind; [apply scan_str_consumes|]. intros k r Hr.
    pose proof (skip_ws_length r). destruct (skip_ws r) as [|c r1]; [done|]. cbn [length] in *.
    case_match; [done|]. pose proof (skip_ws_length r1).
    eapply consumes_bind; [apply IHv; lia|]. intros v r2 Hr2.
    pose proof (skip_ws_length r2). destruct (skip_ws r2) as [|c2 r3]; [done|]. cbn [length] in *.
    case_match; [cbn; lia|]. case_match; [|done]. pose proof (skip_ws_length r3).
    eapply consumes_le; [apply IHm; lia|]. cbn. lia.
Qed.

Lemma json_loads_raises s e : json_loads s = Err e -> is_ValueError e = true.
Proof.
  unfold json_loads. destruct (starts_with _ s); [by intros [= <-]|].
  pose proof (skip_ws_length s).
  pose proof (proj1 (scan_consumes (2 * length s + 2)) (skip_ws s) ltac:(lia)) as Hc.
  destruct (scan_value _ _) as [[j r]|e']; cbn in *; [|by intros [= <-]].
  case_match; [done | by intros [= <-]].
Qed.
