(* ===== verification/Protocol.v ===== *)
(** * Wire protocol: message types, payloads, envelopes and control frames

    Models [protocol/models.py].  A control frame is the magic [FY], a 32-bit
    big-endian length and the JSON text of an envelope.  The payload classes
    are one [Module] each: the record of the dataclass, its [to_dict] and, where
    the class has one, its validating [from_dict].

    [uuid4()] and [time.time()] are inputs: [uid] and [now] are the values
    they return at the call. *)
From S2P Require Import Prelude PyStr Json.

Definition MAGIC_BYTES : bytes := map z2b (u "FY").
Definition PROTOCOL_VERSION : Z := 1.
Definition MAX_CONTROL_FRAME_SIZE : Z := 1048576.

(** [class MessageType(str, Enum)]: each member's value is its name. *)
Inductive MessageType :=
  | HELLO | AUTH_CHALLENGE | AUTH_RESPONSE
  | SESSION_ESTABLISHED | SESSION_ERROR | DISCONNECT
  | HANDSHAKE_INIT | HANDSHAKE_RESPONSE | PAIR_REQUEST
  | PAIR_CONFIRM | PAIR_DECISION | TRANSFER_REQUEST
  | TRANSFER_ACCEPT | TRANSFER_REJECT | TRANSFER_CHUNK
  | TRANSFER_PROGRESS | TRANSFER_CANCEL | TRANSFER_COMPLETE
  | TRANSFER_RESULT | TRANSFER_ERROR | TRANSFER_RESUME_REQUEST
  | TRANSFER_RESUME_ACCEPT | TRANSFER_RESUME_REJECT | BATCH_REQUEST
  | BATCH_ACCEPT | BATCH_REJECT | BATCH_CANCEL
  | BATCH_COMPLETE | CLIPBOARD_SYNC | CLIPBOARD_SYNC_ACK
  | CAPABILITIES | NOTIFICATION_POST | NOTIFICATION_REMOVE.

Definition mt_value (m : MessageType) : string :=
  match m with
  | HELLO => "HELLO"
  | AUTH_CHALLENGE => "AUTH_CHALLENGE"
  | AUTH_RESPONSE => "AUTH_RESPONSE"
  | SESSION_ESTABLISHED => "SESSION_ESTABLISHED"
  | SESSION_ERROR => "SESSION_ERROR"
  | DISCONNECT => "DISCONNECT"
  | HANDSHAKE_INIT => "HANDSHAKE_INIT"
  | HANDSHAKE_RESPONSE => "HANDSHAKE_RESPONSE"
  | PAIR_REQUEST => "PAIR_REQUEST"
  | PAIR_CONFIRM => "PAIR_CONFIRM"
  | PAIR_DECISION => "PAIR_DECISION"
  | TRANSFER_REQUEST => "TRANSFER_REQUEST"
  | TRANSFER_ACCEPT => "TRANSFER_ACCEPT"
  | TRANSFER_REJECT => "TRANSFER_REJECT"
  | TRANSFER_CHUNK => "TRANSFER_CHUNK"
  | TRANSFER_PROGRESS => "TRANSFER_PROGRESS"
  | TRANSFER_CANCEL => "TRANSFER_CANCEL"
  | TRANSFER_COMPLETE => "TRANSFER_COMPLETE"
  | TRANSFER_RESULT => "TRANSFER_RESULT"
  | TRANSFER_ERROR => "TRANSFER_ERROR"
  | TRANSFER_RESUME_REQUEST => "TRANSFER_RESUME_REQUEST"
  | TRANSFER_RESUME_ACCEPT => "TRANSFER_RESUME_ACCEPT"
  | TRANSFER_RESUME_REJECT => "TRANSFER_RESUME_REJECT"
  | BATCH_REQUEST => "BATCH_REQUEST"
  | BATCH_ACCEPT => "BATCH_ACCEPT"
  | BATCH_REJECT => "BATCH_REJECT"
  | BATCH_CANCEL => "BATCH_CANCEL"
  | BATCH_COMPLETE => "BATCH_COMPLETE"
  | CLIPBOARD_SYNC => "CLIPBOARD_SYNC"
  | CLIPBOARD_SYNC_ACK => "CLIPBOARD_SYNC_ACK"
  | CAPABILITIES => "CAPABILITIES"
  | NOTIFICATION_POST => "NOTIFICATION_POST"
  | NOTIFICATION_REMOVE => "NOTIFICATION_REMOVE"
  end.

Definition all_message_types : list MessageType :=
  [HELLO; AUTH_CHALLENGE; AUTH_RESPONSE; SESSION_ESTABLISHED;
   SESSION_ERROR; DISCONNECT; HANDSHAKE_INIT; HANDSHAKE_RESPONSE;
   PAIR_REQUEST; PAIR_CONFIRM; PAIR_DECISION; TRANSFER_REQUEST;
   TRANSFER_ACCEPT; TRANSFER_REJECT; TRANSFER_CHUNK; TRANSFER_PROGRESS;
   TRANSFER_CANCEL; TRANSFER_COMPLETE; TRANSFER_RESULT; TRANSFER_ERROR;
   TRANSFER_RESUME_REQUEST; TRANSFER_RESUME_ACCEPT; TRANSFER_RESUME_REJECT; BATCH_REQUEST;
   BATCH_ACCEPT; BATCH_REJECT; BATCH_CANCEL; BATCH_COMPLETE;
   CLIPBOARD_SYNC; CLIPBOARD_SYNC_ACK; CAPABILITIES; NOTIFICATION_POST;
   NOTIFICATION_REMOVE].

#[export] Instance MessageType_eq_dec : EqDecision MessageType.
Proof. solve_decision. Defined.

(** [envelope.type == MessageType.M] *)
Definition is_type (j : json) (m : MessageType) : bool := eq_str j (u (mt_value m)).

(** The member a wire type denotes, if any. *)
Definition mt_of (j : json) : option MessageType := find (is_type j) all_message_types.

Lemma mt_value_inj m n : mt_value m = mt_value n -> m = n.
Proof. destruct m, n; cbn; intros; try done. Qed.

Lemma u_inj s t : u s = u t -> s = t.
Proof.
  unfold u. intros H.
  rewrite <-(String.string_of_list_ascii_of_string s), <-(String.string_of_list_ascii_of_string t).
  f_equal. revert H. generalize (String.list_ascii_of_string s), (String.list_ascii_of_string t).
  induction l as [|a l IH]; intros [|b k]; cbn; try done.
  intros [= Hab H]. apply IH in H as ->. f_equal.
  rewrite <-(Ascii.ascii_N_embedding a), <-(Ascii.ascii_N_embedding b). f_equal. lia.
Qed.

(** A sent type is recognised as itself, and only as itself. *)
Lemma mt_of_value m : mt_of (JStr (u (mt_value m))) = Some m.
Proof. destruct m; vm_compute; reflexivity. Qed.

Lemma is_type_value m n : is_type (JStr (u (mt_value m))) n = bool_decide (m = n).
Proof.
  unfold is_type, eq_str. apply bool_decide_ext. split; [|by intros ->].
  intros H%u_inj. by apply mt_value_inj.
Qed.

(** ** Envelopes *)

Record FerryEnvelope := {
  e_type : json;
  e_payload : json;
  e_protocol_version : json;
  e_message_id : json;
  e_reply_to : json;
  e_timestamp : json
}.

(** [FerryEnvelope(type=msg_type.value, payload=payload)] with the field defaults. *)
Definition new_envelope (uid : pystr) (now : Z) (m : MessageType) (payload : jdict) : FerryEnvelope :=
  {| e_type := JStr (u (mt_value m)); e_payload := JObj payload;
     e_protocol_version := JInt PROTOCOL_VERSION; e_message_id := JStr uid;
     e_reply_to := JNull; e_timestamp := JInt now |}.

Definition envelope_to_dict (e : FerryEnvelope) : jdict :=
  mkdict [("protocol_version", e_protocol_version e); ("message_id", e_message_id e);
          ("reply_to", e_reply_to e); ("timestamp", e_timestamp e);
          ("type", e_type e); ("payload", e_payload e)]%string.

Definition envelope_to_json `{Hr : PyRepr} (e : FerryEnvelope) : res pystr :=
  json_dumps (JObj (envelope_to_dict e)).

Definition envelope_from_dict (uid : pystr) (now : Z) (data : json) : res FerryEnvelope :=
  d ← as_dict data;
  let pv := dget_or d "protocol_version" (JInt PROTOCOL_VERSION) in
  let mid := dget_or d "message_id" (JStr uid) in
  let rt := dget_or d "reply_to" JNull in
  let ts := dget_or d "timestamp" (JInt now) in
  ty ← dindex d "type";
  Ok {| e_type := ty; e_payload := dget_or d "payload" (JObj []);
        e_protocol_version := pv; e_message_id := mid;
        e_reply_to := rt; e_timestamp := ts |}.

Definition envelope_from_json (uid : pystr) (now : Z) (s : pystr) : res FerryEnvelope :=
  data ← json_loads s; envelope_from_dict uid now data.

(** ** Control frames *)

Definition encode_frame `{Hr : PyRepr} (e : FerryEnvelope) : res bytes :=
  text ← envelope_to_json e;
  payload_bytes ← utf8_encode text;
  let length := zlen payload_bytes in
  if length >? MAX_CONTROL_FRAME_SIZE then Err ValueError
  else len4 ← pack_I length; Ok ((MAGIC_BYTES ++ len4) ++ payload_bytes).

Definition decode_frame (uid : pystr) (now : Z) (buffer : bytes) : res (option FerryEnvelope * Z) :=
  if zlen buffer <? 6 then Ok (None, 0)
  else if negb (bool_decide (slice 0 2 buffer = MAGIC_BYTES)) then Err ValueError
  else
    let length := be_val (slice 2 6 buffer) in
    if length >? MAX_CONTROL_FRAME_SIZE then Err ValueError
    else
      let total := 6 + length in
      if zlen buffer <? total then Ok (None, 0)
      else
        text ← utf8_decode (slice 6 total buffer);
        e ← envelope_from_json uid now text;
        Ok (Some e, total).

(** An envelope whose content survives JSON exactly. *)
Definition envelope_ok (e : FerryEnvelope) : bool :=
  json_ok (e_type e) && json_ok (e_payload e) && json_ok (e_protocol_version e)
  && json_ok (e_message_id e) && json_ok (e_reply_to e) && json_ok (e_timestamp e).

Lemma envelope_ok_json e : envelope_ok e = true -> json_ok (JObj (envelope_to_dict e)) = true.
Proof.
  unfold envelope_ok. intros H. repeat (apply andb_true_iff in H as [H ?]).
  cbn [json_ok]. apply andb_true_iff. split; [by vm_compute|].
  unfold envelope_to_dict, mkdict. cbn [map forallb fst snd].
  repeat (apply andb_true_iff; split); try done; by vm_compute.
Qed.

Lemma envelope_roundtrip_dict uid now e :
  envelope_from_dict uid now (JObj (envelope_to_dict e)) = Ok e.
Proof. by destruct e. Qed.

Lemma envelope_json_roundtrip `{Hr : PyRepr} uid now e s :
  envelope_ok e = true -> envelope_to_json e = Ok s -> envelope_from_json uid now s = Ok e.
Proof.
  intros Hok%envelope_ok_json Hs. unfold envelope_from_json.
  by rewrite (json_loads_dumps _ _ Hok Hs), <-(envelope_roundtrip_dict uid now e).
Qed.

Lemma encode_frame_Ok `{Hr : PyRepr} e b :
  encode_frame e = Ok b <-> exists text body,
    envelope_to_json e = Ok text /\ utf8_encode text = Ok body
    /\ zlen body <= MAX_CONTROL_FRAME_SIZE
    /\ b = MAGIC_BYTES ++ be_bytes 4 (zlen body) ++ body.
Proof.
  unfold encode_frame. split.
  - intros (text & Ht & (body & Hb & H)%bind_Ok)%bind_Ok.
    destruct (zlen body >? MAX_CONTROL_FRAME_SIZE) eqn:E; [done|].
    apply bind_Ok in H as (l4 & [_ ->]%pack_I_Ok & H).
    apply ltb_gtb_false in E. exists text, body. repeat split; try done. rewrite app_assoc. congruence.
  - intros (text & body & -> & Hb & Hl & ->). cbn. rewrite Hb. cbn.
    replace (_ >? _) with false by lia. unfold pack_I.
    pose proof (zlen_nonneg body). unfold MAX_CONTROL_FRAME_SIZE in Hl.
    replace (_ && _) with true by lia. done.
Qed.

(** The three reads of the decoder on a whole frame followed by anything. *)
Lemma frame_slices (body rest : bytes) :
  zlen body <= MAX_CONTROL_FRAME_SIZE ->
  let b := MAGIC_BYTES ++ be_bytes 4 (zlen body) ++ body in
  zlen (b ++ rest) = 6 + zlen body + zlen rest
  /\ slice 0 2 (b ++ rest) = MAGIC_BYTES
  /\ be_val (slice 2 6 (b ++ rest)) = zlen body
  /\ slice 6 (6 + zlen body) (b ++ rest) = body.
Proof.
  intros Hl b. pose proof (zlen_nonneg body). unfold MAX_CONTROL_FRAME_SIZE in Hl.
  assert (length (be_bytes 4 (zlen body)) = 4%nat) as H4 by apply length_be_bytes.
  unfold b. rewrite <-!app_assoc. split; [|split; [|split]].
  - rewrite !zlen_app. unfold zlen at 1 2. rewrite H4. cbn. lia.
  - done.
  - rewrite slice_app_r by done. rewrite (take_all_app 4) by done. apply be_val_bytes. cbn. lia.
  - rewrite app_assoc, slice_app_r by (rewrite ?zlen_app; unfold zlen; rewrite ?H4; done).
    replace (6 + zlen body - 6) with (zlen body) by lia.
    apply take_all_app. unfold zlen. lia.
Qed.

(** C33. A frame that [encode_frame] produced is decoded by [decode_frame] to
    the same envelope, whatever bytes follow it in the buffer, and exactly its
    own bytes are reported as consumed. *)
Theorem decode_encode_frame `{Hr : PyRepr} uid now e b rest :
  envelope_ok e = true -> encode_frame e = Ok b ->
  decode_frame uid now (b ++ rest) = Ok (Some e, zlen b).
Proof.
  intros Hok (text & body & Ht & Hb & Hl & ->)%encode_frame_Ok.
  destruct (frame_slices body rest Hl) as (Hlen & Hmagic & Hval & Hbody).
  pose proof (zlen_nonneg body). pose proof (zlen_nonneg rest).
  unfold decode_frame. rewrite Hlen, Hmagic, Hval.
  replace (_ <? 6) with false by lia. rewrite bool_decide_eq_true_2 by done. cbn [negb].
  replace (_ >? _) with false by lia. replace (_ <? _) with false by lia.
  rewrite Hbody, (utf8_decode_encode _ _ Hb). cbn [mbind res_bind].
  rewrite (envelope_json_roundtrip uid now e text) by done. cbn [mbind res_bind].
  rewrite zlen_app in Hlen. do 2 f_equal. lia.
Qed.

(** Every proper prefix of an encoded frame is reported as incomplete,
    without consuming anything and without raising: a reader that accumulates
    bytes never loses or misreads a frame in transit. *)
Theorem decode_frame_incomplete `{Hr : PyRepr} uid now e b p q :
  encode_frame e = Ok b -> b = p ++ q -> q <> [] ->
  decode_frame uid now p = Ok (None, 0).
Proof.
  intros (text & body & _ & _ & Hl & ->)%encode_frame_Ok Hpq Hq.
  destruct (frame_slices body [] Hl) as (Hlen & Hmagic & Hval & _).
  rewrite app_nil_r, Hpq in *. unfold decode_frame.
  destruct (zlen p <? 6) eqn:E6; [done|]. bool_prop.
  assert (Hsl : forall a b, 0 <= a -> a <= b -> b <= 6 -> slice a b (p ++ q) = slice a b p).
  { intros a b0 Ha Hab Hb0. unfold slice. unfold zlen in E6.
    rewrite drop_app_le, take_app_le by (rewrite ?length_drop; lia). done. }
  rewrite Hsl in Hmagic by lia. rewrite Hsl in Hval by lia. rewrite Hmagic, Hval.
  rewrite bool_decide_eq_true_2 by done. cbn [negb]. replace (_ >? _) with false by lia.
  assert (0 < zlen q) by (unfold zlen; destruct q; cbn; [done|lia]).
  rewrite zlen_app in Hlen. change (zlen []) with 0 in Hlen.
  by replace (_ <? _) with true by lia.
Qed.

Lemma utf8_decode_raises l e : utf8_decode l = Err e -> e = UnicodeError.
Proof.
  unfold utf8_decode. revert e. induction l as [l IH] using (induction_ltof1 _ (@length byte)).
  unfold ltof in IH. intros e. destruct l as [|b0 t0]; [done|]. cbn [utf8_dec].
  assert (forall c t e, (length t < length (b0 :: t0))%nat ->
    emit c (utf8_dec Strict t) = Err e -> e = UnicodeError) as Hemit.
  { intros c t e' Ht. unfold emit. destruct (utf8_dec Strict t) eqn:E; cbn; [done|].
    intros [= <-]. by eapply IH. }
  unfold on_bad.
  repeat match goal with
  | |- emit _ (utf8_dec Strict ?t) = Err _ -> _ => apply Hemit; cbn [length]; lia
  | |- Err _ = Err _ -> _ => by intros [= <-]
  | |- context [if ?c then _ else _] => destruct c
  | |- context [match ?t with [] => _ | _ :: _ => _ end] => destruct t
  end.
Qed.

Lemma envelope_from_json_raises uid now s e :
  envelope_from_json uid now s = Err e -> is_ValueError e = true \/ e = AttributeError \/ e = KeyError.
Proof.
  intros [H|(j & _ & H)]%bind_Err; [left; by eapply json_loads_raises|].
  apply bind_Err in H as [H|(d & _ & H)].
  - destruct j; cbn in H; naive_solver.
  - apply bind_Err in H as [H|(t & _ & H)]; [|done]. unfold dindex in H.
    destruct (dget d "type"); naive_solver.
Qed.

(** On any buffer [decode_frame] either consumes nothing, or returns an
    envelope and a length that lies within the buffer and within the 1 MiB
    frame limit; its only exceptions are [ValueError]s (bad magic, oversized
    length, bad UTF-8 or JSON) and, for JSON that is no envelope object,
    [AttributeError] or [KeyError]. *)
Theorem decode_frame_bounds uid now buffer :
  match decode_frame uid now buffer with
  | Ok (None, n) => n = 0
  | Ok (Some _, n) => 6 <= n <= 6 + MAX_CONTROL_FRAME_SIZE /\ n <= zlen buffer
  | Err e => is_ValueError e = true \/ e = AttributeError \/ e = KeyError
  end.
Proof.
  unfold decode_frame. destruct (zlen buffer <? 6) eqn:E6; [done|].
  destruct (bool_decide _); cbn [negb]; [|by left].
  destruct (be_val _ >? _) eqn:El; [by left|]. apply ltb_gtb_false in El.
  destruct (zlen buffer <? 6 + be_val (slice 2 6 buffer)) eqn:Et; [done|]. bool_prop.
  pose proof (be_val_range (slice 2 6 buffer)).
  destruct (utf8_decode _) as [text|x] eqn:Eu; cbn; [|left; by rewrite (utf8_decode_raises _ _ Eu)].
  destruct (envelope_from_json _ _ _) as [e|x] eqn:Ee; cbn; [lia|].
  by eapply envelope_from_json_raises.
Qed.
