(* ===== verification/Wire.v ===== *)
(** * The size of a frame: what a JSON text takes on the wire

    The text of a value is plain ASCII, so its UTF-8 form exists and is as long,
    and its length is bounded by the lengths of the strings in the value.  A
    control frame therefore exists for every envelope of moderate size. *)
From S2P Require Import Prelude PyStr Sha256 Json Protocol.

Definition ascii (s : pystr) : Prop := Forall (fun c => 0 <= c < 128) s.

Lemma ascii_app a b : ascii a -> ascii b -> ascii (a ++ b).
Proof. intros. by apply Forall_app. Qed.
Lemma ascii_u s : forallb (fun c => between 0 127 c) (u s) = true -> ascii (u s).
Proof. rewrite forallb_forall. intros H. apply Forall_forall. intros c Hc. apply list_elem_of_In, H in Hc. unfold between in Hc. lia. Qed.

Lemma scalar_ascii s : ascii s -> forallb is_scalar s = true.
Proof.
  intros Hs. apply forallb_forall. intros c Hc. unfold ascii in Hs. rewrite Forall_forall in Hs. apply list_elem_of_In, Hs in Hc.
  unfold is_scalar, is_surrogate. lia.
Qed.
Lemma utf8_ascii s : ascii s -> exists b, utf8_encode s = Ok b /\ zlen b = zlen s.
Proof.
  intros Hs. unfold utf8_encode. exists (concat (map utf8_char s)).
  assert (forallb is_scalar s = true) as ->.
  { apply forallb_forall. intros c Hc. unfold ascii in Hs. rewrite Forall_forall in Hs. apply list_elem_of_In, Hs in Hc.
    unfold is_scalar, is_surrogate. lia. }
  split; [done|]. unfold zlen. f_equal. induction Hs as [|c s Hc _ IH]; [done|]. cbn [map concat]. rewrite length_app, IH.
  unfold utf8_char. replace (c <? 128) with true by lia. done.
Qed.

Lemma ascii_digits l : forallb is_digit l = true -> ascii l.
Proof.
  rewrite forallb_forall. intros H. apply Forall_forall. intros c Hc. apply list_elem_of_In, H in Hc. unfold is_digit, between in Hc. lia.
Qed.
Lemma ascii_hex n z : ascii (hex_digits n z).
Proof. eapply Forall_impl; [apply hex_digits_hex|]. intros c Hc. unfold is_hex, between in Hc. lia. Qed.

Lemma escape_char_text c : is_scalar c = true -> ascii (escape_char c) /\ zlen (escape_char c) <= 12.
Proof.
  intros Hc%is_scalar_spec. unfold escape_char.
  repeat match goal with |- context [if ?x =? ?n then _ else _] => destruct (x =? n); [split; [repeat constructor; lia|unfold zlen; cbn; lia]|] end.
  assert (forall z, ascii (esc_u z) /\ zlen (esc_u z) = 6) as He.
  { intros z. unfold esc_u. split; [do 2 (constructor; [lia|]); apply ascii_hex|]. unfold zlen. cbn [length]. by rewrite length_hex_digits. }
  destruct (between 32 126 c) eqn:E; [split; [repeat constructor; unfold between in E; lia|unfold zlen; cbn; lia]|].
  destruct (c <? 65536).
  - destruct (He c). split; [done|lia].
  - cbv zeta. destruct (He (55296 + (c - 65536) / 1024)), (He (56320 + (c - 65536) mod 1024)).
    split; [by apply ascii_app|]. rewrite zlen_app. lia.
Qed.

Lemma render_str_text s : forallb is_scalar s = true -> ascii (render_str s) /\ zlen (render_str s) <= 2 + 12 * zlen s.
Proof.
  unfold render_str. intros Hs.
  assert (ascii (concat (map escape_char s)) /\ zlen (concat (map escape_char s)) <= 12 * zlen s) as [H1 H2].
  { induction s as [|c s IH]; cbn [map concat]; [split; [constructor|done]|]. cbn [forallb] in Hs. apply andb_true_iff in Hs as [Hc Hs].
    destruct (escape_char_text c Hc), (IH Hs). split; [by apply ascii_app|]. rewrite zlen_app. change (c :: s) with ([c] ++ s). rewrite zlen_app.
    change (zlen [c]) with 1. lia. }
  split; [constructor; [lia|apply ascii_app; [done|repeat constructor; lia]]|].
  change (34 :: concat (map escape_char s) ++ [34]) with ([34] ++ concat (map escape_char s) ++ [34]). rewrite !zlen_app.
  change (zlen [34]) with 1. lia.
Qed.

(** A bound on the length of the text of a value. *)
Fixpoint weight (j : json) : Z :=
  match j with
  | JInt z => zlen (int_text z)
  | JStr s => 2 + 12 * zlen s
  | JArr l => 2 + fold_right (fun x n => 2 + weight x + n) 0 l
  | JObj d => 2 + fold_right (fun kv n => 6 + 12 * zlen kv.1 + weight kv.2 + n) 0 d
  | _ => 5
  end.

Section text_size.
Context `{Hr : PyRepr} (isep ksep : pystr).
Hypothesis isep_text : ascii isep /\ zlen isep <= 2.
Hypothesis ksep_text : ascii ksep /\ zlen ksep <= 2.
Notation rend := (render isep ksep).

Lemma join_text {A} (g : A -> pystr) (f : A -> Z) l :
  Forall (fun x => ascii (g x) /\ zlen (g x) <= f x) l ->
  ascii (join isep (map g l)) /\ zlen (join isep (map g l)) <= fold_right (fun x n => 2 + f x + n) 0 l.
Proof.
  induction 1 as [|x l [Hx Hxl] Hl [IH1 IH2]]; [split; [constructor|done]|]. cbn [fold_right map].
  assert (0 <= fold_right (fun x n => 2 + f x + n) 0 l) as Hn.
  { clear IH1 IH2. induction Hl as [|y l [_ Hy] _ IH]; cbn [fold_right]; [done|]. pose proof (zlen_nonneg (g y)). lia. }
  destruct l as [|y l]; [cbn [map join]; split; [done|lia]|]. rewrite (join_cons isep) by done. destruct isep_text.
  split; [by repeat apply ascii_app|]. rewrite !zlen_app. lia.
Qed.

Lemma render_text j : json_ok j = true -> ascii (rend j) /\ zlen (rend j) <= weight j.
Proof.
  induction j as [| |z| |s|l IH|d IH] using json_ind'; intros Hok; cbn [json_ok render weight] in *; try done.
  - split; [by apply ascii_u|by vm_compute].
  - destruct b; (split; [by apply ascii_u|by vm_compute]).
  - split; [|done]. unfold int_text. destruct (z <? 0) eqn:E; [constructor; [lia|]|]; apply ascii_digits, dec_pos_spec; lia.
  - by apply render_str_text.
  - destruct (join_text rend weight l) as [H1 H2].
    { rewrite forallb_forall in Hok. rewrite Forall_forall in IH. apply Forall_forall. intros x Hx. apply IH; [done|].
      by apply Hok, list_elem_of_In. }
    split; [constructor; [lia|by apply ascii_app; [|repeat constructor; lia]]|].
    change (91 :: ?x ++ [93]) with ([91] ++ x ++ [93]). rewrite !zlen_app. change (zlen [91]) with 1. change (zlen [93]) with 1. lia.
  - destruct (join_text (fun kv => render_str kv.1 ++ ksep ++ rend kv.2) (fun kv => 4 + 12 * zlen kv.1 + weight kv.2) d) as [H1 H2].
    { apply andb_true_iff in Hok as [_ Hok]. rewrite forallb_forall in Hok. rewrite Forall_forall in IH. apply Forall_forall.
      intros x Hx. pose proof (Hok x ltac:(by apply list_elem_of_In)) as [Hk Hv]%andb_true_iff.
      destruct (render_str_text x.1 Hk), (IH x Hx Hv), ksep_text. split; [by repeat apply ascii_app|].
      rewrite !zlen_app. lia. }
    split; [constructor; [lia|by apply ascii_app; [|repeat constructor; lia]]|].
    change (123 :: ?x ++ [125]) with ([123] ++ x ++ [125]). rewrite !zlen_app. change (zlen [123]) with 1. change (zlen [125]) with 1.
    assert (fold_right (fun x n => 2 + (4 + 12 * zlen x.1 + weight x.2) + n) 0 d
            = fold_right (fun kv n => 6 + 12 * zlen kv.1 + weight kv.2 + n) 0 d) as <-; [|lia].
    clear. induction d as [|kv d IHd]; cbn [fold_right]; [done|]. lia.
Qed.

End text_size.

Section sizes.
Context `{Hr : PyRepr}.
Notation rend := (render (u ", ") (u ": ")).

(** The octets of an envelope exist if its values are not too large. *)
Lemma envelope_text e :
  envelope_ok e = true -> exists text body, envelope_to_json e = Ok text /\ utf8_encode text = Ok body
    /\ zlen body <= weight (JObj (envelope_to_dict e)) /\ exists t, text = 123 :: t.
Proof.
  intros Hok%envelope_ok_json. destruct (render_text (u ", ") (u ": ")) with (j := JObj (envelope_to_dict e)) as [Ha Hl];
    [split; [by apply ascii_u|done]..|done|]. destruct (utf8_ascii _ Ha) as (body & Hb & Hz).
  exists (rend (JObj (envelope_to_dict e))), body. split_and!; [|done|lia|by eexists].
  unfold envelope_to_json, json_dumps, dumps_with. by rewrite (json_ok_printable [] []).
Qed.
Lemma encode_frame_fits e :
  envelope_ok e = true -> weight (JObj (envelope_to_dict e)) <= MAX_CONTROL_FRAME_SIZE -> exists b, encode_frame e = Ok b.
Proof.
  intros Hok Hw. destruct (envelope_text e Hok) as (text & body & Ht & Hb & Hl & _).
  eexists. apply encode_frame_Ok. exists text, body. split_and!; [done|done|lia|done].
Qed.

(** A message of short texts is a good envelope of moderate size. *)
Lemma message_fits uid now mt payload :
  forallb is_scalar uid = true -> zlen uid = 36 -> 0 <= now < 2 ^ 63 ->
  json_ok (JObj payload) = true -> weight (JObj payload) <= 1000000 ->
  envelope_ok (new_envelope uid now mt payload) = true
  /\ weight (JObj (envelope_to_dict (new_envelope uid now mt payload))) <= MAX_CONTROL_FRAME_SIZE.
Proof.
  intros Hu Hl Hn Hok Hw.
  pose proof (length_dec_pos now 63 Hn ltac:(lia)) as Hd.
  assert (envelope_ok (new_envelope uid now mt payload) = true) as E.
  { unfold envelope_ok, new_envelope. cbn [e_type e_payload e_protocol_version e_message_id e_reply_to e_timestamp].
    rewrite Hok. cbn [json_ok]. rewrite Hu. replace (Z.abs now) with now by lia.
    replace (zlen (dec_pos now) <=? INT_MAX_STR_DIGITS) with true by (unfold INT_MAX_STR_DIGITS; lia).
    assert (forallb is_scalar (u (mt_value mt)) = true) as -> by (by destruct mt). by vm_compute. }
  split; [exact E|].
  unfold envelope_to_dict, new_envelope, mkdict. cbn [map fst snd e_type e_payload e_protocol_version e_message_id e_reply_to e_timestamp].
  change (weight (JObj ?l)) with (2 + fold_right (fun kv n => 6 + 12 * zlen kv.1 + weight kv.2 + n) 0 l).
  cbn [fold_right fst snd].
  assert (weight (JStr (u (mt_value mt))) <= 400) as Ht by (by destruct mt).
  assert (weight (JStr uid) = 434) as -> by (cbn [weight]; lia).
  assert (weight (JInt now) <= 64) as Hi by (cbn [weight]; unfold int_text; replace (now <? 0) with false by lia; lia).
  repeat match goal with |- context [zlen (u ?s)] => let n := eval vm_compute in (zlen (u s)) in change (zlen (u s)) with n end.
  assert (weight (JInt PROTOCOL_VERSION) = 1) as -> by done. assert (weight JNull = 5) as -> by done.
  unfold MAX_CONTROL_FRAME_SIZE. lia.
Qed.

End sizes.
