(* ===== verification/Payloads.v ===== *)
(** * The payload classes of the wire protocol

    One [Module] per dataclass of [protocol/models.py] that validates or
    carries data: its record, [to_dict], [from_dict] and [validate].  Fields
    have the types of the dataclass: the constructors are only called with
    values of those types, so the [isinstance] tests of [validate] hold. *)
From S2P Require Import Prelude PyStr Sha256 Json Protocol.

Definition TEN_GIB : Z := 10 * 1024 ^ 3.

Definition is_lower_hex (s : pystr) : bool := forallb is_hex s.

(** [data.get(key, default)] passed through [str] / [int]. *)
Section field_readers.
Context `{Hr : PyRepr}.
Definition str_at (d : jdict) (k : string) : res pystr := v ← dindex d k; py_str v.
Definition int_at (d : jdict) (k : string) : res Z := v ← dindex d k; py_int v.
Definition str_or (d : jdict) (k : string) (dflt : pystr) : res pystr := py_str (dget_or d k (JStr dflt)).
Definition int_or (d : jdict) (k : string) (dflt : Z) : res Z := py_int (dget_or d k (JInt dflt)).
End field_readers.

Module TransferRequestPayload.
Record t := mk {
  transfer_id : pystr; file_name : pystr; file_size : Z; mime_type : pystr;
  sha256 : pystr; chunk_size : Z; chunk_count : Z; sender_identity : pystr;
  created_at : Z; protocol_version : Z; batch_id : pystr; relative_path : pystr }.

Definition to_dict (p : t) : jdict :=
  mkdict [("transfer_id", JStr (transfer_id p)); ("file_name", JStr (file_name p));
    ("file_size", JInt (file_size p)); ("mime_type", JStr (mime_type p));
    ("sha256", JStr (sha256 p)); ("chunk_size", JInt (chunk_size p));
    ("chunk_count", JInt (chunk_count p)); ("sender_identity", JStr (sender_identity p));
    ("created_at", JInt (created_at p)); ("protocol_version", JInt (protocol_version p));
    ("batch_id", JStr (batch_id p)); ("relative_path", JStr (relative_path p))]%string.

Definition from_dict `{Hr : PyRepr} (d : jdict) : res t :=
  tid ← str_at d "transfer_id";
  fname ← str_at d "file_name";
  fsize ← int_at d "file_size";
  mime ← str_or d "mime_type" (u "application/octet-stream");
  sha ← str_or d "sha256" [];
  cs ← int_or d "chunk_size" 65536;
  cc ← int_or d "chunk_count" 0;
  sid ← str_or d "sender_identity" [];
  ca ← int_or d "created_at" 0;
  pv ← int_or d "protocol_version" PROTOCOL_VERSION;
  bid ← str_or d "batch_id" [];
  rp ← str_or d "relative_path" [];
  Ok (mk tid fname fsize mime sha cs cc sid ca pv bid rp).

Lemma from_to_dict `{Hr : PyRepr} p : from_dict (to_dict p) = Ok p.
Proof. by destruct p. Qed.
End TransferRequestPayload.

Module BatchRequestPayload.
Record t := mk {
  batch_id : pystr; batch_name : pystr; total_items : Z; total_bytes : Z;
  sender_identity : pystr; created_at : Z; protocol_version : Z }.

Definition to_dict (p : t) : jdict :=
  mkdict [("batch_id", JStr (batch_id p)); ("batch_name", JStr (batch_name p));
    ("total_items", JInt (total_items p)); ("total_bytes", JInt (total_bytes p));
    ("sender_identity", JStr (sender_identity p)); ("created_at", JInt (created_at p));
    ("protocol_version", JInt (protocol_version p))]%string.

Definition from_dict `{Hr : PyRepr} (d : jdict) : res t :=
  bid ← str_at d "batch_id";
  bname ← str_at d "batch_name";
  items ← int_at d "total_items";
  bytes ← int_at d "total_bytes";
  sid ← str_or d "sender_identity" [];
  ca ← int_or d "created_at" 0;
  pv ← int_or d "protocol_version" PROTOCOL_VERSION;
  Ok (mk bid bname items bytes sid ca pv).

Lemma batch_from_to_dict `{Hr : PyRepr} p : from_dict (to_dict p) = Ok p.
Proof. by destruct p. Qed.
End BatchRequestPayload.

Inductive ResumeRejectReason :=
  | SOURCE_MODIFIED | TRANSFER_NOT_FOUND | PARTIAL_CORRUPT | WRONG_PEER | STALE | PEER_CANCELLED.

Definition reason_value (r : ResumeRejectReason) : string :=
  match r with
  | SOURCE_MODIFIED => "SOURCE_MODIFIED"
  | TRANSFER_NOT_FOUND => "TRANSFER_NOT_FOUND"
  | PARTIAL_CORRUPT => "PARTIAL_CORRUPT"
  | WRONG_PEER => "WRONG_PEER"
  | STALE => "STALE"
  | PEER_CANCELLED => "PEER_CANCELLED"
  end.
Definition allowed_reasons : list pystr :=
  map (fun r => u (reason_value r))
    [SOURCE_MODIFIED; TRANSFER_NOT_FOUND; PARTIAL_CORRUPT; WRONG_PEER; STALE; PEER_CANCELLED].

(** The UUID test that the three resume payloads share. *)
Definition validate_uuid (s : pystr) : res unit :=
  raise_if (bool_decide (s = [])) ValueError;;
  raise_if (negb (is_ok (uuid_int s))) ValueError.

(** [for field_name in required: if field_name not in data: raise ValueError] *)
Definition require_keys (d : jdict) (keys : list string) : res unit :=
  raise_if (negb (forallb (has_key d) keys)) ValueError.

Lemma validate_uuid_Ok s x : validate_uuid s = Ok x <-> exists n, uuid_int s = Ok n.
Proof.
  unfold validate_uuid. destruct x. split.
  - intros H. res_inv. bool_prop. destruct (uuid_int s); [eauto|done].
  - intros (n & Hn). rewrite bool_decide_eq_false_2 by (intros ->; by vm_compute in Hn).
    cbn. by rewrite Hn.
Qed.

Module TransferResumeRequestPayload.
Record t := mk {
  transfer_id : pystr; resume_offset_bytes : Z; resume_chunk_index : Z;
  partial_sha256 : pystr; protocol_version : Z }.

Definition validate (chunk_size : Z) (p : t) : res unit :=
  validate_uuid (transfer_id p);;
  raise_if (resume_offset_bytes p <? 0) ValueError;;
  raise_if (resume_offset_bytes p >? TEN_GIB) ValueError;;
  raise_if (resume_chunk_index p <? 0) ValueError;;
  raise_if (negb (protocol_version p =? PROTOCOL_VERSION)) ValueError;;
  raise_if (negb (zlen (partial_sha256 p) =? 64) || negb (is_lower_hex (partial_sha256 p))) ValueError;;
  raise_if (chunk_size <=? 0) ValueError;;
  raise_if ((resume_chunk_index p =? 0) && negb (resume_offset_bytes p =? 0)) ValueError;;
  raise_if (negb (resume_offset_bytes p =? resume_chunk_index p * chunk_size)) ValueError.

(** The constructor runs [__post_init__], which validates with the default
    chunk size of 64 KiB. *)
Definition make (tid : pystr) (off idx : Z) (sha : pystr) (pv : Z) : res t :=
  let p := mk tid off idx sha pv in validate 65536 p;; Ok p.

Definition to_dict (p : t) : jdict :=
  mkdict [("transfer_id", JStr (transfer_id p));
    ("resume_offset_bytes", JInt (resume_offset_bytes p));
    ("resume_chunk_index", JInt (resume_chunk_index p));
    ("partial_sha256", JStr (partial_sha256 p));
    ("protocol_version", JInt (protocol_version p))]%string.

Definition from_dict `{Hr : PyRepr} (d : jdict) (chunk_size : Z) : res t :=
  require_keys d ["transfer_id"; "resume_offset_bytes"; "resume_chunk_index";
                  "partial_sha256"; "protocol_version"]%string;;
  tid ← str_at d "transfer_id";
  off ← int_at d "resume_offset_bytes";
  idx ← int_at d "resume_chunk_index";
  sha ← str_at d "partial_sha256";
  pv ← int_at d "protocol_version";
  inst ← make tid off idx sha pv;
  validate chunk_size inst;;
  Ok inst.

(** What a valid request is. *)
Definition valid (chunk_size : Z) (p : t) : Prop :=
  (exists n, uuid_int (transfer_id p) = Ok n)
  /\ 0 <= resume_offset_bytes p <= TEN_GIB
  /\ 0 <= resume_chunk_index p
  /\ protocol_version p = PROTOCOL_VERSION
  /\ zlen (partial_sha256 p) = 64 /\ is_lower_hex (partial_sha256 p) = true
  /\ 0 < chunk_size
  /\ resume_offset_bytes p = resume_chunk_index p * chunk_size.

Lemma validate_iff cs p : validate cs p = Ok tt <-> valid cs p.
Proof.
  unfold validate, valid. split.
  - intros H. res_inv. match goal with H : validate_uuid _ = _ |- _ => apply validate_uuid_Ok in H end.
    bool_prop. repeat match goal with H : _ |- _ => apply ltb_gtb_false in H end.
    repeat split; try done; lia.
  - intros (Hu%(validate_uuid_Ok _ tt) & ? & ? & Hp & Hl & Hh & ? & Ho). rewrite Hu, Hp, Hl, Hh. cbn.
    replace (_ <? 0) with false by lia. replace (_ >? TEN_GIB) with false by lia.
    replace (_ <? 0) with false by lia. replace (cs <=? 0) with false by lia. cbn.
    rewrite (proj2 (Z.eqb_eq _ _) Ho). cbn.
    destruct (Z.eqb_spec (resume_chunk_index p) 0) as [E|]; [|done].
    rewrite E in Ho. by replace (resume_offset_bytes p) with 0 by lia.
Qed.

Lemma validate_raises cs p e : validate cs p = Err e -> e = ValueError.
Proof.
  unfold validate, validate_uuid.
  repeat (intros [H|(? & ? & H)]%bind_Err;
    [try (by apply raise_if_Err in H as [_ ->]); revert H|revert H]).
  all: try (by intros [_ ->]%raise_if_Err).
Qed.
End TransferResumeRequestPayload.

Module TransferResumeAcceptPayload.
Record t := mk { transfer_id : pystr; resume_chunk_index : Z; protocol_version : Z }.

Definition validate (p : t) : res unit :=
  validate_uuid (transfer_id p);;
  raise_if (resume_chunk_index p <? 0) ValueError;;
  raise_if (negb (protocol_version p =? PROTOCOL_VERSION)) ValueError.

Definition to_dict (p : t) : jdict :=
  mkdict [("transfer_id", JStr (transfer_id p)); ("resume_chunk_index", JInt (resume_chunk_index p));
    ("protocol_version", JInt (protocol_version p))]%string.

Definition from_dict `{Hr : PyRepr} (d : jdict) : res t :=
  require_keys d ["transfer_id"; "resume_chunk_index"; "protocol_version"]%string;;
  tid ← str_at d "transfer_id";
  idx ← int_at d "resume_chunk_index";
  pv ← int_at d "protocol_version";
  let inst := mk tid idx pv in
  validate inst;; validate inst;;
  Ok inst.
End TransferResumeAcceptPayload.

Module TransferResumeRejectPayload.
Record t := mk { transfer_id : pystr; reason : pystr }.

Definition validate (p : t) : res unit :=
  validate_uuid (transfer_id p);;
  raise_if (negb (bool_decide (reason p ∈ allowed_reasons))) ValueError.

Definition to_dict (p : t) : jdict :=
  mkdict [("transfer_id", JStr (transfer_id p)); ("reason", JStr (reason p))]%string.

Definition from_dict `{Hr : PyRepr} (d : jdict) : res t :=
  require_keys d ["transfer_id"; "reason"]%string;;
  tid ← str_at d "transfer_id";
  rs ← str_at d "reason";
  let inst := mk tid rs in
  validate inst;; validate inst;;
  Ok inst.
End TransferResumeRejectPayload.

(** ** Notification mirroring *)

Definition MAX_NOTIFICATION_FRAME_BYTES : Z := 8 * 1024.
Definition NOTIF_MAX_TITLE : Z := 200.
Definition NOTIF_MAX_BODY : Z := 1000.
Definition NOTIF_MAX_PKG : Z := 255.
Definition NOTIF_MAX_LABEL : Z := 100.

(** [s[:n]] *)
Definition cut (n : Z) (s : pystr) : pystr := take (Z.to_nat n) s.

Module NotificationPostPayload.
Record t := mk {
  ferry_id : pystr; package : pystr; app_label : pystr; title : pystr;
  body : pystr; posted_at : Z; category : pystr }.

Definition from_dict `{Hr : PyRepr} (d : jdict) : res t :=
  require_keys d ["ferry_id"; "package"; "app_label"; "title"; "body"; "posted_at"]%string;;
  fid ← str_at d "ferry_id";
  pkg ← str_at d "package";
  label ← str_at d "app_label";
  ttl ← str_at d "title";
  bdy ← str_at d "body";
  posted ← int_at d "posted_at";
  cat ← str_or d "category" [];
  let fid := cut 64 fid in
  let pkg := cut NOTIF_MAX_PKG pkg in
  raise_if (bool_decide (fid = [])) ValueError;;
  raise_if (bool_decide (pkg = [])) ValueError;;
  Ok (mk fid pkg (cut NOTIF_MAX_LABEL label) (cut NOTIF_MAX_TITLE ttl)
         (cut NOTIF_MAX_BODY bdy) posted (cut 64 cat)).

Definition to_dict (p : t) : jdict :=
  mkdict [("ferry_id", JStr (ferry_id p)); ("package", JStr (package p));
    ("app_label", JStr (app_label p)); ("title", JStr (title p)); ("body", JStr (body p));
    ("posted_at", JInt (posted_at p)); ("category", JStr (category p))]%string.

(** [__repr__]: title and body are left out on purpose. *)
Definition repr `{Hr : PyRepr} (p : t) : res pystr :=
  posted ← str_of_int (posted_at p);
  Ok (u "NotificationPostPayload(ferry_id=" ++ str_repr (ferry_id p)
      ++ u ", package=" ++ str_repr (package p)
      ++ u ", app_label=" ++ str_repr (app_label p)
      ++ u ", posted_at=" ++ posted ++ u ")").

(** The limits every accepted notification obeys. *)
Definition bounded (p : t) : Prop :=
  0 < zlen (ferry_id p) <= 64 /\ 0 < zlen (package p) <= NOTIF_MAX_PKG
  /\ zlen (app_label p) <= NOTIF_MAX_LABEL /\ zlen (title p) <= NOTIF_MAX_TITLE
  /\ zlen (body p) <= NOTIF_MAX_BODY /\ zlen (category p) <= 64.
End NotificationPostPayload.

Module NotificationRemovePayload.
Record t := mk { ferry_id : pystr }.
Definition from_dict `{Hr : PyRepr} (d : jdict) : res t :=
  fid ← str_or d "ferry_id" [];
  raise_if (bool_decide (fid = [])) ValueError;;
  Ok (mk (cut 64 fid)).
Definition to_dict (p : t) : jdict := mkdict [("ferry_id", JStr (ferry_id p))]%string.
End NotificationRemovePayload.

(** The payloads that only carry fields: no [from_dict], [to_dict] is [asdict]. *)
Inductive SimplePayload :=
  | TransferAcceptPayload (transfer_id : pystr)
  | TransferRejectPayload (transfer_id reason : pystr)
  | TransferProgressPayload (transfer_id : pystr) (bytes_transferred total_bytes speed_bytes_per_sec : Z)
  | TransferCancelPayload (transfer_id reason : pystr)
  | TransferCompletePayload (transfer_id : pystr)
  | TransferResultPayload (transfer_id : pystr) (success : bool) (sha256 error : pystr)
  | BatchAcceptPayload (batch_id : pystr)
  | BatchRejectPayload (batch_id reason : pystr)
  | BatchCancelPayload (batch_id reason : pystr)
  | BatchCompletePayload (batch_id : pystr)
  | TransferErrorPayload (transfer_id error_code message : pystr).

Definition simple_to_dict (p : SimplePayload) : jdict :=
  mkdict match p with
  | TransferAcceptPayload tid | TransferCompletePayload tid => [("transfer_id", JStr tid)]
  | TransferRejectPayload tid r | TransferCancelPayload tid r =>
      [("transfer_id", JStr tid); ("reason", JStr r)]
  | TransferProgressPayload tid b t s =>
      [("transfer_id", JStr tid); ("bytes_transferred", JInt b); ("total_bytes", JInt t);
       ("speed_bytes_per_sec", JInt s)]
  | TransferResultPayload tid ok sha err =>
      [("transfer_id", JStr tid); ("success", JBool ok); ("sha256", JStr sha); ("error", JStr err)]
  | BatchAcceptPayload bid | BatchCompletePayload bid => [("batch_id", JStr bid)]
  | BatchRejectPayload bid r | BatchCancelPayload bid r =>
      [("batch_id", JStr bid); ("reason", JStr r)]
  | TransferErrorPayload tid c m =>
      [("transfer_id", JStr tid); ("error_code", JStr c); ("message", JStr m)]
  end%string.

(** ** Properties *)

Section payload_properties.
Context `{Hr : PyRepr}.
Import TransferResumeRequestPayload.

(** [TransferResumeRequestPayload.validate] accepts exactly the well-formed
    requests: a UUID, an offset within 10 GiB, protocol version 1, a
    64-character lowercase digest, and an offset that is the chunk index times
    the (positive) chunk size. *)
Theorem resume_validate_spec cs p : validate cs p = Ok tt <-> valid cs p.
Proof. apply validate_iff. Qed.

(** A valid resume request survives the wire: [from_dict] of its [to_dict]
    gives it back, and [from_dict] only ever returns valid requests. *)
Theorem resume_request_roundtrip :
  (forall p, valid 65536 p -> from_dict (to_dict p) 65536 = Ok p)
  /\ (forall d cs p, from_dict d cs = Ok p -> valid cs p).
Proof.
  split.
  - intros p Hv%validate_iff. unfold from_dict.
    assert (require_keys (to_dict p) ["transfer_id"; "resume_offset_bytes"; "resume_chunk_index";
              "partial_sha256"; "protocol_version"]%string = Ok tt) as -> by by vm_compute.
    cbn [mbind res_bind]. change (str_at (to_dict p) "transfer_id") with (Ok (transfer_id p)).
    change (int_at (to_dict p) "resume_offset_bytes") with (Ok (resume_offset_bytes p)).
    change (int_at (to_dict p) "resume_chunk_index") with (Ok (resume_chunk_index p)).
    change (str_at (to_dict p) "partial_sha256") with (Ok (partial_sha256 p)).
    change (int_at (to_dict p) "protocol_version") with (Ok (protocol_version p)).
    unfold make. destruct p. cbn -[validate] in *. rewrite Hv. cbn -[validate]. by rewrite Hv.
  - intros d cs p H. unfold from_dict in H. res_inv. by apply validate_iff.
Qed.

(** Because the constructor already validates with the default chunk size,
    [from_dict] with any other chunk size accepts no request but the one for
    offset zero: resuming a transfer with a negotiated chunk size below 64 KiB
    is refused whatever the request says. *)
Theorem resume_request_only_64k d cs p :
  from_dict d cs = Ok p -> cs <> 65536 -> resume_offset_bytes p = 0 /\ resume_chunk_index p = 0.
Proof.
  intros H Hcs. unfold from_dict, make in H. res_inv.
  repeat match goal with H : validate _ _ = Ok _ |- _ => apply validate_iff in H end.
  unfold valid in *. cbn in *. nia.
Qed.

Lemma length_cut n s : 0 <= n -> zlen (cut n s) <= n.
Proof. unfold zlen, cut. rewrite length_take. lia. Qed.

Lemma cut_cut n s : cut n (cut n s) = cut n s.
Proof. unfold cut. rewrite take_take. f_equal. lia. Qed.

Lemma cut_id n s : zlen s <= n -> cut n s = s.
Proof. unfold zlen, cut. intros. apply take_ge. lia. Qed.

(** Every notification [from_dict] accepts obeys the length limits of all
    its fields and has non-empty identifiers, and parsing its own [to_dict]
    again changes nothing (the truncation is idempotent). *)
Theorem notification_post_bounded d p :
  NotificationPostPayload.from_dict d = Ok p ->
  NotificationPostPayload.bounded p
  /\ NotificationPostPayload.from_dict (NotificationPostPayload.to_dict p) = Ok p.
Proof.
  unfold NotificationPostPayload.from_dict. intros H. res_inv. bool_prop.
  split.
  - unfold NotificationPostPayload.bounded; cbn.
    repeat split; try (by apply zlen_pos); by apply length_cut.
  - unfold NotificationPostPayload.to_dict; cbn [NotificationPostPayload.ferry_id
      NotificationPostPayload.package NotificationPostPayload.app_label
      NotificationPostPayload.title NotificationPostPayload.body
      NotificationPostPayload.posted_at NotificationPostPayload.category].
    match goal with |- context [require_keys ?d ?k] =>
      change (require_keys d k) with (Ok tt) end.
    cbn -[cut u]. unfold str_at, int_at, str_or, dindex, dget_or, dget, mkdict.
    cbn -[cut u]. vm_compute (decide _). cbn -[cut].
    rewrite !cut_cut. by rewrite !bool_decide_eq_false_2 by done.
Qed.
End payload_properties.
