(* ===== verification/Transfer.v ===== *)
(** * Transfers: states, metadata, chunk frames and file-name safety

    Models the stateless half of [core/transfer.py]: the transfer state
    machine, [TransferMetadata] with its validation, the binary [FYCH] chunk
    frame, [sanitise_filename] and [resolve_safe_destination].  The stateful
    halves are in [Incoming] and [Outgoing]. *)
From S2P Require Import Prelude PyStr Sha256 Json Protocol Payloads.

Definition CHUNK_MAGIC : bytes := map z2b (u "FYCH").
Definition CHUNK_HEADER_SIZE : Z := 28.
Definition CHUNK_SIZE : Z := 65536.
Definition MAX_CHUNK_PAYLOAD : Z := CHUNK_SIZE.
Definition MAX_FILE_NAME_BYTES : Z := 255.

(** ** The state machine of one transfer *)

Inductive TransferState :=
  | IDLE | REQUESTED | ACCEPTED | TRANSFERRING | CANCELLING
  | COMPLETED | FAILED | CANCELLED | INTERRUPTED | RESUME_REQUESTED | RESUMING.

#[export] Instance TransferState_eq_dec : EqDecision TransferState.
Proof. solve_decision. Defined.

Definition VALID_TRANSITIONS (s : TransferState) : list TransferState :=
  match s with
  | IDLE => [REQUESTED; ACCEPTED; TRANSFERRING; FAILED; CANCELLED]
  | REQUESTED => [ACCEPTED; FAILED; CANCELLED]
  | ACCEPTED => [TRANSFERRING; FAILED; CANCELLED]
  | TRANSFERRING => [CANCELLING; COMPLETED; FAILED; INTERRUPTED]
  | CANCELLING => [CANCELLED; FAILED]
  | COMPLETED => []
  | FAILED => []
  | CANCELLED => []
  | INTERRUPTED => [RESUME_REQUESTED; FAILED]
  | RESUME_REQUESTED => [RESUMING; FAILED]
  | RESUMING => [COMPLETED; INTERRUPTED; FAILED]
  end.

Definition transfer_transition (current new : TransferState) : res TransferState :=
  if bool_decide (new ∈ VALID_TRANSITIONS current) then Ok new else Err RuntimeError.

Inductive BatchState :=
  | B_REQUESTED | B_ACCEPTED | B_TRANSFERRING | B_COMPLETED | B_FAILED | B_CANCELLED | B_PARTIAL.

#[export] Instance BatchState_eq_dec : EqDecision BatchState.
Proof. solve_decision. Defined.

(** ** File names *)

(** [str.upper], as far as the comparison with the reserved names sees it: the
    ASCII letters, and every other character whose upper case is ASCII. *)
Definition upper_char (c : Z) : pystr :=
  if between 97 122 c then [c - 32]
  else if c =? 0xDF then u "SS" else if c =? 0x131 then u "I" else if c =? 0x17F then u "S"
  else if c =? 0xFB00 then u "FF" else if c =? 0xFB01 then u "FI" else if c =? 0xFB02 then u "FL"
  else if c =? 0xFB03 then u "FFI" else if c =? 0xFB04 then u "FFL"
  else if (c =? 0xFB05) || (c =? 0xFB06) then u "ST" else [c].
Definition upper (s : pystr) : pystr := concat (map upper_char s).

Definition RESERVED_NAMES : list pystr :=
  map u ["CON"; "PRN"; "AUX"; "NUL";
         "COM1"; "COM2"; "COM3"; "COM4"; "COM5"; "COM6"; "COM7"; "COM8"; "COM9";
         "LPT1"; "LPT2"; "LPT3"; "LPT4"; "LPT5"; "LPT6"; "LPT7"; "LPT8"; "LPT9"]%string.

Definition is_dot_slash (c : Z) : bool := (c =? 46) || (c =? SLASH).
Definition is_printing (c : Z) : bool := (32 <=? c) && negb (c =? 127).
Definition stem (name : pystr) : pystr := hd [] (split 46 name).

Definition sanitise_filename (raw : pystr) : res pystr :=
  let name := basename (remove_sub [0] (replace_char 92 SLASH raw)) in
  let name := lstrip is_dot_slash name in
  let name := List.filter is_printing name in
  encoded ← utf8_encode name;
  let name := utf8_decode_ignore (take (Z.to_nat MAX_FILE_NAME_BYTES) encoded) in
  if bool_decide (upper (stem name) ∈ RESERVED_NAMES) then Ok []
  else if bool_decide (name = []) || bool_decide (name ∈ [DOT; DOTDOT]) then Ok []
  else Ok name.

(** ** Destination paths *)

(** An absolute path is the list of its components. *)
Abbreviation path := (list pystr).

Definition path_str (p : path) : pystr := SLASH :: join [SLASH] p.

(** [base / s] *)
Definition path_comps (s : pystr) : path :=
  List.filter (fun c => negb (bool_decide (c = []) || bool_decide (c = DOT))) (split SLASH s).
Definition path_join (base : path) (s : pystr) : path :=
  if starts_with [SLASH] s then path_comps s else base ++ path_comps s.

(** The test on a normalised relative path, used twice in the source. *)
Definition path_traversal (norm : pystr) : bool :=
  starts_with [SLASH] norm || starts_with [92] norm || starts_with DOTDOT norm
  || contains ([SLASH] ++ DOTDOT ++ [SLASH]) norm || contains ([92] ++ DOTDOT ++ [92]) norm.

Section resolve.
(** [Path.resolve()]: the operating system follows symbolic links. *)
Variable realpath : path -> res path.

Definition resolve_safe_destination (staging_dir : path) (file_name relative_path : pystr) : res path :=
  sanitised ← sanitise_filename file_name;
  raise_if (bool_decide (sanitised = [])) ValueError;;
  dest ← (if negb (bool_decide (relative_path = [])) then
            let norm_rel := normpath relative_path in
            raise_if (path_traversal norm_rel) SecurityError;;
            realpath (path_join staging_dir norm_rel)
          else realpath (path_join staging_dir sanitised));
  staging_resolved ← realpath staging_dir;
  raise_if (negb (starts_with (path_str staging_resolved ++ [SLASH]) (path_str dest))
            && negb (bool_decide (dest = staging_resolved))) SecurityError;;
  Ok dest.
End resolve.

(** ** Metadata *)

Record TransferMetadata := {
  m_transfer_id : pystr;
  m_file_name : pystr;
  m_file_size : Z;
  m_mime_type : pystr;
  m_sha256 : pystr;
  m_chunk_size : Z;
  m_chunk_count : Z;
  m_sender_identity : pystr;
  m_created_at : Z;
  m_protocol_version : Z;
  m_batch_id : pystr;
  m_relative_path : pystr
}.

Definition is_hex_any (c : Z) : bool := is_hex c || between 65 70 c.
Definition lower_hex (s : pystr) : pystr := map (fun c => if between 65 70 c then c + 32 else c) s.
Definition expected_chunks (file_size chunk_size : Z) : Z :=
  if file_size >? 0 then (file_size + chunk_size - 1) / chunk_size else 0.

Definition metadata_from_dict `{Hr : PyRepr} (now : Z) (d : jdict) : res TransferMetadata :=
  tid ← str_at d "transfer_id";
  _ ← uuid_int tid;
  raw_name ← str_or d "file_name" [];
  fname ← sanitise_filename raw_name;
  raise_if (bool_decide (fname = [])) ValueError;;
  rp ← str_or d "relative_path" [];
  rel ← (if negb (bool_decide (rp = [])) then
           let norm_path := normpath rp in
           raise_if (path_traversal norm_path) ValueError;; Ok norm_path
         else Ok rp);
  fsize ← int_at d "file_size";
  raise_if (fsize <? 0) ValueError;;
  raise_if (fsize >? TEN_GIB) ValueError;;
  cs ← int_or d "chunk_size" CHUNK_SIZE;
  raise_if ((cs <=? 0) || (cs >? MAX_CHUNK_PAYLOAD)) ValueError;;
  cc ← int_or d "chunk_count" (-1);
  raise_if (negb (cc =? expected_chunks fsize cs)) ValueError;;
  sha ← str_or d "sha256" [];
  raise_if (negb (zlen sha =? 64) || negb (forallb is_hex_any sha)) ValueError;;
  mime ← str_or d "mime_type" (u "application/octet-stream");
  sid ← str_or d "sender_identity" [];
  created ← int_or d "created_at" now;
  pv ← int_or d "protocol_version" 1;
  bid ← str_or d "batch_id" [];
  Ok {| m_transfer_id := tid; m_file_name := fname; m_file_size := fsize; m_mime_type := mime;
        m_sha256 := lower_hex sha; m_chunk_size := cs; m_chunk_count := cc;
        m_sender_identity := sid; m_created_at := created; m_protocol_version := pv;
        m_batch_id := bid; m_relative_path := rel |}.

Definition metadata_to_dict (m : TransferMetadata) : jdict :=
  mkdict [("transfer_id", JStr (m_transfer_id m)); ("file_name", JStr (m_file_name m));
    ("file_size", JInt (m_file_size m)); ("mime_type", JStr (m_mime_type m));
    ("sha256", JStr (m_sha256 m)); ("chunk_size", JInt (m_chunk_size m));
    ("chunk_count", JInt (m_chunk_count m)); ("sender_identity", JStr (m_sender_identity m));
    ("created_at", JInt (m_created_at m)); ("protocol_version", JInt (m_protocol_version m));
    ("batch_id", JStr (m_batch_id m)); ("relative_path", JStr (m_relative_path m))]%string.

(** ** Binary chunk frames *)

Record ChunkFrame := { f_transfer_id : pystr; f_seq : Z; f_data : bytes }.

(** [uuid.UUID(s).bytes] *)
Definition uuid_bytes (s : pystr) : res bytes := n ← uuid_int s; Ok (be_bytes 16 n).

Definition encode_chunk_frame (transfer_id : pystr) (seq : Z) (data : bytes) : res bytes :=
  raise_if (zlen data >? MAX_CHUNK_PAYLOAD) ValueError;;
  uid_bytes ← uuid_bytes transfer_id;
  seq4 ← pack_I seq;
  len4 ← pack_I (zlen data);
  Ok ((CHUNK_MAGIC ++ uid_bytes ++ seq4 ++ len4) ++ data).

Definition decode_chunk_frame (plaintext : bytes) : res ChunkFrame :=
  raise_if (zlen plaintext <? CHUNK_HEADER_SIZE) ValueError;;
  raise_if (negb (bool_decide (slice 0 4 plaintext = CHUNK_MAGIC))) ValueError;;
  let transfer_id := uuid_str (be_val (slice 4 20 plaintext)) in
  let seq := be_val (slice 20 24 plaintext) in
  let payload_len := be_val (slice 24 28 plaintext) in
  raise_if (payload_len >? MAX_CHUNK_PAYLOAD) ValueError;;
  raise_if (zlen plaintext <? 28 + payload_len) ValueError;;
  Ok {| f_transfer_id := transfer_id; f_seq := seq;
        f_data := slice 28 (28 + payload_len) plaintext |}.

Definition is_chunk_frame (plaintext : bytes) : bool := bool_decide (slice 0 4 plaintext = CHUNK_MAGIC).

Example sanitise_ex :
  map sanitise_filename [u "../../etc/passwd"; u "C:\dir\photo.jpg"; u "con.txt"; u ".."; u ".bashrc"; [1; 46; 104]]
  = [Ok (u "passwd"); Ok (u "photo.jpg"); Ok []; Ok []; Ok (u "bashrc"); Ok [46; 104]].
Proof. vm_compute. reflexivity. Qed.

(** Sanitising twice is not sanitising once: the dots go before the control
    characters do.  What was accepted may lose its dot, or be rejected. *)
Theorem sanitise_not_idempotent :
  map sanitise_filename [[1; 46; 104]; [46; 104]] = [Ok [46; 104]; Ok [104]]
  /\ map sanitise_filename [1 :: u ".con"; u ".con"] = [Ok (u ".con"); Ok []].
Proof. by vm_compute. Qed.

(** ** The state machine *)

Definition terminal (s : TransferState) : Prop := s = COMPLETED \/ s = FAILED \/ s = CANCELLED.

(** One accepted transition. *)
Definition tstep (s s' : TransferState) : Prop := transfer_transition s s' = Ok s'.

Lemma transfer_transition_Ok s s' x :
  transfer_transition s s' = Ok x <-> x = s' /\ s' ∈ VALID_TRANSITIONS s.
Proof. unfold transfer_transition. case_bool_decide; naive_solver. Qed.

Lemma transfer_transition_raises s s' e : transfer_transition s s' = Err e -> e = RuntimeError.
Proof. unfold transfer_transition. case_bool_decide; naive_solver. Qed.

(** The transfer state machine: a terminal state is never left, and no
    sequence of accepted transitions leads from [IDLE] to [COMPLETED] or
    [INTERRUPTED] without passing through [TRANSFERRING]. *)
Theorem transfer_states_safe :
  (forall s s', terminal s -> ~ tstep s s')
  /\ (forall s, rtc (fun a b => tstep a b /\ b <> TRANSFERRING) IDLE s ->
      s <> COMPLETED /\ s <> INTERRUPTED).
Proof.
  split.
  - intros s s' Hs [_ H]%transfer_transition_Ok. destruct Hs as [-> | [-> | ->]]; by apply elem_of_nil in H.
  - assert (forall a b, rtc (fun a b => tstep a b /\ b <> TRANSFERRING) a b ->
      a ∈ [IDLE; REQUESTED; ACCEPTED; FAILED; CANCELLED] -> b ∈ [IDLE; REQUESTED; ACCEPTED; FAILED; CANCELLED]) as H.
    { induction 1 as [|a b c [[_ Hab]%transfer_transition_Ok Hb] _ IH]; [done|]. intros Ha. apply IH.
      destruct a; cbn in Hab; set_solver. }
    intros s Hs. apply H in Hs; [|set_solver]. set_solver.
Qed.

(** ** Chunk frames *)

Lemma uuid_bytes_Ok s b : uuid_bytes s = Ok b <-> exists n, uuid_int s = Ok n /\ b = be_bytes 16 n.
Proof. unfold uuid_bytes. rewrite bind_Ok. naive_solver. Qed.

Lemma uuid_bytes_val s n : uuid_int s = Ok n -> be_val (be_bytes 16 n) = n.
Proof. intros Hn%uuid_int_range. apply be_val_bytes. done. Qed.

Lemma encode_chunk_Ok tid seq data b :
  encode_chunk_frame tid seq data = Ok b <-> exists n,
    uuid_int tid = Ok n /\ zlen data <= MAX_CHUNK_PAYLOAD /\ 0 <= seq < 2 ^ 32
    /\ b = CHUNK_MAGIC ++ be_bytes 16 n ++ be_bytes 4 seq ++ be_bytes 4 (zlen data) ++ data.
Proof.
  unfold encode_chunk_frame. split.
  - intros H. res_inv. repeat match goal with
      | H : uuid_bytes _ = _ |- _ => apply uuid_bytes_Ok in H as (n & Hn & ->)
      | H : pack_I _ = _ |- _ => apply pack_I_Ok in H as [? ->]
      | H : _ >? _ = false |- _ => apply ltb_gtb_false in H end.
    exists n. repeat split; try done; try lia.
  - intros (n & Hn & Hd & Hs & ->). replace (_ >? _) with false by lia. cbn [raise_if mbind res_bind].
    rewrite (proj2 (uuid_bytes_Ok _ _) (ex_intro _ n (conj Hn eq_refl))). cbn [mbind res_bind].
    rewrite (proj2 (pack_I_Ok seq _) (conj Hs eq_refl)). cbn [mbind res_bind].
    pose proof (zlen_nonneg data). unfold MAX_CHUNK_PAYLOAD, CHUNK_SIZE in Hd.
    assert (0 <= zlen data < 2 ^ 32) as Hz by lia.
    rewrite (proj2 (pack_I_Ok (zlen data) _) (conj Hz eq_refl)).
    cbn [mbind res_bind]. by rewrite <-!app_assoc.
Qed.

(** The reads of the decoder on a header followed by anything. *)
Lemma chunk_slices (a c d rest : bytes) :
  length a = 16%nat -> length c = 4%nat -> length d = 4%nat ->
  let p := CHUNK_MAGIC ++ a ++ c ++ d ++ rest in
  slice 0 4 p = CHUNK_MAGIC /\ slice 4 20 p = a /\ slice 20 24 p = c /\ slice 24 28 p = d
  /\ (forall k, slice 28 (28 + k) p = take (Z.to_nat k) rest) /\ zlen p = 28 + zlen rest.
Proof.
  intros Ha Hc Hd p. unfold p.
  assert (forall x y (l k r : bytes), Z.of_nat (length l) = x -> 0 <= x -> Z.of_nat (length k) = y - x ->
    slice x y (l ++ k ++ r) = k) as Hs.
  { intros x y l k r Hx Hx0 Hy. rewrite slice_app_r by (unfold zlen; lia). apply take_all_app. lia. }
  split; [done|]. split; [by apply Hs; rewrite ?Ha|].
  split; [rewrite (app_assoc CHUNK_MAGIC); apply Hs; rewrite ?length_app, ?Ha, ?Hc; done|].
  split; [rewrite (app_assoc CHUNK_MAGIC), (app_assoc (_ ++ a)); apply Hs; rewrite ?length_app, ?Ha, ?Hc, ?Hd; done|].
  split.
  - intros k. rewrite (app_assoc CHUNK_MAGIC), (app_assoc (_ ++ a)), (app_assoc ((_ ++ a) ++ c)).
    rewrite slice_app_r; [f_equal; lia|lia|]. unfold zlen. rewrite !length_app, Ha, Hc, Hd. done.
  - rewrite !zlen_app. unfold zlen at 1 2 3 4. rewrite Ha, Hc, Hd. cbn. lia.
Qed.

Lemma decode_encoded tid seq data b rest :
  encode_chunk_frame tid seq data = Ok b ->
  exists n, uuid_int tid = Ok n
     /\ decode_chunk_frame (b ++ rest) = Ok {| f_transfer_id := uuid_str n; f_seq := seq; f_data := data |}.
Proof.
  intros (n & Hn & Hd & Hs & ->)%encode_chunk_Ok.
  exists n. split; [done|].
  destruct (chunk_slices (be_bytes 16 n) (be_bytes 4 seq) (be_bytes 4 (zlen data)) (data ++ rest))
    as (H1 & H2 & H3 & H4 & H5 & H6); [apply length_be_bytes..|].
  rewrite <-!app_assoc. pose proof (zlen_nonneg data). pose proof (zlen_nonneg rest).
  rewrite (zlen_app data) in H6. unfold MAX_CHUNK_PAYLOAD, CHUNK_SIZE in Hd.
  unfold decode_chunk_frame, CHUNK_HEADER_SIZE. rewrite H1, H2, H3, H4, H5, H6.
  rewrite (uuid_bytes_val tid) by done. rewrite !be_val_bytes by (cbn; lia).
  replace (_ <? 28) with false by lia. rewrite bool_decide_eq_true_2 by done. cbn [negb raise_if mbind res_bind].
  unfold MAX_CHUNK_PAYLOAD, CHUNK_SIZE.
  replace (_ >? _) with false by lia. cbn [raise_if mbind res_bind].
  replace (_ <? _) with false by lia. cbn [raise_if mbind res_bind].
  rewrite take_all_app by (unfold zlen; lia). done.
Qed.

(** Chunk frames round-trip: decoding an encoded chunk, whatever follows it,
    gives back the sequence number and the data, and the transfer's UUID in
    canonical form. *)
Theorem chunk_roundtrip tid seq data b rest :
  encode_chunk_frame tid seq data = Ok b ->
  is_chunk_frame b = true
  /\ exists n, uuid_int tid = Ok n
     /\ decode_chunk_frame (b ++ rest)
        = Ok {| f_transfer_id := uuid_str n; f_seq := seq; f_data := data |}.
Proof.
  intros H. split; [|by apply decode_encoded]. apply encode_chunk_Ok in H as (n & _ & _ & _ & ->).
  unfold is_chunk_frame. by apply bool_decide_eq_true_2.
Qed.

(** C34. On any plaintext [decode_chunk_frame] either raises [ValueError] or
    returns at most 64 KiB of data, a 32-bit sequence number and a canonical
    UUID, and re-encoding what it returned reproduces the bytes it read. *)
Theorem chunk_decode_sound p :
  match decode_chunk_frame p with
  | Ok f => zlen (f_data f) <= MAX_CHUNK_PAYLOAD /\ 0 <= f_seq f < 2 ^ 32
            /\ encode_chunk_frame (f_transfer_id f) (f_seq f) (f_data f)
               = Ok (slice 0 (28 + zlen (f_data f)) p)
  | Err e => e = ValueError
  end.
Proof.
  unfold decode_chunk_frame, CHUNK_HEADER_SIZE.
  destruct (zlen p <? 28) eqn:E28; [done|]. cbn [raise_if mbind res_bind]. bool_prop.
  destruct (bool_decide _) eqn:Em; [|done]. cbn [negb raise_if mbind res_bind]. bool_prop.
  destruct (_ >? _) eqn:El; [done|]. cbn [raise_if mbind res_bind]. apply ltb_gtb_false in El.
  destruct (zlen p <? 28 + be_val (slice 24 28 p)) eqn:Et; [done|].
  cbn [raise_if mbind res_bind f_data f_seq f_transfer_id]. bool_prop.
  assert (forall a b, 0 <= a -> a <= b -> b <= 28 -> length (slice a b p) = Z.to_nat (b - a)) as Hlen.
  { intros a b ???. unfold slice, zlen in *. rewrite length_take, length_drop. lia. }
  assert (length (slice 4 20 p) = 16%nat) as L1 by (rewrite Hlen; done || lia).
  assert (length (slice 20 24 p) = 4%nat) as L2 by (rewrite Hlen; done || lia).
  assert (length (slice 24 28 p) = 4%nat) as L3 by (rewrite Hlen; done || lia).
  pose proof (be_val_range (slice 4 20 p)) as R1. pose proof (be_val_range (slice 20 24 p)) as R2.
  pose proof (be_val_range (slice 24 28 p)) as R3. rewrite L1 in R1. rewrite L2 in R2. rewrite L3 in R3.
  change (256 ^ Z.of_nat 16) with (2 ^ 128) in R1. change (256 ^ Z.of_nat 4) with (2 ^ 32) in R2, R3.
  set (k := be_val (slice 24 28 p)) in *.
  assert (zlen (slice 28 (28 + k) p) = k) as Hk by (rewrite zlen_slice; lia).
  rewrite Hk. split; [done|]. split; [done|].
  apply encode_chunk_Ok. exists (be_val (slice 4 20 p)).
  rewrite uuid_int_str by done. split; [done|]. rewrite Hk. split; [done|]. split; [done|].
  rewrite <-Em at 1.
  pose proof (be_bytes_val (slice 4 20 p)) as B1. rewrite L1 in B1.
  pose proof (be_bytes_val (slice 20 24 p)) as B2. rewrite L2 in B2.
  pose proof (be_bytes_val (slice 24 28 p)) as B3. rewrite L3 in B3.
  rewrite B1, B2. fold k in B3. rewrite B3.
  assert (forall a b c, 0 <= a -> a <= b -> b <= c -> slice a b p ++ slice b c p = slice a c p) as Hcat.
  { intros a b c ???. unfold slice.
    replace (Z.to_nat (c - a)) with (Z.to_nat (b - a) + Z.to_nat (c - b))%nat by lia.
    rewrite <-take_take_drop, drop_drop. do 3 f_equal. lia. }
  rewrite !Hcat by lia. done.
Qed.

(** ** File names *)

(** What makes a name safe to join to the download directory. *)
Definition safe_name (n : pystr) : Prop :=
  n <> [] /\ Forall (fun c => c <> SLASH /\ c <> 92 /\ 32 <= c /\ c <> 127) n
  /\ n <> DOT /\ n <> DOTDOT
  /\ (exists b, utf8_encode n = Ok b /\ zlen b <= MAX_FILE_NAME_BYTES)
  /\ upper (stem n) ∉ RESERVED_NAMES.

Lemma sanitise_spec raw n : sanitise_filename raw = Ok n -> n = [] \/ safe_name n.
Proof.
  unfold sanitise_filename. set (r := replace_char 92 SLASH raw).
  set (nm := List.filter is_printing (lstrip is_dot_slash (basename (remove_sub [0] r)))).
  intros (enc & Henc & H)%bind_Ok.
  destruct (utf8_ignore_truncated (Z.to_nat MAX_FILE_NAME_BYTES) nm enc Henc) as (p & Hp & Hpre & Hlen).
  rewrite Hp in H. destruct (bool_decide (upper _ ∈ _)) eqn:E1; [left; congruence|].
  destruct (bool_decide (p = []) || _) eqn:E2; [left; congruence|]. injection H as ->.
  bool_prop. right.
  assert (Hchars : forall c, c ∈ n -> c <> SLASH /\ c <> 92 /\ 32 <= c /\ c <> 127).
  { intros c Hc. destruct Hpre as [k Hk].
    assert (c ∈ nm) as Hin by (rewrite Hk; apply elem_of_app; by left). unfold nm in Hin.
    apply list_elem_of_In, filter_In in Hin as [Hin Hpr]. unfold is_printing in Hpr.
    apply list_elem_of_In, elem_of_lstrip in Hin.
    assert (c <> SLASH) as Hc47 by (intros ->; by apply basename_no_slash in Hin).
    apply elem_of_basename, elem_of_remove_go in Hin. unfold r, replace_char in Hin.
    apply list_elem_of_fmap in Hin as (c0 & Hc0 & _).
    split; [done|]. split; [|lia].
    destruct (Z.eqb_spec c0 92); unfold SLASH in *; congruence. }
  assert (forallb is_scalar n = true) as Hsc.
  { apply utf8_encode_Ok in Henc as [Hs _]. destruct Hpre as [k Hk]. rewrite Hk, forallb_app in Hs.
    by apply andb_true_iff in Hs as [? _]. }
  unfold safe_name. split; [done|]. split; [by apply Forall_forall|].
  split; [set_solver|]. split; [set_solver|]. split; [|done].
  exists (concat (map utf8_char n)). split; [by apply utf8_encode_Ok|]. unfold zlen, MAX_FILE_NAME_BYTES in *. lia.
Qed.

Lemma sanitise_id n : safe_name n -> hd 0 n <> 46 -> sanitise_filename n = Ok n.
Proof.
  intros (Hne & Hch & Hd & Hdd & (b & Hb & Hlen) & Hres) Hhd. unfold sanitise_filename.
  rewrite Forall_forall in Hch.
  assert (replace_char 92 SLASH n = n) as ->.
  { unfold replace_char. rewrite <-(map_id n) at 2. apply map_ext_in. intros c Hc%list_elem_of_In%Hch.
    destruct Hc as (_ & Hc92 & _). by destruct (Z.eqb_spec c 92). }
  unfold remove_sub. rewrite (remove_go_absent [0] 0) by (done || (intros Hc%Hch; lia)).
  rewrite basename_id by (intros Hc%Hch; naive_solver).
  rewrite lstrip_id.
  2:{ intros c Hc. destruct n as [|c' n]; [done|]. cbn in Hc, Hhd. injection Hc as ->.
      unfold is_dot_slash. destruct (Hch c) as (? & _); [set_solver|]. unfold SLASH in *. lia. }
  assert (List.filter is_printing n = n) as ->.
  { clear -Hch. induction n as [|c n IH]; [done|]. cbn. unfold is_printing at 1.
    destruct (Hch c) as (_ & _ & ? & ?); [set_solver|].
    replace (_ && _) with true by lia. f_equal. apply IH. intros; apply Hch; set_solver. }
  rewrite Hb. cbn [mbind res_bind].
  rewrite take_ge by (unfold zlen, MAX_FILE_NAME_BYTES in *; lia).
  assert (utf8_decode_ignore b = n) as ->.
  { apply utf8_encode_Ok in Hb as [Hs ->]. unfold utf8_decode_ignore.
    rewrite <-(app_nil_r (concat _)), utf8_dec_concat by done. cbn. by rewrite app_nil_r. }
  rewrite !bool_decide_eq_false_2; [done|set_solver|done|done].
Qed.

Lemma sanitise_raises raw e : sanitise_filename raw = Err e -> e = UnicodeError.
Proof.
  unfold sanitise_filename. intros [H|(enc & _ & H)]%bind_Err; [|by repeat case_match].
  unfold utf8_encode in H. case_match; naive_solver.
Qed.

(** [sanitise_filename] never lets a path through: for every remote
    string it raises [UnicodeError] (a lone surrogate), rejects the name, or
    returns a non-empty name without separators or control characters, other
    than [.] and [..], of at most 255 bytes, whose stem is not reserved; and it
    leaves every such name that does not start with a dot unchanged. *)
Theorem sanitise_filename_safe :
  (forall raw, match sanitise_filename raw with
               | Ok n => n = [] \/ safe_name n
               | Err e => e = UnicodeError
               end)
  /\ (forall n, safe_name n -> hd 0 n <> 46 -> sanitise_filename n = Ok n).
Proof.
  split; [|apply sanitise_id]. intros raw.
  destruct (sanitise_filename raw) eqn:E; [by apply sanitise_spec in E | by apply sanitise_raises in E].
Qed.

(** ** Destinations *)

(** A resolved path has no empty component and no slash inside one. *)
Definition comps_ok (p : path) : Prop := Forall (fun c => c <> [] /\ SLASH ∉ c) p.

Lemma join_cons_slash (x y : pystr) l : join [SLASH] (x :: y :: l) = x ++ SLASH :: join [SLASH] (y :: l).
Proof. done. Qed.

Lemma app_sep_not_single (x y k : pystr) : SLASH ∉ y -> x ++ SLASH :: k <> y.
Proof. intros Hy <-. apply Hy, elem_of_app. right. by apply elem_of_cons; left. Qed.

Lemma join_prefix a b k :
  comps_ok a -> comps_ok b -> a <> [] ->
  join [SLASH] b = join [SLASH] a ++ SLASH :: k -> exists s, b = a ++ s.
Proof.
  intros Ha Hb. revert a k Ha; induction Hb as [|y b [Hy Hys] Hb IH]; intros a k Ha Hne Hj.
  - symmetry in Hj. apply app_eq_nil in Hj as [_ Hj]. discriminate Hj.
  - destruct Ha as [|x a [Hx Hxs] Ha]; [done|].
    destruct b as [|y' b].
    + exfalso. destruct a as [|x' a].
      * symmetry in Hj. exact (app_sep_not_single _ _ _ Hys Hj).
      * rewrite join_cons_slash, <-app_assoc in Hj. symmetry in Hj. exact (app_sep_not_single _ _ _ Hys Hj).
    + rewrite join_cons_slash in Hj. destruct a as [|x' a].
      * cbn [join] in Hj. apply sep_split_eq in Hj as [-> _]; [|done..]. by eexists.
      * rewrite join_cons_slash, <-app_assoc in Hj. cbn [app] in Hj.
        apply sep_split_eq in Hj as [-> Hj]; [|done..].
        destruct (IH (x' :: a) k) as (s & Hs); [done..|]. exists s. cbn in *. by rewrite Hs.
Qed.

Lemma path_str_prefix a b :
  comps_ok a -> comps_ok b ->
  starts_with (path_str a ++ [SLASH]) (path_str b) = true -> exists s, b = a ++ s.
Proof.
  intros Ha Hb (k & Hk)%starts_with_spec. unfold path_str in Hk. cbn in Hk.
  injection Hk as Hk. destruct a as [|x a]; [by exists b|].
  eapply (join_prefix _ _ k); [done..|]. rewrite Hk. by rewrite <-app_assoc.
Qed.

(** [resolve] when no symbolic link is involved. *)
Definition lexical_step (acc : path) (c : pystr) : path :=
  if bool_decide (c = DOTDOT) then tl acc
  else if bool_decide (c = []) || bool_decide (c = DOT) then acc else c :: acc.
Definition lexical_realpath (p : path) : res path :=
  if existsb (fun c => bool_decide (0 ∈ c)) p then Err ValueError
  else Ok (rev (fold_left lexical_step p [])).

Lemma lexical_normal p : Forall normal_comp p -> Forall (fun c => 0 ∉ c) p -> lexical_realpath p = Ok p.
Proof.
  intros Hp H0. unfold lexical_realpath.
  assert (existsb (fun c => bool_decide (0 ∈ c)) p = false) as ->.
  { apply not_true_iff_false. intros (c & Hc & H)%existsb_exists. bool_prop.
    rewrite Forall_forall in H0. apply (H0 c); [by apply list_elem_of_In | done]. }
  assert (forall acc, fold_left lexical_step p acc = rev p ++ acc) as H; [|by rewrite H, app_nil_r, rev_involutive].
  clear H0. induction Hp as [|c p (H1 & H2 & H3 & _) _ IH]; intros acc; cbn; [done|].
  unfold lexical_step at 2. rewrite !bool_decide_eq_false_2 by done. cbn. by rewrite IH, <-app_assoc.
Qed.

Lemma path_comps_join l : Forall normal_comp l -> path_comps (join [SLASH] l) = l.
Proof.
  intros Hl. unfold path_comps. destruct l as [|x l]; [by vm_compute|].
  rewrite split_join; [|done|eapply Forall_impl; [exact Hl|]; by intros w (_ & _ & _ & ?)].
  induction Hl as [|c p (H1 & H2 & H3 & _) _ IH]; cbn; [done|].
  rewrite !bool_decide_eq_false_2 by done. cbn. by f_equal.
Qed.

Lemma path_traversal_rel norm :
  path_traversal norm = false -> starts_with [SLASH] norm = false /\ starts_with DOTDOT norm = false.
Proof. unfold path_traversal. intros H. bool_prop. done. Qed.

(** What the offer names below the directory: the sanitised name, or the
    normalised relative path. *)
Definition asked_name (n rel : pystr) : pystr := if bool_decide (rel = []) then n else normpath rel.

Section resolve_spec.
Context (realpath : path -> res path).
(** The operating system returns well-formed component lists. *)
Hypothesis realpath_ok : forall p q, realpath p = Ok q -> comps_ok q.

Lemma resolve_inside dir fname rel dest :
  resolve_safe_destination realpath dir fname rel = Ok dest ->
  exists base s n, realpath dir = Ok base /\ dest = base ++ s
    /\ sanitise_filename fname = Ok n /\ safe_name n /\ realpath (path_join dir (asked_name n rel)) = Ok dest.
Proof.
  unfold resolve_safe_destination. intros H.
  apply bind_Ok in H as (n & Hn & H). apply bind_Ok in H as (? & Hne & H).
  apply bind_Ok in H as (d & Hd & H). apply bind_Ok in H as (base & Hb & H).
  apply bind_Ok in H as (? & Hr & [= <-]). apply raise_if_Ok in Hr, Hne. apply bool_decide_eq_false in Hne.
  destruct (sanitise_spec _ _ Hn) as [|Hs]; [done|].
  assert (realpath (path_join dir (asked_name n rel)) = Ok d) as Hp.
  { unfold asked_name. destruct (bool_decide (rel = [])); cbn [negb] in Hd; [done|]. apply bind_Ok in Hd as (? & _ & ?). done. }
  cut (exists s, d = base ++ s); [intros [s ->]; by exists base, s, n|].
  apply andb_false_iff in Hr as [Hr|Hr]; bool_prop.
  - destruct (path_str_prefix base d) as (s & ->); eauto.
  - exists []. by rewrite app_nil_r.
Qed.
End resolve_spec.

Lemma join_app q l : q <> [] -> l <> [] -> join [SLASH] (q ++ l) = join [SLASH] q ++ SLASH :: join [SLASH] l.
Proof.
  intros Hq Hl. induction q as [|x q IH]; [done|]. destruct q as [|y q].
  - cbn [app]. by destruct l.
  - cbn [app]. rewrite !join_cons_slash, <-app_assoc. cbn [app] in *. by rewrite IH.
Qed.

Lemma zero_notin_comps l : 0 ∉ join [SLASH] l -> Forall (fun c : pystr => 0 ∉ c) l.
Proof.
  induction l as [|x l IH]; intros H; [constructor|]. destruct l as [|y l].
  - by constructor.
  - rewrite join_cons_slash in H. rewrite elem_of_app, elem_of_cons in H.
    constructor; [tauto|]. apply IH. tauto.
Qed.

(** The last step of the resolution, when nothing is a symbolic link. *)
Lemma resolve_check_lexical (dir l : path) :
  dir <> [] -> Forall normal_comp dir -> Forall (fun c => 0 ∉ c) dir ->
  Forall normal_comp l -> Forall (fun c => 0 ∉ c) l ->
  (dest ← lexical_realpath (dir ++ l);
   staging ← lexical_realpath dir;
   raise_if (negb (starts_with (path_str staging ++ [SLASH]) (path_str dest))
             && negb (bool_decide (dest = staging))) SecurityError;;
   Ok dest) = Ok (dir ++ l).
Proof.
  intros Hne Hd Hd0 Hl Hl0.
  rewrite !lexical_normal by (done || by apply Forall_app). cbn [mbind res_bind].
  destruct l as [|x l].
  - rewrite app_nil_r, bool_decide_eq_true_2 by done. by rewrite andb_false_r.
  - assert (starts_with (path_str dir ++ [SLASH]) (path_str (dir ++ x :: l)) = true) as ->; [|done].
    apply starts_with_spec. exists (join [SLASH] (x :: l)). unfold path_str.
    rewrite join_app by done. cbn [app]. by rewrite <-app_assoc.
Qed.

Lemma safe_name_normal n : safe_name n -> normal_comp n /\ 0 ∉ n.
Proof.
  intros (Hne & Hch & Hd & Hdd & _). rewrite Forall_forall in Hch. split.
  - repeat split; try done. intros H%Hch. naive_solver.
  - intros H%Hch. lia.
Qed.

(** C12. Whatever the file name and relative path a peer sends, and whatever the
    symbolic links do, a destination that [resolve_safe_destination] returns is
    the resolved download directory or a path inside it, and it is what the
    sanitised name or the normalised relative path resolves to below the
    directory.  With no symbolic links it does return a destination for every
    acceptable name, the sanitised name or the components of the normalised
    relative path appended to the directory; it is strictly inside unless that
    path is a single dot, which gives the directory itself. *)
Theorem resolve_contained realpath dir fname rel :
  (forall p q, realpath p = Ok q -> comps_ok q) ->
  (forall dest, resolve_safe_destination realpath dir fname rel = Ok dest ->
     exists base s n, realpath dir = Ok base /\ dest = base ++ s
       /\ sanitise_filename fname = Ok n /\ safe_name n /\ realpath (path_join dir (asked_name n rel)) = Ok dest)
  /\ (forall n, dir <> [] -> Forall normal_comp dir -> Forall (fun c => 0 ∉ c) dir ->
     sanitise_filename fname = Ok n -> n <> [] ->
     (rel = [] -> resolve_safe_destination lexical_realpath dir fname rel = Ok (dir ++ [n]))
     /\ (rel <> [] -> path_traversal (normpath rel) = false -> 0 ∉ normpath rel ->
         resolve_safe_destination lexical_realpath dir fname rel = Ok (dir ++ path_comps (normpath rel))
         /\ (path_comps (normpath rel) = [] <-> normpath rel = DOT))).
Proof.
  intros Hok. split; [intros dest; by apply resolve_inside|].
  intros n Hne Hdir H0 Hn Hn0. unfold resolve_safe_destination. rewrite Hn. cbn [mbind res_bind].
  rewrite (bool_decide_eq_false_2 (n = [])) by done. cbn [raise_if mbind res_bind].
  destruct (sanitise_spec _ _ Hn) as [|Hsafe]; [done|].
  destruct (safe_name_normal n Hsafe) as [Hnorm Hnz]. split.
  - intros ->. rewrite bool_decide_eq_true_2 by done. cbn [negb].
    assert (path_join dir n = dir ++ [n]) as ->.
    { unfold path_join. destruct (starts_with [SLASH] n) eqn:E.
      - apply starts_with_spec in E as (k & ->). destruct Hnorm as (_ & _ & _ & Hs).
        exfalso. apply Hs. apply elem_of_cons. by left.
      - f_equal. apply (path_comps_join [n]). by constructor. }
    apply resolve_check_lexical; try done; by constructor.
  - intros Hrel Htr Hz. rewrite bool_decide_eq_false_2 by done. cbn [negb]. rewrite Htr. cbn [raise_if mbind res_bind].
    destruct (path_traversal_rel _ Htr) as [Hs Hdd].
    unfold path_join. rewrite Hs.
    assert (Forall normal_comp (path_comps (normpath rel)) /\ Forall (fun c => 0 ∉ c) (path_comps (normpath rel))) as [??].
    { destruct (normpath_relative rel Hs Hdd) as [->|(l & Hl & Hnl & E)]; [by split; vm_compute|].
      rewrite E in *. rewrite path_comps_join by done. split; [done|]. by apply zero_notin_comps. }
    split; [by apply resolve_check_lexical|]. destruct (normpath_relative rel Hs Hdd) as [->|(l & Hl & Hnl & E)]; [done|].
    rewrite E, path_comps_join by done. split; [done|]. intros Ed. rewrite <-(path_comps_join l), Ed by done. done.
Qed.

(** ** Metadata: what a validated offer satisfies *)

(** A relative path as [from_dict] stores it. *)
Definition rel_ok (rel : pystr) : Prop :=
  rel = [] \/ (normpath rel = rel /\ path_traversal rel = false).

Record wf_metadata (m : TransferMetadata) : Prop := {
  wf_uuid : exists n, uuid_int (m_transfer_id m) = Ok n;
  wf_name : safe_name (m_file_name m);
  wf_size : 0 <= m_file_size m <= TEN_GIB;
  wf_chunk : 1 <= m_chunk_size m <= MAX_CHUNK_PAYLOAD;
  wf_count : m_chunk_count m = expected_chunks (m_file_size m) (m_chunk_size m);
  wf_sha : length (m_sha256 m) = 64%nat /\ forallb is_hex (m_sha256 m) = true;
  wf_rel : rel_ok (m_relative_path m)
}.

Lemma lower_hex_hex s : forallb is_hex_any s = true -> forallb is_hex (lower_hex s) = true.
Proof.
  unfold lower_hex. rewrite !forallb_forall. intros H y (c & <- & Hc%H)%in_map_iff.
  unfold is_hex_any, is_hex, between in *. destruct ((65 <=? c) && (c <=? 70)) eqn:E; lia.
Qed.

Lemma lower_hex_id s : forallb is_hex s = true -> lower_hex s = s.
Proof.
  unfold lower_hex. rewrite forallb_forall. intros H. rewrite <-(map_id s) at 2.
  apply map_ext_in. intros c Hc%H. unfold is_hex, between in *.
  destruct ((65 <=? c) && (c <=? 70)) eqn:E; [lia|done].
Qed.

Lemma is_hex_any_hex s : forallb is_hex s = true -> forallb is_hex_any s = true.
Proof.
  rewrite !forallb_forall. intros H c Hc. unfold is_hex_any. by rewrite (H c Hc).
Qed.

Lemma expected_chunks_spec size cs :
  0 <= size -> 0 < cs ->
  let cc := expected_chunks size cs in
  0 <= cc /\ (cc - 1) * cs < size + (if size =? 0 then 1 else 0) /\ size <= cc * cs.
Proof.
  intros Hs Hc. unfold expected_chunks. cbv zeta. rewrite Z.gtb_ltb.
  destruct (Z.ltb_spec 0 size).
  - assert (size =? 0 = false) as -> by lia.
    pose proof (Z.div_mod (size + cs - 1) cs ltac:(lia)).
    pose proof (Z.mod_pos_bound (size + cs - 1) cs ltac:(lia)).
    pose proof (Z.div_pos (size + cs - 1) cs ltac:(lia) ltac:(lia)). nia.
  - assert (size =? 0 = true) as -> by lia. nia.
Qed.

Section metadata.
Context `{Hr : PyRepr}.

Lemma from_dict_wf now d m : metadata_from_dict now d = Ok m -> wf_metadata m.
Proof.
  unfold metadata_from_dict. intros H.
  apply bind_Ok in H as (tid & _ & H). apply bind_Ok in H as (n & Hn & H).
  apply bind_Ok in H as (raw & _ & H). apply bind_Ok in H as (fn & Hfn & H).
  apply bind_Ok in H as (? & Hne & H). apply bind_Ok in H as (rp & _ & H).
  apply bind_Ok in H as (rel & Hrel & H). apply bind_Ok in H as (sz & _ & H).
  apply bind_Ok in H as (? & H0 & H). apply bind_Ok in H as (? & H10 & H).
  apply bind_Ok in H as (cs & _ & H). apply bind_Ok in H as (? & Hcs & H).
  apply bind_Ok in H as (cc & _ & H). apply bind_Ok in H as (? & Hcc & H).
  apply bind_Ok in H as (sha & _ & H). apply bind_Ok in H as (? & Hsha & H).
  res_inv. bool_prop.
  repeat match goal with H : _ >? _ = false |- _ => apply ltb_gtb_false in H end.
  bool_prop.
  split; cbn [m_transfer_id m_file_name m_file_size m_chunk_size m_chunk_count m_sha256 m_relative_path];
    try (done || lia || eauto).
  - by destruct (sanitise_spec _ _ Hfn).
  - unfold zlen in *. unfold lower_hex at 1. rewrite length_map. split; [lia|]. by apply lower_hex_hex.
  - destruct (decide (rp = [])) as [->|Hrp].
    + rewrite bool_decide_eq_true_2 in Hrel by done. cbn in Hrel. injection Hrel as <-. by left.
    + rewrite bool_decide_eq_false_2 in Hrel by done. cbn [negb] in Hrel.
      apply bind_Ok in Hrel as (? & Ht & [= <-]). apply raise_if_Ok in Ht.
      right. destruct (path_traversal_rel _ Ht). by rewrite normpath_idem.
Qed.

(** The same offer under another name. *)
Definition with_name (n : pystr) (m : TransferMetadata) : TransferMetadata :=
  {| m_transfer_id := m_transfer_id m; m_file_name := n; m_file_size := m_file_size m; m_mime_type := m_mime_type m;
     m_sha256 := m_sha256 m; m_chunk_size := m_chunk_size m; m_chunk_count := m_chunk_count m;
     m_sender_identity := m_sender_identity m; m_created_at := m_created_at m; m_protocol_version := m_protocol_version m;
     m_batch_id := m_batch_id m; m_relative_path := m_relative_path m |}.

Lemma to_dict_from_dict now m :
  wf_metadata m ->
  metadata_from_dict now (metadata_to_dict m) =
    (n ← sanitise_filename (m_file_name m);
     if bool_decide (n = []) then Err ValueError else Ok (with_name n m)).
Proof.
  intros [[n Hu] Hn Hs Hc Hcc [Hsl Hsh] Hrel]. destruct m as [tid fn sz mime sha cs cc sid ca pv bid rel].
  cbn in *. unfold metadata_from_dict.
  match goal with |- context [str_at ?d "transfer_id"] =>
    change (str_at d "transfer_id") with (Ok tid); change (str_or d "file_name" []) with (Ok fn);
    change (str_or d "relative_path" []) with (Ok rel); change (int_at d "file_size") with (Ok sz);
    change (int_or d "chunk_size" CHUNK_SIZE) with (Ok cs); change (int_or d "chunk_count" (-1)) with (Ok cc);
    change (str_or d "sha256" []) with (Ok sha); 
    change (str_or d "mime_type" (u "application/octet-stream")) with (Ok mime);
    change (str_or d "sender_identity" []) with (Ok sid); change (int_or d "created_at" now) with (Ok ca);
    change (int_or d "protocol_version" 1) with (Ok pv); change (str_or d "batch_id" []) with (Ok bid) end.
  cbn [mbind res_bind]. rewrite Hu. cbn [mbind res_bind].
  destruct (sanitise_filename fn) as [fn'|]; [|done]. cbn [mbind res_bind].
  destruct (bool_decide (fn' = [])); [done|]. cbn [raise_if mbind res_bind].
  assert ((if negb (bool_decide (rel = [])) then
         raise_if (path_traversal (normpath rel)) ValueError;; Ok (normpath rel)
       else Ok rel) = Ok rel) as ->.
  { destruct Hrel as [->|[H1 H2]]; [done|]. case_bool_decide; [done|]. cbn. by rewrite H1, H2. }
  cbn [mbind res_bind]. replace (sz <? 0) with false by lia. replace (sz >? TEN_GIB) with false by lia.
  cbn [raise_if mbind res_bind]. replace ((cs <=? 0) || _) with false by lia.
  cbn [raise_if mbind res_bind]. replace (cc =? _) with true by lia. cbn [negb raise_if mbind res_bind].
  unfold zlen. rewrite Hsl, is_hex_any_hex by done. cbn [negb orb Z.of_nat raise_if mbind res_bind].
  cbn. by rewrite lower_hex_id.
Qed.

(** C35. Whatever JSON object a peer sends, the metadata that [from_dict]
    accepts is well formed (a UUID, a safe file name, a size of at most
    10 GiB, a chunk size within 64 KiB, the chunk count that covers the size,
    a lowercase digest and a traversal-free normalised path).  Well-formed
    metadata is read back from its own [to_dict] unchanged if the name does not
    start with a dot.  In general everything but the name comes back unchanged,
    and the name is sanitised once more, which strips the dots it starts with; the
    metadata is then rejected if no name is left. *)
Theorem metadata_wf_roundtrip now :
  (forall d m, metadata_from_dict now d = Ok m -> wf_metadata m)
  /\ (forall m, wf_metadata m -> hd 0 (m_file_name m) <> 46 -> metadata_from_dict now (metadata_to_dict m) = Ok m)
  /\ (forall m, wf_metadata m ->
      metadata_from_dict now (metadata_to_dict m) =
        (n ← sanitise_filename (m_file_name m);
         if bool_decide (n = []) then Err ValueError else Ok (with_name n m))).
Proof.
  split; [apply from_dict_wf|]. split; [|apply to_dict_from_dict]. intros m Hm Hhd.
  rewrite to_dict_from_dict, (sanitise_id _ (wf_name _ Hm) Hhd) by done. cbn [mbind res_bind].
  rewrite bool_decide_eq_false_2 by apply (wf_name _ Hm). by destruct m.
Qed.
End metadata.
