(* ===== verification/Fs.v ===== *)
(** * The operating system seen by the transfer code

    The calls of [pathlib], [open] and [os] that the source makes, on a tree of
    directories and files.  Every call consults an oracle that may make it
    raise [OSError] (disk full, permission revoked, ...), and a buffered write
    may leave any part of its data in the file and the rest in the buffer. *)
From S2P Require Import Prelude PyStr Transfer.

Inductive node := NDir | NFile (content : bytes).

Abbreviation fs := (gmap path node).

(** The outcome of one call: whether it succeeds, and how many octets a write
    moved from the buffer to the file. *)
Record outcome := { o_ok : bool; o_moved : nat }.

Record world := {
  w_fs : fs;
  (** The buffer of the writer open on a path, not yet in the file. *)
  w_pending : gmap path bytes;
  w_oracle : list outcome
}.

Definition with_fs (f : fs) (w : world) : world :=
  {| w_fs := f; w_pending := w_pending w; w_oracle := w_oracle w |}.
Definition with_pending (b : gmap path bytes) (w : world) : world :=
  {| w_fs := w_fs w; w_pending := b; w_oracle := w_oracle w |}.
Definition with_oracle (o : list outcome) (w : world) : world :=
  {| w_fs := w_fs w; w_pending := w_pending w; w_oracle := o |}.

(** The root is always a directory. *)
Definition fs_get (f : fs) (p : path) : option node :=
  if decide (p = []) then Some NDir else f !! p.
Definition parent (p : path) : path := removelast p.
Definition path_name (p : path) : pystr := List.last p [].

(** No faults left: every call does what it should. *)
Definition smooth : outcome := {| o_ok := true; o_moved := 0 |}.
Definition draw : M world outcome := fun w =>
  match w_oracle w with
  | [] => (Ok smooth, w)
  | o :: l => (Ok o, with_oracle l w)
  end.

(** A call that either happens completely or raises. *)
Definition syscall {A} (op : fs -> res (A * fs)) : M world A :=
  o ← draw;
  if o_ok o then
    w ← get;
    '(a, f) ← lift (op (w_fs w));
    put (with_fs f w);; mret a
  else raise OSError.

(** One [mkdir(exist_ok=True)]. *)
Definition mkdir1 (p : path) (f : fs) : res (unit * fs) :=
  match fs_get f p with
  | Some NDir => Ok (tt, f)
  | Some (NFile _) => Err OSError
  | None => match fs_get f (parent p) with
            | Some NDir => Ok (tt, <[p := NDir]> f)
            | _ => Err OSError
            end
  end.

(** [p.mkdir(parents=True, exist_ok=True)]: every missing ancestor, from the root down. *)
Fixpoint mkdirs_from (done todo : path) : M world unit :=
  match todo with
  | [] => mret tt
  | c :: todo' => syscall (mkdir1 (done ++ [c]));; mkdirs_from (done ++ [c]) todo'
  end.
Definition mkdirs (p : path) : M world unit := mkdirs_from [] p.

Definition exists_ (p : path) : M world bool :=
  syscall (fun f => Ok (bool_decide (is_Some (fs_get f p)), f)).

(** [open(p, "wb")] and [open(p, "ab")]: create or (for "wb") empty the file. *)
Definition open_mode (append : bool) (p : path) (f : fs) : res (unit * fs) :=
  match fs_get f p with
  | Some NDir => Err OSError
  | Some (NFile c) => Ok (tt, <[p := NFile (if append then c else [])]> f)
  | None => match fs_get f (parent p) with
            | Some NDir => Ok (tt, <[p := NFile []]> f)
            | Some (NFile _) => Err OSError
            | None => Err FileNotFoundError
            end
  end.
Definition open_write (append : bool) (p : path) : M world path :=
  syscall (open_mode append p);;
  modify (fun w => with_pending (<[p := []]> (w_pending w)) w);;
  mret p.

(** Move the first [n] octets of the buffer to the end of the file.  If the file
    was unlinked while open they are lost. *)
Definition push (p : path) (n : nat) (w : world) : world :=
  let b := default [] (w_pending w !! p) in
  let f := match w_fs w !! p with
           | Some (NFile c) => <[p := NFile (c ++ take n b)]> (w_fs w)
           | _ => w_fs w
           end in
  with_pending (<[p := drop n b]> (w_pending w)) (with_fs f w).

(** [fh.write(data)]; a closed file object raises [ValueError]. *)
Definition fh_write (p : path) (data : bytes) : M world unit :=
  w ← get;
  match w_pending w !! p with
  | None => raise ValueError
  | Some b =>
      o ← draw;
      modify (fun w => push p (o_moved o) (with_pending (<[p := b ++ data]> (w_pending w)) w));;
      if o_ok o then mret tt else raise OSError
  end.

(** [fh.flush()] *)
Definition fh_flush (p : path) : M world unit :=
  w ← get;
  match w_pending w !! p with
  | None => raise ValueError
  | Some b =>
      o ← draw;
      modify (push p (if o_ok o then length b else o_moved o));;
      if o_ok o then mret tt else raise OSError
  end.

(** [fh.close()]: flushes; the descriptor is closed even if that fails.  A
    second [close] does nothing. *)
Definition fh_close (p : path) : M world unit :=
  w ← get;
  match w_pending w !! p with
  | None => mret tt
  | Some _ => finally (fh_flush p) (fun w => with_pending (delete p (w_pending w)) w)
  end.

(** The whole content, read in blocks of 64 KiB until an empty one. *)
Definition read_file (p : path) : M world bytes :=
  syscall (fun f => match fs_get f p with
                    | Some (NFile c) => Ok (c, f)
                    | Some NDir => Err OSError
                    | None => Err FileNotFoundError
                    end).

(** [p.stat().st_size]; a directory reports some block size. *)
Definition stat_size (p : path) : M world Z :=
  syscall (fun f => match fs_get f p with
                    | Some (NFile c) => Ok (zlen c, f)
                    | Some NDir => Ok (4096, f)
                    | None => Err FileNotFoundError
                    end).

(** [os.truncate(p, n)], for [n] not beyond the end. *)
Definition truncate (p : path) (n : Z) : M world unit :=
  syscall (fun f => match fs_get f p with
                    | Some (NFile c) => Ok (tt, <[p := NFile (take (Z.to_nat n) c)]> f)
                    | Some NDir => Err OSError
                    | None => Err FileNotFoundError
                    end).

Definition unlink (p : path) : M world unit :=
  syscall (fun f => match fs_get f p with
                    | Some (NFile _) => Ok (tt, delete p f)
                    | Some NDir => Err OSError
                    | None => Err FileNotFoundError
                    end).

(** [a.rename(b)] of a file: atomic, and an existing file [b] is replaced. *)
Definition rename (a b : path) : M world unit :=
  syscall (fun f => match fs_get f a with
                    | Some (NFile c) =>
                        match fs_get f b, fs_get f (parent b) with
                        | Some NDir, _ => Err OSError
                        | _, Some NDir => Ok (tt, <[b := NFile c]> (delete a f))
                        | _, Some (NFile _) => Err OSError
                        | _, None => Err FileNotFoundError
                        end
                    | Some NDir => Err OSError
                    | None => Err FileNotFoundError
                    end).

(** The prefix read before an [OSError] interrupts a loop over 64 KiB blocks,
    and whether the loop reached the end. *)
Definition read_blocks (p : path) : M world (bytes * bool) :=
  o ← draw;
  w ← get;
  mret match fs_get (w_fs w) p with
       | Some (NFile c) => if o_ok o then (c, true) else (take (65536 * o_moved o) c, false)
       | _ => ([], false)
       end.

(** The last reference to a file object goes away: its finaliser closes it and
    ignores errors. *)
Definition fh_drop (p : path) : M world unit := swallow (fh_close p).

(** ** What the calls do *)

(** No call fails from here on (buffering stays arbitrary). *)
Definition calm (w : world) : Prop := Forall (fun o => o_ok o = true) (w_oracle w).

(** Buffers untouched, and no new source of failures. *)
Definition same (w w' : world) : Prop := w_pending w' = w_pending w /\ (calm w -> calm w').

Lemma same_refl w : same w w.
Proof. done. Qed.
Lemma same_trans w1 w2 w3 : same w1 w2 -> same w2 w3 -> same w1 w3.
Proof. unfold same. intros [-> ?] [-> ?]. tauto. Qed.
#[export] Hint Resolve same_refl same_trans : ferry.

Lemma wp_draw (Q : res outcome -> world -> Prop) w :
  (forall o w', same w w' -> w_fs w' = w_fs w -> (calm w -> o_ok o = true) -> Q (Ok o) w') -> wp draw Q w.
Proof.
  intros H. unfold wp, draw, same, calm in *. destruct w as [f b [|o l]]; cbn in *.
  - by apply H.
  - apply H; cbn; [split; [done|]|done|]; by inversion 1.
Qed.

Lemma wp_syscall {A} (op : fs -> res (A * fs)) (Q : res A -> world -> Prop) w :
  (forall e w', same w w' -> w_fs w' = w_fs w -> op (w_fs w) = Err e \/ (~ calm w /\ e = OSError) -> Q (Err e) w') ->
  (forall a w', same w w' -> op (w_fs w) = Ok (a, w_fs w') -> Q (Ok a) w') ->
  wp (syscall op) Q w.
Proof.
  intros HE HO. unfold syscall. wp_step. apply wp_draw. intros o w' Hs Hf Hc.
  destruct (o_ok o) eqn:Eo.
  - repeat wp_step. destruct (op (w_fs w')) as [[a f]|e] eqn:E.
    + repeat wp_step. apply HO; [done|]. rewrite <-Hf, E. done.
    + apply HE; [done..|]. left. by rewrite <-Hf.
  - wp_step. apply HE; [done..|]. right. split; [|done]. intros Hcalm%Hc. congruence.
Qed.

Lemma fs_get_insert_ne f p q n : p <> q -> fs_get (<[p := n]> f) q = fs_get f q.
Proof. intros. unfold fs_get. case_decide; [done|]. by rewrite lookup_insert_ne. Qed.

Lemma fs_get_file f p c : fs_get f p = Some (NFile c) <-> p <> [] /\ f !! p = Some (NFile c).
Proof. unfold fs_get. case_decide; naive_solver. Qed.

Lemma fs_get_ne f p : p <> [] -> fs_get f p = f !! p.
Proof. intros. unfold fs_get. by rewrite decide_False. Qed.

Lemma parent_snoc p c : parent (p ++ [c]) = p.
Proof. apply removelast_last. Qed.

Lemma path_name_snoc p c : path_name (p ++ [c]) = c.
Proof. apply last_last. Qed.

(** The tree grew by directories that lead to [p], and nothing else. *)
Definition dirs_added (p : path) (f f' : fs) : Prop :=
  forall q, f' !! q = f !! q \/ (f !! q = None /\ f' !! q = Some NDir /\ q `prefix_of` p).

Lemma dirs_added_refl p f : dirs_added p f f.
Proof. intros q. by left. Qed.

Lemma dirs_added_trans p f1 f2 f3 : dirs_added p f1 f2 -> dirs_added p f2 f3 -> dirs_added p f1 f3.
Proof.
  intros H1 H2 q. destruct (H1 q) as [E1|(?&E1&?)], (H2 q) as [E2|(E2&?&?)]; rewrite ?E1 in E2; naive_solver.
Qed.

Lemma dirs_added_file p f f' q c : dirs_added p f f' -> f !! q = Some (NFile c) <-> f' !! q = Some (NFile c).
Proof. intros H. destruct (H q) as [->|(->&->&_)]; naive_solver. Qed.

Lemma dirs_added_dir p f f' q : dirs_added p f f' -> fs_get f q = Some NDir -> fs_get f' q = Some NDir.
Proof. intros H. unfold fs_get. case_decide; [done|]. destruct (H q) as [->|(->&->&_)]; naive_solver. Qed.

Lemma wp_mkdirs_from (p done todo : path) w :
  p = done ++ todo -> fs_get (w_fs w) done = Some NDir ->
  wp (mkdirs_from done todo) (fun r w' =>
    same w w' /\ dirs_added p (w_fs w) (w_fs w')
    /\ match r with
       | Ok _ => fs_get (w_fs w') p = Some NDir
       | Err e => e = OSError /\ (calm w -> exists q c, q `prefix_of` p /\ w_fs w !! q = Some (NFile c))
       end) w.
Proof.
  revert done w; induction todo as [|c todo IH]; intros done w -> Hd; cbn [mkdirs_from].
  { wp_step. rewrite app_nil_r. auto using dirs_added_refl, same_refl. }
  assert (done ++ c :: todo = (done ++ [c]) ++ todo) as Ep by by rewrite <-app_assoc.
  assert (Hpre : (done ++ [c]) `prefix_of` done ++ c :: todo) by (rewrite Ep; by eexists).
  assert (Hne : done ++ [c] <> []) by by destruct done.
  wp_step. apply wp_syscall.
  - intros e w' Hs Hf He. rewrite Hf. split; [done|]. split; [apply dirs_added_refl|].
    destruct He as [He|[Hc ->]]; [|naive_solver]. unfold mkdir1 in He.
    rewrite (fs_get_ne _ _ Hne), parent_snoc, Hd in He.
    destruct (_ !! _) as [[|c']|] eqn:E; simplify_eq. split; [done|]. eauto.
  - intros [] w' Hs Hop. unfold mkdir1 in Hop. rewrite (fs_get_ne _ _ Hne), parent_snoc, Hd in Hop.
    assert (dirs_added (done ++ c :: todo) (w_fs w) (w_fs w') /\ w_fs w' !! (done ++ [c]) = Some NDir) as [Ha Hd'].
    { destruct (_ !! _) as [[|c']|] eqn:E; simplify_eq.
      - rewrite <-Hop. auto using dirs_added_refl.
      - rewrite <-Hop. split; [|by rewrite lookup_insert_eq]. intros q.
        destruct (decide (done ++ [c] = q)) as [<-|]; [rewrite lookup_insert_eq; auto|].
        rewrite lookup_insert_ne by done. by left. }
    eapply wp_mono; [apply (IH (done ++ [c])); [done|by rewrite fs_get_ne]|].
    intros r w'' (Hs' & Ha' & Hr). split; [eauto with ferry|].
    split; [eauto using dirs_added_trans|]. destruct r; [done|]. destruct Hr as [-> Hr]. split; [done|].
    intros Hc. destruct (Hr (proj2 Hs Hc)) as (q & c' & ? & Hq). exists q, c'. split; [done|].
    by apply (dirs_added_file _ _ _ _ _ Ha).
Qed.

Lemma wp_mkdirs p w :
  wp (mkdirs p) (fun r w' =>
    same w w' /\ dirs_added p (w_fs w) (w_fs w')
    /\ match r with
       | Ok _ => fs_get (w_fs w') p = Some NDir
       | Err e => e = OSError /\ (calm w -> exists q c, q `prefix_of` p /\ w_fs w !! q = Some (NFile c))
       end) w.
Proof. by apply wp_mkdirs_from. Qed.

(** A file object open for writing: what is in the file and what is buffered. *)
Definition open_at (p : path) (content buffered : bytes) (w : world) : Prop :=
  p <> [] /\ w_fs w !! p = Some (NFile content) /\ w_pending w !! p = Some buffered.

Lemma wp_open_write append p w :
  wp (open_write append p) (fun r w' =>
    (calm w -> calm w')
    /\ match r with
       | Ok h => h = p /\ fs_get (w_fs w) p <> Some NDir /\ exists c, w_fs w' = <[p := NFile c]> (w_fs w) /\ open_at p c [] w'
                 /\ (if append then forall c0, w_fs w !! p = Some (NFile c0) -> c = c0 else c = [])
       | Err e => w_fs w' = w_fs w /\ w_pending w' = w_pending w /\ is_OSError e = true
                  /\ (calm w -> fs_get (w_fs w) p = Some NDir
                      \/ fs_get (w_fs w) p = None /\ fs_get (w_fs w) (parent p) <> Some NDir)
       end) w.
Proof.
  unfold open_write. wp_step. apply wp_syscall.
  - intros e w' [Hp Hc] Hf He. rewrite Hf, Hp. repeat split; try done.
    + destruct He as [He|[? ->]]; [|done]. unfold open_mode in He. by repeat case_match; simplify_eq.
    + intros Hcalm. destruct He as [He|[? ->]]; [|done]. unfold open_mode in He.
      repeat case_match; simplify_eq; auto; right; congruence.
  - intros [] w' [Hp Hc] Hop. repeat wp_step. split; [done|]. split; [done|].
    unfold open_mode in Hop. split; [by destruct (fs_get (w_fs w) p) as [[]|]|]. destruct (decide (p = [])) as [->|Hne]; [done|]. rewrite fs_get_ne in Hop by done.
    assert (exists c, w_fs w' = <[p := NFile c]> (w_fs w)
      /\ (if append then forall c0, w_fs w !! p = Some (NFile c0) -> c = c0 else c = [])) as (c & Hw & Happ).
    { destruct (w_fs w !! p) as [[|c0]|] eqn:E; [done| |].
      - injection Hop as <-. eexists; split; [done|]. by destruct append; [intros ? [= <-]|].
      - destruct (fs_get _ (parent p)) as [[]|]; simplify_eq. eexists; split; [done|]. by destruct append. }
    exists c. split; [done|]. split; [|done]. repeat split; [done| |]; cbn.
    + rewrite Hw. by rewrite lookup_insert_eq.
    + by rewrite lookup_insert_eq.
Qed.

(** What a buffered operation does to the open file [p]: it only moves octets
    from the buffer to the end of the file. *)
Definition moved (p : path) (total : bytes) (w w' : world) : Prop :=
  exists c b, open_at p c b w' /\ c ++ b = total
  /\ w_fs w' = <[p := NFile c]> (w_fs w) /\ w_pending w' = <[p := b]> (w_pending w).

Lemma push_moved p n c b w : open_at p c b w -> moved p (c ++ b) w (push p n w).
Proof.
  intros (Hne & Hf & Hb). exists (c ++ take n b), (drop n b). unfold push, open_at. rewrite Hb, Hf. cbn.
  rewrite !lookup_insert_eq, <-app_assoc, take_drop. done.
Qed.

Lemma wp_fh_write p data c b w :
  open_at p c b w ->
  wp (fh_write p data) (fun r w' =>
    moved p (c ++ b ++ data) w w' /\ (calm w -> calm w' /\ r = Ok tt) /\ (r = Ok tt \/ r = Err OSError)) w.
Proof.
  intros (Hne & Hf & Hb). unfold fh_write. repeat wp_step. rewrite Hb. wp_step. apply wp_draw.
  intros o w' [Hp Hc] Hf' Ho. repeat wp_step.
  set (w1 := with_pending _ w').
  assert (open_at p c (b ++ data) w1) as Hopen by (repeat split; cbn; rewrite ?Hf', ?lookup_insert_eq; done).
  destruct (push_moved p (o_moved o) _ _ _ Hopen) as (c' & b' & Ho' & Hcb & Hfs & Hpe).
  assert (moved p (c ++ b ++ data) w (push p (o_moved o) w1)) as Hm.
  { exists c', b'. split; [done|]. split; [done|]. rewrite Hfs, Hpe. unfold w1; cbn.
    by rewrite Hf', Hp, insert_insert_eq. }
  assert (calm w -> calm (push p (o_moved o) w1)) as Hcalm by done.
  destruct (o_ok o); repeat wp_step; split_and!; auto. intros [=]%Ho.
Qed.

Lemma wp_fh_flush p c b w :
  open_at p c b w ->
  wp (fh_flush p) (fun r w' =>
    moved p (c ++ b) w w' /\ (calm w -> calm w' /\ r = Ok tt)
    /\ (r = Ok tt /\ open_at p (c ++ b) [] w' \/ r = Err OSError)) w.
Proof.
  intros Hopen. pose proof Hopen as (Hne & Hf & Hb). unfold fh_flush. repeat wp_step. rewrite Hb. wp_step. apply wp_draw.
  intros o w' [Hp Hc] Hf' Ho. repeat wp_step.
  assert (open_at p c b w') as Hopen' by (repeat split; rewrite ?Hf', ?Hp; done).
  set (n := if o_ok o then length b else o_moved o).
  destruct (push_moved p n _ _ _ Hopen') as (c' & b' & Ho' & Hcb & Hfs & Hpe).
  assert (moved p (c ++ b) w (push p n w')) as Hm.
  { exists c', b'. split; [done|]. split; [done|]. rewrite Hfs, Hpe. by rewrite Hf', Hp. }
  assert (calm w -> calm (push p n w')) as Hcalm by done.
  unfold n in *. destruct (o_ok o); repeat wp_step; split_and!; auto.
  - left. split; [done|]. unfold push, open_at. rewrite Hf', Hf, Hp, Hb. cbn. rewrite !lookup_insert_eq.
    by rewrite take_ge, drop_ge by lia.
  - intros [=]%Ho.
Qed.

Lemma wp_fh_close p c b w :
  open_at p c b w ->
  wp (fh_close p) (fun r w' =>
    (exists c', w_fs w' = <[p := NFile c']> (w_fs w) /\ c' `prefix_of` c ++ b
       /\ (r = Ok tt -> c' = c ++ b))
    /\ w_pending w' = delete p (w_pending w) /\ (calm w -> calm w' /\ r = Ok tt) /\ (r = Ok tt \/ r = Err OSError)) w.
Proof.
  intros Hopen. pose proof Hopen as (Hne & Hf & Hb). unfold fh_close. repeat wp_step. rewrite Hb.
  wp_step. eapply wp_mono; [by apply wp_fh_flush|].
  intros r w' ((c' & b' & (_ & Hc1 & _) & Hcb & Hfs & Hpe) & Hcalm & Hr).
  split; [|split; [cbn; by rewrite Hpe, delete_insert_eq|]].
  - exists c'. split; [done|]. split; [by exists b'|]. intros ->. destruct Hr as [[_ (_ & Hc2 & _)]|]; [|done].
    congruence.
  - split; [done|]. destruct Hr as [[-> _]|]; auto.
Qed.

Lemma wp_exists p (Q : res bool -> world -> Prop) w :
  (forall w', same w w' -> w_fs w' = w_fs w -> Q (Ok (bool_decide (is_Some (fs_get (w_fs w) p)))) w') ->
  (forall w', same w w' -> w_fs w' = w_fs w -> ~ calm w -> Q (Err OSError) w') ->
  wp (exists_ p) Q w.
Proof.
  intros HO HE. apply wp_syscall.
  - intros e w' ? ? [|[? ->]]; [done|]. by apply HE.
  - intros a w' ? [= <- Hf]. by apply HO.
Qed.

(** Operations that change at most the file at [p]. *)
Definition local {A} (p : path) (m : M world A) : Prop :=
  forall w, wp m (fun _ w' => forall q, q <> p -> w_fs w' !! q = w_fs w !! q) w.

Lemma local_syscall {A} (p : path) (op : fs -> res (A * fs)) :
  (forall f a f', op f = Ok (a, f') -> forall q, q <> p -> f' !! q = f !! q) -> local p (syscall op).
Proof.
  intros H w. apply wp_syscall.
  - by intros e w' _ -> _ q _.
  - intros a w' _ Hop. by apply (H _ _ _ Hop).
Qed.

Lemma push_local p n w q : q <> p -> w_fs (push p n w) !! q = w_fs w !! q.
Proof.
  intros Hq. unfold push; cbn. repeat case_match; try done. by rewrite lookup_insert_ne.
Qed.

Lemma local_fh_write p data : local p (fh_write p data).
Proof.
  intros w. unfold fh_write. repeat wp_step. destruct (_ !! _); [|by wp_step].
  wp_step. apply wp_draw. intros o w' _ Hf _. repeat wp_step.
  destruct (o_ok o); repeat wp_step; intros q Hq; rewrite push_local by done; cbn; by rewrite Hf.
Qed.

Lemma local_fh_flush p : local p (fh_flush p).
Proof.
  intros w. unfold fh_flush. repeat wp_step. destruct (_ !! _) as [b|]; [|by wp_step].
  wp_step. apply wp_draw. intros o w' _ Hf _. repeat wp_step.
  destruct (o_ok o); repeat wp_step; intros q Hq; rewrite push_local by done; by rewrite Hf.
Qed.

Lemma local_fh_close p : local p (fh_close p).
Proof.
  intros w. unfold fh_close. repeat wp_step. destruct (_ !! _); [|by wp_step].
  wp_step. apply local_fh_flush.
Qed.

Lemma local_fh_drop p : local p (fh_drop p).
Proof. intros w. unfold fh_drop. wp_step. eapply wp_mono; [apply local_fh_close|done]. Qed.

Lemma local_open_write append p : local p (open_write append p).
Proof.
  intros w. unfold open_write. wp_step. eapply wp_mono; [eapply (local_syscall p)|].
  - unfold open_mode. intros f a f' Hop q Hq. repeat case_match; simplify_eq; by rewrite lookup_insert_ne.
  - intros [[]|e] w' H; repeat wp_step; exact H.
Qed.

Lemma local_truncate p n : local p (truncate p n).
Proof.
  apply local_syscall. intros f a f' Hop q Hq. repeat case_match; simplify_eq. by rewrite lookup_insert_ne.
Qed.

Lemma local_unlink p : local p (unlink p).
Proof.
  apply local_syscall. intros f a f' Hop q Hq. repeat case_match; simplify_eq. by rewrite lookup_delete_ne.
Qed.

(** Operations that leave the tree alone. *)
Lemma unchanged_exists p w : wp (exists_ p) (fun _ w' => w_fs w' = w_fs w) w.
Proof. apply wp_exists; done. Qed.

Lemma unchanged_read_file p w : wp (read_file p) (fun _ w' => w_fs w' = w_fs w) w.
Proof. apply wp_syscall; [done|]. intros a w' _ Hop. repeat case_match; by simplify_eq. Qed.

Lemma unchanged_stat_size p w : wp (stat_size p) (fun _ w' => w_fs w' = w_fs w) w.
Proof. apply wp_syscall; [done|]. intros a w' _ Hop. repeat case_match; by simplify_eq. Qed.

Lemma unchanged_read_blocks p w : wp (read_blocks p) (fun _ w' => w_fs w' = w_fs w) w.
Proof.
  unfold read_blocks. wp_step. apply wp_draw. intros o w' _ Hf _. by repeat wp_step.
Qed.

#[export] Hint Resolve local_fh_write local_fh_flush local_fh_close local_fh_drop local_open_write
  local_truncate local_unlink unchanged_exists unchanged_read_file unchanged_stat_size
  unchanged_read_blocks : ferry.

Lemma wp_rename a b w :
  wp (rename a b) (fun r w' =>
    same w w'
    /\ match r with
       | Ok _ => exists c, fs_get (w_fs w) a = Some (NFile c) /\ b <> []
                 /\ w_fs w' = <[b := NFile c]> (delete a (w_fs w)) /\ fs_get (w_fs w) b <> Some NDir
       | Err e => w_fs w' = w_fs w /\ (e = OSError \/ e = FileNotFoundError)
                  /\ (calm w -> forall c, fs_get (w_fs w) a = Some (NFile c) ->
                      fs_get (w_fs w) b <> Some NDir -> fs_get (w_fs w) (parent b) <> Some NDir)
       end) w.
Proof.
  apply wp_syscall.
  - intros e w' Hs Hf He. split; [done|]. split; [done|].
    destruct He as [He|[Hc ->]]; [|naive_solver]. repeat case_match; simplify_eq; naive_solver.
  - intros [] w' Hs Hop. split; [done|].
    destruct (fs_get _ a) as [[|c]|]; [done| |done]. exists c. split; [done|].
    assert (b <> []) by (intros ->; done). split; [done|].
    repeat case_match; simplify_eq; naive_solver.
Qed.

(** No call turns a calm system into a failing one. *)
Lemma calm_fh_flush p w : wp (fh_flush p) (fun _ w' => calm w -> calm w') w.
Proof.
  unfold fh_flush. repeat wp_step. destruct (_ !! _); [|by wp_step]. wp_step. apply wp_draw.
  intros o w' [_ Hc] _ _. repeat wp_step. destruct (o_ok o); by repeat wp_step.
Qed.

Lemma calm_fh_close p w : wp (fh_close p) (fun _ w' => calm w -> calm w') w.
Proof.
  unfold fh_close. repeat wp_step. destruct (_ !! _); [|by wp_step]. wp_step. apply calm_fh_flush.
Qed.

Lemma wp_read_blocks p c w :
  fs_get (w_fs w) p = Some (NFile c) ->
  wp (read_blocks p) (fun r w' => same w w' /\ w_fs w' = w_fs w
    /\ exists seed whole, r = Ok (seed, whole) /\ (calm w -> seed = c)) w.
Proof.
  intros Hf. unfold read_blocks. wp_step. apply wp_draw. intros o w' Hs F Ook. wp_step. wp_step. wp_step.
  split; [done|]. split; [done|]. rewrite F, Hf. destruct (o_ok o); eexists _, _; (split; [done|]); [done|].
  by intros [=]%Ook.
Qed.
