(* ===== verification/Incoming.v ===== *)
(** * Receiving a file: [IncomingTransfer] of [core/transfer.py]

    The object and the operating system are one state; every method runs in the
    monad [M], so that what a method did before it raised stays done. *)
From S2P Require Import Prelude PyStr Sha256 Json Protocol Payloads Transfer Fs.

Record IncomingTransfer := {
  i_meta : TransferMetadata;
  i_download_dir : path;
  i_staging_dir : path;
  i_state : TransferState;
  i_temp_path : option path;
  i_final_path : option path;
  (** The octets fed to the running [hashlib.sha256] object. *)
  i_hasher : bytes;
  i_bytes_received : Z;
  i_next_seq : Z;
  i_temp_fh : option path
}.

Definition new_incoming (meta : TransferMetadata) (download_dir : path) : IncomingTransfer :=
  {| i_meta := meta; i_download_dir := download_dir; i_staging_dir := download_dir ++ [u "staging"];
     i_state := IDLE; i_temp_path := None; i_final_path := None; i_hasher := [];
     i_bytes_received := 0; i_next_seq := 0; i_temp_fh := None |}.

Definition set_state (s : TransferState) (t : IncomingTransfer) : IncomingTransfer :=
  {| i_meta := i_meta t; i_download_dir := i_download_dir t; i_staging_dir := i_staging_dir t;
     i_state := s; i_temp_path := i_temp_path t; i_final_path := i_final_path t;
     i_hasher := i_hasher t; i_bytes_received := i_bytes_received t; i_next_seq := i_next_seq t;
     i_temp_fh := i_temp_fh t |}.
Definition set_temp_path (p : path) (t : IncomingTransfer) : IncomingTransfer :=
  {| i_meta := i_meta t; i_download_dir := i_download_dir t; i_staging_dir := i_staging_dir t;
     i_state := i_state t; i_temp_path := Some p; i_final_path := i_final_path t;
     i_hasher := i_hasher t; i_bytes_received := i_bytes_received t; i_next_seq := i_next_seq t;
     i_temp_fh := i_temp_fh t |}.
Definition set_final_path (p : path) (t : IncomingTransfer) : IncomingTransfer :=
  {| i_meta := i_meta t; i_download_dir := i_download_dir t; i_staging_dir := i_staging_dir t;
     i_state := i_state t; i_temp_path := i_temp_path t; i_final_path := Some p;
     i_hasher := i_hasher t; i_bytes_received := i_bytes_received t; i_next_seq := i_next_seq t;
     i_temp_fh := i_temp_fh t |}.
Definition set_temp_fh (h : option path) (t : IncomingTransfer) : IncomingTransfer :=
  {| i_meta := i_meta t; i_download_dir := i_download_dir t; i_staging_dir := i_staging_dir t;
     i_state := i_state t; i_temp_path := i_temp_path t; i_final_path := i_final_path t;
     i_hasher := i_hasher t; i_bytes_received := i_bytes_received t; i_next_seq := i_next_seq t;
     i_temp_fh := h |}.
Definition set_progress (hasher : bytes) (received seq : Z) (t : IncomingTransfer) : IncomingTransfer :=
  {| i_meta := i_meta t; i_download_dir := i_download_dir t; i_staging_dir := i_staging_dir t;
     i_state := i_state t; i_temp_path := i_temp_path t; i_final_path := i_final_path t;
     i_hasher := hasher; i_bytes_received := received; i_next_seq := seq;
     i_temp_fh := i_temp_fh t |}.

(** The object and the operating system. *)
Definition st : Type := IncomingTransfer * world.

Definition self : M st IncomingTransfer := s ← get; mret (fst s).
Definition upd (f : IncomingTransfer -> IncomingTransfer) : M st unit :=
  modify (fun s => (f (fst s), snd s)).
Definition sys {A} (m : M world A) : M st A := fun s =>
  match m (snd s) with (r, w) => (r, (fst s, w)) end.

(** [self._state = _transfer_transition(self._state, new)] *)
Definition transition (new : TransferState) : M st unit :=
  t ← self; s ← lift (transfer_transition (i_state t) new); upd (set_state s).

Definition PART : pystr := u ".part".
Definition tid8 (t : IncomingTransfer) : pystr := take 8 (m_transfer_id (i_meta t)).

Definition cleanup_temp : M st unit :=
  t ← self;
  match i_temp_path t with
  | None => mret tt
  | Some p => b ← sys (exists_ p); if (b : bool) then swallow (sys (unlink p)) else mret tt
  end.

(** [if self._temp_fh: try: close() except Exception: pass; self._temp_fh = None] *)
Definition close_quietly : M st unit :=
  t ← self;
  match i_temp_fh t with
  | None => mret tt
  | Some p => swallow (sys (fh_close p));; upd (set_temp_fh None)
  end.

Definition cleanup_on_io_error : M st unit :=
  close_quietly;; cleanup_temp;; upd (set_state FAILED).

Definition cancel : M st unit :=
  close_quietly;; cleanup_temp;; upd (set_state CANCELLED).

Section begin.
Context (realpath : path -> res path).

Definition begin_open : M st unit :=
  t ← self;
  let staging_dir := i_staging_dir t in
  sys (mkdirs staging_dir);;
  sys (mkdirs (i_download_dir t));;
  let temp_name := m_transfer_id (i_meta t) ++ PART in
  let temp_path := path_join staging_dir temp_name in
  upd (set_temp_path temp_path);;
  final ← lift (resolve_safe_destination realpath (i_download_dir t)
                  (m_file_name (i_meta t)) (m_relative_path (i_meta t)));
  upd (set_final_path final);;
  sys (mkdirs (parent final));;
  h ← sys (open_write false temp_path);
  upd (set_temp_fh (Some h)).

Definition begin : M st unit :=
  transition ACCEPTED;;
  try_except begin_open is_OSError (fun _ => transition FAILED;; raise TransferError);;
  transition TRANSFERRING.
End begin.

Definition receive_chunk (frame : ChunkFrame) : M st unit :=
  t ← self;
  lift (raise_if (negb (bool_decide (i_state t ∈ [TRANSFERRING; RESUMING]))) RuntimeError);;
  lift (raise_if (negb (bool_decide (f_transfer_id frame = m_transfer_id (i_meta t)))) ValueError);;
  lift (raise_if (negb (f_seq frame =? i_next_seq t)) ValueError);;
  lift (raise_if (zlen (f_data frame) >? m_chunk_size (i_meta t)) ValueError);;
  try_except
    (match i_temp_fh t with
     | Some h => sys (fh_write h (f_data frame))
     | None => raise AttributeError
     end)
    is_OSError (fun _ => cleanup_on_io_error;; raise TransferError);;
  upd (fun t => set_progress (i_hasher t ++ f_data frame)
                  (i_bytes_received t + zlen (f_data frame)) (i_next_seq t + 1) t).

Definition finalise : M st bool :=
  t ← self;
  match i_temp_fh t with
  | None => mret tt
  | Some h => sys (fh_flush h);; sys (fh_close h);; upd (set_temp_fh None)
  end;;
  let actual := hexdigest (i_hasher t) in
  let expected := lower_hex (m_sha256 (i_meta t)) in
  if negb (bool_decide (actual = expected)) then
    cleanup_temp;; transition FAILED;; mret false
  else
    match i_temp_path t, i_final_path t with
    | Some temp, Some final =>
        b ← sys (exists_ final);
        let dest := if (b : bool) then path_join (parent final) (tid8 t ++ u "_" ++ path_name final) else final in
        sys (rename temp dest);;
        transition COMPLETED;;
        mret true
    | _, _ => raise AssertionError
    end.

(** [if self._temp_fh is not None: try: flush(); close() ... finally: = None] *)
Definition flush_and_close : M st unit :=
  t ← self;
  match i_temp_fh t with
  | None => mret tt
  | Some h => swallow (sys (fh_flush h);; sys (fh_close h));; upd (set_temp_fh None);; sys (fh_drop h)
  end.

(** The size of the [.part] file as [interrupt] measures it. *)
Definition bytes_on_disk : M st Z :=
  t ← self;
  match i_temp_path t with
  | None => mret 0
  | Some p =>
      b ← sys (exists_ p);
      if (b : bool) then try_except (sys (stat_size p)) is_OSError (fun _ => mret 0) else mret 0
  end.

Definition set_received (n : Z) (t : IncomingTransfer) : IncomingTransfer :=
  set_progress (i_hasher t) n (i_next_seq t) t.
Definition set_next_seq (n : Z) (t : IncomingTransfer) : IncomingTransfer :=
  set_progress (i_hasher t) (i_bytes_received t) n t.
Definition set_hasher (h : bytes) (t : IncomingTransfer) : IncomingTransfer :=
  set_progress h (i_bytes_received t) (i_next_seq t) t.

(** Align the file to a chunk boundary. *)
Definition align_part (on_disk : Z) : M st unit :=
  t ← self;
  let aligned_size := i_next_seq t * m_chunk_size (i_meta t) in
  match i_temp_path t with
  | Some p =>
      if aligned_size <? on_disk then
        try_except (sys (truncate p aligned_size);; upd (set_received aligned_size)) is_OSError (fun _ => mret tt)
      else mret tt
  | None => mret tt
  end.

Definition interrupt : M st unit :=
  t ← self;
  if bool_decide (i_state t ∈ [INTERRUPTED; COMPLETED; FAILED; CANCELLED]) then mret tt
  else if negb (bool_decide (i_state t ∈ [TRANSFERRING; ACCEPTED])) then upd (set_state FAILED)
  else if m_file_size (i_meta t) =? 0 then upd (set_state FAILED)
  else
    flush_and_close;;
    actual_bytes_on_disk ← bytes_on_disk;
    if (actual_bytes_on_disk =? 0) && (i_bytes_received t =? 0) then upd (set_state FAILED)
    else
      upd (set_received actual_bytes_on_disk);;
      (if m_chunk_size (i_meta t) >? 0
       then upd (set_next_seq (actual_bytes_on_disk / m_chunk_size (i_meta t))) else mret tt);;
      align_part actual_bytes_on_disk;;
      transition INTERRUPTED.

(** What [interrupt_info] hands to the database. *)
Record InterruptInfo := {
  n_transfer_id : pystr;
  n_bytes_received : Z;
  n_resume_chunk_index : Z;
  n_partial_sha256 : pystr;
  n_sender_identity : pystr;
  n_original_metadata_json : pystr
}.

Definition interrupt_info `{Hr : PyRepr} (t : IncomingTransfer) : res (option InterruptInfo) :=
  if bool_decide (i_state t = INTERRUPTED) then
    js ← json_dumps (JObj (metadata_to_dict (i_meta t)));
    Ok (Some {| n_transfer_id := m_transfer_id (i_meta t); n_bytes_received := i_bytes_received t;
                n_resume_chunk_index := i_next_seq t; n_partial_sha256 := hexdigest (i_hasher t);
                n_sender_identity := m_sender_identity (i_meta t); n_original_metadata_json := js |})
  else Ok None.

Definition prepare_resume_request (expected_bytes expected_chunk_index : option Z)
  : M st TransferResumeRequestPayload.t :=
  t ← self;
  let meta := i_meta t in
  lift (raise_if (negb (bool_decide (i_state t = INTERRUPTED))) RuntimeError);;
  match i_temp_path t with
  | None => raise FileNotFoundError
  | Some p =>
      b ← sys (exists_ p);
      lift (raise_if (negb b) FileNotFoundError);;
      disk_size ← sys (stat_size p);
      lift (raise_if (disk_size =? 0) ValueError);;
      lift (raise_if (m_file_size meta <=? 0) ValueError);;
      lift (raise_if (disk_size >? m_file_size meta) ValueError);;
      lift (raise_if (m_chunk_size meta <=? 0) ValueError);;
      lift (raise_if (negb (disk_size mod m_chunk_size meta =? 0)) ValueError);;
      let resume_chunk_index := disk_size / m_chunk_size meta in
      lift (raise_if match expected_bytes with Some e => negb (e =? disk_size) | None => false end ValueError);;
      lift (raise_if match expected_chunk_index with
                     | Some e => negb (e =? resume_chunk_index) | None => false end ValueError);;
      content ← sys (read_file p);
      upd (set_received disk_size);;
      upd (set_next_seq resume_chunk_index);;
      lift (TransferResumeRequestPayload.make (m_transfer_id meta) disk_size resume_chunk_index
              (hexdigest content) 1)
  end.

Definition resume (chunk_index : Z) : M st unit :=
  t ← self;
  lift (raise_if (negb (bool_decide (i_state t ∈ [INTERRUPTED; RESUME_REQUESTED]))) RuntimeError);;
  (if bool_decide (i_state t = INTERRUPTED) then transition RESUME_REQUESTED else mret tt);;
  match i_temp_path t with
  | None => upd (set_state FAILED);; raise FileNotFoundError
  | Some p =>
      b ← sys (exists_ p);
      (if (b : bool) then mret tt else upd (set_state FAILED);; raise FileNotFoundError);;
      h ← try_except (sys (open_write true p)) is_OSError
            (fun _ => upd (set_state FAILED);; raise TransferError);
      upd (set_temp_fh (Some h));;
      '(seed, _) ← sys (read_blocks p);
      upd (set_hasher seed);;
      disk_size ← sys (stat_size p);
      upd (set_received disk_size);;
      upd (set_next_seq chunk_index);;
      transition RESUMING
  end.

(** ** Rules for the methods' steps *)

Lemma wp_self {A} (k : IncomingTransfer -> M st A) (Q : res A -> st -> Prop) s :
  wp (k (fst s)) Q s -> wp (self ≫= k) Q s.
Proof. done. Qed.

Lemma wp_upd f (Q : res unit -> st -> Prop) s : Q (Ok tt) (f (fst s), snd s) -> wp (upd f) Q s.
Proof. done. Qed.

Lemma wp_sys {A} (m : M world A) (Q : res A -> st -> Prop) s :
  wp m (fun r w' => Q r (fst s, w')) (snd s) -> wp (sys m) Q s.
Proof. unfold wp, sys. by destruct (m (snd s)). Qed.

Lemma wp_transition new (Q : res unit -> st -> Prop) s :
  (new ∈ VALID_TRANSITIONS (i_state (fst s)) -> Q (Ok tt) (set_state new (fst s), snd s)) ->
  (new ∉ VALID_TRANSITIONS (i_state (fst s)) -> Q (Err RuntimeError) s) ->
  wp (transition new) Q s.
Proof.
  intros HO HE. unfold transition. apply wp_self. wp_step. unfold transfer_transition. wp_step.
  case_bool_decide; [apply wp_upd|]; auto.
Qed.

Ltac st_step :=
  match goal with
  | |- wp (self ≫= _) _ _ => apply wp_self
  | |- wp (upd _) _ _ => apply wp_upd
  | |- wp (sys _) _ _ => apply wp_sys
  | |- _ => wp_step
  end.

(** ** What is never touched *)

Definition part_path (meta : TransferMetadata) (dir : path) : path :=
  path_join (dir ++ [u "staging"]) (m_transfer_id meta ++ PART).

(** Where a file is put when its destination already exists. *)
Definition clash_path (meta : TransferMetadata) (final : path) : path :=
  path_join (parent final) (take 8 (m_transfer_id meta) ++ u "_" ++ path_name final).

Section frame.
Context (realpath : path -> res path) (meta : TransferMetadata) (dir : path) (fs0 : fs).

Let resolved (f : path) : Prop :=
  resolve_safe_destination realpath dir (m_file_name meta) (m_relative_path meta) = Ok f.

(** The fields of the object that never change. *)
Record fixed (t : IncomingTransfer) : Prop := {
  fr_meta : i_meta t = meta;
  fr_dir : i_download_dir t = dir;
  fr_staging : i_staging_dir t = dir ++ [u "staging"];
  fr_temp : forall p, i_temp_path t = Some p -> p = part_path meta dir;
  fr_fh : forall p, i_temp_fh t = Some p -> p = part_path meta dir;
  fr_final : forall f, i_final_path t = Some f -> resolved f
}.

(** The files of [fs0] that are still there with their content. *)
Definition kept (w : world) : Prop :=
  forall q c, fs0 !! q = Some (NFile c) -> q <> part_path meta dir ->
    (forall f, resolved f -> q <> clash_path meta f) -> w_fs w !! q = Some (NFile c).

Definition frame (s : st) : Prop := fixed (fst s) /\ kept (snd s).

Abbreviation preserves := (stable frame).

Lemma preserves_upd (f : IncomingTransfer -> IncomingTransfer) :
  (forall t, fixed t -> fixed (f t)) -> preserves (upd f).
Proof. intros Hf [t w] []. apply wp_upd. split; cbn in *; auto. Qed.

Lemma preserves_self {A} (k : IncomingTransfer -> M st A) :
  (forall t, fixed t -> preserves (k t)) -> preserves (self ≫= k).
Proof. intros H [t w] Hs. apply wp_self. apply H; [apply Hs|done]. Qed.

(** A call that keeps the files which matter. *)
Lemma preserves_sys {A} (m : M world A) :
  (forall w, kept w -> wp m (fun _ => kept) w) -> preserves (sys m).
Proof.
  intros Hm [t w] [Ht Hk]. apply wp_sys. eapply wp_mono; [by apply Hm|]. by intros r w' Hw.
Qed.

Lemma preserves_local {A} p (m : M world A) : local p m -> p = part_path meta dir -> preserves (sys m).
Proof.
  intros Hm ->. apply preserves_sys. intros w Hk. eapply wp_mono; [apply Hm|]. intros r w' Hw q c Hq Hp Hc.
  rewrite Hw by done. by apply Hk.
Qed.

Lemma preserves_unchanged {A} (m : M world A) :
  (forall w, wp m (fun _ w' => w_fs w' = w_fs w) w) -> preserves (sys m).
Proof.
  intros Hm. apply preserves_sys. intros w Hk. eapply wp_mono; [apply Hm|]. unfold kept. by intros r w' ->.
Qed.

Lemma preserves_mkdirs p : preserves (sys (mkdirs p)).
Proof.
  apply preserves_sys. intros w Hk. eapply wp_mono; [apply wp_mkdirs|]. intros r w' (_ & Ha & _) q c ???.
  apply (dirs_added_file _ _ _ _ _ Ha). by apply Hk.
Qed.

Lemma preserves_transition s : preserves (transition s).
Proof.
  apply preserves_self. intros t Ht. apply stable_bind; [apply stable_lift|]. intros s'.
  apply preserves_upd. intros t' []. by split.
Qed.

(** The file object that [open] returns is the one of the path opened. *)
Lemma open_value append p s :
  wp (sys (open_write append p)) (fun r _ => forall a, r = Ok a -> a = p) s.
Proof.
  apply wp_sys. eapply wp_mono; [apply wp_open_write|]. intros r w' [_ Hr] a ->. by destruct Hr.
Qed.

Ltac pres :=
  repeat first
    [ apply stable_ret | apply stable_raise | apply stable_lift | apply preserves_transition
    | apply preserves_mkdirs
    | apply preserves_upd; (intros ? []; split; cbn; naive_solver)
    | apply preserves_self; intros ? ?
    | apply stable_bind; [|intros ?]
    | apply stable_try; [|intros ?]
    | apply stable_swallow
    | eapply preserves_local; [solve [auto with ferry]|solve [eauto using fr_temp, fr_fh]]
    | apply preserves_unchanged; solve [intros; auto with ferry]
    | case_match ].

Lemma preserves_cancel : preserves cancel.
Proof. unfold cancel, close_quietly, cleanup_temp. pres. Qed.

Lemma preserves_receive_chunk f : preserves (receive_chunk f).
Proof. unfold receive_chunk, cleanup_on_io_error, close_quietly, cleanup_temp. pres. Qed.

Lemma preserves_interrupt : preserves interrupt.
Proof. unfold interrupt, flush_and_close, bytes_on_disk, align_part. pres. Qed.

Lemma preserves_prepare e1 e2 : preserves (prepare_resume_request e1 e2).
Proof. unfold prepare_resume_request. pres. Qed.

Lemma preserves_begin_open : preserves (begin_open realpath).
Proof.
  unfold begin_open. apply preserves_self. intros t Ht.
  do 2 (apply stable_bind; [apply preserves_mkdirs|intros _]). apply stable_bind; [|intros _].
  - apply preserves_upd. intros t' []. split; cbn; try done. intros p [= <-].
    unfold part_path. by rewrite (fr_staging t Ht), (fr_meta t Ht).
  - apply stable_bind_lift. intros f Hf. apply stable_bind.
    { apply preserves_upd. intros t' []. split; cbn; try done. intros p [= <-]. unfold resolved.
      by rewrite <-(fr_meta t Ht), <-(fr_dir t Ht). }
    intros _. apply stable_bind; [apply preserves_mkdirs|]. intros _.
    assert (path_join (i_staging_dir t) (m_transfer_id (i_meta t) ++ PART) = part_path meta dir) as ->.
    { unfold part_path. by rewrite (fr_staging t Ht), (fr_meta t Ht). }
    eapply (stable_bind_val _ (fun h => h = part_path meta dir)); [pres|apply open_value|].
    intros h ->. apply preserves_upd. intros t' []. split; cbn; naive_solver.
Qed.

Lemma preserves_begin : preserves (begin realpath).
Proof.
  unfold begin. apply stable_bind; [pres|intros _]. apply stable_bind; [|intros _; pres].
  apply stable_try; [apply preserves_begin_open|intros _; pres].
Qed.

Lemma preserves_resume k : preserves (resume k).
Proof.
  unfold resume. apply preserves_self. intros t Ht. do 2 (apply stable_bind; [pres|intros _]).
  destruct (i_temp_path t) as [p|] eqn:Hp; [|pres].
  apply stable_bind; [pres|intros b]. apply stable_bind; [pres|intros _].
  match goal with |- preserves (?m ≫= _) =>
    eapply (stable_bind_val _ (fun h => h = part_path meta dir) m) end; [pres| |].
  - intros s. wp_step. eapply wp_mono; [apply open_value|]. intros [h|e] s' Hh.
    + intros ? [= <-]. rewrite (Hh h) by done. by apply (fr_temp t Ht).
    + destruct (is_OSError e); [|done]. by repeat wp_step.
  - intros h ->. pres.
Qed.

Lemma kept_rename f w w' b :
  kept w -> b <> [] -> (clash_path meta f = b /\ resolved f \/ w_fs w !! b = None) ->
  forall c, w_fs w' = <[b := NFile c]> (delete (part_path meta dir) (w_fs w)) -> kept w'.
Proof.
  intros Hk Hb Hf c Hw q c' Hq Hp Hc. rewrite Hw. specialize (Hk q c' Hq Hp Hc).
  assert (b <> q) by (destruct Hf as [[<- Hr]|Hn]; [by apply not_eq_sym, Hc | intros ->; congruence]).
  by rewrite lookup_insert_ne, lookup_delete_ne by congruence.
Qed.

Lemma preserves_deliver {B} f (k : M st B) :
  resolved f -> preserves k ->
  preserves (b ← sys (exists_ f);
             sys (rename (part_path meta dir) (if (b : bool) then clash_path meta f else f));; k).
Proof.
  intros Hf Hk [t w] [Ht Hw]. wp_step. apply wp_sys, wp_exists; cbn; [|intros w' _ E _; split; cbn; [done|]; unfold kept; by rewrite E].
  intros w1 _ E1. assert (kept w1) as Hw1 by (unfold kept; by rewrite E1).
  wp_step. apply wp_sys. eapply wp_mono; [apply wp_rename|]. cbn.
  intros [[]|e] w2 [_ Hr]; cbn in Hr.
  - apply Hk. split; [done|]. cbn. destruct Hr as (c & _ & Hne & Hfs & _).
    eapply (kept_rename f w1); [done|exact Hne| |exact Hfs].
    case_bool_decide as Hex; [by left|right].
    rewrite <-fs_get_ne by done. rewrite E1. by apply eq_None_not_Some.
  - split; [done|]. destruct Hr as [E2 _]. unfold kept. cbn. by rewrite E2.
Qed.

Lemma preserves_finalise : preserves finalise.
Proof.
  unfold finalise. apply preserves_self. intros t Ht. apply stable_bind; [pres|intros _].
  case_match; [unfold cleanup_temp; pres|]. destruct (i_temp_path t) as [p|] eqn:Hp; [|pres].
  destruct (i_final_path t) as [f|] eqn:Hf; [|pres].
  rewrite (fr_temp t Ht p Hp). unfold tid8. rewrite (fr_meta t Ht).
  apply preserves_deliver; [by apply (fr_final t Ht)|]. pres.
Qed.
End frame.

(** ** Sequences of calls *)

Inductive op :=
  | OBegin | OChunk (f : ChunkFrame) | OFinalise | OInterrupt
  | OPrepare (bytes chunk : option Z) | OResume (k : Z) | OCancel.

(** One call, whose exception the caller handles. *)
Definition run_op (realpath : path -> res path) (o : op) : M st unit :=
  match o with
  | OBegin => begin realpath
  | OChunk f => receive_chunk f
  | OFinalise => finalise;; mret tt
  | OInterrupt => interrupt
  | OPrepare a b => prepare_resume_request a b;; mret tt
  | OResume k => resume k
  | OCancel => cancel
  end.
Definition run_ops (realpath : path -> res path) (ops : list op) (s : st) : st :=
  fold_left (fun s o => (run_op realpath o s).2) ops s.

Section frame_run.
Context (realpath : path -> res path) (meta : TransferMetadata) (dir : path) (fs0 : fs).

Lemma preserves_run_op o : stable (frame realpath meta dir fs0) (run_op realpath o).
Proof.
  destruct o; cbn; eauto using preserves_begin, preserves_receive_chunk, preserves_interrupt,
    preserves_resume, preserves_cancel.
  - apply stable_bind; [apply preserves_finalise|intros _; apply stable_ret].
  - apply stable_bind; [apply preserves_prepare|intros _; apply stable_ret].
Qed.

Lemma frame_run_ops ops s :
  frame realpath meta dir fs0 s -> frame realpath meta dir fs0 (run_ops realpath ops s).
Proof.
  revert s; induction ops as [|o ops IH]; intros s Hs; [done|]. apply IH. by apply preserves_run_op.
Qed.
End frame_run.

(** C13. Receiving never destroys a file of the user: whatever calls are made in
    whatever order, with any frames, any failing system call and any symbolic
    links, every file that existed before keeps its content, apart from the
    transfer's own [.part] file and the one conflict name
    [<first 8 of the id>_<name>] next to the destination. *)
Theorem incoming_keeps_files realpath meta dir w ops q c :
  w_fs w !! q = Some (NFile c) ->
  q <> part_path meta dir ->
  (forall f, resolve_safe_destination realpath dir (m_file_name meta) (m_relative_path meta) = Ok f ->
     q <> clash_path meta f) ->
  w_fs (run_ops realpath ops (new_incoming meta dir, w)).2 !! q = Some (NFile c).
Proof.
  intros Hq Hp Hc. apply (frame_run_ops realpath meta dir (w_fs w)); [|done..].
  split; [by split|]. by intros ???.
Qed.

(** ** The bytes on disk are the bytes hashed *)

Definition live (s : TransferState) : Prop := s = TRANSFERRING \/ s = RESUMING.

(** What was fed to the hasher is in the file, or still in the buffer of the
    open file object; and [_bytes_received] counts it. *)
Definition synced (s : st) : Prop :=
  i_bytes_received s.1 = zlen (i_hasher s.1)
  /\ exists p, i_temp_path s.1 = Some p /\ p <> []
  /\ match i_temp_fh s.1 with
     | Some h => h = p /\ exists c b, open_at p c b s.2 /\ c ++ b = i_hasher s.1
     | None => w_fs s.2 !! p = Some (NFile (i_hasher s.1))
     end.

Definition inv (s : st) : Prop :=
  (live (i_state s.1) -> synced s)
  /\ (i_state s.1 = IDLE -> i_hasher s.1 = [] /\ i_bytes_received s.1 = 0)
  /\ i_state s.1 <> REQUESTED.

Lemma transition_run new s :
  (new ∈ VALID_TRANSITIONS (i_state s.1) /\ transition new s = (Ok tt, (set_state new s.1, s.2)))
  \/ (new ∉ VALID_TRANSITIONS (i_state s.1) /\ transition new s = (Err RuntimeError, s)).
Proof.
  destruct s as [t w]. unfold transition, self, get, lift, upd, modify, transfer_transition, mbind, M_bind, mret, M_ret; cbn.
  case_bool_decide; auto.
Qed.

(** Once the transfer has stopped nothing is claimed of the file. *)
Lemma inv_dead s : i_state s.1 ∈ [FAILED; CANCELLED; COMPLETED; INTERRUPTED; RESUME_REQUESTED] -> inv s.
Proof.
  intros H. unfold inv, live.
  repeat (apply elem_of_cons in H as [H|H]); [rewrite H; naive_solver..|]. by apply elem_of_nil in H.
Qed.

Lemma part_path_ne dir (s : pystr) :
  path_comps (s ++ PART) <> [] -> path_join (dir ++ [u "staging"]) (s ++ PART) <> [].
Proof. unfold path_join. case_match; [done|]. by destruct dir. Qed.

Lemma wp_cleanup_temp s :
  wp cleanup_temp (fun r s' => s'.1 = s.1 /\ (r = Ok tt \/ r = Err OSError)
    /\ (calm s.2 -> calm s'.2 /\ r = Ok tt)) s.
Proof.
  unfold cleanup_temp. apply wp_self. destruct (i_temp_path s.1) as [p|]; [|by wp_step; auto].
  wp_step. apply wp_sys, wp_exists; [|naive_solver]. intros w' [_ Hc] _. cbn.
  case_bool_decide; [|by wp_step; auto]. wp_step. apply wp_sys. cbn.
  apply wp_syscall; [intros e w'' [_ ?] _ _ | intros [] w'' [_ ?] _]; cbn; auto 10.
Qed.

Lemma wp_close_quietly s :
  wp close_quietly (fun r s' => r = Ok tt /\ s'.1 = set_temp_fh None s.1 /\ (calm s.2 -> calm s'.2)) s.
Proof.
  unfold close_quietly. apply wp_self. destruct s as [t w]; cbn in *. destruct (i_temp_fh t) as [p|] eqn:E.
  - repeat wp_step. apply wp_sys. eapply wp_mono; [apply calm_fh_close|]. intros r w' Hc. by apply wp_upd.
  - wp_step. cbn. split; [done|]. split; [|done]. by destruct t; cbn in *; subst.
Qed.

Lemma wp_cleanup_on_io_error s :
  wp cleanup_on_io_error (fun r s' =>
    (r = Ok tt /\ s'.1 = set_state FAILED (set_temp_fh None s.1) \/ r = Err OSError)
    /\ (calm s.2 -> calm s'.2 /\ r = Ok tt)) s.
Proof.
  unfold cleanup_on_io_error. wp_step. eapply wp_mono; [apply wp_close_quietly|].
  intros r s1 (-> & E1 & C1). wp_step. eapply wp_mono; [apply wp_cleanup_temp|].
  intros r s2 (E2 & [->| ->] & C2); [apply wp_upd|]; cbn; rewrite ?E2, ?E1; naive_solver.
Qed.

(** [receive_chunk] on every branch. *)
Definition chunk_post (f : ChunkFrame) (t : IncomingTransfer) (w : world) (r : res unit) (s' : st) : Prop :=
  match r with
  | Ok _ => f_transfer_id f = m_transfer_id (i_meta t) /\ f_seq f = i_next_seq t
            /\ zlen (f_data f) <= m_chunk_size (i_meta t)
            /\ s'.1 = set_progress (i_hasher t ++ f_data f) (i_bytes_received t + zlen (f_data f))
                        (i_next_seq t + 1) t
            /\ synced s'
  | Err e => (e = ValueError /\ s' = (t, w) /\
              (f_transfer_id f <> m_transfer_id (i_meta t) \/ f_seq f <> i_next_seq t
               \/ m_chunk_size (i_meta t) < zlen (f_data f)))
             \/ (e = TransferError /\ i_state s'.1 = FAILED /\ i_temp_fh s'.1 = None /\ ~ calm w)
             \/ (e = OSError /\ ~ calm w)
             \/ (e = AttributeError /\ s' = (t, w) /\ i_temp_fh t = None)
  end.

Lemma wp_receive_chunk f t w :
  synced (t, w) -> live (i_state t) ->
  wp (receive_chunk f) (fun r s' => chunk_post f t w r s' /\ (calm w -> calm s'.2)) (t, w).
Proof.
  intros (Hrec & p & Hp & Hne & Hfh) Hlive. cbn in Hrec, Hp, Hfh. unfold receive_chunk. apply wp_self. cbn [fst].
  rewrite (bool_decide_eq_true_2 (i_state t ∈ _)) by (destruct Hlive as [->| ->]; set_solver).
  wp_step. wp_step. cbn [negb raise_if].
  wp_step. wp_step. case_bool_decide as Htid; cbn [negb raise_if]; [|unfold chunk_post; naive_solver].
  wp_step. wp_step. destruct (Z.eqb_spec (f_seq f) (i_next_seq t)) as [Hseq|]; cbn [negb raise_if];
    [|unfold chunk_post; naive_solver].
  wp_step. wp_step. destruct (_ >? _) eqn:Hsz; cbn [raise_if].
  { rewrite Z.gtb_ltb in Hsz. apply Z.ltb_lt in Hsz. unfold chunk_post; naive_solver. }
  apply ltb_gtb_false in Hsz. wp_step. wp_step.
  destruct (i_temp_fh t) as [h|] eqn:Eh; [|wp_step; unfold chunk_post; naive_solver].
  destruct Hfh as (-> & c & b & Hopen & Hcb). apply wp_sys.
  eapply wp_mono; [by apply wp_fh_write|]. cbn [fst snd].
  intros r w' ((c' & b' & Hopen' & Hcb' & _) & Hcalm & [->| ->]).
  - apply wp_upd. split; [|tauto]. unfold chunk_post. cbn [fst snd]. do 4 (split; [done|]).
    split; [cbn; rewrite zlen_app; lia|]. exists p. cbn. rewrite Eh. repeat split; [done..|]. exists c', b'. split; [done|].
    by rewrite Hcb', app_assoc, Hcb.
  - cbn [is_OSError]. assert (~ calm w) as Hn by (by intros [_ ?]%Hcalm). wp_step.
    eapply wp_mono; [apply wp_cleanup_on_io_error|]. intros r s1 [[[-> E1]| ->] _]; [wp_step|];
      unfold chunk_post; cbn; rewrite ?E1; naive_solver.
Qed.

(** A chunk touches no path but the one of the [.part] file. *)
Definition only_at (p : path) (f0 : fs) (s : st) : Prop :=
  (forall h, i_temp_fh s.1 = Some h -> h = p) /\ (forall h, i_temp_path s.1 = Some h -> h = p)
  /\ forall q, q <> p -> w_fs s.2 !! q = f0 !! q.

Lemma only_at_sys {A} p f0 h (m : M world A) : local h m -> h = p -> stable (only_at p f0) (sys m).
Proof.
  intros Hm -> [t w] (H1 & H2 & H3). apply wp_sys. eapply wp_mono; [apply Hm|]. intros r w' Hw.
  split_and!; [done..|]. intros q Hq. cbn in *. by rewrite Hw, H3.
Qed.

Lemma only_at_unchanged {A} p f0 (m : M world A) :
  (forall w, wp m (fun _ w' => w_fs w' = w_fs w) w) -> stable (only_at p f0) (sys m).
Proof.
  intros Hm [t w] (H1 & H2 & H3). apply wp_sys. eapply wp_mono; [apply Hm|]. intros r w' Hw.
  split_and!; [done..|]. intros q Hq. cbn in *. by rewrite Hw, H3.
Qed.

Lemma only_at_upd p f0 f :
  (forall t, i_temp_path (f t) = i_temp_path t /\ (i_temp_fh (f t) = i_temp_fh t \/ i_temp_fh (f t) = None)) ->
  stable (only_at p f0) (upd f).
Proof.
  intros Hf [t w] (H1 & H2 & H3). apply wp_upd. destruct (Hf t) as [E [E'|E']]; split_and!; cbn in *; rewrite ?E, ?E'; done.
Qed.

Lemma only_at_self {A} p f0 (k : IncomingTransfer -> M st A) :
  (forall t, (forall h, i_temp_fh t = Some h -> h = p) -> (forall h, i_temp_path t = Some h -> h = p) ->
     stable (only_at p f0) (k t)) -> stable (only_at p f0) (self ≫= k).
Proof. intros H [t w] Hs. apply wp_self. by apply H; [apply Hs|apply Hs|]. Qed.

Lemma only_at_receive_chunk p f0 f : stable (only_at p f0) (receive_chunk f).
Proof.
  unfold receive_chunk, cleanup_on_io_error, close_quietly, cleanup_temp.
  repeat first
    [ apply stable_ret | apply stable_raise | apply stable_lift
    | apply only_at_upd; intros []; cbn; solve [auto]
    | apply only_at_self; intros ? ? ?
    | apply stable_bind; [|intros ?] | apply stable_try; [|intros ?] | apply stable_swallow
    | eapply only_at_sys; [solve [auto with ferry]|solve [auto]]
    | apply only_at_unchanged; solve [intros; auto with ferry]
    | case_match ].
Qed.

(** [begin]: the states it can leave the object in. *)
Definition begun (t : IncomingTransfer) (f : path) : IncomingTransfer :=
  let part := part_path (i_meta t) (i_download_dir t) in
  set_state TRANSFERRING (set_temp_fh (Some part) (set_final_path f (set_temp_path part (set_state ACCEPTED t)))).

Definition resolved_for (realpath : path -> res path) (t : IncomingTransfer) : res path :=
  resolve_safe_destination realpath (i_download_dir t) (m_file_name (i_meta t)) (m_relative_path (i_meta t)).

(** Nothing stands in the way of the directories and the [.part] file. *)
Definition unobstructed (t : IncomingTransfer) (f : path) (w : world) : Prop :=
  (forall q c, w_fs w !! q = Some (NFile c) -> ~ q `prefix_of` i_staging_dir t /\ ~ q `prefix_of` parent f)
  /\ fs_get (w_fs w) (part_path (i_meta t) (i_download_dir t)) <> Some NDir
  /\ ~ part_path (i_meta t) (i_download_dir t) `prefix_of` parent f.

(** Only directories on the way, and the [.part] file, are new. *)
Definition begin_fs (t : IncomingTransfer) (f : path) (w w' : world) : Prop :=
  fs_get (w_fs w') (parent f) = Some NDir
  /\ forall q, q <> part_path (i_meta t) (i_download_dir t) ->
     w_fs w' !! q = w_fs w !! q \/ q `prefix_of` i_staging_dir t \/ q `prefix_of` i_download_dir t \/ q `prefix_of` parent f.

Definition begin_post (realpath : path -> res path) (t : IncomingTransfer) (w : world) (r : res unit) (s' : st) : Prop :=
  let part := part_path (i_meta t) (i_download_dir t) in
  (calm w -> calm s'.2)
  /\ match r with
     | Ok _ => exists f, resolved_for realpath t = Ok f /\ s'.1 = begun t f /\ open_at part [] [] s'.2
             /\ begin_fs t f w s'.2
     | Err e => i_state s'.1 ∈ [ACCEPTED; FAILED]
                /\ (e = TransferError \/ resolved_for realpath t = Err e)
                /\ ~ (calm w /\ parent part = i_staging_dir t /\ exists f, resolved_for realpath t = Ok f /\ unobstructed t f w)
     end.

Lemma part_path_eq meta dir n :
  uuid_int (m_transfer_id meta) = Ok n ->
  part_path meta dir = (dir ++ [u "staging"]) ++ [m_transfer_id meta ++ PART].
Proof.
  intros Hs%uuid_int_safe. unfold part_path, path_join.
  assert (SLASH ∉ m_transfer_id meta ++ PART) as Hn.
  { rewrite elem_of_app. intros [Hin|Hin].
    - rewrite Forall_forall in Hs. apply Hs in Hin. unfold path_safe in Hin. naive_solver.
    - revert Hin. change PART with [46; 112; 97; 114; 116]. rewrite !elem_of_cons, elem_of_nil. unfold SLASH. lia. }
  assert (forall y, (length y < 5)%nat -> m_transfer_id meta ++ PART <> y) as Hlen.
  { intros y Hy <-. rewrite length_app in Hy. cbn in Hy. lia. }
  destruct (starts_with [SLASH] _) eqn:E.
  - apply starts_with_spec in E as (k & E). rewrite E in Hn. exfalso. apply Hn. apply elem_of_cons. by left.
  - f_equal. apply (path_comps_join [_]). constructor; [|done].
    unfold normal_comp. split_and!; [apply Hlen; cbn; lia..|done].
Qed.

Lemma parent_not_prefix p : p <> [] -> ~ p `prefix_of` parent p.
Proof.
  intros Hne Hp%prefix_length. destruct (exists_last Hne) as (q & c & ->).
  rewrite parent_snoc, length_app in Hp. cbn in Hp. lia.
Qed.

(** The steps of [begin] that the [except OSError] guards. *)
Definition opened (t : IncomingTransfer) (f : path) : IncomingTransfer :=
  let part := part_path (i_meta t) (i_download_dir t) in
  set_temp_fh (Some part) (set_final_path f (set_temp_path part t)).

Lemma wp_begin_open realpath t w :
  part_path (i_meta t) (i_download_dir t) = path_join (i_staging_dir t) (m_transfer_id (i_meta t) ++ PART) ->
  let part := part_path (i_meta t) (i_download_dir t) in
  wp (begin_open realpath) (fun r s' => (calm w -> calm s'.2) /\ i_state s'.1 = i_state t
    /\ match r with
       | Ok _ => exists f, resolved_for realpath t = Ok f /\ s'.1 = opened t f /\ open_at part [] [] s'.2
             /\ begin_fs t f w s'.2
       | Err e => (is_OSError e = true \/ resolved_for realpath t = Err e)
                /\ (calm w -> parent part = i_staging_dir t -> forall f, resolved_for realpath t = Ok f ->
                    i_download_dir t `prefix_of` i_staging_dir t -> ~ unobstructed t f w)
       end) (t, w).
Proof.
  intros Hpart part. unfold begin_open. apply wp_self. cbn [fst].
  wp_step. apply wp_sys. eapply wp_mono; [apply wp_mkdirs|]. cbn [fst snd].
  intros [[]|e] w1 ([_ C1] & A1 & R1); [|destruct R1 as [-> R1]].
  2:{ cbn. split_and!; auto. intros Hc _ f Hf _ [Hu _]. destruct (R1 Hc) as (q & c & ? & Hq). by destruct (Hu _ _ Hq). }
  wp_step. apply wp_sys. eapply wp_mono; [apply wp_mkdirs|]. cbn [fst snd].
  intros [[]|e] w2 ([_ C2] & A2 & R2); [|destruct R2 as [-> R2]].
  2:{ cbn. split_and!; auto. intros Hc _ f Hf Hpre [Hu _]. destruct (R2 (C1 Hc)) as (q & c & Hq & Hq').
      apply (dirs_added_file _ _ _ _ _ A1) in Hq'. destruct (Hu _ _ Hq') as [[] _]. by etrans. }
  wp_step. apply wp_upd. cbn [fst snd]. wp_step. apply wp_lift. fold (resolved_for realpath t).
  destruct (resolved_for realpath t) as [f|e] eqn:Ef; [|cbn; split_and!; naive_solver].
  wp_step. apply wp_upd. cbn [fst snd]. wp_step. apply wp_sys. eapply wp_mono; [apply wp_mkdirs|]. cbn [fst snd].
  assert (forall q c, w_fs w2 !! q = Some (NFile c) -> w_fs w !! q = Some (NFile c)) as F2.
  { intros q c Hq. by apply (dirs_added_file _ _ _ _ _ A1), (dirs_added_file _ _ _ _ _ A2). }
  intros [[]|e] w3 ([_ C3] & A3 & R3); [|destruct R3 as [-> R3]].
  2:{ cbn. split_and!; auto. intros Hc _ f' [= <-] _ [Hu _]. destruct (R3 (C2 (C1 Hc))) as (q & c & ? & Hq).
      apply F2 in Hq. by destruct (Hu _ _ Hq). }
  rewrite <-Hpart. fold part.
  wp_step. apply wp_sys. eapply wp_mono; [apply wp_open_write|]. cbn [fst snd].
  intros [h|e] w4 [C4 R4].
  - destruct R4 as (-> & Hnd & c & Hfs & Ho & ->). apply wp_upd. cbn. split_and!; auto. exists f.
    split; [done|]. split; [done|]. split; [done|]. split; cbn; fold part.
    + rewrite Hfs, fs_get_insert_ne; [done|]. intros E. by rewrite E in Hnd.
    + intros q Hq. rewrite Hfs, lookup_insert_ne by done.
      destruct (A3 q) as [->|(_&_&?)]; [|auto]. destruct (A2 q) as [->|(_&_&?)]; [|auto].
      destruct (A1 q) as [->|(_&_&?)]; auto.
  - destruct R4 as (Hfs & _ & He & R4). cbn. split_and!; auto. intros Hc Hpar f' [= <-] Hpre (Hu & Hd & Hnp).
    destruct (R4 (C3 (C2 (C1 Hc)))) as [Hdir|[_ Hdir]].
    + fold part in Hd, Hnp. destruct (decide (part = [])) as [E0|Hne0]; [by rewrite E0 in Hd|].
      rewrite fs_get_ne in Hd, Hdir by done. rename Hdir into H3.
      destruct (A3 part) as [E3|(_&_&?)]; [|by destruct Hnp]. rewrite E3 in H3.
      destruct (A2 part) as [E2|(_&_&Hp2)].
      * rewrite E2 in H3. destruct (A1 part) as [E1|(_&_&Hp1)]; [rewrite E1 in H3; by destruct Hd|].
        apply (parent_not_prefix part); [done|by rewrite Hpar].
      * by destruct (parent_not_prefix part); [|rewrite Hpar; etrans].
    + apply Hdir. rewrite Hpar. by eapply dirs_added_dir, dirs_added_dir.
Qed.

Lemma part_path_staging t :
  i_staging_dir t = i_download_dir t ++ [u "staging"] ->
  part_path (i_meta t) (i_download_dir t) = path_join (i_staging_dir t) (m_transfer_id (i_meta t) ++ PART).
Proof. unfold part_path. by intros ->. Qed.

Lemma wp_begin realpath t w :
  i_state t = IDLE -> i_staging_dir t = i_download_dir t ++ [u "staging"] ->
  wp (begin realpath) (begin_post realpath t w) (t, w).
Proof.
  intros Hidle Hst. unfold begin. wp_step. apply wp_transition; cbn [fst snd]; rewrite Hidle;
    [intros _|intros Hn; exfalso; apply Hn; set_solver].
  set (t1 := set_state ACCEPTED t). wp_step. wp_step.
  eapply wp_mono; [apply (wp_begin_open realpath t1 w); by apply part_path_staging|].
  intros r [t2 w2] (HC & Hs & Hr). cbn [fst snd] in *. destruct r as [[]|e].
  - destruct Hr as (f & Hf & -> & Ho & Hb). apply wp_transition; cbn [fst snd];
      [intros _|intros Hn; exfalso; apply Hn; cbn; set_solver].
    split; [done|]. exists f. split_and!; [done| |done|done]. reflexivity.
  - destruct Hr as [He Hl].
    assert (~ (calm w /\ parent (part_path (i_meta t) (i_download_dir t)) = i_staging_dir t
              /\ exists f, resolved_for realpath t = Ok f /\ unobstructed t f w)) as Hn.
    { intros (Hc & Hp & f & Hf & Hu). apply (Hl Hc Hp f Hf); [|done]. cbn. rewrite Hst. by eexists. }
    destruct (is_OSError e) eqn:Eo.
    + wp_step. apply wp_transition; cbn [fst snd]; rewrite Hs;
        [intros _|intros Hn'; exfalso; apply Hn'; cbn; set_solver].
      wp_step. split; [done|]. cbn [fst snd]. split_and!; [cbn; set_solver|by left|exact Hn].
    + destruct He as [He|He]; [congruence|]. split; [done|]. cbn [fst snd]. split_and!; [rewrite Hs; cbn; set_solver|by right|exact Hn].
Qed.

(** [finalise] from a live state whose file is in step with the hasher. *)
Definition delivered_at (t : IncomingTransfer) (f : fs) (final : path) : path :=
  if bool_decide (is_Some (fs_get f final)) then clash_path (i_meta t) final else final.

(** The rename has somewhere to go. *)
Definition deliverable (t : IncomingTransfer) (flushed : fs) : Prop :=
  exists f, i_final_path t = Some f /\ fs_get flushed (delivered_at t flushed f) <> Some NDir
  /\ fs_get flushed (parent (delivered_at t flushed f)) = Some NDir.

Definition finalise_post (t : IncomingTransfer) (w : world) (p : path) (r : res bool) (s' : st) : Prop :=
  let flushed := <[p := NFile (i_hasher t)]> (w_fs w) in
  (calm w -> calm s'.2)
  /\ match r with
     | Ok true => i_state s'.1 = COMPLETED /\ hexdigest (i_hasher t) = lower_hex (m_sha256 (i_meta t))
         /\ exists f, i_final_path t = Some f
            /\ w_fs s'.2 = <[delivered_at t flushed f := NFile (i_hasher t)]> (delete p flushed)
     | Ok false => i_state s'.1 = FAILED /\ hexdigest (i_hasher t) <> lower_hex (m_sha256 (i_meta t))
     | Err e => (synced s' /\ i_state s'.1 = i_state t \/ e = OSError) /\ ~ (calm w /\ deliverable t flushed)
     end.

(** The verification and the rename, once the file object is closed. *)
Definition verify_and_deliver (t : IncomingTransfer) : M st bool :=
  let actual := hexdigest (i_hasher t) in
  let expected := lower_hex (m_sha256 (i_meta t)) in
  if negb (bool_decide (actual = expected)) then
    cleanup_temp;; transition FAILED;; mret false
  else
    match i_temp_path t, i_final_path t with
    | Some temp, Some final =>
        b ← sys (exists_ final);
        let dest := if (b : bool) then path_join (parent final) (tid8 t ++ u "_" ++ path_name final) else final in
        sys (rename temp dest);;
        transition COMPLETED;;
        mret true
    | _, _ => raise AssertionError
    end.

Lemma wp_verify t w p w' :
  i_temp_path t = Some p -> p <> [] -> i_bytes_received t = zlen (i_hasher t) -> live (i_state t) ->
  (calm w -> calm w') -> w_fs w' = <[p := NFile (i_hasher t)]> (w_fs w) ->
  wp (verify_and_deliver t) (finalise_post t w p) (set_temp_fh None t, w').
Proof.
  intros Hp Hne Hrec Hlive Hc Hfs. unfold verify_and_deliver.
  assert (forall w1, w_fs w1 = w_fs w' -> synced (set_temp_fh None t, w1)) as Hsy.
  { intros w1 Hw1. split; [done|]. exists p. split_and!; [done..|]. cbn. by rewrite Hw1, Hfs, lookup_insert_eq. }
  case_bool_decide as Hsha; cbn [negb].
  - rewrite Hp. destruct (i_final_path t) as [f|] eqn:Hf.
    2:{ wp_step. split; [done|]. split; [left; by split; [apply Hsy|]|]. intros (_ & f & Hf' & _). congruence. }
    wp_step. apply wp_sys, wp_exists; cbn [fst snd].
    2:{ intros w1 [_ C1] _ Hn. split; [tauto|]. split; [by right|]. tauto. }
    intros w1 [_ C1] F1. wp_step. apply wp_sys. cbn [fst snd]. rewrite Hfs.
    change (path_join (parent f) (tid8 t ++ u "_" ++ path_name f)) with (clash_path (i_meta t) f).
    fold (delivered_at t (<[p:=NFile (i_hasher t)]> (w_fs w)) f).
    eapply wp_mono; [apply wp_rename|]. cbn [fst snd]. rewrite F1, Hfs. intros [[]|e] w2 [[_ C2] R2].
    + destruct R2 as (c & Hc1 & Hd & Hfs2 & Hnd). wp_step. apply wp_transition; cbn [fst snd].
      2:{ intros Hn. exfalso. apply Hn. cbn. destruct Hlive as [->| ->]; set_solver. }
      intros _. wp_step. split; [cbn; tauto|]. cbn [fst snd]. split; [done|]. split; [done|].
      exists f. split; [done|].
      apply fs_get_file in Hc1 as [_ Hc1]. rewrite lookup_insert_eq in Hc1. by injection Hc1 as <-.
    + destruct R2 as (F2 & _ & Hbad). split; [cbn; tauto|]. split.
      * left. split; [apply Hsy; congruence|done].
      * intros (Hcw & f' & Hf' & Hd1 & Hd2). rewrite Hf in Hf'. injection Hf' as <-.
        apply (Hbad ltac:(tauto) (i_hasher t)); [|done..]. by rewrite fs_get_ne, lookup_insert_eq.
  - wp_step. eapply wp_mono; [apply wp_cleanup_temp|]. cbn [fst snd].
    intros r [t2 w2] (Ht2 & Hr & C2). cbn in Ht2; subst t2. destruct Hr as [->| ->].
    + wp_step. apply wp_transition; cbn [fst snd].
      2:{ intros Hn. exfalso. apply Hn. cbn. destruct Hlive as [->| ->]; set_solver. }
      intros _. wp_step. split; [|done]. cbn in *. tauto.
    + split; [cbn in *; tauto|]. split; [by right|]. intros [Hcw _]. cbn in C2. by destruct (C2 (Hc Hcw)).
Qed.

Lemma wp_finalise t w p :
  synced (t, w) -> i_temp_path t = Some p -> live (i_state t) -> wp finalise (finalise_post t w p) (t, w).
Proof.
  intros (Hrec & p' & Hp' & Hne & Hfh) Hp Hlive. cbn [fst snd] in *. rewrite Hp in Hp'. injection Hp' as <-.
  unfold finalise. apply wp_self. cbn [fst]. wp_step.
  destruct (i_temp_fh t) as [h|] eqn:Eh.
  - destruct Hfh as (-> & c & b & Ho & Hcb).
    wp_step. apply wp_sys. eapply wp_mono; [by apply wp_fh_flush|]. cbn [fst snd].
    intros r w1 ((c1 & b1 & Ho1 & Hcb1 & F1 & _) & C1 & [[-> Ho1']| ->]).
    2:{ split; [cbn; tauto|]. split; [by right|]. intros [Hcw _]. by destruct (C1 Hcw). }
    wp_step. apply wp_sys. eapply wp_mono; [by apply wp_fh_close|]. cbn [fst snd].
    intros r w2 ((c2 & F2 & _ & E2) & _ & C2 & [->| ->]).
    2:{ split; [cbn; tauto|]. split; [by right|]. intros [Hcw _]. by destruct (C2 (proj1 (C1 Hcw))). }
    apply wp_upd. apply wp_verify; [done..|tauto|]. cbn [fst snd].
    rewrite F2, F1, insert_insert_eq, E2, app_nil_r, Hcb by done. done.
  - wp_step. assert (set_temp_fh None t = t) as Et by (destruct t; cbn in *; by subst).
    pose proof (wp_verify t w p w Hp Hne Hrec Hlive) as Hv. rewrite Et in Hv. apply Hv; [done|].
    by rewrite insert_id.
Qed.

(** ** Interrupting *)

Lemma set_temp_fh_same t : i_temp_fh t = None -> set_temp_fh None t = t.
Proof. destruct t; cbn. by intros ->. Qed.

Lemma wp_flush_and_close s :
  wp flush_and_close (fun r s' => r = Ok tt /\ s'.1 = set_temp_fh None s.1) s.
Proof.
  unfold flush_and_close. apply wp_self. destruct (i_temp_fh s.1) as [h|] eqn:E.
  - repeat wp_step. apply wp_sys. unfold wp at 1. destruct (fh_flush h s.2) as [[[]|e] w1]; cbn.
    + apply wp_sys. unfold wp at 1. destruct (fh_close h w1) as [r w2]; cbn. wp_step. apply wp_upd. cbn.
      apply wp_sys. cbn. unfold fh_drop. wp_step. unfold wp. by destruct (fh_close h w2).
    + wp_step. apply wp_upd. cbn. apply wp_sys. cbn. unfold fh_drop. wp_step. unfold wp. by destruct (fh_close h w1).
  - wp_step. split; [done|]. by rewrite set_temp_fh_same.
Qed.

Lemma wp_bytes_on_disk s :
  wp bytes_on_disk (fun r s' => s'.1 = s.1 /\ (r = Err OSError \/ exists n, r = Ok n)) s.
Proof.
  unfold bytes_on_disk. apply wp_self. destruct (i_temp_path s.1) as [p|]; [|wp_step; eauto].
  wp_step. apply wp_sys, wp_exists; cbn; [|auto]. intros w1 _ _. case_bool_decide; [|wp_step; eauto].
  wp_step. apply wp_sys, wp_syscall; cbn.
  - intros e w2 _ _ He. assert (is_OSError e = true) as ->; [|wp_step; eauto].
    destruct He as [He|[_ ->]]; [|done]. by repeat case_match; simplify_eq.
  - eauto.
Qed.

Lemma wp_align_part n s :
  wp (align_part n) (fun r s' => r = Ok tt
    /\ (s'.1 = s.1 \/ s'.1 = set_received (i_next_seq s.1 * m_chunk_size (i_meta s.1)) s.1)) s.
Proof.
  unfold align_part. apply wp_self. destruct (i_temp_path s.1) as [p|]; [|wp_step; auto].
  destruct (_ <? n); [|wp_step; auto]. repeat wp_step. apply wp_sys, wp_syscall; cbn.
  - intros e w2 _ _ He. assert (is_OSError e = true) as ->; [|wp_step; auto].
    destruct He as [He|[_ ->]]; [|done]. by repeat case_match; simplify_eq.
  - intros [] w2 _ _. apply wp_upd. auto.
Qed.

Lemma interrupt_keeps_states s :
  wp interrupt (fun r s' => r = Err OSError
    \/ i_hasher s'.1 = i_hasher s.1
       /\ (i_state s'.1 ∈ [FAILED; INTERRUPTED; COMPLETED; CANCELLED] \/ i_state s.1 = ACCEPTED /\ i_state s'.1 = ACCEPTED)) s.
Proof.
  destruct s as [t w]. unfold interrupt. apply wp_self. cbn [fst snd].
  case_bool_decide as H1; [wp_step; right; cbn; set_solver|].
  case_bool_decide as H2; cbn [negb]; [|apply wp_upd; right; cbn; set_solver].
  destruct (_ =? 0); [apply wp_upd; right; cbn; set_solver|].
  wp_step. eapply wp_mono; [apply wp_flush_and_close|]. intros r [t1 w1] [-> E1]; cbn in E1.
  wp_step. eapply wp_mono; [apply wp_bytes_on_disk|]. intros r [t2 w2] [E2 [->|[n ->]]]; [by left|]; cbn in E2.
  destruct (_ && _); [apply wp_upd; right; cbn; rewrite E2, E1; cbn; set_solver|].
  wp_step. apply wp_upd. cbn. wp_step.
  eapply (wp_mono _ (fun r s' => r = Ok tt /\ i_hasher s'.1 = i_hasher t /\ i_state s'.1 = i_state t)).
  { destruct (_ >? 0); [apply wp_upd|wp_step]; cbn; rewrite E2, E1; done. }
  intros r [t3 w3] (-> & Hh3 & Hs3); cbn in Hh3, Hs3.
  wp_step. eapply wp_mono; [apply wp_align_part|]. intros r [t4 w4] [-> E4]; cbn in E4.
  assert (i_hasher t4 = i_hasher t /\ i_state t4 = i_state t) as [Hh4 Hs4] by (destruct E4 as [->| ->]; done).
  apply wp_transition; cbn [fst snd]; rewrite Hs4.
  - intros _. right. cbn. rewrite Hh4. set_solver.
  - intros Hn. right. rewrite Hh4. split; [done|]. right.
    destruct (i_state t) eqn:Est; cbn in Hn; set_solver.
Qed.

(** The file as [interrupt] leaves it: cut at the last chunk boundary. *)
Definition aligned (t : IncomingTransfer) : Z :=
  zlen (i_hasher t) / m_chunk_size (i_meta t) * m_chunk_size (i_meta t).

Definition interrupted (t : IncomingTransfer) : IncomingTransfer :=
  set_state INTERRUPTED (set_next_seq (zlen (i_hasher t) / m_chunk_size (i_meta t))
    (set_received (aligned t) (set_temp_fh None t))).

Lemma wp_flush_and_close_calm t w p :
  synced (t, w) -> i_temp_path t = Some p -> calm w ->
  wp flush_and_close (fun r s' => r = Ok tt /\ s'.1 = set_temp_fh None t /\ calm s'.2
    /\ w_fs s'.2 = <[p := NFile (i_hasher t)]> (w_fs w)) (t, w).
Proof.
  intros (Hrec & p' & Hp' & Hne & Hfh) Hp Hc. cbn [fst snd] in *. rewrite Hp in Hp'. injection Hp' as <-.
  unfold flush_and_close. apply wp_self. cbn [fst].
  destruct (i_temp_fh t) as [h|] eqn:Eh.
  - destruct Hfh as (-> & c & b & Ho & Hcb). repeat wp_step.
    apply wp_sys. eapply wp_mono; [by apply wp_fh_flush|]. cbn [fst snd].
    intros r w1 ((c1 & b1 & Ho1 & Hcb1 & F1 & _) & C1 & Hr). destruct (C1 Hc) as [Hc1 ->].
    apply wp_sys. eapply wp_mono; [by apply wp_fh_close|]. cbn [fst snd].
    intros r w2 ((c2 & F2 & _ & E2) & P2 & C2 & _). destruct (C2 Hc1) as [Hc2 ->].
    wp_step. apply wp_upd. apply wp_sys. unfold fh_drop, fh_close. repeat wp_step. cbn [fst snd].
    rewrite P2, lookup_delete_eq. wp_step. repeat split; [done|].
    by rewrite F2, F1, insert_insert_eq, E2, Hcb1, Hcb by done.
  - wp_step. cbn. rewrite set_temp_fh_same by done. by rewrite insert_id.
Qed.

Lemma wp_interrupt_calm t w p :
  synced (t, w) -> i_temp_path t = Some p -> i_state t = TRANSFERRING -> calm w ->
  m_file_size (i_meta t) <> 0 -> 0 < m_chunk_size (i_meta t) ->
  wp interrupt (fun r s' => r = Ok tt /\ calm s'.2
    /\ if bool_decide (i_hasher t = []) then i_state s'.1 = FAILED
       else s'.1 = interrupted t
            /\ w_fs s'.2 = <[p := NFile (take (Z.to_nat (aligned t)) (i_hasher t))]> (w_fs w)) (t, w).
Proof.
  intros Hsy Hp Hst Hc Hsz Hcs. pose proof (proj1 Hsy) as Hrec. cbn in Hrec. unfold interrupt. apply wp_self. cbn [fst snd]. rewrite Hst.
  rewrite (bool_decide_eq_false_2 (TRANSFERRING ∈ _)) by set_solver.
  rewrite (bool_decide_eq_true_2 (TRANSFERRING ∈ _)) by set_solver. cbn [negb].
  rewrite (proj2 (Z.eqb_neq _ 0)) by done.
  assert (p <> []) as Hne by (destruct Hsy as (_ & p' & Hp' & ? & _); cbn in Hp'; congruence).
  wp_step. eapply wp_mono; [by apply wp_flush_and_close_calm|]. intros r [t1 w1] (-> & E1 & C1 & F1).
  cbn [fst snd] in *. subst t1. wp_step. unfold bytes_on_disk. apply wp_self. cbn [fst i_temp_path set_temp_fh]. rewrite Hp.
  assert (fs_get (w_fs w1) p = Some (NFile (i_hasher t))) as Hg.
  { rewrite fs_get_ne, F1, lookup_insert_eq by done. done. }
  wp_step. apply wp_sys, wp_exists; cbn [fst snd]; [|done]. intros w2 [_ C2] F2. rewrite Hg.
  rewrite bool_decide_eq_true_2 by eauto. wp_step. apply wp_sys, wp_syscall; cbn [fst snd];
    rewrite F2, Hg; [intros e w3 _ _ [|[[] _]]; [done|tauto]|].
  intros n w3 [_ C3] [= <- F3]. cbn [i_bytes_received set_temp_fh]. rewrite Hrec.
  case_bool_decide as Hh.
  { rewrite Hh. apply wp_upd. cbn. repeat split. tauto. }
  assert (zlen (i_hasher t) > 0) as Hz by (destruct (i_hasher t); [done|unfold zlen; cbn; lia]).
  replace ((zlen (i_hasher t) =? 0) && (zlen (i_hasher t) =? 0)) with false by lia.
  wp_step. apply wp_upd. wp_step. cbn [fst snd]. replace (m_chunk_size (i_meta t) >? 0) with true by lia.
  apply wp_upd. cbn [fst snd]. set (n := zlen (i_hasher t) / m_chunk_size (i_meta t)).
  assert (n * m_chunk_size (i_meta t) <= zlen (i_hasher t)) as Hle.
  { unfold n. pose proof (Z.mul_div_le (zlen (i_hasher t)) (m_chunk_size (i_meta t))). lia. }
  wp_step.
  eapply (wp_mono _ (fun r s' => r = Ok tt /\ calm s'.2
    /\ s'.1 = set_next_seq n (set_received (aligned t) (set_temp_fh None t))
    /\ w_fs s'.2 = <[p := NFile (take (Z.to_nat (aligned t)) (i_hasher t))]> (w_fs w))).
  - unfold align_part. apply wp_self. cbn [fst i_temp_path set_temp_fh set_received set_next_seq set_progress i_next_seq i_meta].
    rewrite Hp. fold (aligned t). unfold n at 1. fold (aligned t) in Hle |- *.
    change (zlen (i_hasher t) / m_chunk_size (i_meta t) * m_chunk_size (i_meta t)) with (aligned t).
    destruct (Z.ltb_spec (aligned t) (zlen (i_hasher t))) as [Hlt|Hge].
    + repeat wp_step. apply wp_sys, wp_syscall; cbn [fst snd]; rewrite <-F3, Hg;
        [intros e w4 _ _ [|[[] _]]; [done|tauto]|].
      intros [] w4 [_ C4] [= F4]. apply wp_upd. cbn. repeat split; [tauto|].
      rewrite <-F4, F1, insert_insert_eq. done.
    + assert (aligned t = zlen (i_hasher t)) as Ea by (unfold aligned in *; fold n in Hge |- *; lia).
      wp_step. cbn. rewrite <-Ea. repeat split; [tauto|].
      rewrite <-F3, F1, take_ge by (rewrite Ea; unfold zlen; lia). done.
  - intros r [t4 w4] (-> & C4 & E4 & F4). cbn [fst snd] in *. subst t4. apply wp_transition; cbn [fst snd].
    + intros _. done.
    + intros Hn. exfalso. apply Hn. cbn. rewrite Hst. set_solver.
Qed.

(** ** Resuming *)

Definition resumed (t : IncomingTransfer) (p : path) (content : bytes) (k : Z) : IncomingTransfer :=
  set_state RESUMING (set_next_seq k (set_received (zlen content) (set_hasher content (set_temp_fh (Some p)
    (set_state RESUME_REQUESTED t))))).

Definition resume_post (k : Z) (t : IncomingTransfer) (w : world) (r : res unit) (s' : st) : Prop :=
  calm s'.2
  /\ match r with
     | Ok _ => exists p c, i_temp_path t = Some p /\ s'.1 = resumed t p c k
               /\ open_at p c [] s'.2 /\ w_fs s'.2 = <[p := NFile c]> (w_fs w)
               /\ (forall c0, w_fs w !! p = Some (NFile c0) -> c = c0)
     | Err e => i_state s'.1 = FAILED
                /\ (forall p c, p <> [] -> i_temp_path t = Some p -> w_fs w !! p <> Some (NFile c))
     end.

Lemma wp_resume k t w :
  i_state t = INTERRUPTED \/ i_state t = RESUME_REQUESTED -> calm w ->
  wp (resume k) (resume_post k t w) (t, w).
Proof.
  intros Hst Hc. unfold resume. apply wp_self. cbn [fst snd].
  assert (bool_decide (i_state t ∈ [INTERRUPTED; RESUME_REQUESTED]) = true) as -> by (by destruct Hst as [->| ->]).
  cbn [negb raise_if]. wp_step. wp_step. wp_step.
  eapply (wp_mono _ (fun r s' => r = Ok tt /\ s' = (set_state RESUME_REQUESTED t, w))).
  { case_bool_decide as Hi.
    - apply wp_transition; cbn [fst snd]; [done|]. intros Hn. exfalso. apply Hn. rewrite Hi. set_solver.
    - wp_step. split; [done|]. destruct Hst as [|Hst]; [done|]. destruct t; cbn in *; by subst. }
  intros r s1 (-> & ->). destruct (i_temp_path t) as [p|] eqn:Hp.
  2:{ wp_step. apply wp_upd. wp_step. split; [done|]. split; [done|]. intros. congruence. }
  wp_step. apply wp_sys, wp_exists; cbn [fst snd]; [|done]. intros w1 [_ C1] F1. wp_step.
  case_bool_decide as Hex.
  2:{ wp_step. apply wp_upd. wp_step. split; [cbn; tauto|]. split; [done|].
      intros p' c Hne Hp' Hf. rewrite Hp in Hp'. injection Hp' as <-. apply Hex. rewrite fs_get_ne by done. eauto. }
  wp_step. wp_step. wp_step. apply wp_sys. eapply wp_mono; [apply wp_open_write|]. cbn [fst snd].
  intros [h|e] w2 [C2 R2].
  2:{ destruct R2 as (F2 & _ & He & Hbad). rewrite He. wp_step. apply wp_upd. wp_step.
      split; [cbn; tauto|]. split; [done|]. intros p' c Hne Hp' Hf. rewrite Hp in Hp'. injection Hp' as <-.
      destruct (Hbad (C1 Hc)) as [Hd|[Hd _]]; by rewrite F1, fs_get_ne, Hf in Hd. }
  destruct R2 as (-> & _ & c & F2 & Ho & Happ). rewrite F1 in F2, Happ.
  wp_step. apply wp_upd. cbn [fst snd]. destruct Ho as (Hne & Hfile & Hpend).
  wp_step. apply wp_sys. eapply wp_mono; [apply (wp_read_blocks p c); cbn; by rewrite fs_get_ne|].
  cbn [fst snd]. intros r w3 ([P3 C3] & F3 & seed & whole & -> & Hseed). rewrite Hseed by tauto.
  wp_step. apply wp_upd. cbn [fst snd]. wp_step. apply wp_sys, wp_syscall; cbn [fst snd];
    rewrite F3, fs_get_ne, Hfile by done; [intros e w4 _ _ [|[[] _]]; [done|tauto]|].
  intros n w4 [P4 C4] [= <- F4]. wp_step. apply wp_upd. cbn [fst snd]. wp_step. apply wp_upd. cbn [fst snd].
  apply wp_transition; cbn [fst snd]; [intros _|intros Hn; exfalso; apply Hn; cbn; set_solver].
  split; [cbn; tauto|]. exists p, c. split; [done|]. split; [reflexivity|]. cbn [snd].
  split; [|split; [congruence|done]]. unfold open_at. rewrite <-F4, P4, P3. done.
Qed.

(** ** Every reachable state is in step with its file *)

(** A call takes one outcome of the system. *)
Lemma wp_syscall_next {A} (op : fs -> res (A * fs)) w : wp (syscall op) (fun _ w' => w_oracle w' = tail (w_oracle w)) w.
Proof.
  unfold wp, syscall, draw, mbind, M_bind, get, put, lift. destruct w as [f b [|o l]]; cbn.
  - by destruct (op f) as [[]|].
  - destruct (o_ok o); [|done]. cbn. by destruct (op f) as [[]|].
Qed.
Lemma wp_open_next append p w : wp (open_write append p) (fun _ w' => w_oracle w' = tail (w_oracle w)) w.
Proof. unfold open_write. wp_step. eapply wp_mono; [apply wp_syscall_next|]. cbn. intros [[]|e] w1 E; [|done]. by repeat wp_step. Qed.
Lemma wp_read_back p c w :
  fs_get (w_fs w) p = Some (NFile c) -> (forall o, w_oracle w !! 0%nat = Some o -> o_ok o = true) ->
  wp (read_blocks p) (fun r w' => r = Ok (c, true) /\ w_fs w' = w_fs w /\ w_pending w' = w_pending w) w.
Proof.
  intros Hf Ho. unfold read_blocks. wp_step.
  eapply (wp_mono _ (fun r w' => w_fs w' = w_fs w /\ w_pending w' = w_pending w /\ exists o, r = Ok o /\ o_ok o = true)).
  - unfold wp, draw. destruct w as [f b [|o l]]; (split_and!; [done..|]); eexists; (split; [done|]); [done|by apply Ho].
  - intros r w1 (F & P & o & -> & E). wp_step. wp_step. wp_step. by rewrite F, Hf, E.
Qed.

(** The third system call of [resume], which reads the [.part] file back, does not
    fail: the one failure that the method only logs. *)
Definition reads_back (w : world) : Prop := forall o, w_oracle w !! 2%nat = Some o -> o_ok o = true.

Lemma wp_resume_reads k t w :
  i_state t ∈ [INTERRUPTED; RESUME_REQUESTED] -> reads_back w ->
  wp (resume k) (fun r s' => match r with
                             | Ok _ => exists p c, i_temp_path t = Some p /\ s'.1 = resumed t p c k /\ open_at p c [] s'.2
                             | Err e => e = OSError \/ i_state s'.1 = FAILED
                             end) (t, w).
Proof.
  intros Hst Hrb. unfold resume. apply wp_self. cbn [fst snd]. rewrite (bool_decide_eq_true_2 (i_state t ∈ _)) by done.
  cbn [negb raise_if]. wp_step. wp_step. wp_step.
  eapply (wp_mono _ (fun r s' => r = Ok tt /\ s' = (set_state RESUME_REQUESTED t, w))).
  { case_bool_decide as Hi.
    - apply wp_transition; cbn [fst snd]; [done|]. intros Hn. exfalso. apply Hn. rewrite Hi. set_solver.
    - wp_step. split; [done|]. apply elem_of_cons in Hst as [?|Hst%list_elem_of_singleton]; [done|].
      destruct t; cbn in *; by subst. }
  intros r s1 (-> & ->). destruct (i_temp_path t) as [p|] eqn:Hp; [|wp_step; apply wp_upd; wp_step; by right].
  wp_step. apply wp_sys. eapply wp_mono; [apply wp_and; [apply (wp_syscall_next _ w)|]|].
  { apply (wp_exists p (fun r _ => (exists b, r = Ok b) \/ r = Err OSError)); intros; [left; eauto|by right]. }
  cbn [fst snd]. intros r w1 [O1 [[b ->]| ->]]; [|by left]. wp_step. destruct b; [|wp_step; apply wp_upd; wp_step; by right].
  wp_step. wp_step. wp_step. apply wp_sys. eapply wp_mono; [apply wp_and; [apply wp_open_next|apply wp_open_write]|]. cbn [fst snd].
  intros [h|e] w2 [O2 [_ R2]]; [|destruct R2 as (_ & _ & -> & _); wp_step; apply wp_upd; wp_step; by right].
  destruct R2 as (-> & _ & c & _ & (Hne & Hfile & Hpend) & _). wp_step. apply wp_upd. cbn [fst snd].
  wp_step. apply wp_sys. eapply wp_mono; [apply (wp_read_back p c); [cbn; by rewrite fs_get_ne|]|].
  { cbn [snd]. rewrite O2, O1. intros o Ho. apply Hrb. by destruct (w_oracle w) as [|? [|? l]]. }
  cbn [fst snd]. intros r w3 (-> & F3 & P3). wp_step. apply wp_upd. cbn [fst snd]. wp_step.
  apply wp_sys, wp_syscall; cbn [fst snd]; rewrite F3, fs_get_ne, Hfile by done; [intros e w4 _ _ [?|[_ ->]]; [done|by left]|].
  intros n w4 [P4 C4] [= <- F4]. wp_step. apply wp_upd. cbn [fst snd]. wp_step. apply wp_upd. cbn [fst snd].
  apply wp_transition; cbn [fst snd]; [intros _|intros Hn; exfalso; apply Hn; cbn; set_solver].
  exists p, c. split; [done|]. split; [reflexivity|]. cbn [snd]. unfold open_at. by rewrite <-F4, P4, P3.
Qed.

(** Sequences of calls of which none raised a bare [OSError] (the methods document
    [TransferError], and let [OSError] through only when a second system call fails
    while they handle the first) and in which every [resume] could read the file. *)
Inductive reach (realpath : path -> res path) (meta : TransferMetadata) (dir : path) : st -> Prop :=
  | reach_new w : reach realpath meta dir (new_incoming meta dir, w)
  | reach_op o s r s' : reach realpath meta dir s ->
      run_op realpath o s = (r, s') -> r <> Err OSError -> (forall k, o = OResume k -> reads_back s.2) ->
      reach realpath meta dir s'
  (** Other processes and other transfers may take their turn, as long as the
      file and the buffer of this one are left alone. *)
  | reach_world t w w' : reach realpath meta dir (t, w) ->
      w_fs w' !! part_path meta dir = w_fs w !! part_path meta dir ->
      w_pending w' !! part_path meta dir = w_pending w !! part_path meta dir ->
      reach realpath meta dir (t, w').

Lemma run_wp {A} (m : M st A) (Q : res A -> st -> Prop) s r s' : m s = (r, s') -> wp m Q s -> Q r s'.
Proof. intros E H. by eapply wp_elim. Qed.

Lemma inv_state s s' :
  inv s -> i_state s'.1 = i_state s.1 -> ~ live (i_state s.1) ->
  (i_state s.1 = IDLE -> i_hasher s'.1 = i_hasher s.1 /\ i_bytes_received s'.1 = i_bytes_received s.1) -> inv s'.
Proof. intros (H1 & H2 & H3) Hs Hl Hi. unfold inv. rewrite Hs. intuition congruence. Qed.

Lemma begin_bad realpath s :
  ACCEPTED ∉ VALID_TRANSITIONS (i_state s.1) -> wp (begin realpath) (fun r s' => s' = s) s.
Proof. intros Hn. unfold begin. wp_step. by apply wp_transition. Qed.

Lemma inv_begin realpath s r s' :
  inv s -> i_staging_dir s.1 = i_download_dir s.1 ++ [u "staging"] -> begin realpath s = (r, s') -> inv s'.
Proof.
  intros Hinv Hst E. destruct s as [t w]. destruct (decide (i_state t = IDLE)) as [Hi|Hi].
  - pose proof (run_wp _ _ _ _ _ E (wp_begin realpath t w Hi Hst)) as [_ Hb].
    destruct Hinv as (_ & Hh & _). cbn in Hh. destruct r as [[]|e].
    + destruct Hb as (f & _ & Ht & Ho & _). unfold inv. rewrite Ht. cbn. split; [|split; [naive_solver|done]].
      intros _. split; rewrite Ht; cbn; [rewrite (proj1 (Hh Hi)); apply Hh, Hi|].
      exists (part_path (i_meta t) (i_download_dir t)). split_and!; [done|apply Ho|done|].
      exists [], []. split; [done|]. cbn. symmetry. by apply Hh.
    + destruct Hb as (Hb2 & _). unfold inv.
      repeat (apply elem_of_cons in Hb2 as [Hb2|Hb2]); [| |by apply elem_of_nil in Hb2];
        rewrite Hb2; unfold live; naive_solver.
  - pose proof (run_wp _ _ _ _ _ E (begin_bad realpath (t, w) ltac:(cbn; destruct Hinv as (_ & _ & ?); cbn in *;
      destruct (i_state t); cbn; set_solver))) as ->. done.
Qed.

Lemma inv_receive f s r s' : inv s -> receive_chunk f s = (r, s') -> r <> Err OSError -> inv s'.
Proof.
  intros Hinv E Hr. destruct s as [t w].
  destruct (decide (i_state t ∈ [TRANSFERRING; RESUMING])) as [Hl|Hl].
  - assert (live (i_state t)) as Hlive by (unfold live; set_solver).
    destruct (Hinv) as (Hs & _). specialize (Hs Hlive).
    pose proof (run_wp _ _ _ _ _ E (wp_receive_chunk f t w Hs Hlive)) as [Hp _]. unfold chunk_post in Hp.
    destruct r as [[]|e].
    + destruct Hp as (_ & _ & _ & Ht & Hsy). unfold inv. rewrite Ht. cbn. split; [done|].
      split; [destruct Hlive as [->| ->]; naive_solver|]. by destruct Hlive as [->| ->].
    + destruct Hp as [(-> & -> & _)|[(-> & Hst & _)|[[-> _]|(-> & -> & _)]]]; [done| |done|done].
      apply inv_dead. rewrite Hst. set_solver.
  - unfold receive_chunk in E. assert (s' = (t, w)) as ->; [|done].
    eapply (run_wp _ (fun _ s' => s' = (t, w)) _ _ _ E). apply wp_self. cbn [fst].
    rewrite (bool_decide_eq_false_2 (i_state t ∈ _)) by done. wp_step. by wp_step.
Qed.

(** What a method keeps when it only changes bookkeeping fields. *)
Definition about (J : IncomingTransfer -> Prop) (s : st) : Prop := J s.1.

Lemma stable_self I {A} (k : IncomingTransfer -> M st A) :
  (forall t, stable I (k t)) -> stable I (self ≫= k).
Proof. intros H [t w] Hs. apply wp_self. by apply H. Qed.

Lemma stable_sys J {A} (m : M world A) : stable (about J) (sys m).
Proof. intros [t w] Hs. apply wp_sys. unfold wp. by destruct (m w). Qed.

Lemma stable_upd J f : (forall t, J t -> J (f t)) -> stable (about J) (upd f).
Proof. intros H [t w] Hs. apply wp_upd. by apply H. Qed.

Lemma stable_transition J new : (forall t, J t -> J (set_state new t)) -> stable (about J) (transition new).
Proof. intros H [t w] Hs. by apply wp_transition; intros _; [apply H|]. Qed.

Ltac stab :=
  repeat first
    [ apply stable_ret | apply stable_raise | apply stable_lift | apply stable_sys
    | apply stable_transition; (intros [] ?; cbn in *; set_solver)
    | apply stable_upd; (intros [] ?; cbn in *; naive_solver)
    | apply stable_self; intros ?
    | apply stable_bind; [|intros ?]
    | apply stable_try; [|intros ?]
    | apply stable_swallow
    | case_match ].

Definition ends (t : IncomingTransfer) (l : list TransferState) (t' : IncomingTransfer) : Prop :=
  i_hasher t' = i_hasher t /\ (i_state t' = i_state t \/ i_state t' ∈ l).

Lemma stable_finalise t :
  stable (about (fun t' => ends t [FAILED; COMPLETED] t' /\ i_bytes_received t' = i_bytes_received t)) finalise.
Proof. unfold finalise, cleanup_temp, ends. stab. Qed.

Lemma stable_prepare t e1 e2 : stable (about (ends t [])) (prepare_resume_request e1 e2).
Proof. unfold prepare_resume_request, ends. stab. Qed.

Lemma inv_finalise s r s' : inv s -> finalise s = (r, s') -> r <> Err OSError -> inv s'.
Proof.
  intros Hinv E Hr. destruct s as [t w].
  destruct (decide (i_state t ∈ [TRANSFERRING; RESUMING])) as [Hl|Hl].
  - assert (live (i_state t)) as Hlive by (unfold live; set_solver).
    destruct (Hinv) as (Hs & _). specialize (Hs Hlive). pose proof Hs as (_ & p & Hp & _).
    pose proof (run_wp _ _ _ _ _ E (wp_finalise t w p Hs Hp Hlive)) as [_ Hf]. destruct r as [[]|e].
    + apply inv_dead. destruct Hf as (-> & _). set_solver.
    + apply inv_dead. destruct Hf as (-> & _). set_solver.
    + destruct Hf as [[[Hsy Hst]|] _]; [|naive_solver]. unfold inv. rewrite Hst. cbn in *.
      split; [done|]. destruct Hlive as [->| ->]; naive_solver.
  - pose proof (run_wp _ _ _ _ _ E (stable_finalise t (t, w) ltac:(by split; [split; [|left]|]))) as [[Hh [Hst|Hst]] Hrec].
    + eapply inv_state; [exact Hinv|done|unfold live; cbn; set_solver|].
      by intros _.
    + apply inv_dead. set_solver.
Qed.

(** [finalise] can only succeed from a live state. *)
Lemma finalise_live s : wp finalise (fun r _ => r = Ok true -> live (i_state s.1)) s.
Proof.
  unfold finalise. apply wp_self. wp_step.
  match goal with |- wp ?m _ _ => eapply (wp_mono m (fun _ s' => i_state s'.1 = i_state s.1)) end.
  - match goal with |- wp ?m _ _ => assert (stable (about (fun t => i_state t = i_state s.1)) m) as Hst by stab end.
    by apply Hst.
  - intros [[]|e] s1 H1; [|done]. case_match.
    + wp_step. eapply wp_mono; [apply wp_cleanup_temp|]. intros [[]|e] s2 _; [|done].
      wp_step. apply wp_transition; [|done]. intros _. by wp_step.
    + repeat (case_match; [|by wp_step]). wp_step. apply wp_sys, wp_exists; cbn [fst snd]; [|done].
      intros w1 _ _. wp_step. apply wp_sys. eapply wp_mono; [apply wp_rename|]. cbn [fst snd].
      intros [[]|e] w2 _; [|done]. wp_step. apply wp_transition; [|done]. cbn [fst snd]. rewrite H1.
      intros Hin. wp_step. intros _. unfold live. destruct (i_state s.1); cbn in Hin; set_solver.
Qed.

Lemma inv_prepare e1 e2 s r s' : inv s -> prepare_resume_request e1 e2 s = (r, s') -> inv s'.
Proof.
  intros Hinv E. destruct s as [t w]. destruct (decide (i_state t = INTERRUPTED)) as [Hi|Hi].
  - pose proof (run_wp _ _ _ _ _ E (stable_prepare t e1 e2 (t, w) ltac:(by split; [|left]))) as [Hh [Hst|Hst]];
      [|by apply elem_of_nil in Hst]. apply inv_dead. rewrite Hst, Hi. set_solver.
  - assert (s' = (t, w)) as ->; [|done].
    eapply (run_wp _ (fun _ s' => s' = (t, w)) _ _ _ E). apply wp_self. cbn [fst].
    rewrite (bool_decide_eq_false_2 (i_state t = _)) by done. wp_step. by wp_step.
Qed.

Lemma inv_interrupt s r s' : inv s -> interrupt s = (r, s') -> r <> Err OSError -> inv s'.
Proof.
  intros Hinv E Hr. pose proof (run_wp _ _ _ _ _ E (interrupt_keeps_states s)) as [|[Hh [Hst|[Ha Hst]]]]; [done| |].
  - apply inv_dead. set_solver.
  - eapply inv_state; [exact Hinv|congruence|rewrite Ha; unfold live; naive_solver|congruence].
Qed.

Lemma inv_resume k s r s' : inv s -> resume k s = (r, s') -> r <> Err OSError -> reads_back s.2 -> inv s'.
Proof.
  intros Hinv E Hr Hc. destruct s as [t w]. destruct (decide (i_state t ∈ [INTERRUPTED; RESUME_REQUESTED])) as [Hi|Hi].
  - pose proof (run_wp _ _ _ _ _ E (wp_resume_reads k t w Hi Hc)) as Hp. destruct r as [[]|e].
    + destruct Hp as (p & c & Hp & Ht & Ho). unfold inv. rewrite Ht. cbn. split; [|split; [naive_solver|done]].
      intros _. split; rewrite Ht; [done|]. exists p. cbn. split_and!; [done|apply Ho|done|]. exists c, []. by rewrite app_nil_r.
    + apply inv_dead. destruct Hp as [->| ->]; [done|set_solver].
  - assert (s' = (t, w)) as ->; [|done].
    eapply (run_wp _ (fun _ s' => s' = (t, w)) _ _ _ E). apply wp_self. cbn [fst].
    rewrite (bool_decide_eq_false_2 (i_state t ∈ _)) by done. wp_step. by wp_step.
Qed.

Lemma wp_cancel s :
  wp cancel (fun r s' => (r = Ok tt /\ s'.1 = set_state CANCELLED (set_temp_fh None s.1) \/ r = Err OSError)
    /\ (calm s.2 -> calm s'.2 /\ r = Ok tt)) s.
Proof.
  unfold cancel. wp_step. eapply wp_mono; [apply wp_close_quietly|].
  intros r s1 (-> & E1 & C1). wp_step. eapply wp_mono; [apply wp_cleanup_temp|].
  intros r s2 (E2 & [->| ->] & C2); [apply wp_upd|]; cbn; rewrite ?E2, ?E1; naive_solver.
Qed.

Lemma inv_cancel s r s' : inv s -> cancel s = (r, s') -> r <> Err OSError -> inv s'.
Proof.
  intros Hinv E Hr. pose proof (run_wp _ _ _ _ _ E (wp_cancel s)) as [[[-> Ht]|] _]; [|done].
  apply inv_dead. rewrite Ht. cbn. set_solver.
Qed.

Lemma fixed_reach realpath meta dir s : reach realpath meta dir s -> fixed realpath meta dir s.1.
Proof.
  assert (forall t w, fixed realpath meta dir t -> frame realpath meta dir ∅ (t, w)) as Hfr.
  { intros t w Ht. split; [done|]. intros q c Hq. by rewrite lookup_empty in Hq. }
  induction 1 as [w|o [t w] r s' _ IH E _ _|]; [by split| |done].
  apply (run_wp _ (fun _ s' => fixed realpath meta dir s'.1) _ _ _ E).
  eapply wp_mono; [apply preserves_run_op, (Hfr t w IH)|]. by intros r' s1 [].
Qed.

Lemma then_ret {A} (m : M st A) s r s' :
  (m;; mret tt) s = (r, s') -> exists r0, m s = (r0, s') /\ (r0 = Err OSError -> r = Err OSError).
Proof.
  unfold mbind, M_bind, mret, M_ret. destruct (m s) as [[a|e] s1]; intros [= <- <-]; eexists; (split; [done|]); congruence.
Qed.

Lemma inv_reach realpath meta dir s : reach realpath meta dir s -> inv s.
Proof.
  induction 1 as [w|o s r s' Hre IH E Hr Hc|t w w' Hre IH Hf Hp].
  - split; [intros [|]; done|]. by split.
  - destruct o; cbn in E.
    + eapply inv_begin; [done| |done]. destruct (fixed_reach _ _ _ _ Hre) as [_ -> -> _ _ _]. done.
    + by eapply inv_receive.
    + apply then_ret in E as (r0 & E & H0). eapply inv_finalise; [done..|naive_solver].
    + by eapply inv_interrupt.
    + apply then_ret in E as (r0 & E & H0). by eapply inv_prepare.
    + eapply inv_resume; [done..|by eapply Hc].
    + by eapply inv_cancel.
  - destruct IH as (H1 & H2). split; [|done]. intros (Hrec & p & Ht & Hne & Hfh)%H1. cbn in *. split; [done|].
    pose proof (fr_temp _ _ _ _ (fixed_reach _ _ _ _ Hre) p Ht) as ->.
    eexists. split; [exact Ht|]. split; [done|]. cbn. destruct (i_temp_fh t).
    + destruct Hfh as (-> & c & b & (Hx & Hy & Hz) & Hcb). split; [done|]. exists c, b. split; [|done].
      unfold open_at. by rewrite Hf, Hp.
    + by rewrite Hf.
Qed.

(** C10. End-to-end integrity of a received file.  Take any sequence of calls of
    which none raised a bare [OSError] and in which every [resume] could read the
    [.part] file back, with any other failures of the system and any interleaving
    of other activity on the file system.  If [finalise] returns [True] then the
    transfer is COMPLETED, the bytes now at the destination are exactly the bytes
    that were hashed, and their SHA-256 is the one the offer declared. *)
Theorem finalise_verified realpath meta dir t w t' w' :
  reach realpath meta dir (t, w) ->
  finalise (t, w) = (Ok true, (t', w')) ->
  i_state t' = COMPLETED
  /\ exists f dest, resolve_safe_destination realpath dir (m_file_name meta) (m_relative_path meta) = Ok f
     /\ (dest = f \/ dest = clash_path meta f)
     /\ w_fs w' !! dest = Some (NFile (i_hasher t))
     /\ hexdigest (i_hasher t) = lower_hex (m_sha256 meta).
Proof.
  intros Hre E. pose proof (inv_reach _ _ _ _ Hre) as (Hsy & _). pose proof (fixed_reach _ _ _ _ Hre) as Hfix.
  assert (live (i_state t)) as Hlive.
  { pose proof (run_wp _ _ _ _ _ E (finalise_live (t, w))) as Hl. by apply Hl. }
  specialize (Hsy Hlive). pose proof Hsy as (_ & p & Hp & _).
  pose proof (run_wp _ _ _ _ _ E (wp_finalise t w p Hsy Hp Hlive)) as [_ (Hst & Hsha & f & Hf & Hfs)].
  cbn in *. split; [done|]. rewrite (fr_meta _ _ _ _ Hfix) in Hsha.
  exists f, (delivered_at t (<[p:=NFile (i_hasher t)]> (w_fs w)) f).
  split; [by apply (fr_final _ _ _ _ Hfix)|]. split.
  - unfold delivered_at. rewrite (fr_meta _ _ _ _ Hfix). case_bool_decide; auto.
  - split; [|done]. by rewrite Hfs, lookup_insert_eq.
Qed.

Lemma wp_prepare_calm t w p c :
  i_state t = INTERRUPTED -> i_temp_path t = Some p -> p <> [] -> w_fs w !! p = Some (NFile c) -> calm w ->
  let size := zlen c in
  let cs := m_chunk_size (i_meta t) in
  0 < size -> size <= m_file_size (i_meta t) -> 0 < cs -> size mod cs = 0 ->
  wp (prepare_resume_request None None) (fun r s' =>
    r = TransferResumeRequestPayload.make (m_transfer_id (i_meta t)) size (size / cs) (hexdigest c) 1
    /\ s'.1 = set_next_seq (size / cs) (set_received size t) /\ w_fs s'.2 = w_fs w /\ calm s'.2) (t, w).
Proof.
  intros Hst Hp Hne Hf Hc size cs Hpos Hle Hcs Hmod. unfold prepare_resume_request. apply wp_self. cbn [fst snd].
  rewrite Hst, Hp. wp_step. wp_step. cbn [bool_decide negb raise_if].
  rewrite bool_decide_eq_true_2 by done. cbn [negb raise_if].
  assert (forall w', w_fs w' = w_fs w -> fs_get (w_fs w') p = Some (NFile c)) as Hg.
  { intros w' ->. by rewrite fs_get_ne. }
  wp_step. apply wp_sys, wp_exists; cbn [fst snd]; [|done]. intros w1 [_ C1] F1. rewrite (Hg w) by done.
  rewrite bool_decide_eq_true_2 by eauto. do 2 wp_step. cbn [negb raise_if].
  wp_step. apply wp_sys, wp_syscall; cbn [fst snd]; rewrite (Hg w1 F1); [intros e w2 _ _ [|[[] _]]; [done|tauto]|].
  intros n w2 [_ C2] [= <- F2]. fold size.
  do 2 wp_step. replace (size =? 0) with false by lia. cbn [raise_if].
  do 2 wp_step. replace (m_file_size (i_meta t) <=? 0) with false by lia. cbn [raise_if].
  do 2 wp_step. replace (size >? m_file_size (i_meta t)) with false by lia. cbn [raise_if].
  do 2 wp_step. fold cs. replace (cs <=? 0) with false by lia. cbn [raise_if].
  do 2 wp_step. rewrite Hmod. cbn [Z.eqb negb raise_if]. do 2 wp_step. cbn [raise_if]. do 2 wp_step. cbn [raise_if].
  wp_step. apply wp_sys, wp_syscall; cbn [fst snd]; rewrite <-F2, (Hg w1 F1); [intros e w3 _ _ [|[[] _]]; [done|tauto]|].
  intros ? w3 [_ C3] [= <- F3]. wp_step. apply wp_upd. cbn [fst snd]. wp_step. apply wp_upd. cbn [fst snd].
  wp_step. cbn [fst snd]. split; [done|]. split; [done|]. split; [congruence|tauto].
Qed.

Lemma make_Ok tid off idx sha n :
  uuid_int tid = Ok n -> 0 <= off <= TEN_GIB -> 0 <= idx -> off = idx * 65536 ->
  TransferResumeRequestPayload.make tid off idx (hexdigest sha) 1
  = Ok (TransferResumeRequestPayload.mk tid off idx (hexdigest sha) 1).
Proof.
  intros Hu Ho Hi He. unfold TransferResumeRequestPayload.make.
  rewrite (proj2 (TransferResumeRequestPayload.validate_iff _ _)); [done|].
  unfold TransferResumeRequestPayload.valid. cbn -[hexdigest]. split_and!; try done; try lia; [by exists n| |].
  - unfold zlen. by rewrite length_hexdigest.
  - unfold is_lower_hex. apply forallb_forall. intros c Hc. pose proof (hexdigest_hex sha) as Hx.
    rewrite Forall_forall in Hx. apply Hx. by apply list_elem_of_In.
Qed.

Lemma make_raises tid off idx sha pv e :
  TransferResumeRequestPayload.make tid off idx sha pv = Err e -> e = ValueError.
Proof.
  unfold TransferResumeRequestPayload.make, TransferResumeRequestPayload.validate, validate_uuid. intros H.
  repeat match goal with
         | H : (_ ≫= _) = Err _ |- _ => apply bind_Err in H as [H|(? & _ & H)]
         | H : raise_if _ _ = Err _ |- _ => apply raise_if_Err in H as [_ ->]
         end; done.
Qed.

Section resume_run.
Context (realpath : path -> res path) (meta : TransferMetadata) (dir : path).
Context (t : IncomingTransfer) (w : world).
Hypothesis Hreach : reach realpath meta dir (t, w).
Hypothesis Hstate : i_state t = TRANSFERRING.
Hypothesis Hcalm : calm w.
Hypothesis Hcs : 0 < m_chunk_size meta.
Hypothesis Hsome : 0 < aligned t.
Hypothesis Hsize : zlen (i_hasher t) <= m_file_size meta.

Let k := zlen (i_hasher t) / m_chunk_size meta.
Let on_disk := take (Z.to_nat (aligned t)) (i_hasher t).

Lemma resume_meta : i_meta t = meta.
Proof. apply (fr_meta _ _ _ _ (fixed_reach _ _ _ _ Hreach)). Qed.

Lemma aligned_le : aligned t <= zlen (i_hasher t).
Proof.
  unfold aligned. rewrite resume_meta. pose proof (Z.mul_div_le (zlen (i_hasher t)) (m_chunk_size meta) Hcs). lia.
Qed.

Lemma aligned_eq : aligned t = k * m_chunk_size meta /\ zlen on_disk = aligned t.
Proof.
  split; [unfold aligned; by rewrite resume_meta|]. pose proof aligned_le as Hle.
  unfold on_disk, zlen in *. rewrite length_take. lia.
Qed.

Lemma interrupt_run : exists p w1,
  interrupt (t, w) = (Ok tt, (interrupted t, w1)) /\ calm w1 /\ p <> [] /\ i_temp_path t = Some p
  /\ w_fs w1 = <[p := NFile on_disk]> (w_fs w).
Proof.
  destruct (inv_reach _ _ _ _ Hreach) as [Hsy _]. specialize (Hsy (or_introl Hstate)).
  pose proof Hsy as (_ & p & Hp & Hne & _). cbn in Hp.
  assert (m_file_size (i_meta t) <> 0) as H0 by (rewrite resume_meta; pose proof aligned_le; lia).
  assert (0 < m_chunk_size (i_meta t)) as H1 by by rewrite resume_meta.
  destruct (wp_run _ _ _ (wp_interrupt_calm t w p Hsy Hp Hstate Hcalm H0 H1))
    as (r & [t1 w1] & E & -> & C1 & Hpost). cbn in *.
  rewrite bool_decide_eq_false_2 in Hpost.
  - destruct Hpost as [-> Hfs]. by exists p, w1.
  - intros Hnil. pose proof aligned_eq as [_ Hz]. unfold on_disk in Hz. rewrite Hnil, take_nil in Hz.
    unfold zlen in Hz. cbn in Hz. lia.
Qed.

Lemma prepare_run p w1 :
  calm w1 -> p <> [] -> i_temp_path t = Some p -> w_fs w1 !! p = Some (NFile on_disk) ->
  exists s2, prepare_resume_request None None (interrupted t, w1)
    = (TransferResumeRequestPayload.make (m_transfer_id meta) (aligned t) k (hexdigest on_disk) 1, s2)
    /\ i_state s2.1 = INTERRUPTED /\ i_temp_path s2.1 = Some p /\ w_fs s2.2 = w_fs w1 /\ calm s2.2
    /\ i_meta s2.1 = meta /\ i_final_path s2.1 = i_final_path t.
Proof.
  intros C1 Hne Hp Hf. pose proof aligned_eq as [Hak Hz].
  assert (aligned t / m_chunk_size meta = k /\ aligned t mod m_chunk_size meta = 0) as [Hdiv Hmod].
  { rewrite Hak. by rewrite Z.div_mul, Z.mod_mul by lia. }
  destruct (wp_run _ _ _ (wp_prepare_calm (interrupted t) w1 p on_disk eq_refl Hp Hne Hf C1
    ltac:(lia) ltac:(cbn; rewrite resume_meta, Hz; pose proof (Z.mul_div_le (zlen (i_hasher t)) (m_chunk_size meta) Hcs);
      rewrite Hak; unfold k; lia) ltac:(cbn; by rewrite resume_meta) ltac:(cbn; by rewrite resume_meta, Hz)))
    as (r & s2 & E & -> & E2 & F2 & C2). cbn in E, E2. rewrite resume_meta, Hz, Hdiv in *.
  exists s2. rewrite E2. cbn. rewrite resume_meta. done.
Qed.

Lemma resume_run_ok p s2 :
  i_state s2.1 = INTERRUPTED -> i_temp_path s2.1 = Some p -> p <> [] -> w_fs s2.2 !! p = Some (NFile on_disk) -> calm s2.2 ->
  exists s3, resume k s2 = (Ok tt, s3) /\ synced s3 /\ i_state s3.1 = RESUMING /\ i_hasher s3.1 = on_disk
    /\ i_next_seq s3.1 = k /\ i_meta s3.1 = i_meta s2.1 /\ calm s3.2
    /\ i_temp_fh s3.1 = Some p /\ i_temp_path s3.1 = Some p /\ i_final_path s3.1 = i_final_path s2.1
    /\ w_fs s3.2 = <[p := NFile on_disk]> (w_fs s2.2).
Proof.
  intros Hst Hp Hne Hf C2. destruct s2 as [t2 w2]; cbn in *.
  destruct (wp_run _ _ _ (wp_resume k t2 w2 (or_introl Hst) C2)) as (r & s3 & E & C3 & Hr).
  destruct r as [[]|e]; [|destruct Hr as [_ Hr]; by destruct (Hr p on_disk)].
  destruct Hr as (p' & c & Hp' & E3 & Ho & F3 & Hc). rewrite Hp in Hp'. injection Hp' as <-.
  rewrite (Hc _ Hf) in *. exists s3. split; [done|]. rewrite E3. split_and!; try done.
  split; rewrite E3; [done|]. exists p. cbn. split_and!; [done..|]. exists on_disk, []. by rewrite app_nil_r.
Qed.

(** Interrupt, request, resume. *)
Lemma interrupt_prepare_resume n :
  uuid_int (m_transfer_id meta) = Ok n -> m_chunk_size meta = 65536 -> m_file_size meta <= TEN_GIB ->
  exists s1 s2 s3 p, interrupt (t, w) = (Ok tt, s1) /\ i_state s1.1 = INTERRUPTED
  /\ prepare_resume_request None None s1
     = (Ok (TransferResumeRequestPayload.mk (m_transfer_id meta) (k * 65536) k (hexdigest on_disk) 1), s2)
  /\ resume k s2 = (Ok tt, s3)
  /\ i_state s3.1 = RESUMING /\ i_hasher s3.1 = on_disk /\ i_next_seq s3.1 = k /\ synced s3
  /\ i_meta s3.1 = meta /\ calm s3.2 /\ i_temp_fh s3.1 = Some p /\ i_temp_path s3.1 = Some p
  /\ i_temp_path t = Some p /\ i_final_path s3.1 = i_final_path t /\ p <> []
  /\ forall q, q <> p -> w_fs s3.2 !! q = w_fs w !! q.
Proof.
  intros Hu H64 Hten. pose proof aligned_eq as [Ha _]. pose proof aligned_le.
  destruct interrupt_run as (p & w1 & E1 & C1 & Hne & Hp & F1).
  destruct (prepare_run p w1 C1 Hne Hp) as (s2 & E2 & S2 & P2 & F2 & C2 & M2 & L2).
  { by rewrite F1, lookup_insert_eq. }
  destruct (resume_run_ok p s2 S2 P2 Hne) as (s3 & E3 & Sy3 & S3 & H3 & N3 & M3 & C3 & T3 & P3 & L3 & F3); [|done|].
  { by rewrite F2, F1, lookup_insert_eq. }
  rewrite Ha, H64 in E2.
  assert (0 <= k) by (unfold k; apply Z.div_pos; pose proof (zlen_nonneg (i_hasher t)); lia).
  rewrite (make_Ok _ _ _ _ n Hu) in E2 by lia.
  exists (interrupted t, w1), s2, s3, p. split_and!; try done; [congruence|congruence|].
  intros q Hq. by rewrite F3, lookup_insert_ne, F2, F1, lookup_insert_ne by done.
Qed.
End resume_run.

(** Interrupting and resuming a 64 KiB-chunk transfer loses nothing that was
    stored: from any reachable TRANSFERRING state with at least one whole chunk,
    [interrupt] cuts the [.part] file at the last chunk boundary; the resume
    request then states exactly that offset, chunk index and the digest of those
    bytes; and after [resume] the receiver is RESUMING with the same bytes
    hashed, waiting for exactly that chunk. *)
Theorem interrupt_resume_consistent realpath meta dir t w n :
  reach realpath meta dir (t, w) -> i_state t = TRANSFERRING -> calm w ->
  uuid_int (m_transfer_id meta) = Ok n -> m_chunk_size meta = 65536 ->
  65536 <= zlen (i_hasher t) -> zlen (i_hasher t) <= m_file_size meta -> m_file_size meta <= TEN_GIB ->
  let k := zlen (i_hasher t) / 65536 in
  let stored := take (Z.to_nat (k * 65536)) (i_hasher t) in
  exists s1 s2 s3,
    interrupt (t, w) = (Ok tt, s1) /\ i_state s1.1 = INTERRUPTED
    /\ prepare_resume_request None None s1
       = (Ok (TransferResumeRequestPayload.mk (m_transfer_id meta) (k * 65536) k (hexdigest stored) 1), s2)
    /\ resume k s2 = (Ok tt, s3)
    /\ i_state s3.1 = RESUMING /\ i_hasher s3.1 = stored /\ i_next_seq s3.1 = k /\ synced s3.
Proof.
  intros Hre Hst Hc Hu Hcs Hlo Hhi Hten k stored.
  assert (1 <= k) as Hk by (unfold k; apply Z.div_le_lower_bound; lia).
  assert (aligned t = k * 65536) as Ha by (unfold aligned; by rewrite (resume_meta _ _ _ _ _ Hre), Hcs).
  destruct (interrupt_prepare_resume realpath meta dir t w Hre Hst Hc ltac:(lia) ltac:(lia) Hhi n Hu Hcs Hten)
    as (s1 & s2 & s3 & p & H). rewrite Hcs, Ha in H. exists s1, s2, s3. naive_solver.
Qed.

(** With any negotiated chunk size other than 64 KiB the same interruption
    cannot be resumed: although the stored bytes are chunk aligned and their
    digest is right, [prepare_resume_request] always raises [ValueError]. *)
Theorem resume_impossible_other_chunk_size realpath meta dir t w :
  reach realpath meta dir (t, w) -> i_state t = TRANSFERRING -> calm w ->
  0 < m_chunk_size meta -> m_chunk_size meta <> 65536 ->
  m_chunk_size meta <= zlen (i_hasher t) -> zlen (i_hasher t) <= m_file_size meta ->
  exists s1 s2, interrupt (t, w) = (Ok tt, s1) /\ i_state s1.1 = INTERRUPTED
    /\ prepare_resume_request None None s1 = (Err ValueError, s2).
Proof.
  intros Hre Hst Hc Hpos Hcs Hlo Hhi.
  assert (1 <= zlen (i_hasher t) / m_chunk_size meta) as Hk by (apply Z.div_le_lower_bound; lia).
  assert (aligned t = zlen (i_hasher t) / m_chunk_size meta * m_chunk_size meta) as Ha.
  { unfold aligned. by rewrite (resume_meta _ _ _ _ _ Hre). }
  assert (0 < aligned t) as Hal by nia.
  destruct (interrupt_run _ _ _ _ _ Hre Hst Hc Hpos Hal) as (p & w1 & E1 & C1 & Hne & Hp & F1); [lia|].
  destruct (prepare_run _ _ _ _ _ Hre Hpos Hal Hhi p w1 C1 Hne Hp) as (s2 & E2 & S2 & P2 & F2 & C2 & _).
  { by rewrite F1, lookup_insert_eq. }
  exists (interrupted t, w1), s2. split; [done|]. split; [done|]. rewrite E2. f_equal.
  destruct (TransferResumeRequestPayload.make _ _ _ _ _) as [r|e] eqn:Em.
  - exfalso. unfold TransferResumeRequestPayload.make in Em. res_inv.
    match goal with H : TransferResumeRequestPayload.validate _ _ = _ |- _ =>
      apply TransferResumeRequestPayload.validate_iff in H as (_ & _ & _ & _ & _ & _ & _ & Ho) end.
    cbn in Ho. nia.
  - f_equal. by eapply make_raises.
Qed.

(** ** Where the file ends up *)

Lemma clash_prefix meta f n :
  uuid_int (m_transfer_id meta) = Ok n -> parent f `prefix_of` clash_path meta f.
Proof.
  intros Hs%uuid_int_safe. unfold clash_path, path_join.
  destruct (starts_with [SLASH] _) eqn:E; [|by eexists].
  apply starts_with_spec in E as (k & E). exfalso.
  destruct (m_transfer_id meta) as [|c tid]; [discriminate E|]. cbn in E. injection E as Ec _.
  apply Forall_cons in Hs as [[Hs _] _]. done.
Qed.

(** A completed transfer stays inside the download directory: the
    destination and the conflict name next to it lie below the resolved
    directory, whatever the name, relative path and symbolic links, provided the
    relative path does not resolve to the download directory itself. *)
Theorem delivery_contained realpath meta dir base f n :
  (forall p q, realpath p = Ok q -> comps_ok q) ->
  realpath dir = Ok base -> uuid_int (m_transfer_id meta) = Ok n ->
  resolve_safe_destination realpath dir (m_file_name meta) (m_relative_path meta) = Ok f -> f <> base ->
  base `prefix_of` f /\ base `prefix_of` clash_path meta f.
Proof.
  intros Hok Hbase Hu Hf Hne. destruct (resolve_inside realpath Hok _ _ _ _ Hf) as (b & s & nm & Hb & -> & _).
  rewrite Hbase in Hb. injection Hb as <-. split; [by eexists|].
  destruct (decide (s = [])) as [->|Hs]; [by rewrite app_nil_r in Hne|].
  etrans; [|by eapply clash_prefix]. destruct (exists_last Hs) as (s' & x & ->).
  rewrite app_assoc, parent_snoc. by eexists.
Qed.

(** ** Three runs on concrete inputs *)

Module Runs.
Definition tid : pystr := u "12345678-1234-1234-1234-123456789abc".
Definition content : bytes := map z2b [1; 2; 3; 4; 5; 6; 7; 8; 9; 10].
Definition meta (chunk_size : Z) (rel : pystr) : TransferMetadata :=
  {| m_transfer_id := tid; m_file_name := u "a.bin"; m_file_size := 10; m_mime_type := [];
     m_sha256 := hexdigest content; m_chunk_size := chunk_size;
     m_chunk_count := expected_chunks 10 chunk_size; m_sender_identity := []; m_created_at := 0;
     m_protocol_version := 1; m_batch_id := []; m_relative_path := rel |}.
Definition dir : path := [u "home"; u "dl"].
Definition empty : world := {| w_fs := ∅; w_pending := ∅; w_oracle := [] |}.
Definition chunk (seq a b : Z) : op := OChunk {| f_transfer_id := tid; f_seq := seq; f_data := slice a b content |}.
Definition run (rel : pystr) (ops : list op) : st :=
  run_ops lexical_realpath ops (new_incoming (meta 4 rel) dir, empty).
Definition received_all : list op := [OBegin; chunk 0 0 4; chunk 1 4 8; chunk 2 8 10].
Definition file_at (p : path) (s : st) : option node := w_fs s.2 !! p.

Lemma meta_wf rel : rel_ok rel -> wf_metadata (meta 4 rel).
Proof.
  intros Hrel. split; try done.
  - eexists. by vm_compute.
  - unfold safe_name. split_and!; try done.
    + cbn [meta m_file_name]. change (u "a.bin") with [97; 46; 98; 105; 110]. unfold SLASH.
      repeat constructor; lia.
    + eexists. by split; vm_compute.
    + apply (bool_decide_unpack _). by vm_compute.
Qed.
End Runs.

(** [finalise] does not look at the state or at the size of the file: when a
    fully received transfer is interrupted (which cuts the last partial chunk
    off the file but not out of the hasher) and then finalised, the digest
    matches, the truncated file is moved to its destination, and only then
    [RuntimeError] is raised. *)
Theorem finalise_after_interrupt_truncates :
  let s := Runs.run [] (Runs.received_all ++ [OInterrupt]) in
  i_state s.1 = INTERRUPTED
  /\ (finalise s).1 = Err RuntimeError
  /\ Runs.file_at (Runs.dir ++ [u "a.bin"]) (finalise s).2 = Some (NFile (take 8 Runs.content)).
Proof. vm_compute. done. Qed.

(** A [resume] that cannot read the file back goes on with an empty hasher, and
    [finalise] does not reject the result: when the sender then sends the whole
    file, the digest is right and the file that is stored is the old prefix
    followed by the whole file. *)
Theorem blind_resume_accepted :
  let s := Runs.run [] [OBegin; Runs.chunk 0 0 4; OInterrupt] in
  let blind := {| w_fs := w_fs s.2; w_pending := w_pending s.2;
                  w_oracle := [smooth; smooth; {| o_ok := false; o_moved := 0 |}] |} in
  let s' := run_ops lexical_realpath [OResume 0; Runs.chunk 0 0 4; Runs.chunk 1 4 8; Runs.chunk 2 8 10] (s.1, blind) in
  (finalise s').1 = Ok true
  /\ Runs.file_at (Runs.dir ++ [u "a.bin"]) (finalise s').2 = Some (NFile (take 4 Runs.content ++ Runs.content)).
Proof. vm_compute. done. Qed.

(** A valid offer whose relative path is "." is delivered outside the
    download directory: the destination resolves to the directory itself, which
    exists, so the file goes to [<id>_<directory name>] in its parent. *)
Theorem dot_path_escapes :
  let s := Runs.run [46] (Runs.received_all ++ [OFinalise]) in
  let dest := [u "home"; u "12345678_dl"] in
  wf_metadata (Runs.meta 4 [46]) /\ i_state s.1 = COMPLETED
  /\ Runs.file_at dest s = Some (NFile Runs.content) /\ ~ Runs.dir `prefix_of` dest.
Proof.
  split; [apply Runs.meta_wf; right; by vm_compute|]. split; [by vm_compute|]. split; [by vm_compute|].
  by intros [k Hk].
Qed.

(** The digest that [interrupt_info] stores is not the digest of the stored
    file: the hasher keeps the partial chunk that was cut off. *)
Theorem interrupt_info_digest_stale `{Hr : PyRepr} :
  let s := Runs.run [] [OBegin; Runs.chunk 0 0 4; Runs.chunk 1 4 7; OInterrupt] in
  i_state s.1 = INTERRUPTED
  /\ Runs.file_at (part_path (Runs.meta 4 []) Runs.dir) s = Some (NFile (slice 0 4 Runs.content))
  /\ i_bytes_received s.1 = 4
  /\ exists info, interrupt_info s.1 = Ok (Some info) /\ n_partial_sha256 info = hexdigest (slice 0 7 Runs.content)
     /\ n_partial_sha256 info <> hexdigest (slice 0 4 Runs.content).
Proof.
  split; [by vm_compute|]. split; [by vm_compute|]. split; [by vm_compute|].
  match goal with |- exists info, interrupt_info ?x = _ /\ _ =>
    assert (i_state x = INTERRUPTED /\ i_hasher x = slice 0 7 Runs.content /\ i_meta x = Runs.meta 4 []) as (E1 & E2 & E3)
      by (by vm_compute) end.
  unfold interrupt_info. rewrite E1, E2, E3, bool_decide_eq_true_2 by done.
  assert (exists js, json_dumps (JObj (metadata_to_dict (Runs.meta 4 []))) = Ok js) as [js Hjs].
  { eexists. unfold json_dumps, dumps_with. by vm_compute (printable _). }
  rewrite Hjs. cbn [mbind res_bind]. eexists. split; [done|]. cbn [n_partial_sha256]. split; [done|].
  by vm_compute.
Qed.
