(* ===== verification/Outgoing.v ===== *)
(** * Sending a file: [OutgoingTransfer] of [core/transfer.py]

    The asynchronous generator [_stream_chunks_internal] is a machine that the
    caller advances: between two of its steps anything may happen, a call of
    [cancel] or a change of the source file in place included (a source that is
    unlinked or replaced while it is open is not modelled: the open file is
    found again by its path).  The last part puts the sender and the receiver
    together. *)
From S2P Require Import Prelude PyStr Sha256 Json Protocol Payloads Transfer Fs Incoming.

Record OutgoingTransfer := {
  o_transfer_id : pystr;
  o_source_path : path;
  o_receiver_identity : pystr;
  o_batch_id : pystr;
  o_relative_path : pystr;
  o_state : TransferState;
  o_bytes_sent : Z;
  o_cancelled : bool
}.

(** [new_id] is the fresh [str(uuid.uuid4())]. *)
Definition new_outgoing (new_id : pystr) (source : path) (receiver : pystr) (tid : option pystr)
    (batch rel : pystr) : OutgoingTransfer :=
  {| o_transfer_id := match tid with Some ((_ :: _) as s) => s | _ => new_id end;
     o_source_path := source; o_receiver_identity := receiver; o_batch_id := batch;
     o_relative_path := rel; o_state := IDLE; o_bytes_sent := 0; o_cancelled := false |}.

Definition set_ostate (s : TransferState) (t : OutgoingTransfer) : OutgoingTransfer :=
  {| o_transfer_id := o_transfer_id t; o_source_path := o_source_path t;
     o_receiver_identity := o_receiver_identity t; o_batch_id := o_batch_id t;
     o_relative_path := o_relative_path t; o_state := s; o_bytes_sent := o_bytes_sent t;
     o_cancelled := o_cancelled t |}.
Definition add_sent (n : Z) (t : OutgoingTransfer) : OutgoingTransfer :=
  {| o_transfer_id := o_transfer_id t; o_source_path := o_source_path t;
     o_receiver_identity := o_receiver_identity t; o_batch_id := o_batch_id t;
     o_relative_path := o_relative_path t; o_state := o_state t; o_bytes_sent := o_bytes_sent t + n;
     o_cancelled := o_cancelled t |}.
(** [OutgoingTransfer.cancel] *)
Definition ocancel (t : OutgoingTransfer) : OutgoingTransfer :=
  {| o_transfer_id := o_transfer_id t; o_source_path := o_source_path t;
     o_receiver_identity := o_receiver_identity t; o_batch_id := o_batch_id t;
     o_relative_path := o_relative_path t; o_state := o_state t; o_bytes_sent := o_bytes_sent t;
     o_cancelled := true |}.

Definition ost : Type := OutgoingTransfer * world.
Definition oself : M ost OutgoingTransfer := s ← get; mret (fst s).
Definition oupd (f : OutgoingTransfer -> OutgoingTransfer) : M ost unit := modify (fun s => (f (fst s), snd s)).
Definition osys {A} (m : M world A) : M ost A := fun s =>
  match m (snd s) with (r, w) => (r, (fst s, w)) end.
Definition otransition (new : TransferState) : M ost unit :=
  t ← oself; s ← lift (transfer_transition (o_state t) new); oupd (set_ostate s).

(** [_sha256_file]: 64 KiB blocks until an empty one. *)
Definition sha256_file (p : path) : M world pystr := c ← read_file p; mret (hexdigest c).

Section sender.
(** [mimetypes.guess_type(str(path))] and [int(time.time() * 1000)]. *)
Context (guess_type : path -> option pystr) (now : Z).

Definition guess_mime_type (p : path) : pystr :=
  match guess_type p with
  | Some ((_ :: _) as mime) => mime
  | _ => u "application/octet-stream"
  end.

Definition build_metadata (sender_identity : pystr) : M ost TransferMetadata :=
  t ← oself;
  file_size ← osys (stat_size (o_source_path t));
  lift (raise_if (file_size <? 0) ValueError);;
  let chunk_count := expected_chunks file_size CHUNK_SIZE in
  sha256 ← osys (sha256_file (o_source_path t));
  let mime_type := guess_mime_type (o_source_path t) in
  mret {| m_transfer_id := o_transfer_id t; m_file_name := path_name (o_source_path t);
          m_file_size := file_size; m_mime_type := mime_type; m_sha256 := sha256;
          m_chunk_size := CHUNK_SIZE; m_chunk_count := chunk_count;
          m_sender_identity := sender_identity; m_created_at := now; m_protocol_version := 1;
          m_batch_id := o_batch_id t; m_relative_path := o_relative_path t |}.
End sender.

(** The generator: not started, suspended at [yield] with the next sequence
    number and file position, or exhausted. *)
Inductive gen := GStart (resume_chunk_index : Z) | GReading (seq pos : Z) | GDone.

Definition open_read (p : path) : M world unit :=
  syscall (fun f => match fs_get f p with
                    | Some (NFile _) => Ok (tt, f)
                    | Some NDir => Err OSError
                    | None => Err FileNotFoundError
                    end).

(** [fh.read(n)] at a position: at most [n] octets, empty at or after the end. *)
Definition read_at (p : path) (pos n : Z) : M world bytes :=
  syscall (fun f => match fs_get f p with
                    | Some (NFile c) => Ok (slice pos (pos + n) c, f)
                    | _ => Ok ([], f)
                    end).

(** [fh.seek(offset)] of a regular file. *)
Definition seek (offset : Z) : M world unit :=
  if offset <? 2 ^ 63 then syscall (fun f => Ok (tt, f)) else raise OverflowError.

Definition fail_transfer {A} : M ost A := oupd (set_ostate FAILED);; raise TransferError.

(** One turn of the [while True] loop: what it yields, if anything. *)
Definition read_loop (seq pos : Z) : M ost (option bytes * gen) :=
  t ← oself;
  if o_cancelled t then oupd (set_ostate CANCELLING);; mret (None, GDone)
  else
    chunk ← try_except (osys (read_at (o_source_path t) pos CHUNK_SIZE)) is_OSError (fun _ => fail_transfer);
    if bool_decide (chunk = []) then otransition COMPLETED;; mret (None, GDone)
    else
      frame_bytes ← lift (encode_chunk_frame (o_transfer_id t) seq chunk);
      oupd (add_sent (zlen chunk));;
      mret (Some frame_bytes, GReading (seq + 1) (pos + zlen chunk)).

Definition gen_start (resume_chunk_index : Z) : M ost (option bytes * gen) :=
  otransition TRANSFERRING;;
  t ← oself;
  let seek_offset := resume_chunk_index * CHUNK_SIZE in
  try_except (osys (open_read (o_source_path t))) is_OSError (fun _ => fail_transfer);;
  (if seek_offset >? 0 then try_except (osys (seek seek_offset)) is_OSError (fun _ => fail_transfer) else mret tt);;
  read_loop resume_chunk_index seek_offset.

(** [__anext__]; an exception exhausts the generator. *)
Definition gen_next (g : gen) : M ost (option bytes * gen) :=
  match g with
  | GStart k => gen_start k
  | GReading seq pos => read_loop seq pos
  | GDone => mret (None, GDone)
  end.

Definition stream_chunks : gen := GStart 0.
Definition stream_chunks_from (resume_chunk_index : Z) : res gen :=
  raise_if (resume_chunk_index <? 0) ValueError;; Ok (GStart resume_chunk_index).

(** [async for frame in g]: the frames until the generator stops. *)
Fixpoint drain (fuel : nat) (g : gen) : M ost (list bytes) :=
  match fuel with
  | O => raise OutOfFuel
  | S fuel' =>
      '(y, g') ← gen_next g;
      match y with
      | None => mret []
      | Some frame => rest ← drain fuel' g'; mret (frame :: rest)
      end
  end.

(** ** Batches *)

Record BatchIncomingTransfer := {
  bi_batch_id : pystr; bi_batch_name : pystr; bi_total_items : Z; bi_total_bytes : Z;
  bi_state : BatchState; bi_items_completed : Z; bi_items_failed : Z; bi_bytes_transferred : Z }.
Definition new_batch_incoming (id name : pystr) (items bytes : Z) : BatchIncomingTransfer :=
  {| bi_batch_id := id; bi_batch_name := name; bi_total_items := items; bi_total_bytes := bytes;
     bi_state := B_REQUESTED; bi_items_completed := 0; bi_items_failed := 0; bi_bytes_transferred := 0 |}.

Record BatchOutgoingTransfer := {
  bo_batch_id : pystr; bo_batch_name : pystr; bo_total_items : Z; bo_total_bytes : Z;
  bo_paths : list path;
  bo_state : BatchState; bo_items_completed : Z; bo_items_failed : Z; bo_bytes_transferred : Z }.
Definition new_batch_outgoing (id name : pystr) (items bytes : Z) (paths : list path) : BatchOutgoingTransfer :=
  {| bo_batch_id := id; bo_batch_name := name; bo_total_items := items; bo_total_bytes := bytes;
     bo_paths := paths; bo_state := B_REQUESTED; bo_items_completed := 0; bo_items_failed := 0;
     bo_bytes_transferred := 0 |}.

(** ** What the sender yields *)

(** The content in pieces of one chunk. *)
Fixpoint pieces (fuel : nat) (c : bytes) : list bytes :=
  match fuel with
  | O => []
  | S fuel' => if bool_decide (c = []) then []
               else take (Z.to_nat CHUNK_SIZE) c :: pieces fuel' (drop (Z.to_nat CHUNK_SIZE) c)
  end.

(** Their frames, numbered from [seq]. *)
Fixpoint encode_all (tid : pystr) (seq : Z) (ds : list bytes) : res (list bytes) :=
  match ds with
  | [] => Ok []
  | d :: ds' => f ← encode_chunk_frame tid seq d; fs ← encode_all tid (seq + 1) ds'; Ok (f :: fs)
  end.

Lemma pieces_concat fuel c : zlen c <= Z.of_nat fuel * CHUNK_SIZE -> concat (pieces fuel c) = c.
Proof.
  revert c; induction fuel as [|fuel IH]; intros c Hc.
  - assert (zlen c = 0) as ->%zlen_nil by (pose proof (zlen_nonneg c); lia). done.
  - cbn [pieces]. case_bool_decide as E; [by subst|]. cbn [concat]. rewrite IH; [apply take_drop|].
    unfold zlen in *. rewrite length_drop. unfold CHUNK_SIZE in *. lia.
Qed.

Lemma pieces_small fuel c : Forall (fun d => zlen d <= CHUNK_SIZE) (pieces fuel c).
Proof.
  revert c; induction fuel as [|fuel IH]; intros c; cbn [pieces]; [constructor|].
  case_bool_decide; constructor; [|apply IH]. unfold zlen. rewrite length_take. unfold CHUNK_SIZE. lia.
Qed.

Lemma length_pieces fuel c : (length (pieces fuel c) <= fuel)%nat.
Proof. revert c; induction fuel as [|fuel IH]; intros c; cbn [pieces]; [done|]. case_bool_decide; cbn; [lia|]. specialize (IH (drop (Z.to_nat CHUNK_SIZE) c)). lia. Qed.

Lemma wp_oself {A} (k : OutgoingTransfer -> M ost A) (Q : res A -> ost -> Prop) s :
  wp (k (fst s)) Q s -> wp (oself ≫= k) Q s.
Proof. done. Qed.

Lemma wp_oupd f (Q : res unit -> ost -> Prop) s : Q (Ok tt) (f (fst s), snd s) -> wp (oupd f) Q s.
Proof. done. Qed.

Lemma wp_osys {A} (m : M world A) (Q : res A -> ost -> Prop) s :
  wp m (fun r w' => Q r (fst s, w')) (snd s) -> wp (osys m) Q s.
Proof. unfold wp, osys. by destruct (m (snd s)). Qed.

Lemma wp_otransition new (Q : res unit -> ost -> Prop) s :
  (new ∈ VALID_TRANSITIONS (o_state (fst s)) -> Q (Ok tt) (set_ostate new (fst s), snd s)) ->
  (new ∉ VALID_TRANSITIONS (o_state (fst s)) -> Q (Err RuntimeError) s) ->
  wp (otransition new) Q s.
Proof.
  intros HO HE. unfold otransition. apply wp_oself. wp_step. unfold transfer_transition. wp_step.
  case_bool_decide; [apply wp_oupd|]; auto.
Qed.

(** A calm system on which a file can be read. *)
Definition readable (p : path) (c : bytes) (w : world) : Prop :=
  fs_get (w_fs w) p = Some (NFile c) /\ calm w.

Lemma wp_read_at p c pos n w :
  readable p c w ->
  wp (read_at p pos n) (fun r w' => r = Ok (slice pos (pos + n) c) /\ readable p c w' /\ w_fs w' = w_fs w) w.
Proof.
  intros [Hf Hc]. apply wp_syscall; rewrite Hf; [intros e w' _ _ [|[[] _]]; done|].
  intros a w' [_ C] [= <- F]. unfold readable. rewrite <-F. tauto.
Qed.

(** The octets from [pos] on. *)
Definition rest_at (pos : Z) (c : bytes) : bytes := drop (Z.to_nat pos) c.

Lemma slice_rest pos c : 0 <= pos -> slice pos (pos + CHUNK_SIZE) c = take (Z.to_nat CHUNK_SIZE) (rest_at pos c).
Proof. intros. unfold slice, rest_at. do 2 f_equal. lia. Qed.

Lemma zlen_piece (c : bytes) : zlen (take (Z.to_nat CHUNK_SIZE) c) = Z.min CHUNK_SIZE (zlen c).
Proof. unfold zlen. rewrite length_take. unfold CHUNK_SIZE. lia. Qed.

Lemma rest_next pos c :
  0 <= pos -> rest_at (pos + zlen (take (Z.to_nat CHUNK_SIZE) (rest_at pos c))) c = drop (Z.to_nat CHUNK_SIZE) (rest_at pos c).
Proof.
  intros Hpos. rewrite zlen_piece. unfold rest_at. rewrite drop_drop.
  assert (zlen (drop (Z.to_nat pos) c) = Z.max 0 (zlen c - pos)) as E by (unfold zlen; rewrite length_drop; lia).
  rewrite E. destruct (decide (CHUNK_SIZE <= Z.max 0 (zlen c - pos))).
  - f_equal. unfold CHUNK_SIZE in *. lia.
  - rewrite !drop_ge; [done| |]; unfold zlen, CHUNK_SIZE in *; lia.
Qed.

(** One turn of the loop over a readable file, at the end and before it. *)
Lemma wp_read_loop c n seq pos t w :
  uuid_int (o_transfer_id t) = Ok n -> o_state t = TRANSFERRING -> o_cancelled t = false ->
  readable (o_source_path t) c w -> 0 <= pos -> 0 <= seq < 2 ^ 32 ->
  let chunk := take (Z.to_nat CHUNK_SIZE) (rest_at pos c) in
  wp (read_loop seq pos) (fun r s' => w_fs s'.2 = w_fs w /\ readable (o_source_path t) c s'.2
    /\ if bool_decide (rest_at pos c = []) then r = Ok (None, GDone) /\ s'.1 = set_ostate COMPLETED t
       else exists b, encode_chunk_frame (o_transfer_id t) seq chunk = Ok b
            /\ r = Ok (Some b, GReading (seq + 1) (pos + zlen chunk)) /\ s'.1 = add_sent (zlen chunk) t) (t, w).
Proof.
  intros Hu Hst Hcan Hr Hpos Hseq chunk. unfold read_loop. apply wp_oself. cbn [fst]. rewrite Hcan.
  wp_step. wp_step. apply wp_osys. eapply wp_mono; [by apply wp_read_at|]. cbn [fst snd].
  intros r w1 (-> & Hr1 & F1). rewrite slice_rest by done. fold chunk.
  assert (chunk = [] <-> rest_at pos c = []) as Hnil.
  { rewrite <-!zlen_nil. unfold chunk. rewrite zlen_piece. pose proof (zlen_nonneg (rest_at pos c)). unfold CHUNK_SIZE. lia. }
  case_bool_decide as E.
  - rewrite bool_decide_eq_true_2 by tauto. wp_step. apply wp_otransition; cbn [fst snd]; rewrite Hst;
      [intros _; by wp_step|intros Hn; exfalso; apply Hn; set_solver].
  - rewrite bool_decide_eq_false_2 by tauto.
    assert (zlen chunk <= MAX_CHUNK_PAYLOAD) as Hlen by (unfold chunk; rewrite zlen_piece; unfold MAX_CHUNK_PAYLOAD; lia).
    assert (exists b, encode_chunk_frame (o_transfer_id t) seq chunk = Ok b) as [b Hb].
    { eexists. apply encode_chunk_Ok. exists n. split_and!; [done|done|lia|lia|reflexivity]. }
    wp_step. rewrite Hb. wp_step. wp_step. apply wp_oupd. wp_step. cbn [fst snd].
    split; [done|]. split; [done|]. by exists b.
Qed.

Definition sent_all (t : OutgoingTransfer) (n : Z) : OutgoingTransfer := set_ostate COMPLETED (add_sent n t).

Definition drained (t : OutgoingTransfer) (w : world) (seq : Z) (fuel : nat) (rest : bytes)
    (r : res (list bytes)) (s' : ost) : Prop :=
  exists frames, r = Ok frames /\ encode_all (o_transfer_id t) seq (pieces fuel rest) = Ok frames
    /\ s'.1 = sent_all t (zlen rest) /\ w_fs s'.2 = w_fs w.

(** From one turn of the loop to the whole stream, by induction on the fuel. *)
Lemma drain_loop fuel c n : forall seq pos t w,
  uuid_int (o_transfer_id t) = Ok n -> o_state t = TRANSFERRING -> o_cancelled t = false ->
  readable (o_source_path t) c w -> 0 <= pos -> 0 <= seq -> seq + Z.of_nat fuel < 2 ^ 32 ->
  zlen (rest_at pos c) <= Z.of_nat fuel * CHUNK_SIZE ->
  wp (drain (S fuel) (GReading seq pos)) (drained t w seq fuel (rest_at pos c)) (t, w).
Proof.
  induction fuel as [|fuel IH]; intros seq pos t w Hu Hst Hcan Hr Hpos Hseq Hb Hfuel;
    change (drain (S ?f) ?g) with ('(y, g') ← gen_next g; match y with None => mret [] | Some fr => rest ← drain f g'; mret (fr :: rest) end);
    wp_step; (eapply wp_mono; [by eapply wp_read_loop; try done; lia|]); intros r [t1 w1] (F1 & Hr1 & Hpost); cbn [fst snd] in *.
  all: assert (sent_all t 0 = set_ostate COMPLETED t) as E0 by (destruct t; unfold sent_all, add_sent, set_ostate; cbn; by rewrite Z.add_0_r).
  all: case_bool_decide as E; [destruct Hpost as [-> ->]; wp_step; exists []; by rewrite E, ?E0|].
  - exfalso. apply E. apply zlen_nil. pose proof (zlen_nonneg (rest_at pos c)). lia.
  - destruct Hpost as (b & Hb' & -> & ->). set (chunk := take _ _) in *. wp_step.
    assert (zlen (rest_at pos c) = zlen chunk + zlen (drop (Z.to_nat CHUNK_SIZE) (rest_at pos c))) as Hz.
    { rewrite <-(take_drop (Z.to_nat CHUNK_SIZE) (rest_at pos c)) at 1. by rewrite zlen_app. }
    assert (zlen (rest_at (pos + zlen chunk) c) <= Z.of_nat fuel * CHUNK_SIZE) as Hf'.
    { unfold chunk. rewrite rest_next by done. fold chunk. unfold chunk in Hz. rewrite zlen_piece in Hz.
      pose proof (zlen_nonneg (drop (Z.to_nat CHUNK_SIZE) (rest_at pos c))). unfold CHUNK_SIZE in *. lia. }
    pose proof (zlen_nonneg chunk).
    eapply wp_mono; [eapply (IH (seq + 1) (pos + zlen chunk) (add_sent (zlen chunk) t) w1 Hu); try done; lia|].
    intros r s' (frames & -> & Hf & Ht & F). wp_step. exists (b :: frames). split; [done|].
    unfold chunk in Hf, Ht. rewrite rest_next in Hf, Ht by done. fold chunk in Ht.
    cbn [pieces]. rewrite bool_decide_eq_false_2 by done. cbn [encode_all]. fold chunk. rewrite Hb'. cbn [mbind res_bind].
    cbn [o_transfer_id add_sent] in Hf. rewrite Hf. split; [done|]. split; [|congruence].
    rewrite Ht, Hz. destruct t; unfold sent_all, add_sent, set_ostate; cbn. by rewrite Z.add_assoc.
Qed.

Lemma wp_osys_calm (op : fs -> res (unit * fs)) p c t w (Q : res unit -> ost -> Prop) :
  readable p c w -> op (w_fs w) = Ok (tt, w_fs w) ->
  (forall w', readable p c w' -> w_fs w' = w_fs w -> Q (Ok tt) (t, w')) -> wp (osys (syscall op)) Q (t, w).
Proof.
  intros [Hf Hc] Hop HQ. apply wp_osys, wp_syscall; cbn [fst snd]; rewrite Hop; [intros e w' _ _ [|[[] _]]; done|].
  intros a w' [_ C] [= <- F]. apply HQ; [|done]. unfold readable. rewrite <-F. auto.
Qed.

Definition started (t : OutgoingTransfer) : OutgoingTransfer := set_ostate TRANSFERRING t.

Lemma drain_start fuel c n k t w :
  uuid_int (o_transfer_id t) = Ok n -> o_state t ∈ [IDLE; ACCEPTED] -> o_cancelled t = false ->
  readable (o_source_path t) c w -> 0 <= k -> k + Z.of_nat fuel < 2 ^ 32 ->
  zlen (rest_at (k * CHUNK_SIZE) c) <= Z.of_nat fuel * CHUNK_SIZE ->
  wp (drain (S fuel) (GStart k)) (drained t w k fuel (rest_at (k * CHUNK_SIZE) c)) (t, w).
Proof.
  intros Hu Hst Hcan Hr Hk Hb Hfuel.
  change (drain (S fuel) (GStart k)) with
    ('(y, g') ← gen_start k; match y with None => mret [] | Some fr => rest ← drain fuel g'; mret (fr :: rest) end).
  wp_step. unfold gen_start. wp_step. apply wp_otransition; cbn [fst snd];
    [intros _|intros Hn; exfalso; apply Hn; revert Hst; destruct (o_state t); cbn; set_solver].
  fold (started t). apply wp_oself. cbn [fst]. wp_step. wp_step. cbn [o_source_path started set_ostate].
  unfold open_read. eapply wp_osys_calm; [exact Hr|by rewrite (proj1 Hr)|]. intros w1 Hr1 F1.
  wp_step.
  eapply (wp_mono _ (fun r s' => r = Ok tt /\ s'.1 = started t /\ readable (o_source_path t) c s'.2 /\ w_fs s'.2 = w_fs w)).
  - destruct (_ >? 0); [|by wp_step]. wp_step. unfold seek.
    assert (k * CHUNK_SIZE <? 2 ^ 63 = true) as -> by (unfold CHUNK_SIZE; lia).
    eapply wp_osys_calm; [exact Hr1|done|]. intros w2 Hr2 F2. split_and!; try done. cbn. congruence.
  - intros r [t2 w2] (-> & E2 & Hr2 & F2). cbn [fst snd] in *. subst t2.
    assert (0 <= k * CHUNK_SIZE) as Hoff by (unfold CHUNK_SIZE; lia).
    pose proof (drain_loop fuel c n k (k * CHUNK_SIZE) (started t) w2 Hu eq_refl Hcan Hr2 Hoff Hk Hb Hfuel) as Hd.
    change (drain (S fuel) (GReading k (k * CHUNK_SIZE))) with
      ('(y, g') ← read_loop k (k * CHUNK_SIZE);
       match y with None => mret [] | Some fr => rest ← drain fuel g'; mret (fr :: rest) end) in Hd.
    apply wp_bind_inv in Hd. eapply wp_mono; [exact Hd|].
    assert (forall r s', drained (started t) w2 k fuel (rest_at (k * CHUNK_SIZE) c) r s' ->
      drained t w k fuel (rest_at (k * CHUNK_SIZE) c) r s') as Himp.
    { intros r s' (fr & ? & ? & Hs & F). exists fr. split_and!; try done. congruence. }
    intros [[y g']|e] s' H; [|by apply Himp]. eapply wp_mono; [exact H|]. intros. by apply Himp.
Qed.

(** ** Reception of a stream *)

(** What the receiving side does with the frames of a stream. *)
Fixpoint receive_frames (frames : list bytes) : M st unit :=
  match frames with
  | [] => mret tt
  | b :: frames' => f ← lift (decode_chunk_frame b); receive_chunk f;; receive_frames frames'
  end.

Definition received (ds : list bytes) (t : IncomingTransfer) : IncomingTransfer :=
  set_progress (i_hasher t ++ concat ds) (i_bytes_received t + zlen (concat ds))
    (i_next_seq t + Z.of_nat (length ds)) t.

Lemma receive_frames_all tid n ds : forall seq frames t w,
  encode_all tid seq ds = Ok frames -> uuid_int tid = Ok n ->
  m_transfer_id (i_meta t) = uuid_str n -> Forall (fun d => zlen d <= m_chunk_size (i_meta t)) ds ->
  synced (t, w) -> live (i_state t) -> i_temp_fh t <> None -> calm w -> i_next_seq t = seq ->
  wp (receive_frames frames) (fun r s' => r = Ok tt /\ s'.1 = received ds t /\ synced s' /\ calm s'.2) (t, w).
Proof.
  induction ds as [|d ds IH]; intros seq frames t w He Hu Htid Hlen Hsy Hl Hfh Hc Hseq; cbn [encode_all] in He.
  - injection He as <-. cbn [receive_frames]. wp_step. split; [done|]. split; [|done]. unfold received. cbn. rewrite app_nil_r, !Z.add_0_r.
    by destruct t.
  - apply bind_Ok in He as (b & Hb & He). apply bind_Ok in He as (fs' & He & [= <-]).
    apply Forall_cons in Hlen as [Hd Hlen]. cbn [receive_frames].
    assert (decode_chunk_frame b = Ok {| f_transfer_id := uuid_str n; f_seq := seq; f_data := d |}) as Hdec.
    { rewrite <-(app_nil_r b). destruct (decode_encoded tid seq d b [] Hb) as (n' & Hn' & ->). rewrite Hu in Hn'. by injection Hn' as <-. }
    wp_step. rewrite Hdec. wp_step. wp_step.
    eapply wp_mono; [by apply wp_receive_chunk|]. intros r [t1 w1] [Hp C1]. cbn [fst snd] in *.
    destruct r as [[]|e].
    + destruct Hp as (_ & _ & _ & E1 & Hsy1). cbn in E1. subst t1.
      eapply wp_mono; [eapply (IH (seq + 1)); try done; [by auto|cbn; lia]|].
      intros r s' (-> & Hs' & Hsy' & C'). split; [done|]. split; [|done]. rewrite Hs'. unfold received. cbn.
      rewrite zlen_app, app_assoc. destruct t; cbn. unfold set_progress; cbn. f_equal; lia.
    + exfalso. destruct Hp as [(_ & _ & Hp)|[(_ & _ & _ & Hp)|[(_ & Hp)|(_ & _ & Hp)]]]; [|naive_solver..].
      cbn [f_transfer_id f_seq f_data] in Hp. destruct Hp as [Hp|[Hp|Hp]]; [congruence|congruence|lia].
Qed.

(** ** From the sender's file to the receiver's file *)

(** The whole reception: begin, every frame, finalise. *)
Definition receive_file (realpath : path -> res path) (frames : list bytes) : M st bool :=
  begin realpath;; receive_frames frames;; finalise.

Lemma from_dict_fields `{Hr : PyRepr} now m m' :
  metadata_from_dict now (metadata_to_dict m) = Ok m' ->
  m_transfer_id m' = m_transfer_id m /\ m_file_size m' = m_file_size m /\ m_chunk_size m' = m_chunk_size m
  /\ m_sha256 m' = lower_hex (m_sha256 m) /\ m_batch_id m' = m_batch_id m /\ m_file_size m <= TEN_GIB
  /\ exists n, uuid_int (m_transfer_id m) = Ok n.
Proof.
  destruct m as [tid fn sz mime sha cs cc sid ca pv bid rel]. unfold metadata_from_dict.
  match goal with |- context [str_at ?d "transfer_id"] =>
    change (str_at d "transfer_id") with (Ok tid); change (int_at d "file_size") with (Ok sz);
    change (int_or d "chunk_size" CHUNK_SIZE) with (Ok cs); change (str_or d "sha256" []) with (Ok sha);
    change (str_or d "batch_id" []) with (Ok bid) end.
  intros H. res_inv. cbn. rewrite Z.gtb_ltb, Z.ltb_ge in *. eauto 10.
Qed.

(** The offer of a file with the content [c]. *)
Definition offered (guess : path -> option pystr) (now : Z) (sid : pystr) (c : bytes) (t : OutgoingTransfer) : TransferMetadata :=
  {| m_transfer_id := o_transfer_id t; m_file_name := path_name (o_source_path t); m_file_size := zlen c;
     m_mime_type := guess_mime_type guess (o_source_path t); m_sha256 := hexdigest c; m_chunk_size := CHUNK_SIZE;
     m_chunk_count := expected_chunks (zlen c) CHUNK_SIZE; m_sender_identity := sid; m_created_at := now;
     m_protocol_version := 1; m_batch_id := o_batch_id t; m_relative_path := o_relative_path t |}.

Lemma wp_build_metadata guess now sid c t w :
  readable (o_source_path t) c w ->
  wp (build_metadata guess now sid) (fun r s' => r = Ok (offered guess now sid c t) /\ s'.1 = t
    /\ readable (o_source_path t) c s'.2 /\ w_fs s'.2 = w_fs w) (t, w).
Proof.
  intros [Hf Hc]. unfold build_metadata. apply wp_oself. cbn [fst].
  wp_step. apply wp_osys, wp_syscall; cbn [fst snd]; rewrite Hf; [intros e w' _ _ [|[[] _]]; done|].
  intros sz w1 [_ C1] [= <- F1]. do 2 wp_step.
  replace (zlen c <? 0) with false by (pose proof (zlen_nonneg c); lia). cbn [raise_if].
  wp_step. apply wp_osys. unfold sha256_file. wp_step. apply wp_syscall; cbn [fst snd]; rewrite <-F1, Hf;
    [intros e w' _ _ [|[[] _]]; [done|tauto]|].
  intros c' w2 [_ C2] [= <- F2]. wp_step. cbn [fst snd]. wp_step. split; [done|].
  unfold readable. cbn. rewrite <-F2. tauto.
Qed.

Lemma lower_hexdigest c : lower_hex (hexdigest c) = hexdigest c.
Proof. apply lower_hex_id, forallb_forall. intros x Hx. pose proof (hexdigest_hex c) as H. rewrite Forall_forall in H. apply H. by apply list_elem_of_In. Qed.

Lemma only_at_receive_frames p f0 frames : stable (only_at p f0) (receive_frames frames).
Proof.
  induction frames as [|b frames IH]; cbn [receive_frames]; [apply stable_ret|].
  apply stable_bind_lift; intros f _. apply stable_bind; [apply only_at_receive_chunk|done].
Qed.

(** A chunk frame is its header and its payload. *)
Lemma encode_all_small tid n ds : Forall (fun d => zlen d <= n) ds -> forall seq fs, encode_all tid seq ds = Ok fs ->
  length fs = length ds /\ Forall (fun b => zlen b <= 28 + n) fs.
Proof.
  induction 1 as [|d ds Hd _ IH]; intros seq fs; cbn [encode_all]; [by intros [= <-]|].
  intros (b & Hb & (fs' & Hfs & [= <-])%bind_Ok)%bind_Ok. destruct (IH _ _ Hfs) as [Hl Hf]. split; [cbn; lia|]. constructor; [|done].
  apply encode_chunk_Ok in Hb as (k & _ & _ & _ & ->). rewrite !zlen_app. unfold zlen in *. rewrite !length_be_bytes. cbn. lia.
Qed.

Lemma preserves_receive_frames realpath meta dir fs0 frames : stable (frame realpath meta dir fs0) (receive_frames frames).
Proof.
  induction frames as [|b frames IH]; cbn [receive_frames]; [apply stable_ret|].
  apply stable_bind_lift; intros f _. apply stable_bind; [apply preserves_receive_chunk|done].
Qed.

(** From a receiver that waits for chunk [k] and has what precedes it: the
    remaining frames, then [finalise]. *)
Lemma wp_receive_rest tid n k ds frames p c f t w :
  encode_all tid k ds = Ok frames -> uuid_int tid = Ok n -> m_transfer_id (i_meta t) = uuid_str n ->
  Forall (fun d => zlen d <= m_chunk_size (i_meta t)) ds ->
  synced (t, w) -> live (i_state t) -> i_temp_fh t <> None -> calm w -> i_next_seq t = k ->
  i_hasher t ++ concat ds = c -> hexdigest c = lower_hex (m_sha256 (i_meta t)) ->
  i_temp_path t = Some p -> i_final_path t = Some f -> p <> [] ->
  w_fs w !! f = None -> f <> [] -> f <> p -> fs_get (w_fs w) (parent f) = Some NDir -> parent f <> p ->
  wp (receive_frames frames;; finalise) (fun r s' => r = Ok true /\ i_state s'.1 = COMPLETED
    /\ w_fs s'.2 !! f = Some (NFile c) /\ w_fs s'.2 !! p = None) (t, w).
Proof.
  intros He Hu Htid Hlen Hsy Hl Hfh Hc Hk Hcat Hsha Hp Hf Hne Hnone Hfne Hfp Hpar Hpp. wp_step.
  assert (only_at p (w_fs w) (t, w)) as Hat.
  { split_and!; [|cbn; congruence|done]. intros h Hh. destruct Hsy as (_ & p' & Hp' & _ & Hx). cbn in *.
    rewrite Hh in Hx. destruct Hx as [-> _]. congruence. }
  eapply wp_mono; [apply wp_and; [by eapply receive_frames_all|by apply (only_at_receive_frames p (w_fs w))]|].
  intros r [t2 w2] [(-> & E2 & Hsy2 & C2) (_ & _ & Hat2)]. cbn [fst snd] in *. subst t2.
  assert (i_hasher (received ds t) = c) as Hh by done.
  set (flushed := <[p := NFile c]> (w_fs w2)).
  assert (delivered_at (received ds t) flushed f = f) as Hd.
  { unfold delivered_at, flushed. rewrite fs_get_insert_ne, fs_get_ne, Hat2, Hnone by done.
    by rewrite bool_decide_eq_false_2 by (by intros []). }
  eapply wp_mono; [by apply (wp_finalise _ w2 p)|].
  intros r s3 [_ H3]. rewrite Hh in H3. fold flushed in H3. destruct r as [[]|e].
  - destruct H3 as (Hst & _ & f' & Hf' & Hfs). change (i_final_path (received ds t)) with (i_final_path t) in Hf'.
    rewrite Hf in Hf'. injection Hf' as <-. rewrite Hd in Hfs. split; [done|]. split; [done|].
    rewrite Hfs. rewrite lookup_insert_eq, lookup_insert_ne, lookup_delete_eq by done. done.
  - exfalso. destruct H3 as [_ H3]. by apply H3.
  - exfalso. destruct H3 as [_ H3]. apply H3. split; [done|]. exists f. rewrite Hd. split; [done|]. unfold flushed.
    rewrite !fs_get_insert_ne by done. split; [by rewrite fs_get_ne, Hat2, Hnone|].
    destruct (decide (parent f = [])) as [->|Hpf]; [done|]. rewrite fs_get_ne, Hat2 in * by done. done.
Qed.

Lemma uuid_canonical tid n k : uuid_int tid = Ok n -> tid = uuid_str k -> 0 <= k < 2 ^ 128 -> tid = uuid_str n.
Proof. intros Hn -> Hk. rewrite uuid_int_str in Hn by done. by injection Hn as ->. Qed.

Lemma prefix_not_staging f dir : ~ f `prefix_of` dir ++ [u "staging"] -> ~ f `prefix_of` dir.
Proof. intros Hn Hp. apply Hn. etrans; [exact Hp|]. by eexists. Qed.

Lemma begun_fs_final meta dir f w w1 :
  begin_fs (new_incoming meta dir) f w w1 -> w_fs w !! f = None -> f <> [] -> f <> part_path meta dir ->
  ~ f `prefix_of` dir ++ [u "staging"] -> w_fs w1 !! f = None.
Proof.
  intros [_ Hb] Hn Hne Hp Hs. destruct (Hb f Hp) as [->|[Hx|[Hx|Hx]]]; [done| | |]; exfalso.
  - by apply Hs.
  - by apply (prefix_not_staging f dir).
  - by apply (parent_not_prefix f).
Qed.

(** A free place for the file: nothing there, and it is neither the [.part] file
    nor on the way to it. *)
Definition free_destination (meta : TransferMetadata) (dir f : path) (w : world) : Prop :=
  w_fs w !! f = None /\ f <> [] /\ f <> part_path meta dir /\ ~ f `prefix_of` dir ++ [u "staging"].

Lemma wp_receive_file realpath tid n meta dir f c fuel frames w :
  encode_all tid 0 (pieces fuel c) = Ok frames -> zlen c <= Z.of_nat fuel * CHUNK_SIZE ->
  uuid_int tid = Ok n -> m_transfer_id meta = uuid_str n -> m_chunk_size meta = CHUNK_SIZE ->
  hexdigest c = lower_hex (m_sha256 meta) -> calm w ->
  resolve_safe_destination realpath dir (m_file_name meta) (m_relative_path meta) = Ok f ->
  unobstructed (new_incoming meta dir) f w -> free_destination meta dir f w ->
  wp (receive_file realpath frames) (fun r s' => r = Ok true /\ i_state s'.1 = COMPLETED
    /\ w_fs s'.2 !! f = Some (NFile c) /\ w_fs s'.2 !! part_path meta dir = None) (new_incoming meta dir, w).
Proof.
  intros He Hfuel Hu Htid Hcs Hsha Hc Hf Hun (Hnone & Hne & Hnp & Hns). set (t := new_incoming meta dir).
  assert (uuid_int (m_transfer_id meta) = Ok n) as Hu'.
  { rewrite Htid. apply uuid_int_str. by eapply uuid_int_range. }
  unfold receive_file. wp_step. eapply wp_mono; [by apply wp_begin|]. intros r [t1 w1] [C1 Hb]. cbn [fst snd] in *.
  destruct r as [[]|e].
  2:{ exfalso. destruct Hb as (_ & _ & Hb). apply Hb. split_and!; [done| |by exists f]. cbn.
      rewrite (part_path_eq _ _ n Hu'). by rewrite parent_snoc. }
  destruct Hb as (f' & Hf' & -> & Ho & Hb). unfold resolved_for in Hf'. cbn in Hf'. rewrite Hf in Hf'. injection Hf' as <-.
  assert (synced (begun t f, w1)) as Hsy.
  { split; [done|]. exists (part_path meta dir). split; [done|]. split; [apply Ho|]. cbn. split; [done|].
    exists [], []. by split. }
  eapply (wp_receive_rest tid n 0 (pieces fuel c) frames (part_path meta dir) c f); try done; try apply Hb; try apply Ho.
  - cbn. rewrite Hcs. apply pieces_small.
  - by left.
  - by apply C1.
  - cbn. by apply pieces_concat.
  - by eapply begun_fs_final.
  - intros E. destruct Hb as [Hb _]. destruct Ho as (Hne' & Hfile & _). cbn in Hfile.
    rewrite E, fs_get_ne, Hfile in Hb by done. done.
Qed.

Section end_to_end.
Context `{Hr : PyRepr} (guess : path -> option pystr) (realpath : path -> res path).

(** C9. The whole transfer, end to end: for every file of a sender whose
    system calls succeed, [build_metadata] and the chunk stream succeed and
    leave the sender COMPLETED with every byte counted; and when the receiver
    accepts that offer, has room for it and a free destination, receiving the
    frames and finalising returns [True], puts exactly the sender's bytes at
    the resolved destination and leaves no [.part] file. *)
Theorem transfer_end_to_end tS wS c n fuel now sid :
  o_transfer_id tS = uuid_str n -> 0 <= n < 2 ^ 128 -> o_state tS = IDLE -> o_cancelled tS = false ->
  readable (o_source_path tS) c wS -> zlen c <= Z.of_nat fuel * CHUNK_SIZE -> Z.of_nat fuel < 2 ^ 32 ->
  exists m w1 frames t2 w2,
    build_metadata guess now sid (tS, wS) = (Ok m, (tS, w1))
    /\ drain (S fuel) stream_chunks (tS, w1) = (Ok frames, (t2, w2))
    /\ o_state t2 = COMPLETED /\ o_bytes_sent t2 = o_bytes_sent tS + zlen c
    /\ forall now' m' dir f wR,
         metadata_from_dict now' (metadata_to_dict m) = Ok m' -> calm wR ->
         resolve_safe_destination realpath dir (m_file_name m') (m_relative_path m') = Ok f ->
         unobstructed (new_incoming m' dir) f wR -> free_destination m' dir f wR ->
         exists t' w', receive_file realpath frames (new_incoming m' dir, wR) = (Ok true, (t', w'))
           /\ i_state t' = COMPLETED /\ w_fs w' !! f = Some (NFile c) /\ w_fs w' !! part_path m' dir = None.
Proof.
  intros Htid Hn Hst Hcan Hrd Hfuel Hb.
  assert (uuid_int (o_transfer_id tS) = Ok n) as Hu by (rewrite Htid; by apply uuid_int_str).
  destruct (wp_run _ _ _ (wp_build_metadata guess now sid c tS wS Hrd)) as
    (r & [t1 w1] & E1 & -> & E & Hrd1 & F1). cbn in E, Hrd1. subst t1. set (m := offered guess now sid c tS) in *.
  destruct (wp_run _ _ _ (drain_start fuel c n 0 tS w1 Hu ltac:(rewrite Hst; set_solver) Hcan Hrd1
    ltac:(done) ltac:(lia) Hfuel)) as (r & [t2 w2] & E2 & frames & -> & Hf & Ht2 & F2).
  change (rest_at (0 * CHUNK_SIZE) c) with c in *. cbn in Ht2. subst t2.
  exists m, w1, frames, (sent_all tS (zlen c)), w2. split_and!; [done..|].
  intros now' m' dir f wR Hm' Hc Hres Hun Hfree.
  destruct (from_dict_fields _ _ _ Hm') as (N1 & N2 & N3 & N4 & _).
  destruct (wp_run _ _ _ (wp_receive_file realpath (o_transfer_id tS) n m' dir f c fuel frames wR Hf Hfuel Hu
    ltac:(by rewrite N1) ltac:(by rewrite N3) ltac:(by rewrite N4; unfold m; cbn [m_sha256 offered]; rewrite !lower_hexdigest) Hc Hres Hun Hfree))
    as (r & [t' w'] & E3 & -> & H3). eauto 10.
Qed.

(** C11. The same after an interruption: a receiver that was interrupted
    mid-file and a sender that starts again from the negotiated chunk index
    deliver exactly the sender's bytes. *)
Theorem resume_end_to_end meta dir t w tS wS c f n fuel :
  reach realpath meta dir (t, w) -> i_state t = TRANSFERRING -> calm w -> i_final_path t = Some f ->
  m_transfer_id meta = uuid_str n -> 0 <= n < 2 ^ 128 -> m_chunk_size meta = CHUNK_SIZE ->
  m_file_size meta = zlen c -> zlen c <= TEN_GIB -> hexdigest c = lower_hex (m_sha256 meta) ->
  i_hasher t `prefix_of` c -> CHUNK_SIZE <= zlen (i_hasher t) ->
  free_destination meta dir f w -> fs_get (w_fs w) (parent f) = Some NDir -> parent f <> part_path meta dir ->
  o_transfer_id tS = uuid_str n -> o_state tS = IDLE -> o_cancelled tS = false ->
  readable (o_source_path tS) c wS -> zlen c <= Z.of_nat fuel * CHUNK_SIZE -> Z.of_nat fuel < 2 ^ 31 ->
  exists s1 req s2 g frames sS s3 s4,
    interrupt (t, w) = (Ok tt, s1)
    /\ prepare_resume_request None None s1 = (Ok req, s2)
    /\ stream_chunks_from (TransferResumeRequestPayload.resume_chunk_index req) = Ok g
    /\ drain (S fuel) g (tS, wS) = (Ok frames, sS)
    /\ resume (TransferResumeRequestPayload.resume_chunk_index req) s2 = (Ok tt, s3)
    /\ (receive_frames frames;; finalise) s3 = (Ok true, s4)
    /\ i_state s4.1 = COMPLETED /\ w_fs s4.2 !! f = Some (NFile c) /\ w_fs s4.2 !! part_path meta dir = None.
Proof.
  intros Hre Hst Hc Hfin Htid Hn Hcs Hsz Hten Hsha Hpre Hlo (Hnone & Hfne & Hfp & _) Hpar Hpp HtidS HstS HcanS Hrd Hfuel Hb.
  assert (uuid_int (uuid_str n) = Ok n) as Hu by by apply uuid_int_str.
  destruct Hpre as [rest Hc']. assert (zlen (i_hasher t) <= zlen c) as Hle.
  { rewrite Hc', zlen_app. pose proof (zlen_nonneg rest). lia. }
  set (k := zlen (i_hasher t) / 65536).
  assert (1 <= k /\ k * 65536 <= zlen (i_hasher t)) as [Hk1 Hk2].
  { unfold k. pose proof (Z.mul_div_le (zlen (i_hasher t)) 65536 ltac:(lia)). split; [apply Z.div_le_lower_bound|]; unfold CHUNK_SIZE in *; lia. }
  assert (aligned t = k * 65536) as Ha by (unfold aligned; by rewrite (resume_meta _ _ _ _ _ Hre), Hcs).
  destruct (interrupt_prepare_resume realpath meta dir t w Hre Hst Hc ltac:(rewrite Hcs; done) ltac:(lia) ltac:(lia)
    n ltac:(by rewrite Htid) Hcs ltac:(lia))
    as (s1 & s2 & [t3 w3] & p & E1 & _ & E2 & E3 & S3 & H3 & N3 & Sy3 & M3 & C3 & T3 & P3 & P & L3 & Hne & F3).
  rewrite Hcs in *. change CHUNK_SIZE with 65536 in E2, E3, N3. fold k in E2, E3, N3. rewrite Ha in *.
  assert (p = part_path meta dir) as -> by (by apply (fr_temp _ _ _ _ (fixed_reach _ _ _ _ Hre))).
  assert (rest_at (k * CHUNK_SIZE) c = drop (Z.to_nat (k * 65536)) c) as Hrest by done.
  assert (take (Z.to_nat (k * 65536)) (i_hasher t) = take (Z.to_nat (k * 65536)) c) as Htake.
  { rewrite Hc', take_app_le; [done|]. unfold zlen in Hk2. lia. }
  assert (uuid_int (o_transfer_id tS) = Ok n) as HuS by by rewrite HtidS.
  assert (zlen (rest_at (k * CHUNK_SIZE) c) <= Z.of_nat fuel * CHUNK_SIZE) as Hfuel'.
  { rewrite Hrest. unfold zlen in *. rewrite length_drop. lia. }
  destruct (wp_run _ _ _ (drain_start fuel c n k tS wS HuS ltac:(rewrite HstS; set_solver) HcanS Hrd ltac:(lia)
    ltac:(unfold TEN_GIB in *; lia) Hfuel')) as (r & sS & E4 & frames & -> & Hf & _ & _).
  cbn [fst snd] in *.
  destruct (wp_run _ _ _ (wp_receive_rest (o_transfer_id tS) n k (pieces fuel (rest_at (k * CHUNK_SIZE) c)) frames
    (part_path meta dir) c f t3 w3 Hf HuS ltac:(by rewrite M3) ltac:(rewrite M3, Hcs; apply pieces_small) Sy3
    ltac:(by right) ltac:(by rewrite T3) C3 N3
    ltac:(by rewrite H3, Htake, pieces_concat, Hrest, take_drop) ltac:(by rewrite M3) P3
    ltac:(by rewrite L3) Hne ltac:(by rewrite F3) Hfne Hfp
    ltac:(destruct (decide (parent f = [])) as [->|]; [done|]; by rewrite fs_get_ne, F3, <-fs_get_ne) Hpp))
    as (r & s4 & E5 & -> & H5).
  do 8 eexists. split; [exact E1|]. split; [exact E2|]. cbn [TransferResumeRequestPayload.resume_chunk_index].
  split; [unfold stream_chunks_from; replace (k <? 0) with false by lia; reflexivity|].
  split; [exact E4|]. split; [exact E3|]. split; [exact E5|]. exact H5.
Qed.
End end_to_end.
