(* ===== verification/Session.v ===== *)
(** * The secure session: [core/session.py]

    The handshake data, the key derivation, the AEAD framing with its counters
    and the session state machine.  The primitives ([cryptography]'s X25519,
    HKDF and ChaCha20-Poly1305) are operations of the class [Crypto]; what the
    protocol needs of them is the class [CryptoLaws]. *)
From S2P Require Import Prelude PyStr Json.

Class Crypto := {
  x_public : bytes -> bytes;                     (** private to public key *)
  x_exchange : bytes -> bytes -> res bytes;      (** raises on a bad or degenerate key *)
  hkdf_sha256 : Z -> bytes -> bytes -> bytes -> bytes; (** length, salt, info, key material *)
  aead_encrypt : bytes -> bytes -> bytes -> bytes;     (** key, nonce, plaintext *)
  aead_decrypt : bytes -> bytes -> bytes -> option bytes
}.

Definition AEAD_NONCE_SIZE : Z := 12.
Definition AEAD_TAG_SIZE : Z := 16.
Definition AEAD_HEADER_SIZE : Z := 4.
Definition MAX_AEAD_PLAINTEXT : Z := 1048576.
Definition of_ascii (s : string) : bytes := map z2b (u s).
Definition SAS_HKDF_INFO : bytes := of_ascii "ferry-sas-v1".
Definition SAS_BYTES : Z := 3.
Definition SESSION_KEY_INFO_INITIATOR : bytes := of_ascii "ferry-session-initiator-v1".
Definition SESSION_KEY_INFO_RESPONDER : bytes := of_ascii "ferry-session-responder-v1".
Definition SESSION_KEY_LEN : Z := 32.

Class CryptoLaws `{Crypto} := {
  (** Diffie-Hellman: both sides compute the same secret. *)
  x_agree a b : x_exchange a (x_public b) = x_exchange b (x_public a);
  (** The cipher is deterministic and its tag is checked. *)
  aead_open k n c p : aead_decrypt k n c = Some p <-> c = aead_encrypt k n p;
  aead_length k n p : zlen (aead_encrypt k n p) = zlen p + AEAD_TAG_SIZE;
  hkdf_length l s i m : 0 <= l -> zlen (hkdf_sha256 l s i m) = l
}.

(** ** States *)

Inductive SessionState :=
  | DISCONNECTED | CONNECTING | HANDSHAKING | PAIRING
  | WAITING_FOR_LOCAL_DECISION | WAITING_FOR_REMOTE_DECISION | PAIR_ACCEPTED
  | AUTHENTICATING | ESTABLISHED | CLOSING | SFAILED.

#[export] Instance SessionState_eq_dec : EqDecision SessionState.
Proof. solve_decision. Defined.

Definition valid_next (s : SessionState) : list SessionState :=
  match s with
  | DISCONNECTED => [CONNECTING]
  | CONNECTING => [HANDSHAKING; SFAILED; CLOSING]
  | HANDSHAKING => [AUTHENTICATING; SFAILED; CLOSING]
  | AUTHENTICATING => [ESTABLISHED; PAIRING; SFAILED; CLOSING]
  | PAIRING => [WAITING_FOR_LOCAL_DECISION; WAITING_FOR_REMOTE_DECISION; SFAILED; CLOSING]
  | WAITING_FOR_LOCAL_DECISION => [WAITING_FOR_REMOTE_DECISION; PAIR_ACCEPTED; SFAILED; CLOSING]
  | WAITING_FOR_REMOTE_DECISION => [WAITING_FOR_LOCAL_DECISION; PAIR_ACCEPTED; SFAILED; CLOSING]
  | PAIR_ACCEPTED => [ESTABLISHED; SFAILED; CLOSING]
  | ESTABLISHED => [CLOSING; SFAILED]
  | CLOSING => [DISCONNECTED]
  | SFAILED => [DISCONNECTED]
  end.

(** ** Data *)

Record HandshakeData := { static_pub_key : bytes; ephemeral_pub_key : bytes; nonce : bytes }.
Record DerivedKeys := { send_key : bytes; recv_key : bytes; sas_bytes : bytes }.

Record FerrySession := {
  s_is_initiator : bool;
  s_state : SessionState;
  s_eph_private : option bytes;
  s_eph_pub_bytes : option bytes;
  s_local_hs : option HandshakeData;
  s_remote_hs : option HandshakeData;
  s_derived : option DerivedKeys;
  s_send_cipher : option bytes;   (** the key of the cipher object *)
  s_recv_cipher : option bytes;
  s_send_counter : Z;
  s_recv_counter : Z;
  s_peer_capabilities : list json
}.

Definition new_session (is_initiator : bool) : FerrySession :=
  {| s_is_initiator := is_initiator; s_state := DISCONNECTED; s_eph_private := None;
     s_eph_pub_bytes := None; s_local_hs := None; s_remote_hs := None; s_derived := None;
     s_send_cipher := None; s_recv_cipher := None; s_send_counter := 0; s_recv_counter := 0;
     s_peer_capabilities := [] |}.

Definition with_state (v : SessionState) (s : FerrySession) : FerrySession :=
  {| s_is_initiator := s_is_initiator s; s_state := v; s_eph_private := s_eph_private s;
     s_eph_pub_bytes := s_eph_pub_bytes s; s_local_hs := s_local_hs s; s_remote_hs := s_remote_hs s;
     s_derived := s_derived s; s_send_cipher := s_send_cipher s; s_recv_cipher := s_recv_cipher s;
     s_send_counter := s_send_counter s; s_recv_counter := s_recv_counter s;
     s_peer_capabilities := s_peer_capabilities s |}.
Definition with_eph (priv pub : option bytes) (s : FerrySession) : FerrySession :=
  {| s_is_initiator := s_is_initiator s; s_state := s_state s; s_eph_private := priv;
     s_eph_pub_bytes := pub; s_local_hs := s_local_hs s; s_remote_hs := s_remote_hs s;
     s_derived := s_derived s; s_send_cipher := s_send_cipher s; s_recv_cipher := s_recv_cipher s;
     s_send_counter := s_send_counter s; s_recv_counter := s_recv_counter s;
     s_peer_capabilities := s_peer_capabilities s |}.
Definition with_hs (local remote : option HandshakeData) (s : FerrySession) : FerrySession :=
  {| s_is_initiator := s_is_initiator s; s_state := s_state s; s_eph_private := s_eph_private s;
     s_eph_pub_bytes := s_eph_pub_bytes s; s_local_hs := local; s_remote_hs := remote;
     s_derived := s_derived s; s_send_cipher := s_send_cipher s; s_recv_cipher := s_recv_cipher s;
     s_send_counter := s_send_counter s; s_recv_counter := s_recv_counter s;
     s_peer_capabilities := s_peer_capabilities s |}.
Definition with_keys (k : DerivedKeys) (s : FerrySession) : FerrySession :=
  {| s_is_initiator := s_is_initiator s; s_state := s_state s; s_eph_private := s_eph_private s;
     s_eph_pub_bytes := s_eph_pub_bytes s; s_local_hs := s_local_hs s; s_remote_hs := s_remote_hs s;
     s_derived := Some k; s_send_cipher := Some (send_key k); s_recv_cipher := Some (recv_key k);
     s_send_counter := s_send_counter s; s_recv_counter := s_recv_counter s;
     s_peer_capabilities := s_peer_capabilities s |}.
Definition with_counters (snd rcv : Z) (s : FerrySession) : FerrySession :=
  {| s_is_initiator := s_is_initiator s; s_state := s_state s; s_eph_private := s_eph_private s;
     s_eph_pub_bytes := s_eph_pub_bytes s; s_local_hs := s_local_hs s; s_remote_hs := s_remote_hs s;
     s_derived := s_derived s; s_send_cipher := s_send_cipher s; s_recv_cipher := s_recv_cipher s;
     s_send_counter := snd; s_recv_counter := rcv; s_peer_capabilities := s_peer_capabilities s |}.
Definition with_capabilities (caps : list json) (s : FerrySession) : FerrySession :=
  {| s_is_initiator := s_is_initiator s; s_state := s_state s; s_eph_private := s_eph_private s;
     s_eph_pub_bytes := s_eph_pub_bytes s; s_local_hs := s_local_hs s; s_remote_hs := s_remote_hs s;
     s_derived := s_derived s; s_send_cipher := s_send_cipher s; s_recv_cipher := s_recv_cipher s;
     s_send_counter := s_send_counter s; s_recv_counter := s_recv_counter s; s_peer_capabilities := caps |}.

(** [f"{val:06d}"] of [val < 10^6]. *)
Fixpoint pad_digits (n : nat) (v : Z) : pystr :=
  match n with
  | O => []
  | S m => pad_digits m (v / 10) ++ [48 + v mod 10]
  end.

Definition sas_code (s : FerrySession) : option pystr :=
  match s_derived s with
  | None => None
  | Some d => let val := be_val (sas_bytes d) mod 1000000 in Some (pad_digits 6 val)
  end.

Definition make_nonce (counter : Z) : res bytes :=
  c ← pack_Q counter; Ok (map z2b [0; 0; 0; 0] ++ c).

Definition session_transition (new_state : SessionState) : M FerrySession unit :=
  s ← get;
  if bool_decide (new_state ∈ valid_next (s_state s)) then put (with_state new_state s)
  else raise RuntimeError.

Definition accept_remote_handshake (remote : HandshakeData) : M FerrySession unit :=
  modify (fun s => with_hs (s_local_hs s) (Some remote) s).

Definition build_auth_transcript (s : FerrySession) : res bytes :=
  match s_local_hs s, s_remote_hs s with
  | Some l, Some r =>
      Ok (if s_is_initiator s then
            of_ascii "ferry-auth-v1|" ++ static_pub_key l ++ ephemeral_pub_key l ++ nonce l
            ++ static_pub_key r ++ ephemeral_pub_key r ++ nonce r
          else
            of_ascii "ferry-auth-v1|" ++ static_pub_key r ++ ephemeral_pub_key r ++ nonce r
            ++ static_pub_key l ++ ephemeral_pub_key l ++ nonce l)
  | _, _ => Err RuntimeError
  end.

Section protocol.
Context `{Crypto}.

(** [fresh] is the private key that [X25519PrivateKey.generate] returns. *)
Definition generate_ephemeral_keypair (fresh : bytes) : M FerrySession unit :=
  modify (with_eph (Some fresh) (Some (x_public fresh))).

(** [local_nonce] is what [os.urandom(16)] returns. *)
Definition build_local_handshake (fresh local_nonce static_pub_key_bytes : bytes)
  : M FerrySession HandshakeData :=
  s ← get;
  (if bool_decide (s_eph_pub_bytes s = None) then generate_ephemeral_keypair fresh else mret tt);;
  s ← get;
  let hs := {| static_pub_key := static_pub_key_bytes;
               ephemeral_pub_key := default [] (s_eph_pub_bytes s); nonce := local_nonce |} in
  put (with_hs (Some hs) (s_remote_hs s) s);;
  mret hs.

(** The salt, and the three derivations from it. *)
Definition transcript_salt (init resp : HandshakeData) : bytes :=
  static_pub_key init ++ static_pub_key resp ++ ephemeral_pub_key init ++ ephemeral_pub_key resp
  ++ nonce init ++ nonce resp.
Definition derived_from (is_initiator : bool) (init resp : HandshakeData) (dh_shared : bytes) : DerivedKeys :=
  let salt := transcript_salt init resp in
  let init_key := hkdf_sha256 SESSION_KEY_LEN salt SESSION_KEY_INFO_INITIATOR dh_shared in
  let resp_key := hkdf_sha256 SESSION_KEY_LEN salt SESSION_KEY_INFO_RESPONDER dh_shared in
  let sas_raw := hkdf_sha256 SAS_BYTES salt SAS_HKDF_INFO dh_shared in
  if is_initiator then {| send_key := init_key; recv_key := resp_key; sas_bytes := sas_raw |}
  else {| send_key := resp_key; recv_key := init_key; sas_bytes := sas_raw |}.

Definition derive_keys : M FerrySession DerivedKeys :=
  s ← get;
  match s_eph_private s with
  | None => raise RuntimeError
  | Some priv =>
      match s_local_hs s, s_remote_hs s with
      | Some l, Some r =>
          dh_shared ← lift (x_exchange priv (ephemeral_pub_key r));
          modify (with_eph None (s_eph_pub_bytes s));;
          let k := if s_is_initiator s then derived_from true l r dh_shared
                   else derived_from false r l dh_shared in
          modify (with_keys k);;
          mret k
      | _, _ => raise RuntimeError
      end
  end.

Definition encrypt_frame (plaintext : bytes) : M FerrySession bytes :=
  s ← get;
  match s_send_cipher s with
  | None => raise RuntimeError
  | Some key =>
      lift (raise_if (zlen plaintext >? MAX_AEAD_PLAINTEXT) ValueError);;
      n ← lift (make_nonce (s_send_counter s));
      put (with_counters (s_send_counter s + 1) (s_recv_counter s) s);;
      let ciphertext := aead_encrypt key n plaintext in
      len4 ← lift (pack_I (zlen ciphertext));
      mret (len4 ++ n ++ ciphertext)
  end.

Definition decrypt_frame (frame : bytes) : M FerrySession bytes :=
  s ← get;
  match s_recv_cipher s with
  | None => raise RuntimeError
  | Some key =>
      lift (raise_if (zlen frame <? AEAD_HEADER_SIZE + AEAD_NONCE_SIZE) ValueError);;
      let ct_len := be_val (slice 0 4 frame) in
      let expected_total := AEAD_HEADER_SIZE + AEAD_NONCE_SIZE + ct_len in
      lift (raise_if (zlen frame <? expected_total) ValueError);;
      let frame_nonce := slice 4 (4 + AEAD_NONCE_SIZE) frame in
      let ciphertext := slice (4 + AEAD_NONCE_SIZE) expected_total frame in
      expected_nonce ← lift (make_nonce (s_recv_counter s));
      lift (raise_if (negb (bool_decide (frame_nonce = expected_nonce))) ValueError);;
      put (with_counters (s_send_counter s) (s_recv_counter s + 1) s);;
      match aead_decrypt key frame_nonce ciphertext with
      | Some p => mret p
      | None => raise ValueError
      end
  end.
End protocol.

(** ** State machine *)

Definition sstep (a b : SessionState) : Prop := b ∈ valid_next a.
#[export] Instance sstep_dec a b : Decision (sstep a b) := decide (b ∈ valid_next a).

Lemma session_transition_spec s new :
  session_transition new s =
  if bool_decide (sstep (s_state s) new) then (Ok tt, with_state new s) else (Err RuntimeError, s).
Proof.
  unfold session_transition, sstep, get, put, raise, mbind, M_bind. by repeat case_bool_decide.
Qed.

(** The session state machine: [transition] does exactly the allowed moves
    and otherwise raises [RuntimeError] changing nothing; no path reaches
    ESTABLISHED from DISCONNECTED without AUTHENTICATING; and a FAILED or
    CLOSING session can only be disconnected. *)
Theorem session_states_safe :
  (forall s new, session_transition new s =
     if bool_decide (sstep (s_state s) new) then (Ok tt, with_state new s) else (Err RuntimeError, s))
  /\ (forall b, rtc (fun a b => sstep a b /\ b <> AUTHENTICATING) DISCONNECTED b -> b <> ESTABLISHED)
  /\ (forall b, sstep SFAILED b \/ sstep CLOSING b -> b = DISCONNECTED).
Proof.
  split; [apply session_transition_spec|]. split.
  - assert (forall a b, rtc (fun a b => sstep a b /\ b <> AUTHENTICATING) a b ->
      a ∈ [DISCONNECTED; CONNECTING; HANDSHAKING; CLOSING; SFAILED] ->
      b ∈ [DISCONNECTED; CONNECTING; HANDSHAKING; CLOSING; SFAILED]) as Hinv.
    { induction 1 as [|a b c [Hab Hb] _ IH]; [done|]. intros Ha. apply IH. unfold sstep in Hab.
      destruct a; cbn in Hab; set_solver. }
    intros b Hb ->. apply Hinv in Hb; set_solver.
  - unfold sstep. intros b [Hb|Hb]; cbn in Hb; set_solver.
Qed.

(** ** Nonces *)

Lemma make_nonce_Ok c n :
  make_nonce c = Ok n <-> 0 <= c < 2 ^ 64 /\ n = map z2b [0; 0; 0; 0] ++ be_bytes 8 c.
Proof.
  unfold make_nonce. rewrite bind_Ok. split.
  - intros (b & [Hc ->]%pack_Q_Ok & [= <-]). done.
  - intros [Hc ->]. exists (be_bytes 8 c). split; [by apply pack_Q_Ok|done].
Qed.

Lemma make_nonce_length c n : make_nonce c = Ok n -> length n = 12%nat.
Proof. intros [_ ->]%make_nonce_Ok. by rewrite length_app, length_be_bytes. Qed.

Lemma make_nonce_inj c d n : make_nonce c = Ok n -> make_nonce d = Ok n -> c = d.
Proof.
  intros [Hc Hn]%make_nonce_Ok [Hd Hn']%make_nonce_Ok. rewrite Hn in Hn'. apply app_inv_head in Hn'.
  rewrite <-(be_val_bytes 8 c), <-(be_val_bytes 8 d), Hn' by done. done.
Qed.

Lemma make_nonce_total c : 0 <= c < 2 ^ 64 -> exists n, make_nonce c = Ok n.
Proof. intros Hc. eexists. by apply make_nonce_Ok. Qed.

(** ** SAS *)

Lemma pad_digits_spec n v :
  length (pad_digits n v) = n /\ Forall (fun c => 48 <= c <= 57) (pad_digits n v).
Proof.
  revert v; induction n as [|n IH]; intros v; cbn [pad_digits]; [by split|]. destruct (IH (v / 10)) as [Hl Hf].
  split; [rewrite length_app, Hl; cbn; lia|]. apply Forall_app; split; [done|].
  constructor; [|done]. pose proof (Z.mod_pos_bound v 10 ltac:(lia)). lia.
Qed.

Section session_properties.
Context `{HC : Crypto} {HL : CryptoLaws}.

(** A run of the handshake: what both sides hold before deriving keys. *)
Definition paired (a b : FerrySession) (pa pb : bytes) (la lb : HandshakeData) : Prop :=
  s_is_initiator a = true /\ s_is_initiator b = false
  /\ s_eph_private a = Some pa /\ s_eph_private b = Some pb
  /\ s_local_hs a = Some la /\ s_remote_hs a = Some lb
  /\ s_local_hs b = Some lb /\ s_remote_hs b = Some la
  /\ ephemeral_pub_key la = x_public pa /\ ephemeral_pub_key lb = x_public pb.

Lemma derive_keys_run a priv l r sh :
  s_eph_private a = Some priv -> s_local_hs a = Some l -> s_remote_hs a = Some r ->
  x_exchange priv (ephemeral_pub_key r) = Ok sh ->
  let k := if s_is_initiator a then derived_from true l r sh else derived_from false r l sh in
  derive_keys a = (Ok k, with_keys k (with_eph None (s_eph_pub_bytes a) a)).
Proof.
  intros Hp Hl Hr He k. unfold derive_keys, mbind, M_bind, get, lift, modify, mret, M_ret.
  by rewrite Hp, Hl, Hr, He.
Qed.

(** C14. Key agreement: when both sides hold each other's handshake data, either
    both derivations fail on the same degenerate point or both succeed with
    crossed keys (what one sends with, the other receives with) and the same
    six-digit verification code; the signed transcripts are equal; and the
    ephemeral private keys are gone. *)
Theorem key_agreement a b pa pb la lb :
  paired a b pa pb la lb ->
  build_auth_transcript a = build_auth_transcript b
  /\ (forall e, x_exchange pa (x_public pb) = Err e -> derive_keys a = (Err e, a) /\ derive_keys b = (Err e, b))
  /\ (forall sh, x_exchange pa (x_public pb) = Ok sh ->
      exists ka kb a' b', derive_keys a = (Ok ka, a') /\ derive_keys b = (Ok kb, b')
      /\ send_key ka = recv_key kb /\ recv_key ka = send_key kb
      /\ sas_code a' = sas_code b'
      /\ (exists code, sas_code a' = Some code /\ length code = 6%nat /\ Forall (fun c => 48 <= c <= 57) code)
      /\ s_eph_private a' = None /\ s_eph_private b' = None
      /\ s_send_cipher a' = s_recv_cipher b' /\ s_recv_cipher a' = s_send_cipher b').
Proof.
  intros (Ia & Ib & Pa & Pb & La & Ra & Lb & Rb & Ea & Eb). split; [|split].
  - unfold build_auth_transcript. by rewrite La, Ra, Lb, Rb, Ia, Ib.
  - intros e He. unfold derive_keys, mbind, M_bind, get, lift. rewrite Pa, La, Ra, Pb, Lb, Rb, Eb, Ea.
    by rewrite (x_agree pb pa), He.
  - intros sh He.
    assert (x_exchange pb (ephemeral_pub_key la) = Ok sh) as He' by (by rewrite Ea, x_agree).
    rewrite <-Eb in He.
    pose proof (derive_keys_run a pa la lb sh Pa La Ra He) as Da.
    pose proof (derive_keys_run b pb lb la sh Pb Lb Rb He') as Db.
    rewrite Ia in Da. rewrite Ib in Db. cbv zeta in Da, Db.
    do 4 eexists. split; [exact Da|]. split; [exact Db|].
    split_and!; try done. eexists. split; [done|]. apply pad_digits_spec.
Qed.

(** ** The channel *)

Lemma encrypt_frame_run key p s :
  s_send_cipher s = Some key -> zlen p <= MAX_AEAD_PLAINTEXT -> 0 <= s_send_counter s < 2 ^ 64 ->
  exists n, make_nonce (s_send_counter s) = Ok n
  /\ encrypt_frame p s = (Ok (be_bytes 4 (zlen p + AEAD_TAG_SIZE) ++ n ++ aead_encrypt key n p),
                          with_counters (s_send_counter s + 1) (s_recv_counter s) s).
Proof.
  intros Hk Hp Hc. destruct (make_nonce_total _ Hc) as [n Hn]. exists n. split; [done|].
  unfold encrypt_frame, mbind, M_bind, get, put, lift, mret, M_ret. rewrite Hk.
  replace (_ >? _) with false by lia. cbn [raise_if]. rewrite Hn, aead_length.
  pose proof (zlen_nonneg p). unfold MAX_AEAD_PLAINTEXT, AEAD_TAG_SIZE in *.
  rewrite (proj2 (pack_I_Ok _ (be_bytes 4 (zlen p + 16)))); [done|]. split; [lia|done].
Qed.

(** What [decrypt_frame] does with any frame whose header is complete. *)
Lemma decrypt_frame_run key n ct rest s :
  s_recv_cipher s = Some key -> 0 <= s_recv_counter s < 2 ^ 64 ->
  length n = 12%nat -> zlen ct < 2 ^ 32 ->
  decrypt_frame (be_bytes 4 (zlen ct) ++ n ++ ct ++ rest) s =
  if bool_decide (make_nonce (s_recv_counter s) = Ok n) then
    (match aead_decrypt key n ct with Some p => Ok p | None => Err ValueError end,
     with_counters (s_send_counter s) (s_recv_counter s + 1) s)
  else (Err ValueError, s).
Proof.
  intros Hk Hc Hn Hct. set (frame := be_bytes 4 (zlen ct) ++ n ++ ct ++ rest).
  pose proof (zlen_nonneg ct). pose proof (zlen_nonneg rest).
  assert (forall z, zlen (be_bytes 4 z) = 4) as L4 by (intros z; unfold zlen; by rewrite length_be_bytes).
  assert (zlen n = 12) as Ln by (unfold zlen; by rewrite Hn).
  assert (zlen frame = 16 + zlen ct + zlen rest) as Hlen by (unfold frame; rewrite !zlen_app, L4, Ln; lia).
  assert (be_val (slice 0 4 frame) = zlen ct) as H4.
  { unfold slice, frame. change (drop (Z.to_nat 0) ?l) with l. change (Z.to_nat (4 - 0)) with 4%nat.
    rewrite take_all_app by (by rewrite length_be_bytes). by apply be_val_bytes. }
  assert (slice 4 (4 + AEAD_NONCE_SIZE) frame = n) as Hno.
  { unfold frame. rewrite slice_app_r by (rewrite ?L4; lia). apply take_all_app. by rewrite Hn. }
  assert (slice (4 + AEAD_NONCE_SIZE) (AEAD_HEADER_SIZE + AEAD_NONCE_SIZE + zlen ct) frame = ct) as Hci.
  { unfold frame. rewrite app_assoc. rewrite slice_app_r.
    - apply take_all_app. unfold AEAD_NONCE_SIZE, AEAD_HEADER_SIZE, zlen. lia.
    - done.
    - by rewrite zlen_app, L4, Ln. }
  unfold decrypt_frame, mbind, M_bind, get, put, lift, raise, mret, M_ret. rewrite Hk.
  replace (zlen frame <? AEAD_HEADER_SIZE + AEAD_NONCE_SIZE) with false
    by (rewrite Hlen; symmetry; apply Z.ltb_ge; unfold AEAD_HEADER_SIZE, AEAD_NONCE_SIZE; lia).
  cbn [raise_if]. rewrite H4.
  replace (zlen frame <? AEAD_HEADER_SIZE + AEAD_NONCE_SIZE + zlen ct) with false
    by (rewrite Hlen; symmetry; apply Z.ltb_ge; unfold AEAD_HEADER_SIZE, AEAD_NONCE_SIZE; lia).
  cbn [raise_if]. rewrite Hno, Hci. destruct (make_nonce_total _ Hc) as [n' ->].
  destruct (decide (n = n')) as [->|Hne].
  - rewrite !bool_decide_eq_true_2 by done. cbn [negb raise_if]. by destruct (aead_decrypt key n' ct).
  - rewrite !bool_decide_eq_false_2 by congruence. done.
Qed.
(** One call after the other, whose exceptions the caller handles: the outcome of
    each, and the session afterwards. *)
Fixpoint each {A B} (f : A -> M FerrySession B) (l : list A) (s : FerrySession) : list (res B) * FerrySession :=
  match l with
  | [] => ([], s)
  | x :: l' => let '(r, s1) := f x s in let '(rs, s2) := each f l' s1 in (r :: rs, s2)
  end.
Definition encrypt_all : list bytes -> FerrySession -> list (res bytes) * FerrySession := each encrypt_frame.
Definition decrypt_all : list bytes -> FerrySession -> list (res bytes) * FerrySession := each decrypt_frame.

(** C15. The channel delivers: whatever messages of at most 1 MiB one side
    encrypts, in any number, the other side decrypts to the same messages in
    the same order, and the two counters stay in step. *)
Theorem channel_in_order msgs : forall key a b,
  s_send_cipher a = Some key -> s_recv_cipher b = Some key ->
  s_send_counter a = s_recv_counter b -> 0 <= s_send_counter a ->
  s_send_counter a + Z.of_nat (length msgs) <= 2 ^ 64 ->
  Forall (fun m => zlen m <= MAX_AEAD_PLAINTEXT) msgs ->
  exists frames a' b', encrypt_all msgs a = (map Ok frames, a') /\ decrypt_all frames b = (map Ok msgs, b')
    /\ s_send_counter a' = s_recv_counter b' /\ s_send_counter a' = s_send_counter a + Z.of_nat (length msgs).
Proof.
  induction msgs as [|m msgs IH]; intros key a b Ka Kb Hc H0 Hmax Hlen.
  { exists [], a, b. cbn. split_and!; try done. lia. }
  apply Forall_cons in Hlen as [Hm Hlen]. cbn [length] in Hmax.
  destruct (encrypt_frame_run key m a Ka Hm ltac:(lia)) as (n & Hn & He).
  set (ct := aead_encrypt key n m) in *. rewrite <-(aead_length key n m) in He. fold ct in He.
  assert (zlen ct < 2 ^ 32) as Hct.
  { unfold ct. rewrite aead_length. unfold MAX_AEAD_PLAINTEXT, AEAD_TAG_SIZE in *. lia. }
  pose proof (decrypt_frame_run key n ct [] b Kb ltac:(lia) (make_nonce_length _ _ Hn) Hct) as Hd.
  rewrite app_nil_r, <-Hc, bool_decide_eq_true_2, (proj2 (aead_open key n ct m)) in Hd by done.
  destruct (IH key (with_counters (s_send_counter a + 1) (s_recv_counter a) a)
              (with_counters (s_send_counter b) (s_send_counter a + 1) b)) as (fs & a' & b' & Ha & Hb & Hcc & Hlast);
    try done; cbn; [lia|lia|].
  eexists (_ :: fs), a', b'. unfold encrypt_all, decrypt_all in *. cbn [each map].
  rewrite He, Ha, Hd, Hb. split_and!; try done. rewrite Hlast. cbn. lia.
Qed.

(** Any frame long enough splits at its declared length. *)
Lemma frame_split frame :
  AEAD_HEADER_SIZE + AEAD_NONCE_SIZE + be_val (slice 0 4 frame) <= zlen frame ->
  exists n ct rest, frame = be_bytes 4 (zlen ct) ++ n ++ ct ++ rest /\ length n = 12%nat /\ zlen ct < 2 ^ 32.
Proof.
  unfold AEAD_HEADER_SIZE, AEAD_NONCE_SIZE. intros Hlen.
  assert (slice 0 4 frame = take 4 frame) as E by done.
  pose proof (be_val_range (take 4 frame)) as Hr. rewrite E in Hlen.
  assert (length (take 4 frame) = 4%nat) as L4 by (rewrite length_take; unfold zlen in Hlen; lia).
  rewrite L4 in Hr. change (256 ^ Z.of_nat 4) with (2 ^ 32) in Hr.
  set (k := be_val (take 4 frame)) in *.
  exists (take 12 (drop 4 frame)), (take (Z.to_nat k) (drop 16 frame)), (drop (Z.to_nat k) (drop 16 frame)).
  assert (zlen (take (Z.to_nat k) (drop 16 frame)) = k) as Hk.
  { unfold zlen in *. rewrite length_take, length_drop. lia. }
  rewrite Hk. split_and!; [| |lia].
  - rewrite take_drop. unfold k. rewrite <-L4 at 1. rewrite be_bytes_val.
    change 16%nat with (4 + 12)%nat. rewrite <-drop_drop, take_drop, take_drop. done.
  - rewrite length_take, length_drop. unfold zlen in Hlen. lia.
Qed.

Lemma decrypt_frame_Ok frame s p s' :
  0 <= s_recv_counter s ->
  decrypt_frame frame s = (Ok p, s') ->
  exists key n rest, s_recv_cipher s = Some key /\ make_nonce (s_recv_counter s) = Ok n
    /\ frame = be_bytes 4 (zlen (aead_encrypt key n p)) ++ n ++ aead_encrypt key n p ++ rest
    /\ zlen (aead_encrypt key n p) < 2 ^ 32
    /\ s' = with_counters (s_send_counter s) (s_recv_counter s + 1) s.
Proof.
  intros H0 E. pose proof E as E0. unfold decrypt_frame in E0.
  unfold mbind, M_bind, get, put, lift, raise, mret, M_ret in E0.
  destruct (s_recv_cipher s) as [key|] eqn:Hk; [|done].
  destruct (zlen frame <? AEAD_HEADER_SIZE + AEAD_NONCE_SIZE) eqn:E1; [done|]. cbn [raise_if] in E0.
  destruct (zlen frame <? AEAD_HEADER_SIZE + AEAD_NONCE_SIZE + be_val (slice 0 4 frame)) eqn:E2; [done|]. cbn [raise_if] in E0. apply Z.ltb_ge in E2.
  destruct (make_nonce (s_recv_counter s)) as [n|] eqn:En; [|done].
  destruct (frame_split frame E2) as (n' & ct & rest & -> & Hn' & Hct).
  assert (0 <= s_recv_counter s < 2 ^ 64) as Hc by (by apply make_nonce_Ok in En as [? _]).
  rewrite (decrypt_frame_run key n' ct rest s Hk Hc Hn' Hct) in E.
  clear E0. case_bool_decide as Hb; [|done]. rewrite En in Hb. injection Hb as <-.
  destruct (aead_decrypt key n ct) as [p'|] eqn:Hd; [|done]. injection E as <- <-.
  apply aead_open in Hd as ->. exists key, n, rest. done.
Qed.

(** C17. Authenticity and replay protection: a frame that is accepted is the
    encryption of the returned message under the session key and the expected
    counter; it is accepted once, since the same frame, or any frame of an
    earlier counter, is then refused and changes nothing. *)
Theorem decrypt_frame_authentic frame s p s' :
  0 <= s_recv_counter s ->
  decrypt_frame frame s = (Ok p, s') ->
  (exists key n rest, s_recv_cipher s = Some key /\ make_nonce (s_recv_counter s) = Ok n
    /\ frame = be_bytes 4 (zlen (aead_encrypt key n p)) ++ n ++ aead_encrypt key n p ++ rest)
  /\ s_recv_counter s' = s_recv_counter s + 1
  /\ (forall s2 key, s_recv_cipher s2 = Some key -> s_recv_counter s < s_recv_counter s2 < 2 ^ 64 ->
       decrypt_frame frame s2 = (Err ValueError, s2)).
Proof.
  intros H0 E. destruct (decrypt_frame_Ok _ _ _ _ H0 E) as (key & n & rest & Hk & Hn & -> & Hlen & ->).
  split; [by exists key, n, rest|]. split; [done|]. intros s2 key2 Hk2 Hc2.
  rewrite (decrypt_frame_run key2 n _ rest s2 Hk2 ltac:(lia) (make_nonce_length _ _ Hn) Hlen).
  rewrite bool_decide_eq_false_2; [done|]. intros Hn2. pose proof (make_nonce_inj _ _ _ Hn Hn2). lia.
Qed.

(** The nonce field of a frame. *)
Definition frame_nonce (f : bytes) : bytes := slice 4 (4 + AEAD_NONCE_SIZE) f.

Lemma encrypt_frame_Ok m s f s' :
  encrypt_frame m s = (Ok f, s') ->
  make_nonce (s_send_counter s) = Ok (frame_nonce f) /\ s_send_counter s' = s_send_counter s + 1
  /\ zlen m <= MAX_AEAD_PLAINTEXT.
Proof.
  unfold encrypt_frame, mbind, M_bind, get, put, lift, mret, M_ret.
  destruct (s_send_cipher s) as [key|]; [|done]. destruct (_ >? _) eqn:E; [done|]. cbn [raise_if].
  apply ltb_gtb_false in E.
  destruct (make_nonce _) as [n|] eqn:Hn; [|done]. destruct (pack_I _) as [l4|] eqn:H4; [|done].
  intros [= <- <-]. split_and!; try done. f_equal. unfold frame_nonce. apply length_pack_I in H4.
  rewrite slice_app_r by (unfold zlen; rewrite ?H4; done). symmetry. apply take_all_app.
  by rewrite (make_nonce_length _ _ Hn).
Qed.

(** What is called on a session whose keys are there, in any order. *)
Inductive call := Encrypt (plaintext : bytes) | Decrypt (frame : bytes) | Transition (new : SessionState).
(** The frame that the call produced, if any. *)
Definition run_call (c : call) (s : FerrySession) : option bytes * FerrySession :=
  match c with
  | Encrypt m => let '(r, s') := encrypt_frame m s in (match r with Ok f => Some f | Err _ => None end, s')
  | Decrypt f => (None, (decrypt_frame f s).2)
  | Transition new => (None, (session_transition new s).2)
  end.
Fixpoint run_calls (l : list call) (s : FerrySession) : list bytes * FerrySession :=
  match l with
  | [] => ([], s)
  | c :: l' => let '(o, s1) := run_call c s in let '(fs, s2) := run_calls l' s1 in (option_list o ++ fs, s2)
  end.

(** No call lowers the counter, or touches the key of the sending direction. *)
Lemma run_call_counter c s o s' :
  run_call c s = (o, s') -> s_send_counter s <= s_send_counter s' /\ s_send_cipher s' = s_send_cipher s.
Proof.
  destruct c as [m|f|new]; cbn [run_call].
  - unfold encrypt_frame, mbind, M_bind, get, put, lift, raise, mret, M_ret.
    destruct (s_send_cipher s) eqn:E; [|by intros [= <- <-]]. destruct (raise_if _ _); [|by intros [= <- <-]].
    destruct (make_nonce _); [|by intros [= <- <-]]. cbn. destruct (pack_I _); intros [= <- <-]; cbn; (split; [lia|done]).
  - intros [= <- <-]. unfold decrypt_frame, mbind, M_bind, get, put, lift, raise, mret, M_ret.
    destruct (s_recv_cipher s); [|done]. do 2 (destruct (raise_if _ _); [|done]). destruct (make_nonce _); [|done].
    destruct (raise_if _ _); [|done]. cbn. by destruct (aead_decrypt _ _ _).
  - intros [= <- <-]. rewrite session_transition_spec. by case_bool_decide.
Qed.

(** C16. No nonce is used twice.  Take any sequence of calls on a session, of
    encryptions, decryptions and state transitions, in any order, where the calls
    after one that failed go on: the nonces of all frames that were produced are
    distinct, each is that of a counter passed on the way, and the key of the
    sending direction is the same all the time. *)
Theorem nonces_never_repeat l : forall s,
  let '(frames, s') := run_calls l s in
  NoDup (map frame_nonce frames)
  /\ Forall (fun f => exists c, s_send_counter s <= c < s_send_counter s' /\ make_nonce c = Ok (frame_nonce f)) frames
  /\ s_send_counter s <= s_send_counter s' /\ s_send_cipher s' = s_send_cipher s.
Proof.
  induction l as [|c l IH]; intros s; cbn [run_calls]; [by split_and!; [constructor..|lia|]|].
  destruct (run_call c s) as [o s1] eqn:E1. pose proof (run_call_counter _ _ _ _ E1) as [Hc1 Hk1].
  specialize (IH s1). destruct (run_calls l s1) as [fs s2]. destruct IH as (Hnd & Hall & Hc & Hk).
  assert (Forall (fun f => exists c, s_send_counter s <= c < s_send_counter s2 /\ make_nonce c = Ok (frame_nonce f)) fs) as Hall'.
  { eapply Forall_impl; [exact Hall|]. intros g (k & ? & ?). exists k. split; [lia|done]. }
  destruct o as [f|]; cbn [option_list app map]; [|split_and!; [done..|lia|congruence]].
  destruct c as [m| |]; [|done..]. cbn in E1. destruct (encrypt_frame m s) as [[f'|] s1'] eqn:Ee; [|done].
  injection E1 as -> ->. apply encrypt_frame_Ok in Ee as (Hn & Hs & _). split_and!; [|constructor; [|done]|lia|congruence].
  - constructor; [|done]. intros (g & Hg & Hin)%list_elem_of_fmap. rewrite Forall_forall in Hall.
    destruct (Hall g Hin) as (k & Hk' & Hn'). rewrite <-Hg in Hn'. pose proof (make_nonce_inj _ _ _ Hn Hn'). lia.
  - exists (s_send_counter s). split; [lia|done].
Qed.
End session_properties.
