(* ===== verification/Bridge.v ===== *)
(** * Mirrored notifications: [core/notification_bridge.py]

    The token bucket, the bounded map from notification ids of the phone to ids
    of the desktop, and the bridge itself.  The D-Bus service is the
    environment: each call is given what it answers.  Times are the monotonic
    clock in nanoseconds and tokens are counted in nano-tokens, so the rounding
    of the source's floating-point numbers is not modelled. *)
From S2P Require Import Prelude PyStr.

Definition FERRY_APP_NAME : pystr := u "Raven".
Definition NOTIFY_TIMEOUT : Z := 5000.
Definition NANO : Z := 1000000000.
Definition LRU_MAX : Z := 200.
Definition LRU_TTL : Z := 4 * 3600 * NANO.
Definition RL_BURST : Z := 10.
(** One token a second is one nano-token a nanosecond. *)
Definition RL_RATE : Z := 1.

(** ** The token bucket *)

Record TokenBucket := { tb_burst : Z; tb_rate : Z; tb_tokens : Z; tb_last : Z }.

Definition new_bucket (burst rate now : Z) : TokenBucket :=
  {| tb_burst := burst * NANO; tb_rate := rate; tb_tokens := burst * NANO; tb_last := now |}.

Definition consume (now : Z) (b : TokenBucket) : bool * TokenBucket :=
  let elapsed := now - tb_last b in
  let tokens := Z.min (tb_burst b) (tb_tokens b + elapsed * tb_rate b) in
  if tokens >=? NANO
  then (true, {| tb_burst := tb_burst b; tb_rate := tb_rate b; tb_tokens := tokens - NANO; tb_last := now |})
  else (false, {| tb_burst := tb_burst b; tb_rate := tb_rate b; tb_tokens := tokens; tb_last := now |}).

(** ** Markup *)

(** [html.escape(text, quote=False)] *)
Definition escape_char (c : Z) : pystr :=
  if c =? 38 then u "&amp;" else if c =? 60 then u "&lt;" else if c =? 62 then u "&gt;" else [c].
Definition escape (text : pystr) : pystr := concat (map escape_char text).

(** ** The bridge *)

Record IdEntry := { e_dbus_id : Z; e_expires_at : Z }.

(** An [OrderedDict]: its items in order. *)
Definition id_map := list (pystr * IdEntry).

Definition move_to_end (k : pystr) (m : id_map) : id_map :=
  match aget k m with Some v => adel k m ++ [(k, v)] | None => m end.

(** [while len(m) > max: m.popitem(last=False)] *)
Definition trim (max : Z) (m : id_map) : id_map := drop (Z.to_nat (zlen m - max)) m.

Record Bridge := {
  b_connected : bool;       (** [_proxy is not None] *)
  b_available : bool;
  b_capabilities : list pystr;
  b_id_map : id_map;
  b_rate : TokenBucket
}.

Definition new_bridge (now : Z) : Bridge :=
  {| b_connected := false; b_available := false; b_capabilities := []; b_id_map := [];
     b_rate := new_bucket RL_BURST RL_RATE now |}.

Definition with_id_map (m : id_map) (b : Bridge) : Bridge :=
  {| b_connected := b_connected b; b_available := b_available b; b_capabilities := b_capabilities b;
     b_id_map := m; b_rate := b_rate b |}.
Definition with_rate (r : TokenBucket) (b : Bridge) : Bridge :=
  {| b_connected := b_connected b; b_available := b_available b; b_capabilities := b_capabilities b;
     b_id_map := b_id_map b; b_rate := r |}.

(** [start]: [None] when the proxy cannot be made; otherwise what
    [GetCapabilities] answers, [None] being an exception. *)
Definition start (proxy : option (option (list pystr))) (b : Bridge) : Bridge :=
  match proxy with
  | None => {| b_connected := b_connected b; b_available := false; b_capabilities := b_capabilities b;
               b_id_map := b_id_map b; b_rate := b_rate b |}
  | Some None => {| b_connected := true; b_available := false; b_capabilities := b_capabilities b;
                    b_id_map := b_id_map b; b_rate := b_rate b |}
  | Some (Some caps) => {| b_connected := true; b_available := true; b_capabilities := caps;
                           b_id_map := b_id_map b; b_rate := b_rate b |}
  end.

Definition get_replaces_id (ferry_id : pystr) (m : id_map) : Z :=
  match aget ferry_id m with Some e => e_dbus_id e | None => 0 end.

Definition store_id (now : Z) (ferry_id : pystr) (dbus_id : Z) (m : id_map) : id_map :=
  let m := move_to_end ferry_id m in
  let m := aset ferry_id {| e_dbus_id := dbus_id; e_expires_at := now + LRU_TTL |} m in
  trim LRU_MAX m.

Definition remove_by_dbus_id (dbus_id : Z) (m : id_map) : id_map :=
  let to_delete := map fst (List.filter (fun x => e_dbus_id (snd x) =? dbus_id) m) in
  fold_left (fun m k => adel k m) to_delete m.

Definition expire_old (now : Z) (m : id_map) : id_map :=
  let expired := map fst (List.filter (fun x => e_expires_at (snd x) <? now) m) in
  fold_left (fun m k => adel k m) expired m.

(** [_on_dbus_signal("NotificationClosed")] *)
Definition on_closed (dbus_id : Z) (b : Bridge) : Bridge := with_id_map (remove_by_dbus_id dbus_id (b_id_map b)) b.

(** The arguments of a [Notify] call. *)
Record Notify := { no_app : pystr; no_replaces : Z; no_summary : pystr; no_body : pystr; no_timeout : Z }.

(** [post]: [now] is the clock at each reading, [reply] the id that [Notify]
    issues, [None] an exception. Returns the call made, if any, and the result. *)
Definition post (now : Z) (reply : option Z) (ferry_id app_label title body : pystr) (b : Bridge)
  : option Notify * bool * Bridge :=
  if negb (b_available b) || negb (b_connected b) then (None, false, b)
  else
    let '(ok, rate) := consume now (b_rate b) in
    let b := with_rate rate b in
    if negb ok then (None, false, b)
    else
      let safe_summary := escape app_label in
      let safe_body := if bool_decide (body = []) then escape title else escape title ++ [10] ++ escape body in
      let call := {| no_app := FERRY_APP_NAME; no_replaces := get_replaces_id ferry_id (b_id_map b);
                     no_summary := safe_summary; no_body := safe_body; no_timeout := NOTIFY_TIMEOUT |} in
      match reply with
      | None => (Some call, false, b)
      | Some issued_id => (Some call, true, with_id_map (expire_old now (store_id now ferry_id issued_id (b_id_map b))) b)
      end.

(** [remove]: the id that [CloseNotification] is called with, if any; whether
    that call fails does not matter. *)
Definition remove (ferry_id : pystr) (b : Bridge) : option Z * Bridge :=
  if negb (b_available b) || negb (b_connected b) then (None, b)
  else match aget ferry_id (b_id_map b) with
       | None => (None, b)
       | Some e => (Some (e_dbus_id e), with_id_map (adel ferry_id (b_id_map b)) b)
       end.

(** ** The map *)

Definition map_ok (m : id_map) : Prop := NoDup m.*1 /\ zlen m <= LRU_MAX.

Lemma length_adel {V} k (d : list (pystr * V)) : (length (adel k d) <= length d)%nat.
Proof. induction d as [|[k' v] d IH]; cbn; [done|]. case_decide; cbn; lia. Qed.

Lemma map_ok_adel k m : map_ok m -> map_ok (adel k m).
Proof.
  intros [Hn Hl]. split; [by apply NoDup_adel|]. unfold zlen in *. pose proof (length_adel k m). lia.
Qed.

Lemma map_ok_adel_all ks m : map_ok m -> map_ok (fold_left (fun m k => adel k m) ks m).
Proof. revert m; induction ks as [|k ks IH]; intros m Hm; cbn; [done|]. by apply IH, map_ok_adel. Qed.

Lemma NoDup_move_to_end k (m : id_map) : NoDup m.*1 -> NoDup (move_to_end k m).*1.
Proof.
  intros Hn. unfold move_to_end. destruct (aget k m) as [v|]; [|done]. rewrite fmap_app. cbn.
  apply NoDup_app. split; [by apply NoDup_adel|]. split; [|by apply NoDup_singleton].
  intros x Hx ->%list_elem_of_singleton. rewrite keys_adel in Hx by done. naive_solver.
Qed.

Lemma map_ok_store now k v m : map_ok m -> map_ok (store_id now k v m).
Proof.
  intros [Hn _]. unfold store_id, trim. set (m' := aset _ _ _).
  assert (NoDup m'.*1) as Hn' by (by apply NoDup_aset, NoDup_move_to_end). split.
  - rewrite fmap_drop. rewrite <-(take_drop (Z.to_nat (zlen m' - LRU_MAX)) m'.*1) in Hn'.
    by apply NoDup_app in Hn' as (_ & _ & ?).
  - unfold zlen, LRU_MAX. rewrite length_drop. lia.
Qed.

Lemma aset_last k v (l : id_map) w : k ∉ l.*1 -> aset k v (l ++ [(k, w)]) = l ++ [(k, v)].
Proof.
  induction l as [|[k' v'] l IH]; cbn; [by rewrite decide_True|].
  rewrite not_elem_of_cons. intros [??]. rewrite decide_False by done. by rewrite IH.
Qed.

(** The stored entry is the youngest. *)
Lemma store_last now k i m :
  NoDup m.*1 -> exists l, store_id now k i m = l ++ [(k, {| e_dbus_id := i; e_expires_at := now + LRU_TTL |})]
                          /\ k ∉ l.*1.
Proof.
  intros Hn. unfold store_id. set (v := {| e_dbus_id := i; e_expires_at := now + LRU_TTL |}).
  assert (exists l, aset k v (move_to_end k m) = l ++ [(k, v)] /\ k ∉ l.*1) as (l & El & Hl).
  { unfold move_to_end. destruct (aget k m) as [w|] eqn:E.
    - exists (adel k m). assert (k ∉ (adel k m).*1) as Hk by (rewrite keys_adel by done; naive_solver).
      by rewrite aset_last.
    - exists m. apply aget_None in E. by rewrite aset_fresh. }
  rewrite El. unfold trim, zlen, LRU_MAX. rewrite length_app. cbn [length].
  exists (drop (Z.to_nat (Z.of_nat (length l + 1) - 200)) l). rewrite drop_app_le by lia. split; [done|].
  rewrite fmap_drop. intros Hin. apply Hl. rewrite <-(take_drop (Z.to_nat (Z.of_nat (length l + 1) - 200)) l.*1).
  apply elem_of_app. by right.
Qed.

Lemma aget_last k v (l : id_map) : k ∉ l.*1 -> aget k (l ++ [(k, v)]) = Some v.
Proof.
  induction l as [|[k' v'] l IH]; cbn; [by rewrite decide_True|].
  rewrite not_elem_of_cons. intros [??]. rewrite decide_False by done. auto.
Qed.

Lemma aget_adel_all k ks (m : id_map) : k ∉ ks -> aget k (fold_left (fun m k => adel k m) ks m) = aget k m.
Proof.
  revert m; induction ks as [|k' ks IH]; intros m Hk; cbn; [done|]. apply not_elem_of_cons in Hk as [??].
  by rewrite IH, aget_adel_ne.
Qed.

Lemma store_then_get now k i m :
  map_ok m -> get_replaces_id k (expire_old now (store_id now k i m)) = i.
Proof.
  intros Hok. pose proof (map_ok_store now k i m Hok) as [Hn _].
  destruct (store_last now k i m (proj1 Hok)) as (l & E & Hl). unfold get_replaces_id, expire_old.
  rewrite aget_adel_all; [by rewrite E, aget_last|].
  intros ([k' e] & -> & Hin)%list_elem_of_fmap. apply list_elem_of_In, filter_In in Hin as [Hin Hex].
  apply list_elem_of_In in Hin. pose proof (aget_In _ _ _ Hn Hin) as Hg. cbn in Hex.
  rewrite E in Hg. cbn in Hg. rewrite aget_last in Hg by done. injection Hg as <-. cbn in Hex. unfold LRU_TTL, NANO in Hex. lia.
Qed.

(** Every call the bridge can receive. *)
Inductive bridge_call :=
  | CStart (proxy : option (option (list pystr))) | CClosed (dbus_id : Z)
  | CPost (now : Z) (reply : option Z) (ferry_id app_label title body : pystr) | CRemove (ferry_id : pystr).
Definition bridge_run (c : bridge_call) (b : Bridge) : Bridge :=
  match c with
  | CStart p => start p b
  | CClosed i => on_closed i b
  | CPost now r f a t bd => (post now r f a t bd b).2
  | CRemove f => (remove f b).2
  end.

Lemma bridge_run_ok c b : map_ok (b_id_map b) -> map_ok (b_id_map (bridge_run c b)).
Proof.
  intros Hm. destruct c; cbn.
  - by destruct proxy as [[]|].
  - by apply map_ok_adel_all.
  - unfold post. case_match; [done|]. destruct (consume _ _) as [ok rate]. case_match; [done|].
    destruct reply; [|done]. cbn. by apply map_ok_adel_all, map_ok_store.
  - unfold remove. case_match; [done|]. case_match; [|done]. cbn. by apply map_ok_adel.
Qed.

(** A bridge that was created and then used in any way. *)
Definition bridge_after (now : Z) (calls : list bridge_call) : Bridge :=
  fold_left (fun b c => bridge_run c b) calls (new_bridge now).

(** The id map stays bounded and well formed: after any sequence of calls,
    replies and close signals it has at most 200 entries, no id twice, and an id
    just issued for a notification is the one the next update replaces. *)
Theorem id_map_bounded now calls :
  let b := bridge_after now calls in
  map_ok (b_id_map b)
  /\ (forall t issued ferry_id app title body call b',
        post t (Some issued) ferry_id app title body b = (Some call, true, b') ->
        get_replaces_id ferry_id (b_id_map b') = issued).
Proof.
  assert (map_ok (b_id_map (bridge_after now calls))) as Hok.
  { unfold bridge_after. assert (map_ok (b_id_map (new_bridge now))) as H0 by (split; [constructor|done]).
    revert H0. generalize (new_bridge now) as b. induction calls as [|c calls IH]; intros b Hb; [done|].
    cbn. by apply IH, bridge_run_ok. }
  split; [done|]. intros t issued ferry_id app title body call b'. unfold post.
  destruct (negb _ || _); [done|]. destruct (consume _ _) as [ok rate]. destruct (negb ok); [done|].
  intros [= <- <-]. cbn. by apply store_then_get.
Qed.

(** ** The rate limit *)

Fixpoint times_from (t : Z) (times : list Z) : Prop :=
  match times with [] => True | t' :: times' => t <= t' /\ times_from t' times' end.
Lemma times_from_le t t' times : t <= t' -> times_from t' times -> times_from t times.
Proof. destruct times; cbn; [done|]. intros ? []. split; [lia|done]. Qed.

(** The times of the posts among some calls, and how many of these calls reach
    the notification server. *)
Definition post_times (calls : list bridge_call) : list Z :=
  omap (fun c => match c with CPost t _ _ _ _ _ => Some t | _ => None end) calls.
Definition notifies (c : bridge_call) (b : Bridge) : bool :=
  match c with CPost t r f a ti bd => bool_decide (is_Some (post t r f a ti bd b).1.1) | _ => false end.
Fixpoint notified (calls : list bridge_call) (b : Bridge) : Z :=
  match calls with
  | [] => 0
  | c :: calls' => (if notifies c b then 1 else 0) + notified calls' (bridge_run c b)
  end.

Definition bucket_ok (b : TokenBucket) : Prop :=
  tb_rate b = RL_RATE /\ tb_burst b = RL_BURST * NANO /\ 0 <= tb_tokens b <= tb_burst b.
Lemma consume_spec t b : bucket_ok b -> tb_last b <= t ->
  let '(ok, b') := consume t b in
  bucket_ok b' /\ tb_last b' = t
  /\ (if ok then NANO else 0) + tb_tokens b' <= Z.min (RL_BURST * NANO) (tb_tokens b + (t - tb_last b)).
Proof.
  intros (Hr & Hb & Ht) Hl. unfold consume. rewrite Hr, Hb. unfold RL_RATE. rewrite Z.mul_1_r.
  destruct (_ >=? NANO) eqn:E; cbn; unfold bucket_ok; cbn; rewrite Z.geb_leb in E;
    [apply Z.leb_le in E|apply Z.leb_gt in E]; unfold RL_BURST, NANO in *; split_and!; try done; lia.
Qed.
(** What a call does to the bucket: nothing, or it takes its turn. *)
Lemma bridge_run_rate c b :
  b_rate (bridge_run c b) = b_rate b /\ notifies c b = false
  \/ exists t, post_times [c] = [t] /\ consume t (b_rate b) = (notifies c b, b_rate (bridge_run c b)).
Proof.
  destruct c as [proxy|i|t r f a ti bd|f]; cbn.
  - left. by destruct proxy as [[]|].
  - by left.
  - unfold post. destruct (_ || _); [by left|]. right. exists t. split; [done|]. destruct (consume t (b_rate b)) as [ok rate].
    destruct ok; cbn; [|done]. by destruct r.
  - left. unfold remove. destruct (_ || _); [done|]. by destruct (aget _ _).
Qed.
Lemma post_times_cons c l : post_times (c :: l) = post_times [c] ++ post_times l.
Proof. unfold post_times. cbn. by destruct c. Qed.
Lemma times_from_tail t l1 l2 : times_from t (l1 ++ l2) -> times_from t l2.
Proof. revert t. induction l1 as [|x l1 IH]; intros t; cbn; [done|]. intros [Hx H]. eapply times_from_le; [exact Hx|]. by apply IH. Qed.

(** From the bucket's last turn on, the tokens that are there bound the rest. *)
Lemma notified_tokens t1 calls : forall b,
  bucket_ok (b_rate b) -> times_from (tb_last (b_rate b)) (post_times calls) ->
  Forall (fun t => t <= t1) (post_times calls) -> tb_last (b_rate b) <= t1 ->
  notified calls b * NANO <= tb_tokens (b_rate b) + (t1 - tb_last (b_rate b)).
Proof.
  induction calls as [|c calls IH]; intros b Hb Hf He Hl; cbn [notified]; [destruct Hb as (_ & _ & ?); lia|].
  rewrite post_times_cons in Hf, He. apply Forall_app in He as [He1 He2].
  destruct (bridge_run_rate c b) as [[E ->]|(t & Et & E)].
  - rewrite <-E in *. apply IH; try done. by eapply times_from_tail.
  - rewrite Et in Hf, He1. cbn in Hf. destruct Hf as [Hlt Hf]. rewrite Forall_singleton in He1.
    pose proof (consume_spec t _ Hb Hlt) as H. rewrite E in H. destruct H as (Hb' & El & Hle).
    specialize (IH (bridge_run c b)). rewrite El in IH. specialize (IH Hb' Hf He2 He1). destruct (notifies c b); lia.
Qed.
(** Whatever was saved before, no more than the burst is. *)
Lemma notified_span t0 t1 calls : forall b,
  bucket_ok (b_rate b) -> times_from (tb_last (b_rate b)) (post_times calls) ->
  Forall (fun t => t0 <= t <= t1) (post_times calls) -> t0 <= t1 ->
  notified calls b * NANO <= RL_BURST * NANO + (t1 - t0).
Proof.
  induction calls as [|c calls IH]; intros b Hb Hf He Hl; cbn [notified]; [unfold RL_BURST, NANO; lia|].
  rewrite post_times_cons in Hf, He. apply Forall_app in He as [He1 He2].
  destruct (bridge_run_rate c b) as [[E ->]|(t & Et & E)].
  - apply IH; [by rewrite E|rewrite E; by eapply times_from_tail|done|done].
  - rewrite Et in Hf, He1. cbn in Hf. destruct Hf as [Hlt Hf]. rewrite Forall_singleton in He1.
    pose proof (consume_spec t _ Hb Hlt) as H. rewrite E in H. destruct H as (Hb' & El & Hle).
    pose proof (notified_tokens t1 calls (bridge_run c b) Hb') as H. rewrite El in H.
    specialize (H Hf ltac:(eapply Forall_impl; [exact He2|]; cbn; lia) ltac:(lia)). destruct (notifies c b); lia.
Qed.
Lemma bucket_ok_after calls : forall b,
  bucket_ok (b_rate b) -> times_from (tb_last (b_rate b)) (post_times calls) ->
  let b' := fold_left (fun b c => bridge_run c b) calls b in
  bucket_ok (b_rate b') /\ forall rest, times_from (tb_last (b_rate b)) (post_times calls ++ rest) -> times_from (tb_last (b_rate b')) rest.
Proof.
  induction calls as [|c calls IH]; intros b Hb Hf; [done|]. cbn [fold_left]. rewrite post_times_cons in Hf |- *.
  destruct (bridge_run_rate c b) as [[E _]|(t & Et & E)].
  - destruct (IH (bridge_run c b)) as [H1 H2]; [by rewrite E|rewrite E; by eapply times_from_tail|]. split; [exact H1|].
    intros rest Hr. apply H2. rewrite E. rewrite <-app_assoc in Hr. by eapply times_from_tail.
  - rewrite Et in Hf |- *. cbn in Hf |- *. destruct Hf as [Hlt Hf]. pose proof (consume_spec t _ Hb Hlt) as H. rewrite E in H. destruct H as (Hb' & El & _).
    destruct (IH (bridge_run c b)) as [H1 H2]; [done|by rewrite El|]. split; [exact H1|].
    intros rest [_ Hr]. apply H2. by rewrite El.
Qed.

(** C36. The rate limit holds over every time span.  Take any history of a bridge
    whose posts come at times that do not decrease; of the calls made within a
    span from [t0] to [t1], wherever it lies in the history and however long the
    bridge was idle before, at most 10 + (seconds of the span) reach the
    notification server. *)
Theorem rate_limit_bound now before during t0 t1 :
  times_from now (post_times (before ++ during)) ->
  Forall (fun t => t0 <= t <= t1) (post_times during) -> t0 <= t1 ->
  notified during (bridge_after now before) * NANO <= RL_BURST * NANO + (t1 - t0).
Proof.
  intros Ht He Hl. assert (post_times (before ++ during) = post_times before ++ post_times during) as E by apply omap_app.
  rewrite E in Ht. assert (bucket_ok (b_rate (new_bridge now))) as H0 by by vm_compute.
  assert (times_from now (post_times before)) as Hb.
  { clear -Ht. revert now Ht. induction (post_times before) as [|x l IH]; intros now; cbn; [done|]. intros [? ?]. auto. }
  destruct (bucket_ok_after before (new_bridge now) H0 Hb) as [H1 H2]. apply notified_span; auto.
Qed.

(** ** Escaping *)

(** What the notification server sees: entities back to characters. *)
Fixpoint unescape (fuel : nat) (s : pystr) : pystr :=
  match fuel with
  | O => []
  | S fuel' =>
      match s with
      | [] => []
      | c :: s' =>
          if starts_with (u "&amp;") s then 38 :: unescape fuel' (drop 5 s)
          else if starts_with (u "&lt;") s then 60 :: unescape fuel' (drop 4 s)
          else if starts_with (u "&gt;") s then 62 :: unescape fuel' (drop 4 s)
          else c :: unescape fuel' s'
      end
  end.

Lemma starts_with_head (c d : Z) p s : c <> d -> starts_with (c :: p) (d :: s) = false.
Proof.
  intros Hne. apply not_true_iff_false. intros (k & E)%starts_with_spec. injection E as ?. congruence.
Qed.

Lemma escape_cons c t : escape (c :: t) = escape_char c ++ escape t.
Proof. done. Qed.

Lemma escape_char_cases c :
  c = 38 /\ escape_char c = u "&amp;" \/ c = 60 /\ escape_char c = u "&lt;"
  \/ c = 62 /\ escape_char c = u "&gt;" \/ (c <> 38 /\ c <> 60 /\ c <> 62) /\ escape_char c = [c].
Proof.
  unfold escape_char. destruct (Z.eqb_spec c 38) as [->|]; [auto|]. destruct (Z.eqb_spec c 60) as [->|]; [auto|].
  destruct (Z.eqb_spec c 62) as [->|]; auto 10.
Qed.

Lemma split_after (x : Z) l r a b : x ∉ l -> l ++ r = a ++ x :: b -> exists a', a = l ++ a' /\ r = a' ++ x :: b.
Proof.
  revert a; induction l as [|y l IH]; intros a Hx E; [by exists a|].
  apply not_elem_of_cons in Hx as [Hy Hx]. destruct a as [|z a]; injection E as -> E; [done|].
  destruct (IH a Hx E) as (a' & -> & ?). by exists a'.
Qed.

Lemma escape_no_angle text : Forall (fun c => c <> 60 /\ c <> 62) (escape text).
Proof.
  induction text as [|c t IH]; [constructor|]. rewrite escape_cons. apply Forall_app; split; [|done].
  destruct (escape_char_cases c) as [[_ E]|[[_ E]|[[_ E]|[(?&?&?) E]]]]; rewrite E; repeat constructor; done.
Qed.

Lemma not_amp w : forallb (fun c => negb (c =? 38)) w = true -> 38 ∉ w.
Proof. rewrite forallb_forall. intros H Hin%list_elem_of_In%H. done. Qed.

Lemma escape_entities text : forall a b, escape text = a ++ 38 :: b ->
  starts_with (u "amp;") b || starts_with (u "lt;") b || starts_with (u "gt;") b = true.
Proof.
  induction text as [|c t IH]; intros a b E; [by destruct a|]. rewrite escape_cons in E.
  assert (forall w, starts_with w (w ++ escape t) = true) as Hs by (intros w; apply starts_with_spec; by eexists).
  assert (forall w, 38 ∉ w -> (38 :: w) ++ escape t = a ++ 38 :: b ->
    b = w ++ escape t \/ exists a', escape t = a' ++ 38 :: b) as Hgo.
  { intros w Hw Ew. destruct a as [|x a]; injection Ew as Ew; [by left|]. subst.
    right. apply split_after in H as (a' & _ & ?); [by exists a'|done]. }
  destruct (escape_char_cases c) as [[_ Ec]|[[_ Ec]|[[_ Ec]|[(?&?&?) Ec]]]]; rewrite Ec in E.
  - destruct (Hgo (u "amp;")) as [->|[a' ?]]; [by apply not_amp|done|by rewrite Hs|by eapply IH].
  - destruct (Hgo (u "lt;")) as [->|[a' ?]]; [by apply not_amp|done|by rewrite Hs, orb_true_r|by eapply IH].
  - destruct (Hgo (u "gt;")) as [->|[a' ?]]; [by apply not_amp|done|by rewrite Hs, !orb_true_r|by eapply IH].
  - apply split_after in E as (a' & _ & ?); [by eapply IH|]. rewrite list_elem_of_singleton. congruence.
Qed.

Lemma starts_with_second (c d e : Z) p s : d <> e -> starts_with (c :: d :: p) (c :: e :: s) = false.
Proof.
  intros Hne. apply not_true_iff_false. intros (k & E)%starts_with_spec. injection E as ?. congruence.
Qed.

Lemma starts_with_app (p r : pystr) : starts_with p (p ++ r) = true.
Proof. apply starts_with_spec. by eexists. Qed.

Lemma unescape_escape text : forall fuel, (length (escape text) < fuel)%nat -> unescape fuel (escape text) = text.
Proof.
  induction text as [|c t IH]; intros [|fuel] Hf; try (cbn in Hf; lia); [done|].
  rewrite escape_cons in *. rewrite length_app in Hf.
  pose proof (starts_with_app (u "&amp;") (escape t)) as S1. pose proof (starts_with_app (u "&lt;") (escape t)) as S2.
  pose proof (starts_with_app (u "&gt;") (escape t)) as S3.
  change (u "&amp;") with [38; 97; 109; 112; 59] in *. change (u "&lt;") with [38; 108; 116; 59] in *.
  change (u "&gt;") with [38; 103; 116; 59] in *.
  destruct (escape_char_cases c) as [[-> E]|[[-> E]|[[-> E]|[(?&?&?) E]]]]; rewrite E in *.
  - change (u "&amp;") with [38; 97; 109; 112; 59] in *. cbn [app length unescape] in *.
    change (u "&amp;") with [38; 97; 109; 112; 59]. rewrite S1. cbn [drop]. by rewrite IH by lia.
  - change (u "&lt;") with [38; 108; 116; 59] in *. cbn [app length unescape] in *.
    change (u "&amp;") with [38; 97; 109; 112; 59]. change (u "&lt;") with [38; 108; 116; 59].
    rewrite starts_with_second, S2 by done. cbn [drop]. by rewrite IH by lia.
  - change (u "&gt;") with [38; 103; 116; 59] in *. cbn [app length unescape] in *.
    change (u "&amp;") with [38; 97; 109; 112; 59]. change (u "&lt;") with [38; 108; 116; 59].
    change (u "&gt;") with [38; 103; 116; 59].
    rewrite !starts_with_second, S3 by done. cbn [drop]. by rewrite IH by lia.
  - cbn [app length unescape] in *. change (u "&amp;") with (38 :: u "amp;"). change (u "&lt;") with (38 :: u "lt;").
    change (u "&gt;") with (38 :: u "gt;"). rewrite !starts_with_head by done. by rewrite IH by lia.
Qed.

(** Notification text cannot inject markup: the escaped text contains no
    angle bracket, every ampersand in it starts one of the three entities, and
    un-escaping gives back exactly the text of the phone. *)
Theorem escape_safe text :
  Forall (fun c => c <> 60 /\ c <> 62) (escape text)
  /\ (forall a b, escape text = a ++ 38 :: b ->
       starts_with (u "amp;") b || starts_with (u "lt;") b || starts_with (u "gt;") b = true)
  /\ unescape (S (length (escape text))) (escape text) = text.
Proof.
  split; [apply escape_no_angle|]. split; [apply escape_entities|]. apply unescape_escape. lia.
Qed.
