(* ===== verification/Clipboard.v ===== *)
(** * Clipboard synchronisation: [core/clipboard.py]

    The manager's dictionaries are finite maps from peer ids.  The two callbacks
    are the environment: a method returns what it passes to them, if it calls
    them (their exceptions are caught and change nothing). *)
From S2P Require Import Prelude PyStr.

Definition MAX_CLIPBOARD_BYTES : Z := 524288.

Record ClipboardSyncManager := {
  c_enabled : bool;
  c_last_sent : gmap pystr pystr;
  c_last_received : gmap pystr pystr;
  c_on_send : bool;            (** a callback is registered *)
  c_on_write_local : bool;
  c_local_text : pystr
}.

Definition new_clipboard : ClipboardSyncManager :=
  {| c_enabled := false; c_last_sent := ∅; c_last_received := ∅; c_on_send := false;
     c_on_write_local := false; c_local_text := [] |}.

Definition set_enabled (enabled : bool) (m : ClipboardSyncManager) : ClipboardSyncManager :=
  {| c_enabled := enabled;
     c_last_sent := if enabled then c_last_sent m else ∅;
     c_last_received := if enabled then c_last_received m else ∅;
     c_on_send := c_on_send m; c_on_write_local := c_on_write_local m; c_local_text := c_local_text m |}.

Definition set_on_send_callback (m : ClipboardSyncManager) : ClipboardSyncManager :=
  {| c_enabled := c_enabled m; c_last_sent := c_last_sent m; c_last_received := c_last_received m;
     c_on_send := true; c_on_write_local := c_on_write_local m; c_local_text := c_local_text m |}.
Definition set_on_write_local_callback (m : ClipboardSyncManager) : ClipboardSyncManager :=
  {| c_enabled := c_enabled m; c_last_sent := c_last_sent m; c_last_received := c_last_received m;
     c_on_send := c_on_send m; c_on_write_local := true; c_local_text := c_local_text m |}.

(** The text passed to [_on_send], and the new state. *)
Definition on_local_clipboard_changed (text peer_id : pystr) (m : ClipboardSyncManager)
  : res (option pystr * ClipboardSyncManager) :=
  if negb (c_enabled m) then Ok (None, m)
  else if bool_decide (text = []) then Ok (None, m)
  else
    b ← utf8_encode text;
    if zlen b >? MAX_CLIPBOARD_BYTES then Ok (None, m)
    else if bool_decide (c_last_received m !! peer_id = Some text) then Ok (None, m)
    else if bool_decide (c_last_sent m !! peer_id = Some text) then Ok (None, m)
    else
      Ok (if c_on_send m then Some text else None,
          {| c_enabled := c_enabled m; c_last_sent := <[peer_id := text]> (c_last_sent m);
             c_last_received := c_last_received m; c_on_send := c_on_send m;
             c_on_write_local := c_on_write_local m; c_local_text := text |}).

(** The text passed to [_on_write_local], and the new state. *)
Definition on_remote_clipboard (text peer_id : pystr) (m : ClipboardSyncManager)
  : res (option pystr * ClipboardSyncManager) :=
  if negb (c_enabled m) then Ok (None, m)
  else if bool_decide (text = []) then Ok (None, m)
  else
    b ← utf8_encode text;
    if zlen b >? MAX_CLIPBOARD_BYTES then Ok (None, m)
    else if bool_decide (c_last_received m !! peer_id = Some text) then Ok (None, m)
    else
      Ok (if c_on_write_local m then Some text else None,
          {| c_enabled := c_enabled m; c_last_sent := <[peer_id := text]> (c_last_sent m);
             c_last_received := <[peer_id := text]> (c_last_received m); c_on_send := c_on_send m;
             c_on_write_local := c_on_write_local m; c_local_text := c_local_text m |}).

Definition clear_peer_state (peer_id : pystr) (m : ClipboardSyncManager) : ClipboardSyncManager :=
  {| c_enabled := c_enabled m; c_last_sent := delete peer_id (c_last_sent m);
     c_last_received := delete peer_id (c_last_received m); c_on_send := c_on_send m;
     c_on_write_local := c_on_write_local m; c_local_text := c_local_text m |}.

(** ** No ping-pong *)

(** A text within the limits. *)
Definition syncable (text : pystr) : Prop :=
  text <> [] /\ exists b, utf8_encode text = Ok b /\ zlen b <= MAX_CLIPBOARD_BYTES.

Lemma on_local_Ok text peer m out m' :
  on_local_clipboard_changed text peer m = Ok (out, m') ->
  (out = None /\ m' = m)
  \/ (c_enabled m = true /\ syncable text /\ c_last_received m !! peer <> Some text
      /\ c_last_sent m !! peer <> Some text /\ out = (if c_on_send m then Some text else None)
      /\ c_last_sent m' = <[peer := text]> (c_last_sent m) /\ c_last_received m' = c_last_received m
      /\ c_enabled m' = true).
Proof.
  unfold on_local_clipboard_changed. destruct (c_enabled m) eqn:E; cbn [negb]; [|intros [= <- <-]; auto].
  case_bool_decide as Ht; [intros [= <- <-]; auto|]. intros (b & Hb & H)%bind_Ok.
  destruct (_ >? _) eqn:Hz; [injection H as <- <-; auto|]. apply ltb_gtb_false in Hz.
  case_bool_decide; [injection H as <- <-; auto|]. case_bool_decide; injection H as <- <-; [auto|].
  right. cbn. split_and!; try done. split; eauto.
Qed.

Lemma on_remote_Ok text peer m out m' :
  on_remote_clipboard text peer m = Ok (out, m') ->
  (out = None /\ m' = m /\ (c_enabled m = false \/ ~ syncable text \/ c_last_received m !! peer = Some text))
  \/ (c_enabled m = true /\ syncable text /\ c_last_received m !! peer <> Some text
      /\ out = (if c_on_write_local m then Some text else None)
      /\ c_last_sent m' = <[peer := text]> (c_last_sent m)
      /\ c_last_received m' = <[peer := text]> (c_last_received m) /\ c_enabled m' = true).
Proof.
  unfold on_remote_clipboard. destruct (c_enabled m) eqn:E; cbn [negb]; [|intros [= <- <-]; auto].
  case_bool_decide as Ht; [intros [= <- <-]; left; split_and!; try done; right; left; by intros []|].
  intros (b & Hb & H)%bind_Ok.
  destruct (_ >? _) eqn:Hz.
  { injection H as <- <-. left. split_and!; try done. right; left. intros (_ & b' & Hb' & Hl).
    rewrite Hb in Hb'. injection Hb' as <-. rewrite Z.gtb_ltb in Hz. apply Z.ltb_lt in Hz. lia. }
  apply ltb_gtb_false in Hz. case_bool_decide; injection H as <- <-; [auto 10|].
  right. cbn. split_and!; try done. split; eauto.
Qed.

(** No clipboard text bounces: what a peer's frame just wrote locally is
    never sent back to that peer when the local clipboard reports the change,
    and nothing empty, over 512 KiB or unchanged since the last exchange is ever
    sent. *)
Theorem clipboard_no_echo text peer m out m' :
  on_remote_clipboard text peer m = Ok (out, m') ->
  (exists b, utf8_encode text = Ok b) ->
  on_local_clipboard_changed text peer m' = Ok (None, m')
  /\ (forall text2 peer2 sent m2, on_local_clipboard_changed text2 peer2 m' = Ok (Some sent, m2) ->
      sent = text2 /\ syncable sent /\ c_last_received m' !! peer2 <> Some sent
      /\ c_last_sent m' !! peer2 <> Some sent /\ c_last_sent m2 !! peer2 = Some sent).
Proof.
  intros H [b Hb]. split.
  - apply on_remote_Ok in H. unfold on_local_clipboard_changed.
    destruct (c_enabled m') eqn:E; cbn [negb]; [|done]. case_bool_decide as Ht; [done|]. rewrite Hb. cbn [mbind res_bind].
    destruct (_ >? _) eqn:Hz; [done|]. apply ltb_gtb_false in Hz.
    assert (c_last_received m' !! peer = Some text) as Hl; [|by rewrite bool_decide_eq_true_2].
    destruct H as [(_ & -> & [?|[Hs|?]])|(_ & _ & _ & _ & _ & -> & _)];
      [congruence| |done|by rewrite lookup_insert_eq].
    exfalso. apply Hs. split; eauto.
  - intros text2 peer2 sent m2 H2. apply on_local_Ok in H2 as [[? _]|(_ & Hs & Hr & Hl & Ho & Hm & _)]; [done|].
    destruct (c_on_send m'); [|done]. injection Ho as ->. split_and!; try done. by rewrite Hm, lookup_insert_eq.
Qed.

(** The duplicate guard outlives the clipboard content it stands for: after
    a peer's text was applied and the user copied (and sent) something else, the
    peer's sending the first text again is dropped as "already applied", although
    the local clipboard holds another text. *)
Theorem clipboard_stale_duplicate :
  let a := u "from peer" in let x := u "typed here" in let p := u "peer" in
  let m0 := set_enabled true (set_on_write_local_callback (set_on_send_callback new_clipboard)) in
  exists m1 m2 m3,
    on_remote_clipboard a p m0 = Ok (Some a, m1)
    /\ on_local_clipboard_changed x p m1 = Ok (Some x, m2)
    /\ on_remote_clipboard a p m2 = Ok (None, m3) /\ c_local_text m3 = x.
Proof. do 3 eexists. repeat split; vm_compute; done. Qed.
