(* ===== verification/Config.v ===== *)
(** * Settings and directories: [core/config.py]

    The directories of the program, and the settings file with its defaults.  A
    field of the settings holds whatever JSON value the file gives: the
    dataclass does not check types. *)
From S2P Require Import Prelude PyStr Json Protocol Wire Transfer Fs.

(** ** Directories *)

(** What [ConfigManager.__init__] reads of its environment; the variables as
    paths, when they are set. *)
Record Environ := {
  x_home : path; x_hostname : pystr; x_run_user : path;
  x_config_home : option path; x_data_home : option path; x_runtime_dir : option path
}.

Record ConfigManager := {
  cm_config_dir : path; cm_data_dir : path; cm_runtime_dir : path;
  cm_config_file : path; cm_db_file : path; cm_ipc_socket_file : path
}.

Definition FERRY : pystr := u "ferry".
Definition SOCK : pystr := u "ferry.sock".
Definition manager_at (config_dir data_dir runtime_dir : path) : ConfigManager :=
  {| cm_config_dir := config_dir; cm_data_dir := data_dir; cm_runtime_dir := runtime_dir;
     cm_config_file := config_dir ++ [u "config.json"]; cm_db_file := data_dir ++ [u "ferry.db"];
     cm_ipc_socket_file := runtime_dir ++ [SOCK] |}.
Definition config_paths (env : Environ) (base_dir : option path) : ConfigManager :=
  match base_dir with
  | Some base => manager_at (base ++ [u "config"]) (base ++ [u "data"]) (base ++ [u "runtime"])
  | None =>
      manager_at (default (x_home env ++ [u ".config"]) (x_config_home env) ++ [FERRY])
                 (default (x_home env ++ [u ".local"; u "share"]) (x_data_home env) ++ [FERRY])
                 (default (x_run_user env) (x_runtime_dir env) ++ [FERRY])
  end.

Definition ensure_directories (m : ConfigManager) : M world ConfigManager :=
  mkdirs (cm_config_dir m);;
  mkdirs (cm_data_dir m);;
  try_except (mkdirs (cm_runtime_dir m);; mret m) is_OSError (fun _ =>
    let m := manager_at (cm_config_dir m) (cm_data_dir m) (cm_data_dir m ++ [u "runtime"]) in
    mkdirs (cm_runtime_dir m);; mret m).
(** [ConfigManager(base_dir)] *)
Definition new_config_manager (env : Environ) (base_dir : option path) : M world ConfigManager :=
  ensure_directories (config_paths env base_dir).

(** ** Settings *)

Record FerryConfig := {
  c_device_name : json; c_device_id : json; c_listen_port : json; c_download_dir : json;
  c_auto_accept_paired : json; c_max_chunk_size : json
}.
(** [asdict(config)] *)
Definition config_to_dict (c : FerryConfig) : jdict :=
  mkdict [("device_name", c_device_name c); ("device_id", c_device_id c); ("listen_port", c_listen_port c);
          ("download_dir", c_download_dir c); ("auto_accept_paired", c_auto_accept_paired c);
          ("max_chunk_size", c_max_chunk_size c)]%string.
Definition set_device_id (id : json) (c : FerryConfig) : FerryConfig :=
  {| c_device_name := c_device_name c; c_device_id := id; c_listen_port := c_listen_port c;
     c_download_dir := c_download_dir c; c_auto_accept_paired := c_auto_accept_paired c;
     c_max_chunk_size := c_max_chunk_size c |}.

(** The state: how many uuids were drawn, and the file system. *)
Definition cst : Type := nat * world.
Definition on_world {A} (m : M world A) : M cst A := fun s => let '(r, w) := m s.2 in (r, (s.1, w)).

(** [with open(p, "w") as f: body]: the file is closed in any case. *)
Definition with_write (p : path) (body : path -> M world unit) : M world unit :=
  h ← open_write false p;
  try_except (body h) (fun _ => true) (fun e => fh_close h;; raise e);;
  fh_close h.

Section config.
Context `{HR : PyRepr} (env : Environ) (uuid4 : nat -> pystr).

Definition draw_uuid : M cst pystr := fun s => (Ok (uuid4 s.1), (S s.1, s.2)).

(** [cls( **{k: v for k, v in data.items() if k in valid_keys})]: a field that is
    missing gets its default. *)
Definition config_from_dict (data : json) : M cst FerryConfig :=
  d ← lift (as_dict data);
  id ← match dget d "device_id" with Some v => mret v | None => x ← draw_uuid; mret (JStr x) end;
  mret {| c_device_name := dget_or d "device_name" (JStr (x_hostname env ++ u " (Raven)"));
          c_device_id := id;
          c_listen_port := dget_or d "listen_port" (JInt 53770);
          c_download_dir := dget_or d "download_dir" (JStr (path_str (x_home env ++ [u "Downloads"; u "Ferry"])));
          c_auto_accept_paired := dget_or d "auto_accept_paired" (JBool false);
          c_max_chunk_size := dget_or d "max_chunk_size" (JInt 65536) |}.
(** [FerryConfig()] *)
Definition new_config : M cst FerryConfig := config_from_dict (JObj []).

Context (m : ConfigManager).

Definition save_config (c : FerryConfig) : M cst unit :=
  on_world (mkdirs (cm_config_dir m));;
  on_world (with_write (cm_config_file m) (fun f =>
    data ← lift (text ← json_dumps_indent 2 (JObj (config_to_dict c)); utf8_encode text);
    fh_write f data)).

(** [json.load(f)] of a text file (the translation of line ends changes nothing:
    outside strings both are white space, inside both are errors). *)
Definition parse_config (content : bytes) : res json := text ← utf8_decode content; json_loads text.

(** What is made of the content of the file. *)
Definition use_config (content : bytes) : M cst FerryConfig :=
  data ← lift (parse_config content);
  c ← config_from_dict data;
  if negb (py_bool (c_device_id c)) then
    id ← draw_uuid;
    let c := set_device_id (JStr id) c in
    save_config c;; mret c
  else mret c.
(** The defaults, saved. *)
Definition reset_config : M cst FerryConfig := c ← new_config; save_config c;; mret c.

Definition load_config : M cst FerryConfig :=
  b ← on_world (exists_ (cm_config_file m));
  if negb b then reset_config
  else try_except (content ← on_world (read_file (cm_config_file m)); use_config content) (fun _ => true) (fun _ => reset_config).
End config.

(** ** What is written is read back *)

(** Every field is a scalar that [json] keeps: no float, no lone surrogate. *)
Definition plain (c : FerryConfig) : Prop :=
  json_ok (JObj (config_to_dict c)) = true /\ forallb (fun kv => is_flat kv.2) (config_to_dict c) = true.

Lemma ascii_line step n : ascii (line step n).
Proof. unfold line. constructor; [lia|]. apply Forall_forall. intros x Hx. apply list_elem_of_In, repeat_spec in Hx as ->. lia. Qed.
Lemma ascii_join sep l : ascii sep -> Forall ascii l -> ascii (join sep l).
Proof.
  intros Hs. induction 1 as [|x l Hx Hl IH]; [constructor|]. destruct l; [done|]. rewrite join_cons by done. by repeat apply ascii_app.
Qed.

(** The text of a plain configuration is ASCII, so it can be encoded. *)
Lemma flat_text `{PyRepr} step d :
  json_ok (JObj d) = true -> forallb (fun kv => is_flat kv.2) d = true -> ascii (render_indent step 0 (JObj d)).
Proof.
  cbn [json_ok]. intros [_ Hok]%andb_true_iff Hfl. destruct d as [|kv0 d0] eqn:Ed; [by repeat constructor|].
  cbn [render_indent]. rewrite <-Ed in *. constructor; [lia|]. apply ascii_app; [apply ascii_line|].
  apply ascii_app; [|apply ascii_app; [apply ascii_line|repeat constructor; lia]].
  apply ascii_join; [constructor; [lia|apply ascii_line]|]. apply Forall_forall. intros x (kv & <- & Hkv)%list_elem_of_In%in_map_iff.
  rewrite forallb_forall in Hok, Hfl. pose proof (Hok kv Hkv) as [Hk Hv]%andb_true_iff. specialize (Hfl kv Hkv).
  apply ascii_app; [by apply render_str_text|]. apply ascii_app; [by apply ascii_u|].
  assert (ascii (u ": ") /\ zlen (u ": ") <= 2) as Hks by (split; [by apply ascii_u|done]).
  destruct (render_text (u ": ") (u ": ") Hks Hks kv.2 Hv) as [Ha _]. destruct kv.2 as [| | | | |[]|[]]; try done; by apply ascii_u.
Qed.
Lemma plain_text `{PyRepr} c :
  plain c -> exists text data, json_dumps_indent 2 (JObj (config_to_dict c)) = Ok text /\ utf8_encode text = Ok data
    /\ parse_config data = Ok (JObj (config_to_dict c)).
Proof.
  intros [Hok Hfl]. pose proof (flat_text 2 _ Hok Hfl) as Ha. destruct (utf8_ascii _ Ha) as (data & Hd & _).
  assert (json_dumps_indent 2 (JObj (config_to_dict c)) = Ok (render_indent 2 0 (JObj (config_to_dict c)))) as E
    by (unfold json_dumps_indent; by rewrite (json_ok_printable [] [])).
  eexists _, data. split; [exact E|]. split; [done|]. unfold parse_config. rewrite (utf8_decode_encode _ _ Hd). cbn [mbind res_bind].
  by apply (json_loads_dumps_flat 2).
Qed.

(** [from_dict] undoes [to_dict]. *)
Lemma config_from_to_dict env uuid4 c s : config_from_dict env uuid4 (JObj (config_to_dict c)) s = (Ok c, s).
Proof. by destruct c. Qed.

Section settle.
Context `{HR : PyRepr} (env : Environ) (uuid4 : nat -> pystr) (config_dir data_dir runtime_dir : path).
Notation m := (manager_at config_dir data_dir runtime_dir).
Notation file := (cm_config_file m).
(** The machine has a name and a home that JSON can hold, and uuids are texts. *)
Hypothesis host_ok : forallb is_scalar (x_hostname env) = true /\ forallb is_scalar (path_str (x_home env)) = true.
Hypothesis uuid_ok : forall n, forallb is_scalar (uuid4 n) = true /\ uuid4 n <> [].

(** The directory can be written to and no directory is in the place of the file. *)
Record usable (w : world) : Prop := {
  us_calm : calm w;
  us_dir : fs_get (w_fs w) config_dir = Some NDir;
  us_above : forall q c, q `prefix_of` config_dir -> w_fs w !! q <> Some (NFile c);
  us_file : fs_get (w_fs w) file <> Some NDir
}.

Lemma file_not_above q : q `prefix_of` config_dir -> q <> file.
Proof. intros (k & Hk) ->. cbn [cm_config_file manager_at] in Hk. apply (f_equal length) in Hk. rewrite !length_app in Hk. cbn [length] in Hk. lia. Qed.
Lemma file_ne : file <> [].
Proof. by destruct config_dir. Qed.

(** The file holds the data, or nothing if there is none to write. *)
Lemma wp_with_write (data : res bytes) w :
  usable w ->
  wp (with_write file (fun f => data ← lift data; fh_write f data)) (fun r w' =>
    r = (data ≫= fun _ => Ok tt) /\ calm w'
    /\ w_fs w' = <[file := NFile (match data with Ok b => b | Err _ => [] end)]> (w_fs w)) w.
Proof.
  intros [Hc Hd Ha Hf]. unfold with_write. wp_step. eapply wp_mono; [apply wp_open_write|].
  intros [h|e] w1 [Hc1 H1].
  2: { destruct H1 as (_ & _ & _ & H1). destruct (H1 Hc) as [?|[_ H2]]; [done|]. cbn [cm_config_file manager_at] in H2. by rewrite parent_snoc in H2. }
  destruct H1 as (-> & _ & c & Hw1 & Ho & ->). destruct data as [data|e]; wp_step; wp_step; wp_step; wp_step.
  - eapply wp_mono; [by apply wp_fh_write|].
    intros r w2 ((c2 & b2 & Ho2 & Hcb & Hw2 & _) & Hr & _). destruct (Hr (Hc1 Hc)) as [Hc2 ->]. cbn beta iota.
    eapply wp_mono; [by apply wp_fh_close|]. intros r w3 ((c3 & Hw3 & _ & Hc3) & _ & Hr3 & _). destruct (Hr3 Hc2) as [? ->].
    split; [done|]. split; [done|]. by rewrite Hw3, Hw2, Hw1, (Hc3 eq_refl), Hcb, !insert_insert_eq.
  - wp_step. eapply wp_mono; [by apply wp_fh_close|]. intros r w3 ((c3 & Hw3 & _ & Hc3) & _ & Hr3 & _).
    destruct (Hr3 (Hc1 Hc)) as [? ->]. wp_step. split; [done|]. split; [done|].
    by rewrite Hw3, Hw1, (Hc3 eq_refl), !insert_insert_eq.
Qed.

Lemma usable_insert data w w' :
  usable w -> calm w' -> w_fs w' = <[file := NFile data]> (w_fs w) -> usable w'.
Proof.
  intros [Hc Hd Ha Hf] Hc' E. split; rewrite ?E; [done|..].
  - rewrite fs_get_insert_ne; [done|]. symmetry. by apply file_not_above.
  - intros q c Hq. rewrite lookup_insert_ne; [by apply Ha|]. symmetry. by apply file_not_above.
  - rewrite fs_get_ne, lookup_insert_eq by apply file_ne. done.
Qed.
Lemma usable_fs w w' : usable w -> calm w' -> w_fs w' = w_fs w -> usable w'.
Proof. intros [] ? E. split; rewrite ?E; done. Qed.
Lemma wp_save_config c n w :
  usable w ->
  wp (save_config m c) (fun r s' => s'.1 = n /\ usable s'.2
    /\ (plain c -> r = Ok tt /\ exists data, w_fs s'.2 !! file = Some (NFile data)
                    /\ parse_config data = Ok (JObj (config_to_dict c)))) (n, w).
Proof.
  intros Hu. unfold save_config. wp_step. unfold on_world at 1, wp at 1. cbn [fst snd].
  destruct (wp_run _ _ _ (wp_mkdirs config_dir w)) as (r & w1 & E & Hs & Hadd & Hr).
  cbn [cm_config_dir manager_at]. rewrite E. cbn [fst snd].
  destruct r as [[]|e]; [|destruct Hr as [_ Hr]; destruct (Hr (us_calm _ Hu)) as (q & c0 & Hq & Hqc); by destruct (us_above _ Hu q c0)].
  assert (usable w1) as Hu1.
  { destruct Hu as [Hc Hd Ha Hf]. split; [by apply Hs|by eapply dirs_added_dir| |].
    - intros q c0 Hq Hqc. by apply (Ha q c0 Hq), (dirs_added_file _ _ _ _ _ Hadd).
    - rewrite fs_get_ne in Hf |- * by apply file_ne. intros Hfd. destruct (Hadd file) as [E0|(_ & _ & Hpre)]; [congruence|].
      by apply (file_not_above file Hpre). }
  unfold on_world, wp. cbn [fst snd cm_config_file manager_at]. match goal with |- context [lift ?d ≫= _] => set (text := d) end.
  destruct (wp_run _ _ _ (wp_with_write text w1 Hu1)) as (r & w2 & Ew & -> & Hc2 & Hw2). cbn [cm_config_file manager_at] in Ew.
  rewrite Ew. cbn [fst snd]. split; [done|]. split; [by eapply usable_insert|]. intros Hp.
  destruct (plain_text c Hp) as (s & data & E1 & E2 & E3).
  assert (text = Ok data) as E0 by (unfold text; by rewrite E1). rewrite E0 in *.
  split; [done|]. exists data. by rewrite Hw2, lookup_insert_eq.
Qed.

(** What the file says of the device id, if it is a dict at all. *)
Definition names_device (content : bytes) : Prop :=
  forall d, parse_config content = Ok (JObj d) -> has_key d "device_id" = true.
(** A configuration that the next start finds again. *)
Definition settled (c : FerryConfig) (w : world) : Prop :=
  usable w /\ (plain c -> py_bool (c_device_id c) = true /\ exists data d, w_fs w !! file = Some (NFile data)
    /\ parse_config data = Ok (JObj d) /\ forall s, config_from_dict env uuid4 (JObj d) s = (Ok c, s)).

Definition default_config (n : nat) : FerryConfig :=
  {| c_device_name := JStr (x_hostname env ++ u " (Raven)"); c_device_id := JStr (uuid4 n); c_listen_port := JInt 53770;
     c_download_dir := JStr (path_str (x_home env ++ [u "Downloads"; u "Ferry"])); c_auto_accept_paired := JBool false;
     c_max_chunk_size := JInt 65536 |}.
Lemma path_str_app p q : q <> [] -> p <> [] -> path_str (p ++ q) = path_str p ++ SLASH :: join [SLASH] q.
Proof.
  intros Hq Hp. unfold path_str. cbn [app]. f_equal. induction p as [|x [|y p] IH]; [done| |].
  - by destruct q.
  - change (join [SLASH] (x :: (y :: p))) with (x ++ [SLASH] ++ join [SLASH] (y :: p)).
    change ((x :: y :: p) ++ q) with (x :: (y :: p) ++ q). rewrite <-app_assoc, <-app_assoc. rewrite <-IH by done. done.
Qed.
Lemma default_plain n : plain (default_config n).
Proof.
  destruct host_ok as [Hh Hp], (uuid_ok n) as [Hn _]. split; [|done]. cbn [json_ok]. apply andb_true_iff. split; [by vm_compute|].
  unfold default_config, config_to_dict, mkdict. cbn [map fst snd forallb json_ok c_device_name c_device_id c_listen_port
    c_download_dir c_auto_accept_paired c_max_chunk_size]. rewrite forallb_app, Hh, Hn.
  assert (forallb is_scalar (path_str (x_home env ++ [u "Downloads"; u "Ferry"])) = true) as ->; [|by vm_compute].
  destruct (x_home env) as [|x p] eqn:E; [by vm_compute|]. rewrite path_str_app, forallb_app, Hp by done. by vm_compute.
Qed.

Lemma wp_reset n w :
  usable w -> wp (reset_config env uuid4 m) (fun r s' => exists c, r = Ok c /\ settled c s'.2) (n, w).
Proof.
  intros Hu. unfold reset_config. wp_step. change (new_config env uuid4) with (fun s : cst => (Ok (default_config s.1), (S s.1, s.2)) : res FerryConfig * cst).
  unfold wp at 1. cbn [fst snd]. wp_step. eapply wp_mono; [by apply wp_save_config|]. intros r [n' w'] (_ & Hu' & Hp).
  destruct (Hp (default_plain n)) as (-> & data & Hf & Hd). wp_step. eexists. split; [done|]. split; [done|]. intros _.
  split.
  - destruct (uuid_ok n) as [_ Hne]. cbn. by rewrite bool_decide_eq_false_2.
  - exists data. eexists. split; [done|]. split; [done|]. intros s. apply config_from_to_dict.
Qed.

Lemma wp_use_config content n w :
  usable w -> w_fs w !! file = Some (NFile content) -> names_device content ->
  wp (use_config env uuid4 m content) (fun r s' => match r with Ok c => settled c s'.2 | Err _ => usable s'.2 end) (n, w).
Proof.
  intros Hu Hf Hid. unfold use_config. wp_step. wp_step. destruct (parse_config content) as [data|] eqn:Ep; [|done].
  wp_step. unfold config_from_dict at 1. wp_step. wp_step. destruct data as [| | | | | |d]; cbn [as_dict]; try done.
  pose proof (Hid _ Ep) as Hk. unfold has_key in Hk. apply bool_decide_eq_true in Hk as [v Hk]. rewrite Hk.
  repeat wp_step. cbn [c_device_id]. destruct (py_bool v) eqn:Ev; cbn [negb].
  - wp_step. split; [done|]. intros _. split; [done|]. exists content, d.
    split; [done|]. split; [done|]. intros s. unfold config_from_dict. cbn [as_dict]. unfold mbind, M_bind, lift. by rewrite Hk.
  - wp_step. unfold draw_uuid, wp at 1. cbn [fst snd]. wp_step. eapply wp_mono; [by apply wp_save_config|].
    intros [[]|e] [n' w'] (_ & Hu' & Hp); [|done]. wp_step. split; [done|].
    intros Hpl. destruct (Hp Hpl) as (_ & data & Hf' & Hd'). split.
    + destruct (uuid_ok n) as [_ Hne]. cbn. by rewrite bool_decide_eq_false_2.
    + exists data. eexists. split; [done|]. split; [done|]. intros s. apply config_from_to_dict.
Qed.

(** With a file in place, [load_config] goes by its content. *)
Lemma wp_load_existing content n w Q :
  usable w -> w_fs w !! file = Some (NFile content) ->
  (forall w', usable w' -> w_fs w' = w_fs w ->
    wp (try_except (use_config env uuid4 m content) (fun _ => true) (fun _ => reset_config env uuid4 m)) Q (n, w')) ->
  wp (load_config env uuid4 m) Q (n, w).
Proof.
  intros Hu Hf HQ. unfold load_config. wp_step. unfold on_world at 1, wp at 1. cbn [fst snd].
  assert (fs_get (w_fs w) file = Some (NFile content)) as Hg by (by rewrite fs_get_ne by apply file_ne).
  destruct (wp_run _ _ _ (wp_exists file (fun r w' => r = Ok true /\ same w w' /\ w_fs w' = w_fs w) w
    ltac:(by rewrite Hg) ltac:(by intros ? ? ? []%(fun H => H (us_calm _ Hu))))) as (r & w1 & -> & -> & Hs & Hw1).
  cbn [fst snd negb].
  assert (wp (read_file file) (fun r w' => r = Ok content /\ same w1 w' /\ w_fs w' = w_fs w1) w1) as Hread.
  { apply wp_syscall; rewrite Hw1, Hg.
    - intros e w2 Hs2 Hf2 [?|[Hc _]]; [done|]. by destruct Hc; apply Hs, Hu.
    - by intros a w2 Hs2 [= <- ->]. }
  destruct (wp_run _ _ _ Hread) as (r & w2 & Er & -> & Hs2 & Hw2).
  assert (usable w2) as Hu2 by (eapply usable_fs; [done|by apply Hs2, Hs, Hu|congruence]).
  specialize (HQ w2 Hu2 ltac:(congruence)). clear Hread.
  assert ((content ← on_world (read_file file); use_config env uuid4 m content) (n, w1) = use_config env uuid4 m content (n, w2)) as E
    by (unfold mbind, M_bind, on_world; cbn [fst snd]; by rewrite Er).
  unfold wp, try_except in *. by rewrite E.
Qed.

Lemma wp_load_config n w :
  usable w -> (forall content, w_fs w !! file = Some (NFile content) -> names_device content) ->
  wp (load_config env uuid4 m) (fun r s' => exists c, r = Ok c /\ settled c s'.2) (n, w).
Proof.
  intros Hu Hid. destruct (w_fs w !! file) as [[|content]|] eqn:Ef.
  - destruct Hu as [_ _ _ Hd]. by rewrite fs_get_ne in Hd by apply file_ne.
  - eapply wp_load_existing; [done..|]. intros w' Hu' Hw'. wp_step.
    eapply wp_mono; [by apply wp_use_config; [|rewrite Hw'|apply Hid]|]. intros [c|e] [n' w''] H; [by exists c|]. by apply wp_reset.
  - unfold load_config. wp_step. unfold on_world at 1, wp at 1. cbn [fst snd].
    destruct (wp_run _ _ _ (wp_exists file (fun r w' => r = Ok false /\ same w w' /\ w_fs w' = w_fs w) w
      ltac:(rewrite fs_get_ne, Ef by apply file_ne; by rewrite bool_decide_eq_false_2 by (by intros []))
      ltac:(by intros ? ? ? []%(fun H => H (us_calm _ Hu))))) as (r & w1 & -> & -> & Hs & Hw1).
    cbn [fst snd negb]. apply wp_reset. eapply usable_fs; [done|by apply Hs, Hu|done].
Qed.

(** C32. The settings persist: with a usable directory and a file that, if it is a
    dict, names a device, [load_config] returns a configuration, whatever else
    the file holds or if there is none; and unless a field is a container or a
    float, it has a device id, and the next start loads the same configuration
    and changes nothing. *)
Theorem config_settles n w :
  usable w -> (forall content, w_fs w !! file = Some (NFile content) -> names_device content) ->
  exists c n1 w1, load_config env uuid4 m (n, w) = (Ok c, (n1, w1)) /\ usable w1
  /\ (plain c -> py_bool (c_device_id c) = true
      /\ exists w2, load_config env uuid4 m (n1, w1) = (Ok c, (n1, w2)) /\ w_fs w2 = w_fs w1).
Proof.
  intros Hu Hid. destruct (wp_run _ _ _ (wp_load_config n w Hu Hid)) as (r & [n1 w1] & E & c & -> & Hu1 & Hp).
  exists c, n1, w1. split; [done|]. split; [done|]. intros Hpl. destruct (Hp Hpl) as (Hid1 & data & d & Hf & Hd & Hc).
  split; [done|]. cbn [snd] in *.
  assert (wp (load_config env uuid4 m) (fun r s' => r = Ok c /\ s'.1 = n1 /\ w_fs s'.2 = w_fs w1) (n1, w1)) as Hw.
  { eapply wp_load_existing; [done..|]. intros w2 Hu2 Hw2. wp_step. unfold use_config. wp_step. wp_step. rewrite Hd.
    wp_step. unfold wp at 1. rewrite Hc. cbn [fst snd]. rewrite Hid1. cbn [negb]. by wp_step. }
  destruct (wp_run _ _ _ Hw) as (r & [n2 w2] & E2 & -> & [= ->] & Hw2). by exists w2.
Qed.
(** A file without the key [device_id] is not written again: every start draws
    an id of its own. *)
Lemma missing_device_id_changes n w content d :
  usable w -> w_fs w !! file = Some (NFile content) -> parse_config content = Ok (JObj d) -> has_key d "device_id" = false ->
  wp (load_config env uuid4 m) (fun r s' => w_fs s'.2 = w_fs w /\ s'.1 = S n
    /\ exists c, r = Ok c /\ c_device_id c = JStr (uuid4 n)) (n, w).
Proof.
  intros Hu Hf Hd Hk. eapply wp_load_existing; [done..|]. intros w' _ Hw'. wp_step. unfold use_config. wp_step. wp_step. rewrite Hd.
  wp_step. unfold config_from_dict at 1. wp_step. wp_step. cbn [as_dict]. unfold has_key in Hk.
  apply bool_decide_eq_false in Hk. destruct (dget d "device_id"); [by destruct Hk|]. wp_step. wp_step.
  unfold draw_uuid, wp at 1. cbn [fst snd]. wp_step. wp_step. cbn [c_device_id py_bool].
  destruct (uuid_ok n) as [_ Hne]. rewrite bool_decide_eq_false_2 by done. cbn [negb]. wp_step. by eauto.
Qed.
End settle.
