(* ===== verification/Db.v ===== *)
(** * Persistence: [core/db.py]

    The SQLite tables as lists of rows in insertion (rowid) order, and every
    query of [DatabaseManager] as a function on them.  A parameter that SQLite
    cannot store (an integer beyond 64 bits, a string with a lone surrogate)
    raises while it is bound, before the statement runs. *)
From S2P Require Import Prelude PyStr.
From Stdlib Require Import Permutation Sorted.

Record TrustedDevice := {
  d_device_id : pystr; d_device_name : pystr; d_public_key : pystr;
  d_identity_public_key_b64 : pystr; d_paired_at : Z; d_last_seen : Z }.

Record TransferRecord := {
  t_transfer_id : pystr; t_device_id : pystr; t_file_name : pystr; t_file_size : Z;
  t_direction : pystr; t_status : pystr; t_started_at : Z; t_completed_at : option Z; t_sha256 : pystr }.

Record InterruptedTransferInfo := {
  r_transfer_id : pystr; r_bytes_received : Z; r_resume_chunk_index : Z; r_partial_sha256 : pystr;
  r_sender_identity : pystr; r_original_metadata_json : pystr; r_interrupted_at : Z; r_expire_at : Z }.

Definition RESUME_TTL_MS : Z := 7 * 24 * 60 * 60 * 1000.
Definition make_expire_at (interrupted_at_ms : Z) : Z := interrupted_at_ms + RESUME_TTL_MS.

(** A row of [transfer_history]: the record and the nullable resume columns. *)
Record HistoryRow := {
  h_record : TransferRecord;
  h_interrupted_at : option Z; h_bytes_received : option Z; h_resume_chunk_index : option Z;
  h_partial_sha256 : option pystr; h_sender_identity : option pystr;
  h_original_metadata_json : option pystr; h_expire_at : option Z }.

Record db := { db_devices : list TrustedDevice; db_history : list HistoryRow }.

Definition INTERRUPTED_ : pystr := u "INTERRUPTED".
Definition FAILED_ : pystr := u "FAILED".
Definition h_id (r : HistoryRow) : pystr := t_transfer_id (h_record r).
Definition h_status (r : HistoryRow) : pystr := t_status (h_record r).
Definition is_interrupted (r : HistoryRow) : bool := bool_decide (h_status r = INTERRUPTED_).

(** ** Binding parameters *)

Inductive param := PInt (z : Z) | PText (s : pystr) | PNull.
Definition bind_param (p : param) : res unit :=
  match p with
  | PInt z => raise_if (negb ((- 2 ^ 63 <=? z) && (z <? 2 ^ 63))) OverflowError
  | PText s => _ ← utf8_encode s; Ok tt
  | PNull => Ok tt
  end.
Fixpoint bind_params (l : list param) : res unit :=
  match l with [] => Ok tt | p :: l' => bind_param p;; bind_params l' end.
Definition opt_int (z : option Z) : param := match z with Some z => PInt z | None => PNull end.

(** ** Ordering *)

(** [ORDER BY key DESC] (SQLite leaves the order of equal keys open; here they
    keep the order of their rows). *)
Section order.
Context {A : Type} (key : A -> Z).
Fixpoint insert_desc (x : A) (l : list A) : list A :=
  match l with
  | [] => [x]
  | y :: l' => if key y <=? key x then x :: l else y :: insert_desc x l'
  end.
Fixpoint sort_desc (l : list A) : list A :=
  match l with [] => [] | x :: l' => insert_desc x (sort_desc l') end.
End order.

(** ** Devices *)

Definition find_row {A} (p : A -> bool) (l : list A) : option A := hd_error (List.filter p l).

Definition device_is (device_id : pystr) (d : TrustedDevice) : bool := bool_decide (d_device_id d = device_id).
Definition key_is (k : pystr) (d : TrustedDevice) : bool := bool_decide (d_identity_public_key_b64 d = k).

(** [ON CONFLICT(device_id) DO UPDATE]: everything but [paired_at]. *)
Definition update_device (new old : TrustedDevice) : TrustedDevice :=
  {| d_device_id := d_device_id old; d_device_name := d_device_name new; d_public_key := d_public_key new;
     d_identity_public_key_b64 := d_identity_public_key_b64 new; d_paired_at := d_paired_at old;
     d_last_seen := d_last_seen new |}.

Definition add_or_update_device (device : TrustedDevice) (s : db) : res db :=
  bind_params [PText (d_device_id device); PText (d_device_name device); PText (d_public_key device);
               PText (d_identity_public_key_b64 device); PInt (d_paired_at device); PInt (d_last_seen device)];;
  Ok {| db_devices :=
          if existsb (device_is (d_device_id device)) (db_devices s)
          then map (fun d => if device_is (d_device_id device) d then update_device device d else d) (db_devices s)
          else db_devices s ++ [device];
        db_history := db_history s |}.

Definition get_device (device_id : pystr) (s : db) : res (option TrustedDevice) :=
  bind_param (PText device_id);; Ok (find_row (device_is device_id) (db_devices s)).

Definition get_device_by_public_key (k : pystr) (s : db) : res (option TrustedDevice) :=
  bind_param (PText k);; Ok (find_row (key_is k) (db_devices s)).

Definition list_devices (s : db) : list TrustedDevice := sort_desc d_last_seen (db_devices s).

Definition remove_device (device_id : pystr) (s : db) : res db :=
  bind_param (PText device_id);;
  Ok {| db_devices := List.filter (fun d => negb (device_is device_id d)) (db_devices s); db_history := db_history s |}.

Definition remove_device_by_public_key (k : pystr) (s : db) : res db :=
  bind_param (PText k);;
  Ok {| db_devices := List.filter (fun d => negb (key_is k d)) (db_devices s); db_history := db_history s |}.

(** ** Transfers *)

Definition set_record (r : TransferRecord) (h : HistoryRow) : HistoryRow :=
  {| h_record := r; h_interrupted_at := h_interrupted_at h; h_bytes_received := h_bytes_received h;
     h_resume_chunk_index := h_resume_chunk_index h; h_partial_sha256 := h_partial_sha256 h;
     h_sender_identity := h_sender_identity h; h_original_metadata_json := h_original_metadata_json h;
     h_expire_at := h_expire_at h |}.
Definition with_status (status : pystr) (completed_at : option Z) (r : TransferRecord) : TransferRecord :=
  {| t_transfer_id := t_transfer_id r; t_device_id := t_device_id r; t_file_name := t_file_name r;
     t_file_size := t_file_size r; t_direction := t_direction r; t_status := status;
     t_started_at := t_started_at r; t_completed_at := completed_at; t_sha256 := t_sha256 r |}.

Definition history_is (transfer_id : pystr) (h : HistoryRow) : bool := bool_decide (h_id h = transfer_id).

Definition new_row (r : TransferRecord) : HistoryRow :=
  {| h_record := r; h_interrupted_at := None; h_bytes_received := None; h_resume_chunk_index := None;
     h_partial_sha256 := None; h_sender_identity := None; h_original_metadata_json := None; h_expire_at := None |}.

Definition with_history (l : list HistoryRow) (s : db) : db := {| db_devices := db_devices s; db_history := l |}.

Definition add_transfer (r : TransferRecord) (s : db) : res db :=
  bind_params [PText (t_transfer_id r); PText (t_device_id r); PText (t_file_name r); PInt (t_file_size r);
               PText (t_direction r); PText (t_status r); PInt (t_started_at r); opt_int (t_completed_at r);
               PText (t_sha256 r)];;
  Ok (with_history
        (if existsb (history_is (t_transfer_id r)) (db_history s)
         then map (fun h => if history_is (t_transfer_id r) h
                            then set_record (with_status (t_status r) (t_completed_at r) (h_record h)) h else h)
                  (db_history s)
         else db_history s ++ [new_row r]) s).

(** [LIMIT n]: a negative limit is no limit. *)
Definition limit {A} (n : Z) (l : list A) : list A := if n <? 0 then l else take (Z.to_nat n) l.
Definition list_transfers (n : Z) (s : db) : list TransferRecord :=
  map h_record (limit n (sort_desc (fun h => t_started_at (h_record h)) (db_history s))).

(** ** Interrupted transfers *)

Definition interrupted_row (info : InterruptedTransferInfo) (r : TransferRecord) : HistoryRow :=
  {| h_record := r; h_interrupted_at := Some (r_interrupted_at info);
     h_bytes_received := Some (r_bytes_received info); h_resume_chunk_index := Some (r_resume_chunk_index info);
     h_partial_sha256 := Some (r_partial_sha256 info); h_sender_identity := Some (r_sender_identity info);
     h_original_metadata_json := Some (r_original_metadata_json info); h_expire_at := Some (r_expire_at info) |}.

Definition minimal_record (id : pystr) (now : Z) : TransferRecord :=
  {| t_transfer_id := id; t_device_id := []; t_file_name := []; t_file_size := 0; t_direction := u "INCOMING";
     t_status := INTERRUPTED_; t_started_at := now; t_completed_at := None; t_sha256 := [] |}.

Definition info_params (info : InterruptedTransferInfo) : list param :=
  [PInt (r_interrupted_at info); PInt (r_bytes_received info); PInt (r_resume_chunk_index info);
   PText (r_partial_sha256 info); PText (r_sender_identity info); PText (r_original_metadata_json info);
   PInt (r_expire_at info)].

Definition save_interrupted_transfer (now : Z) (info : InterruptedTransferInfo) (s : db) : res db :=
  bind_param (PText (r_transfer_id info));;
  if existsb (history_is (r_transfer_id info)) (db_history s) then
    bind_params (info_params info);;
    Ok (with_history
          (map (fun h => if history_is (r_transfer_id info) h
                         then interrupted_row info (with_status INTERRUPTED_ (t_completed_at (h_record h)) (h_record h))
                         else h) (db_history s)) s)
  else
    bind_params (PInt now :: info_params info);;
    Ok (with_history (db_history s ++ [interrupted_row info (minimal_record (r_transfer_id info) now)]) s).

Definition info_of (h : HistoryRow) : InterruptedTransferInfo :=
  {| r_transfer_id := h_id h; r_bytes_received := default 0 (h_bytes_received h);
     r_resume_chunk_index := default 0 (h_resume_chunk_index h); r_partial_sha256 := default [] (h_partial_sha256 h);
     r_sender_identity := default [] (h_sender_identity h);
     r_original_metadata_json := default [] (h_original_metadata_json h);
     r_interrupted_at := default 0 (h_interrupted_at h); r_expire_at := default 0 (h_expire_at h) |}.

Definition get_interrupted_transfer (id : pystr) (s : db) : res (option InterruptedTransferInfo) :=
  bind_param (PText id);;
  Ok (info_of <$> find_row (fun h => history_is id h && is_interrupted h) (db_history s)).

(** [NULL]s sort last in a descending order. *)
Definition null_last (z : option Z) : Z := default (- 2 ^ 63 - 1) z.

Definition list_interrupted_transfers_for_peer (sender_identity : pystr) (s : db) : res (list InterruptedTransferInfo) :=
  bind_param (PText sender_identity);;
  Ok (map info_of (sort_desc (fun h => null_last (h_interrupted_at h))
    (List.filter (fun h => is_interrupted h && bool_decide (h_sender_identity h = Some sender_identity)) (db_history s)))).

Definition failed_row (h : HistoryRow) : HistoryRow :=
  new_row (with_status FAILED_ (t_completed_at (h_record h)) (h_record h)).

Definition delete_interrupted_transfer (id : pystr) (s : db) : res db :=
  bind_param (PText id);;
  Ok (with_history (map (fun h => if history_is id h && is_interrupted h then failed_row h else h) (db_history s)) s).

Definition expired (now_ms : Z) (h : HistoryRow) : bool :=
  is_interrupted h && match h_expire_at h with Some e => e <=? now_ms | None => false end.

Definition expire_interrupted_transfers (now_ms : Z) (s : db) : res (Z * db) :=
  bind_param (PInt now_ms);;
  Ok (zlen (List.filter (expired now_ms) (db_history s)),
      with_history (map (fun h => if expired now_ms h then failed_row h else h) (db_history s)) s).

(** ** The schema and its migrations *)

Record schema := {
  sc_versions : list Z;                (** rows of [schema_version] *)
  sc_devices : option (list string);   (** columns, if the table exists *)
  sc_history : option (list string);
  sc_settings : bool
}.

Definition resume_columns : list string :=
  ["interrupted_at"; "bytes_received"; "resume_chunk_index"; "partial_sha256"; "sender_identity";
   "original_metadata_json"; "expire_at"]%string.
Definition device_columns_v1 : list string :=
  ["device_id"; "device_name"; "public_key"; "identity_public_key_b64"; "paired_at"; "last_seen"]%string.
Definition history_columns_v1 : list string :=
  ["transfer_id"; "device_id"; "file_name"; "file_size"; "direction"; "status"; "started_at"; "completed_at";
   "sha256"]%string.

(** [ALTER TABLE ... ADD COLUMN], its error swallowed. *)
Definition add_column (c : string) (t : option (list string)) : option (list string) :=
  match t with
  | None => None
  | Some cols => if bool_decide (c ∈ cols) then Some cols else Some (cols ++ [c])
  end.
Definition create (cols : list string) (t : option (list string)) : option (list string) :=
  match t with None => Some cols | Some c => Some c end.

Definition DB_SCHEMA_VERSION : Z := 3.

Definition init_db (s : schema) : schema :=
  let current_version := fold_left Z.max (sc_versions s) 0 in
  let devices := if current_version <? 1 then create device_columns_v1 (sc_devices s) else sc_devices s in
  let history := if current_version <? 1 then create history_columns_v1 (sc_history s) else sc_history s in
  let settings := if current_version <? 1 then true else sc_settings s in
  let devices := if current_version <? 2 then add_column "identity_public_key_b64" devices else devices in
  let history := if current_version <? 3 then fold_left (fun t c => add_column c t) resume_columns history else history in
  {| sc_versions := if bool_decide (DB_SCHEMA_VERSION ∈ sc_versions s) then sc_versions s
                    else sc_versions s ++ [DB_SCHEMA_VERSION];
     sc_devices := devices; sc_history := history; sc_settings := settings |}.

(** ** Keys stay unique *)

Definition db_ok (s : db) : Prop := NoDup (map d_device_id (db_devices s)) /\ NoDup (map h_id (db_history s)).

(** A key-preserving update of some rows, and a filter, keep keys unique. *)
Lemma map_keys {A K} (key : A -> K) (f : A -> A) l : (forall x, key (f x) = key x) -> map key (map f l) = map key l.
Proof. intros H. rewrite map_map. by apply map_ext. Qed.

Lemma NoDup_filter_keys {A K} (key : A -> K) (p : A -> bool) l : NoDup (map key l) -> NoDup (map key (List.filter p l)).
Proof.
  induction l as [|x l IH]; cbn; [done|]. intros [Hx Hl]%NoDup_cons. destruct (p x); [|by apply IH].
  cbn. constructor; [|by apply IH]. intros (y & Hy & Hin)%list_elem_of_fmap. apply Hx. rewrite Hy.
  apply list_elem_of_fmap_2. apply list_elem_of_In in Hin. apply filter_In in Hin as [Hin _]. by apply list_elem_of_In.
Qed.

Lemma NoDup_snoc {K} (k : K) l : NoDup l -> k ∉ l -> NoDup (l ++ [k]).
Proof.
  intros Hl Hk. apply NoDup_app. split; [done|]. split; [|apply NoDup_singleton].
  intros x Hx ->%list_elem_of_singleton. done.
Qed.

Lemma existsb_false {A} (p : A -> bool) l x : existsb p l = false -> x ∈ l -> p x = false.
Proof.
  intros H Hx. apply not_true_iff_false. intros Hp. apply not_true_iff_false in H. apply H.
  apply existsb_exists. exists x. split; [by apply list_elem_of_In|done].
Qed.

Lemma fresh_key {A} (key : A -> pystr) k l :
  existsb (fun x => bool_decide (key x = k)) l = false -> k ∉ map key l.
Proof.
  intros H (x & -> & Hx)%list_elem_of_fmap. pose proof (existsb_false _ _ _ H Hx) as Hf.
  cbn in Hf. by rewrite bool_decide_eq_true_2 in Hf.
Qed.

(** The statements of [DatabaseManager] that write. *)
Inductive db_call :=
  | DAdd (d : TrustedDevice) | DRemove (id : pystr) | DRemoveKey (k : pystr)
  | DTransfer (r : TransferRecord) | DSave (now : Z) (i : InterruptedTransferInfo)
  | DDelete (id : pystr) | DExpire (now : Z).
Definition db_run (c : db_call) (s : db) : res db :=
  match c with
  | DAdd d => add_or_update_device d s
  | DRemove id => remove_device id s
  | DRemoveKey k => remove_device_by_public_key k s
  | DTransfer r => add_transfer r s
  | DSave now i => save_interrupted_transfer now i s
  | DDelete id => delete_interrupted_transfer id s
  | DExpire now => r ← expire_interrupted_transfers now s; Ok r.2
  end.

Lemma db_run_ok c s s' : db_ok s -> db_run c s = Ok s' -> db_ok s'.
Proof.
  intros [Hd Hh] H. destruct c; cbn in H.
  - apply bind_Ok in H as (? & _ & [= <-]). split; [|done]. cbn. destruct (existsb _ _) eqn:E.
    + by rewrite map_keys by (intros row; by destruct (device_is _ row)).
    + rewrite map_app. apply NoDup_snoc; [done|]. by apply (fresh_key d_device_id).
  - apply bind_Ok in H as (? & _ & [= <-]). split; [|done]. by apply NoDup_filter_keys.
  - apply bind_Ok in H as (? & _ & [= <-]). split; [|done]. by apply NoDup_filter_keys.
  - apply bind_Ok in H as (? & _ & [= <-]). split; [done|]. cbn. destruct (existsb _ _) eqn:E.
    + by rewrite map_keys by (intros row; by destruct (history_is _ row)).
    + rewrite map_app. apply NoDup_snoc; [done|]. by apply (fresh_key h_id).
  - apply bind_Ok in H as (? & _ & H). destruct (existsb _ _) eqn:E; apply bind_Ok in H as (? & _ & [= <-]);
      (split; [done|]); cbn.
    + by rewrite map_keys by (intros row; by destruct (history_is _ row)).
    + rewrite map_app. apply NoDup_snoc; [done|]. by apply (fresh_key h_id).
  - apply bind_Ok in H as (? & _ & [= <-]). split; [done|]. cbn. by rewrite map_keys by (intros row; by destruct (_ && _)).
  - apply bind_Ok in H as (r & H & [= <-]). apply bind_Ok in H as (? & _ & [= <-]). split; [done|]. cbn.
    by rewrite map_keys by (intros row; by destruct (expired _ row)).
Qed.

Lemma find_row_Some {A} (p : A -> bool) l x : find_row p l = Some x -> p x = true /\ x ∈ l.
Proof.
  unfold find_row. destruct (List.filter p l) as [|y k] eqn:E; [done|]. intros [= <-].
  assert (In y (List.filter p l)) as Hy by (rewrite E; by left). apply filter_In in Hy as [Hy ?].
  split; [done|]. by apply list_elem_of_In.
Qed.

Lemma find_row_cons {A} (p : A -> bool) x l : find_row p (x :: l) = if p x then Some x else find_row p l.
Proof. unfold find_row. cbn. by destruct (p x). Qed.

(** Looking a row up by its key after an update of the rows with that key. *)
Lemma find_row_update {A} (key : A -> pystr) (f : A -> A) k l :
  (forall x, key (f x) = key x) ->
  find_row (fun x => bool_decide (key x = k)) (map (fun x => if bool_decide (key x = k) then f x else x) l)
  = f <$> find_row (fun x => bool_decide (key x = k)) l.
Proof.
  intros Hf. induction l as [|x l IH]; [done|]. cbn [map]. rewrite !find_row_cons.
  destruct (bool_decide (key x = k)) eqn:E; [|by rewrite E, IH]. by rewrite Hf, E.
Qed.

Lemma find_row_app_fresh {A} (key : A -> pystr) k l x :
  k ∉ map key l -> key x = k -> find_row (fun y => bool_decide (key y = k)) (l ++ [x]) = Some x.
Proof.
  intros Hk Hx. induction l as [|y l IH]; cbn [app]; rewrite find_row_cons; [by rewrite bool_decide_eq_true_2|].
  cbn in Hk. apply not_elem_of_cons in Hk as [Hne Hk]. rewrite bool_decide_eq_false_2 by congruence. by apply IH.
Qed.

Lemma find_row_None {A} (key : A -> pystr) k l :
  find_row (fun y => bool_decide (key y = k)) l = None <-> k ∉ map key l.
Proof.
  induction l as [|y l IH]; cbn; [by split; [intros _ ?%elem_of_nil|]|]. rewrite find_row_cons.
  rewrite not_elem_of_cons. case_bool_decide; naive_solver.
Qed.

Lemma existsb_find {A} (p : A -> bool) l : existsb p l = bool_decide (is_Some (find_row p l)).
Proof.
  induction l as [|x l IH]; [done|]. cbn [existsb]. rewrite find_row_cons. by destruct (p x).
Qed.

Lemma bind_params_cons p l : bind_params (p :: l) = Ok tt <-> bind_param p = Ok tt /\ bind_params l = Ok tt.
Proof.
  cbn. rewrite bind_Ok. split; [by intros ([] & ? & ?)|intros [? ?]; by exists tt].
Qed.

Lemma find_other d l id :
  id <> d_device_id d ->
  find_row (device_is id)
    (if existsb (device_is (d_device_id d)) l
     then map (fun x => if device_is (d_device_id d) x then update_device d x else x) l else l ++ [d])
  = find_row (device_is id) l.
Proof.
  intros Hne. destruct (existsb _ _).
  - induction l as [|x l IH]; [done|]. cbn [map]. rewrite !find_row_cons, IH.
    destruct (device_is (d_device_id d) x) eqn:E; [|done]. unfold device_is in *. bool_prop. cbn.
    by rewrite E, !bool_decide_eq_false_2 by congruence.
  - induction l as [|x l IH]; cbn [app]; rewrite !find_row_cons; [|by rewrite IH].
    unfold device_is. by rewrite bool_decide_eq_false_2 by congruence.
Qed.

(** A new key is found under the device that brought it. *)
Lemma find_key_added d l :
  let k := d_identity_public_key_b64 d in
  find_row (key_is k) l = None ->
  exists d', find_row (key_is k)
    (if existsb (device_is (d_device_id d)) l
     then map (fun x => if device_is (d_device_id d) x then update_device d x else x) l else l ++ [d]) = Some d'
  /\ d_device_id d' = d_device_id d /\ d_device_name d' = d_device_name d.
Proof.
  intros k Hk. destruct (existsb _ l) eqn:He.
  - induction l as [|x l IH]; [done|]. rewrite find_row_cons in Hk. cbn [map existsb] in *. rewrite find_row_cons.
    destruct (key_is k x) eqn:Ex; [done|]. destruct (device_is (d_device_id d) x) eqn:Ed.
    + exists (update_device d x). unfold key_is. cbn [update_device d_identity_public_key_b64]. rewrite bool_decide_eq_true_2 by done.
      by apply bool_decide_eq_true in Ed.
    + rewrite Ex. by apply IH.
  - exists d. unfold key_is in *. rewrite (find_row_app_fresh d_identity_public_key_b64) by (done || by apply find_row_None). done.
Qed.
Lemma add_new_key d s :
  forallb is_scalar (d_device_id d) = true -> forallb is_scalar (d_device_name d) = true ->
  forallb is_scalar (d_public_key d) = true -> forallb is_scalar (d_identity_public_key_b64 d) = true ->
  0 <= d_paired_at d < 2 ^ 63 -> 0 <= d_last_seen d < 2 ^ 63 ->
  get_device_by_public_key (d_identity_public_key_b64 d) s = Ok None ->
  exists s' d', add_or_update_device d s = Ok s' /\ get_device_by_public_key (d_identity_public_key_b64 d) s' = Ok (Some d')
  /\ d_device_id d' = d_device_id d /\ d_device_name d' = d_device_name d.
Proof.
  intros H1 H2 H3 H4 T1 T2 H. unfold get_device_by_public_key in *. apply bind_Ok in H as ([] & Hb & [= H]).
  destruct (find_key_added d (db_devices s) H) as (d' & Hd & Hi & Hn). unfold add_or_update_device.
  assert (forall x, forallb is_scalar x = true -> bind_param (PText x) = Ok tt) as Ht by (intros x Hx; cbn; unfold utf8_encode; by rewrite Hx).
  assert (forall z, 0 <= z < 2 ^ 63 -> bind_param (PInt z) = Ok tt) as Hz.
  { intros z Hz. cbn [bind_param]. replace (_ && _)%bool with true by lia. done. }
  cbn [bind_params]. rewrite !Ht, !Hz by done. cbn [mbind res_bind]. eexists _, d'. split; [done|]. cbn [db_devices]. by rewrite Hd.
Qed.

Lemma find_filter id id' l :
  id' <> id -> find_row (device_is id') (List.filter (fun d => negb (device_is id d)) l) = find_row (device_is id') l.
Proof.
  intros Hne. induction l as [|x l IH]; [done|]. cbn [List.filter]. rewrite find_row_cons.
  destruct (device_is id x) eqn:E; cbn [negb]; [|by rewrite find_row_cons, IH].
  rewrite IH. unfold device_is in *. bool_prop. by rewrite bool_decide_eq_false_2 by congruence.
Qed.

Lemma find_device_stored d l :
  find_row (device_is (d_device_id d)) (if existsb (device_is (d_device_id d)) l
    then map (fun x => if device_is (d_device_id d) x then update_device d x else x) l else l ++ [d])
  = Some match find_row (device_is (d_device_id d)) l with Some old => update_device d old | None => d end.
Proof.
  rewrite existsb_find. case_bool_decide as Hex.
  - unfold device_is. rewrite (find_row_update d_device_id (update_device d)) by done.
    unfold device_is in Hex. by destruct Hex as [x ->].
  - unfold device_is in *. destruct (find_row _ l) eqn:E; [destruct Hex; by eexists|].
    apply find_row_app_fresh; [by apply find_row_None|done].
Qed.

(** The lookup by key after an update of the device [d]: its own key is found,
    another one only under the other devices. *)
Definition stored (d : TrustedDevice) (l : list TrustedDevice) : list TrustedDevice :=
  if existsb (device_is (d_device_id d)) l
  then map (fun x => if device_is (d_device_id d) x then update_device d x else x) l else l ++ [d].
Lemma update_has_key d x : key_is (d_identity_public_key_b64 d) (update_device d x) = true.
Proof. unfold key_is. by rewrite bool_decide_eq_true_2. Qed.
Lemma find_own_key d l :
  exists d', find_row (key_is (d_identity_public_key_b64 d)) (stored d l) = Some d'
  /\ (d_device_id d' = d_device_id d \/ find_row (key_is (d_identity_public_key_b64 d)) l = Some d').
Proof.
  unfold stored. destruct (existsb _ l) eqn:He.
  - induction l as [|x l IH]; [done|]. cbn [map existsb] in *. rewrite !find_row_cons. destruct (device_is (d_device_id d) x) eqn:Ed.
    + rewrite update_has_key. eexists. split; [done|]. left. by apply bool_decide_eq_true in Ed.
    + destruct (key_is _ x); [eexists; eauto|]. by apply IH.
  - clear He. induction l as [|x l IH]; cbn [app]; rewrite find_row_cons.
    + unfold key_is. rewrite bool_decide_eq_true_2 by done. eexists. split; [done|]. by left.
    + rewrite find_row_cons. destruct (key_is _ x); [eexists; eauto|done].
Qed.
Lemma find_key_else d k l :
  k <> d_identity_public_key_b64 d ->
  find_row (key_is k) (stored d l) = find_row (fun x => key_is k x && negb (device_is (d_device_id d) x)) l.
Proof.
  intros Hne. assert (forall x, key_is k (update_device d x) = false) as Hu by (intros x; unfold key_is; cbn; by rewrite bool_decide_eq_false_2 by congruence).
  unfold stored. destruct (existsb _ l) eqn:He.
  - clear He. induction l as [|x l IH]; [done|]. cbn [map]. rewrite !find_row_cons. destruct (device_is (d_device_id d) x).
    + by rewrite Hu, andb_false_r, IH.
    + by rewrite andb_true_r, IH.
  - induction l as [|x l IH]; cbn [app existsb] in *; rewrite !find_row_cons.
    + unfold key_is. by rewrite bool_decide_eq_false_2 by congruence.
    + apply orb_false_iff in He as [-> He]. by rewrite andb_true_r, IH.
Qed.
Lemma find_row_filter (p q : TrustedDevice -> bool) l : find_row p (List.filter q l) = find_row (fun x => p x && q x) l.
Proof.
  induction l as [|x l IH]; [done|]. cbn [List.filter]. rewrite find_row_cons. destruct (q x); [rewrite find_row_cons, andb_true_r, IH; done|].
  by rewrite andb_false_r, IH.
Qed.
Lemma find_row_ext (p q : TrustedDevice -> bool) l : (forall x, p x = q x) -> find_row p l = find_row q l.
Proof. intros H. induction l as [|x l IH]; [done|]. rewrite !find_row_cons, H, IH. done. Qed.
Lemma find_row_none (p : TrustedDevice -> bool) l : (forall x, p x = false) -> find_row p l = None.
Proof. intros H. induction l as [|x l IH]; [done|]. by rewrite find_row_cons, H, IH. Qed.

(** C37. The trusted-device table.  Device and transfer keys stay unique under
    every write.  [add_or_update_device] is read back as stored, except that the
    time of the first pairing is never overwritten, and other devices are
    untouched; a removed device is gone.  For the lookup that decides trust, by
    the key: after an update of the device [d], the key of [d] is found, under [d]
    or under a device that had it before, and any other key is found exactly if a
    device other than [d] has it (so a key that [d] had before is found no more);
    after the removal of a device its key is found only if another device has it;
    and after the removal of a key no device has it, while other keys are found
    as before. *)
Theorem device_table_correct :
  (forall c s s', db_ok s -> db_run c s = Ok s' -> db_ok s')
  /\ (forall d s s', add_or_update_device d s = Ok s' ->
      get_device (d_device_id d) s'
        = Ok (Some match get_device (d_device_id d) s with Ok (Some old) => update_device d old | _ => d end)
      /\ (forall id, id <> d_device_id d -> get_device id s' = get_device id s)
      /\ (exists d', get_device_by_public_key (d_identity_public_key_b64 d) s' = Ok (Some d')
          /\ (d_device_id d' = d_device_id d \/ get_device_by_public_key (d_identity_public_key_b64 d) s = Ok (Some d')))
      /\ (forall k, k <> d_identity_public_key_b64 d -> get_device_by_public_key k s'
          = (bind_param (PText k);; Ok (find_row (fun x => key_is k x && negb (device_is (d_device_id d) x)) (db_devices s)))))
  /\ (forall id s s', remove_device id s = Ok s' -> get_device id s' = Ok None
      /\ (forall id', id' <> id -> get_device id' s' = get_device id' s)
      /\ (forall k, get_device_by_public_key k s'
          = (bind_param (PText k);; Ok (find_row (fun x => key_is k x && negb (device_is id x)) (db_devices s)))))
  /\ (forall k s s', remove_device_by_public_key k s = Ok s' -> get_device_by_public_key k s' = Ok None
      /\ (forall k', k' <> k -> get_device_by_public_key k' s' = get_device_by_public_key k' s)).
Proof.
  split; [apply db_run_ok|]. split; [|split].
  - intros d s s' H. apply bind_Ok in H as ([] & Hb & [= <-]).
    apply bind_params_cons in Hb as [Hid (_ & (_ & (Hk & _)%bind_params_cons)%bind_params_cons)%bind_params_cons].
    unfold get_device, get_device_by_public_key. cbn [db_devices]. fold (stored d (db_devices s)). rewrite Hid, Hk. cbn [mbind res_bind].
    split_and!.
    + unfold stored. by rewrite find_device_stored.
    + intros id Hne. destruct (bind_param (PText id)); [|done]. cbn [mbind res_bind]. f_equal. by apply find_other.
    + destruct (find_own_key d (db_devices s)) as (d' & -> & [?|E]); exists d'; (split; [done|]); [by left|right; by rewrite E].
    + intros k Hne. by rewrite find_key_else.
  - intros id s s' H. apply bind_Ok in H as ([] & Hid & [= <-]). unfold get_device, get_device_by_public_key. cbn [db_devices]. split_and!.
    + rewrite Hid. cbn [mbind res_bind]. rewrite find_row_filter, find_row_none; [done|]. intros x. by destruct (device_is id x).
    + intros id' Hne. destruct (bind_param (PText id')); [|done]. cbn [mbind res_bind]. f_equal. by apply find_filter.
    + intros k. by rewrite find_row_filter.
  - intros k s s' H. apply bind_Ok in H as ([] & Hid & [= <-]). unfold get_device_by_public_key. cbn [db_devices]. split.
    + rewrite Hid. cbn [mbind res_bind]. rewrite find_row_filter, find_row_none; [done|]. intros x. by destruct (key_is k x).
    + intros k' Hne. rewrite find_row_filter. destruct (bind_param (PText k')); [|done]. cbn [mbind res_bind]. f_equal.
      apply find_row_ext. intros x. unfold key_is. destruct (decide (d_identity_public_key_b64 x = k')) as [->|Hx].
      * by rewrite (bool_decide_eq_false_2 (_ = k)), andb_true_r by congruence.
      * by rewrite (bool_decide_eq_false_2 (_ = k')) by done.
Qed.

(** A device id is only what the peer says it is: storing [d] under the id of
    another device replaces the key of that device, which is not trusted any more
    if it had no other entry. *)
Theorem claimed_id_replaces_key d s s' k :
  add_or_update_device d s = Ok s' -> k <> d_identity_public_key_b64 d ->
  Forall (fun x => d_identity_public_key_b64 x = k -> d_device_id x = d_device_id d) (db_devices s) ->
  forall o, get_device_by_public_key k s' <> Ok (Some o).
Proof.
  intros H Hne Hall o. apply bind_Ok in H as ([] & _ & [= <-]). unfold get_device_by_public_key. cbn [db_devices].
  fold (stored d (db_devices s)). rewrite find_key_else by done. destruct (bind_param (PText k)); [|done]. cbn [mbind res_bind]. intros [= E].
  revert E. induction Hall as [|x l Hx _ IH]; [done|]. rewrite find_row_cons. unfold key_is, device_is in *.
  destruct (decide (d_identity_public_key_b64 x = k)) as [Ek|Ek].
  - by rewrite (bool_decide_eq_true_2 (d_device_id x = _)), andb_false_r by auto.
  - by rewrite (bool_decide_eq_false_2 (_ = k)) by done.
Qed.

(** ** Interrupted transfers *)

Lemma find_history_other id k f l :
  id <> k -> (forall h, h_id (f h) = h_id h) ->
  find_row (fun h => history_is id h && is_interrupted h) (map (fun h => if history_is k h then f h else h) l)
  = find_row (fun h => history_is id h && is_interrupted h) l.
Proof.
  intros Hne Hf. induction l as [|h l IH]; [done|]. cbn [map]. rewrite !find_row_cons, IH.
  destruct (history_is k h) eqn:E; [|done]. unfold history_is in *. bool_prop.
  by rewrite Hf, E, !bool_decide_eq_false_2 by congruence.
Qed.

Lemma find_history_self k f l :
  (forall h, h_id (f h) = h_id h /\ h_status (f h) = INTERRUPTED_) ->
  find_row (fun h => history_is k h && is_interrupted h) (map (fun h => if history_is k h then f h else h) l)
  = f <$> find_row (history_is k) l.
Proof.
  intros Hf. induction l as [|h l IH]; [done|]. cbn [map]. rewrite !find_row_cons, IH.
  destruct (history_is k h) eqn:E; [|by rewrite E]. destruct (Hf h) as [Hi Hs].
  unfold history_is, is_interrupted in *. by rewrite Hi, Hs, E.
Qed.

Lemma insert_desc_perm {A} (key : A -> Z) x l : insert_desc key x l ≡ₚ x :: l.
Proof.
  induction l as [|y l IH]; cbn; [done|]. destruct (_ <=? _); [done|]. rewrite IH. by constructor.
Qed.

Lemma sort_desc_perm {A} (key : A -> Z) l : sort_desc key l ≡ₚ l.
Proof. induction l as [|x l IH]; cbn; [done|]. by rewrite insert_desc_perm, IH. Qed.

(** The row that [save_interrupted_transfer] leaves behind. *)
Lemma save_interrupted_row now info s s' :
  save_interrupted_transfer now info s = Ok s' ->
  find_row (fun h => history_is (r_transfer_id info) h && is_interrupted h) (db_history s')
    = Some match find_row (history_is (r_transfer_id info)) (db_history s) with
           | Some h => interrupted_row info (with_status INTERRUPTED_ (t_completed_at (h_record h)) (h_record h))
           | None => interrupted_row info (minimal_record (r_transfer_id info) now)
           end
  /\ bind_param (PText (r_transfer_id info)) = Ok tt /\ bind_params (info_params info) = Ok tt.
Proof.
  unfold save_interrupted_transfer. intros ([] & Hid & H)%bind_Ok. rewrite existsb_find in H.
  destruct (find_row (history_is _) (db_history s)) as [h|] eqn:E.
  - rewrite bool_decide_eq_true_2 in H by eauto. apply bind_Ok in H as ([] & Hp & [= <-]). split; [|done].
    unfold with_history; cbn [db_history]. rewrite (find_history_self (r_transfer_id info)
      (fun h => interrupted_row info (with_status INTERRUPTED_ (t_completed_at (h_record h)) (h_record h)))) by done.
    by rewrite E.
  - rewrite bool_decide_eq_false_2 in H by (by intros []). apply bind_Ok in H as ([] & Hp & [= <-]).
    apply bind_params_cons in Hp as [_ Hp]. split; [|done]. cbn [db_history with_history].
    apply (find_row_None h_id) in E. induction (db_history s) as [|h l IH]; cbn [app]; rewrite find_row_cons.
    + unfold history_is. by rewrite bool_decide_eq_true_2.
    + cbn in E. apply not_elem_of_cons in E as [Hne E]. unfold history_is at 1.
      rewrite bool_decide_eq_false_2 by congruence. cbn. by apply IH.
Qed.

Lemma info_of_interrupted info r : t_transfer_id r = r_transfer_id info -> info_of (interrupted_row info r) = info.
Proof. intros H. unfold info_of, h_id. cbn. rewrite H. by destruct info. Qed.

(** Resume state survives: what [save_interrupted_transfer] stored, whether
    it updated a row or inserted one, is exactly what [get_interrupted_transfer]
    returns and is listed for its sender; saving again overwrites; and every
    other transfer's resume state is untouched. *)
Theorem save_interrupted_roundtrip now info s s' :
  save_interrupted_transfer now info s = Ok s' ->
  get_interrupted_transfer (r_transfer_id info) s' = Ok (Some info)
  /\ (exists l, list_interrupted_transfers_for_peer (r_sender_identity info) s' = Ok l /\ info ∈ l)
  /\ (forall id, id <> r_transfer_id info -> get_interrupted_transfer id s' = get_interrupted_transfer id s).
Proof.
  intros H. destruct (save_interrupted_row _ _ _ _ H) as (Hrow & Hid & Hp).
  set (row := match find_row _ (db_history s) with Some _ => _ | None => _ end) in Hrow.
  assert (exists r, row = interrupted_row info r /\ t_transfer_id r = r_transfer_id info) as (r & Er & Hr).
  { unfold row. destruct (find_row _ _) as [h|] eqn:E; eexists; (split; [done|]); [|done].
    apply find_row_Some in E as [E _]. unfold history_is, h_id in E. by bool_prop. }
  split; [|split].
  - unfold get_interrupted_transfer. rewrite Hid. cbn [mbind res_bind]. rewrite Hrow, Er. cbn [fmap option_fmap option_map].
    by rewrite info_of_interrupted.
  - unfold list_interrupted_transfers_for_peer. unfold info_params in Hp. rewrite !bind_params_cons in Hp.
    destruct Hp as (_ & _ & _ & _ & Hs & _). rewrite Hs. cbn [mbind res_bind]. eexists. split; [done|].
    rewrite <-(info_of_interrupted info r Hr). apply list_elem_of_fmap_2. rewrite sort_desc_perm.
    apply find_row_Some in Hrow as [Hrow Hin]. apply list_elem_of_In, filter_In. split; [apply list_elem_of_In; by rewrite <-Er|].
    rewrite Er in Hrow. apply andb_true_iff in Hrow as [_ ->]. cbn. by rewrite bool_decide_eq_true_2.
  - intros id Hne. unfold get_interrupted_transfer. destruct (bind_param (PText id)); [|done]. cbn [mbind res_bind].
    do 2 f_equal. unfold save_interrupted_transfer in H. apply bind_Ok in H as (? & _ & H).
    destruct (existsb _ _); apply bind_Ok in H as (? & _ & [= <-]); cbn [db_history with_history].
    + by apply find_history_other.
    + generalize (db_history s) as l. induction l as [|h l IH]; cbn [app]; rewrite !find_row_cons; [|by rewrite IH].
      unfold history_is, h_id. cbn. by rewrite bool_decide_eq_false_2 by congruence.
Qed.

(** Expiry is exact: [expire_interrupted_transfers] turns precisely the
    interrupted rows whose deadline has passed into FAILED rows without resume
    state, reports how many, leaves every other row alone, and a second run
    finds nothing. *)
Theorem expire_exact now s n s' :
  expire_interrupted_transfers now s = Ok (n, s') ->
  n = zlen (List.filter (expired now) (db_history s))
  /\ length (db_history s') = length (db_history s)
  /\ (forall i h, db_history s !! i = Some h -> exists h', db_history s' !! i = Some h'
      /\ if expired now h then h_id h' = h_id h /\ h_status h' = FAILED_ /\ h_expire_at h' = None
                               /\ h_bytes_received h' = None /\ h_partial_sha256 h' = None
         else h' = h)
  /\ expire_interrupted_transfers now s' = Ok (0, s').
Proof.
  unfold expire_interrupted_transfers. intros ([] & Hb & [= <- <-])%bind_Ok. cbn [db_history with_history].
  assert (forall h, expired now (if expired now h then failed_row h else h) = false) as Hno.
  { intros h. destruct (expired now h) eqn:E; [done|exact E]. }
  split; [done|]. split; [by rewrite length_map|]. split.
  - intros i h Hi. eexists. rewrite list_lookup_fmap, Hi. split; [done|]. by destruct (expired now h).
  - rewrite Hb. cbn [mbind res_bind]. f_equal. f_equal.
    + assert (List.filter (expired now) (map (fun h => if expired now h then failed_row h else h) (db_history s)) = []) as ->; [|done].
      induction (db_history s) as [|h l IH]; [done|]. cbn [map List.filter]. by rewrite Hno.
    + unfold with_history. cbn. f_equal. rewrite map_map. apply map_ext. intros h. by rewrite Hno.
Qed.

(** ** Migrations *)

Definition version_of (s : schema) : Z := fold_left Z.max (sc_versions s) 0.

Definition has_columns (l : list string) (t : option (list string)) : Prop :=
  exists cols, t = Some cols /\ forall c, c ∈ l -> c ∈ cols.

Definition device_columns_v0 : list string :=
  ["device_id"; "device_name"; "public_key"; "paired_at"; "last_seen"]%string.

(** A database that some release left behind. *)
Definition legacy (s : schema) : Prop :=
  (version_of s = 0 /\ sc_devices s = None /\ sc_history s = None)
  \/ (version_of s = 1 /\ has_columns device_columns_v0 (sc_devices s) /\ has_columns history_columns_v1 (sc_history s) /\ sc_settings s = true)
  \/ (version_of s = 2 /\ has_columns device_columns_v1 (sc_devices s) /\ has_columns history_columns_v1 (sc_history s) /\ sc_settings s = true)
  \/ (version_of s = 3 /\ has_columns device_columns_v1 (sc_devices s)
      /\ has_columns (history_columns_v1 ++ resume_columns) (sc_history s) /\ sc_settings s = true).

Lemma add_column_keeps c l t : has_columns l t -> has_columns (l ++ [c]) (add_column c t).
Proof.
  intros (cols & -> & H). cbn. case_bool_decide as E; (eexists; split; [done|]); intros x;
    rewrite elem_of_app, list_elem_of_singleton; [intros [?| ->]; auto|].
  rewrite elem_of_app, list_elem_of_singleton. intros [?| ->]; auto.
Qed.

Lemma add_columns_keep cs : forall l t, has_columns l t -> has_columns (l ++ cs) (fold_left (fun t c => add_column c t) cs t).
Proof.
  induction cs as [|c cs IH]; intros l t H; cbn; [by rewrite app_nil_r|].
  replace (l ++ c :: cs) with ((l ++ [c]) ++ cs) by (by rewrite <-app_assoc). by apply IH, add_column_keeps.
Qed.

Lemma has_columns_weaken l l' t : (forall c, c ∈ l' -> c ∈ l) -> has_columns l t -> has_columns l' t.
Proof. intros H (cols & -> & Hc). exists cols. auto. Qed.

Lemma fold_max_ge l : forall a, a <= fold_left Z.max l a /\ forall x, x ∈ l -> x <= fold_left Z.max l a.
Proof.
  induction l as [|y l IH]; intros a; cbn; [split; [lia|by intros x ?%elem_of_nil]|].
  destruct (IH (Z.max a y)) as [H1 H2]. split; [lia|]. intros x [->|?]%elem_of_cons; [lia|auto].
Qed.

Lemma init_db_versions s : 3 ∈ sc_versions (init_db s).
Proof.
  cbn. case_bool_decide; [done|]. apply elem_of_app. right. by apply list_elem_of_singleton.
Qed.

(** Opening a database migrates it: from nothing or from any earlier
    release, afterwards version 3 is recorded and every column that the queries
    use exists; and opening any database a second time changes nothing. *)
Theorem migration_correct :
  (forall s, legacy s -> let s' := init_db s in
     3 ∈ sc_versions s' /\ sc_settings s' = true /\ has_columns device_columns_v1 (sc_devices s')
     /\ has_columns (history_columns_v1 ++ resume_columns) (sc_history s'))
  /\ (forall s, init_db (init_db s) = init_db s).
Proof.
  split.
  - intros s Hs s'. split; [apply init_db_versions|]. unfold s', init_db. fold (version_of s).
    destruct Hs as [(E & Hd & Hh)|[(E & Hd & Hh & Hset)|[(E & Hd & Hh & Hset)|(E & Hd & Hh & Hset)]]];
      rewrite E; cbn -[resume_columns device_columns_v1 history_columns_v1 fold_left add_column].
    + rewrite Hd, Hh. split; [done|]. split.
      * eapply has_columns_weaken; [|eapply (add_column_keeps _ device_columns_v1); by eexists].
        intros c Hc. apply elem_of_app. by left.
      * apply add_columns_keep. by eexists.
    + split; [done|]. split; [|by apply add_columns_keep].
      eapply has_columns_weaken; [|by eapply add_column_keeps].
      intros c. unfold device_columns_v1, device_columns_v0. rewrite elem_of_app, !elem_of_cons, elem_of_nil. tauto.
    + split; [done|]. split; [done|by apply add_columns_keep].
    + done.
  - intros s. pose proof (init_db_versions s) as H3. set (s' := init_db s) in *. clearbody s'. clear s.
    assert (3 <= fold_left Z.max (sc_versions s') 0) as Hv by (by apply fold_max_ge).
    unfold init_db, DB_SCHEMA_VERSION. rewrite bool_decide_eq_true_2 by done.
    replace (_ <? 1) with false by lia. replace (_ <? 2) with false by lia. replace (_ <? 3) with false by lia.
    by destruct s'.
Qed.
