(* ===== verification/Identity.v ===== *)
(** * The device identity: [core/identity.py]

    The base64url text of keys and signatures, signature verification, and the
    key file.  The primitives of [cryptography] (Ed25519 and the PEM container)
    are the operations of the class [Ed25519]. *)
From S2P Require Import Prelude PyStr Sha256 Json Protocol Payloads Transfer Fs.

(** ** Base64url without padding *)

Definition b64_char (v : Z) : Z :=
  if v <? 26 then 65 + v else if v <? 52 then 71 + v else if v <? 62 then v - 4 else if v =? 62 then 45 else 95.

(** [base64.urlsafe_b64encode(b).rstrip(b"=").decode()] *)
Fixpoint b64url (l : bytes) : pystr :=
  match l with
  | a :: b :: c :: l' =>
      let v := b2z a * 65536 + b2z b * 256 + b2z c in
      b64_char (v / 262144) :: b64_char (v / 4096 mod 64) :: b64_char (v / 64 mod 64) :: b64_char (v mod 64) :: b64url l'
  | [a; b] =>
      let v := b2z a * 1024 + b2z b * 4 in [b64_char (v / 4096); b64_char (v / 64 mod 64); b64_char (v mod 64)]
  | [a] => let v := b2z a * 16 in [b64_char (v / 64); b64_char (v mod 64)]
  | [] => []
  end.

(** The value of a character after [urlsafe_b64decode] maps [-_] to [+/]; the
    standard [+/] are accepted as well. *)
Definition b64_value (c : Z) : option Z :=
  if between 65 90 c then Some (c - 65)
  else if between 97 122 c then Some (c - 71)
  else if between 48 57 c then Some (c + 4)
  else if (c =? 45) || (c =? 43) then Some 62
  else if (c =? 95) || (c =? 47) then Some 63
  else None.

(** [binascii.a2b_base64] in its lenient mode: other characters are skipped, a
    complete padding ends the data.  [quad] is the place in the current group of
    four, [left] the bits carried over. *)
Fixpoint a2b (quad left pads : Z) (s : pystr) : res bytes :=
  match s with
  | [] => if quad =? 0 then Ok [] else Err ValueError
  | c :: s' =>
      if c =? 61 then
        if (2 <=? quad) && (4 <=? quad + (pads + 1)) then Ok []
        else a2b quad left (if 2 <=? quad then pads + 1 else pads) s'
      else
        match b64_value c with
        | None => a2b quad left pads s'
        | Some v =>
            if quad =? 0 then a2b 1 v 0 s'
            else if quad =? 1 then r ← a2b 2 (v mod 16) 0 s'; Ok (z2b (left * 4 + v / 16) :: r)
            else if quad =? 2 then r ← a2b 3 (v mod 4) 0 s'; Ok (z2b (left * 16 + v / 4) :: r)
            else r ← a2b 0 0 0 s'; Ok (z2b (left * 64 + v) :: r)
        end
  end.

(** [base64.urlsafe_b64decode(s)] of a string: a non-ASCII one raises. *)
Definition urlsafe_b64decode (s : pystr) : res bytes :=
  raise_if (negb (forallb (fun c => c <? 128) s)) ValueError;; a2b 0 0 0 s.

Definition decode_public_key_b64 (b64_str : pystr) : res bytes :=
  let padding := 4 - zlen b64_str mod 4 in
  urlsafe_b64decode (if negb (padding =? 4) then b64_str ++ repeat 61 (Z.to_nat padding) else b64_str).

(** ** Keys *)

(** What [load_pem_private_key] finds in a file. *)
Inductive pem_key := PemEd25519 (k : bytes) | PemOther.

Class Ed25519 := {
  ed_public : bytes -> bytes;                       (** private to raw public key *)
  ed_sign : bytes -> bytes -> bytes;                (** private key, message *)
  ed_from_public : bytes -> res bytes;              (** [from_public_bytes] *)
  ed_verify : bytes -> bytes -> bytes -> res unit;  (** public key, signature, message *)
  pem_dump : bytes -> bytes;                        (** PKCS8, not encrypted *)
  pem_load : bytes -> res pem_key
}.

Class Ed25519Laws `{Ed25519} := {
  ed_sign_verify k m : (p ← ed_from_public (ed_public k); ed_verify p (ed_sign k m) m) = Ok tt;
  pem_load_dump k : pem_load (pem_dump k) = Ok (PemEd25519 k)
}.

(** The file system together with the permission bits of files. *)
Record keyring := { kr_world : world; kr_modes : gmap path Z }.
Definition kr_sys {A} (m : M world A) : M keyring A := fun s =>
  let '(r, w) := m (kr_world s) in (r, {| kr_world := w; kr_modes := kr_modes s |}).
Definition set_mode (p : path) (mode : Z) (s : keyring) : keyring :=
  {| kr_world := kr_world s; kr_modes := <[p := mode]> (kr_modes s) |}.

Definition KEY_FILE_MODE : Z := 0x180. (* 0o600 *)

(** [os.write(fd, data)]: no buffer; it may fail, or write only a part and say
    so in a result that the caller ignores. *)
Definition os_write (p : path) (data : bytes) : M world unit :=
  o ← draw;
  if o_ok o then modify (fun w => push p (length data) (with_pending (<[p := data]> (w_pending w)) w))
  else match o_moved o with
       | O => raise OSError
       | n => modify (fun w => push p n (with_pending (<[p := data]> (w_pending w)) w))
       end.

(** [os.close(fd)] *)
Definition os_close (p : path) (w : world) : world := with_pending (delete p (w_pending w)) w.

Section identity.
Context `{Ed25519} (umask : Z).

Definition verify (public_key_bytes message signature : bytes) : bool :=
  is_ok (pub ← ed_from_public public_key_bytes; ed_verify pub signature message).

(** [os.open(p, O_WRONLY | O_CREAT | O_TRUNC, mode)] *)
Definition os_open (p : path) (mode : Z) : M keyring path :=
  s ← get;
  h ← kr_sys (open_write false p);
  (match w_fs (kr_world s) !! p with
   | Some _ => mret tt
   | None => modify (set_mode p (Z.land mode (Z.lnot umask)))
   end);;
  mret h.

(** [os.chmod(p, mode)] *)
Definition chmod (p : path) (mode : Z) : M keyring unit :=
  kr_sys (syscall (fun f => match fs_get f p with Some _ => Ok (tt, f) | None => Err FileNotFoundError end));;
  modify (set_mode p mode).

Definition load_key (key_file : path) : M keyring bytes :=
  content ← kr_sys (read_file key_file);
  key ← lift (pem_load content);
  match key with PemEd25519 k => mret k | PemOther => raise TypeError end.

(** [fresh] is the key that [Ed25519PrivateKey.generate] makes. *)
Definition generate_and_save (fresh : bytes) (key_file : path) : M keyring bytes :=
  kr_sys (mkdirs (parent key_file));;
  let pem := pem_dump fresh in
  fd ← os_open key_file KEY_FILE_MODE;
  finally (kr_sys (os_write fd pem)) (fun s => {| kr_world := os_close fd (kr_world s); kr_modes := kr_modes s |});;
  chmod key_file KEY_FILE_MODE;;
  mret fresh.

Definition load_or_generate (fresh : bytes) (key_file : path) : M keyring bytes :=
  b ← kr_sys (exists_ key_file);
  if (b : bool) then try_except (load_key key_file) (fun _ => true) (fun _ => generate_and_save fresh key_file)
  else generate_and_save fresh key_file.

(** The manager after its construction. *)
Record IdentityManager := { id_key_file : path; id_private_key : bytes; id_public_key_bytes : bytes }.
Definition new_identity (fresh : bytes) (key_file : path) : M keyring IdentityManager :=
  k ← load_or_generate fresh key_file;
  mret {| id_key_file := key_file; id_private_key := k; id_public_key_bytes := ed_public k |}.
Definition public_key_b64 (m : IdentityManager) : pystr := b64url (id_public_key_bytes m).
Definition sign (m : IdentityManager) (message : bytes) : bytes := ed_sign (id_private_key m) message.
End identity.

(** ** Base64url round trip *)

Lemma b64_value_char v : 0 <= v < 64 -> b64_value (b64_char v) = Some v.
Proof.
  intros Hv. assert (forallb (fun v => bool_decide (b64_value (b64_char v) = Some v)) (map Z.of_nat (seq 0 64)) = true) as Hf
    by (vm_compute; done).
  rewrite forallb_forall in Hf. specialize (Hf v). apply bool_decide_eq_true in Hf; [done|].
  apply in_map_iff. exists (Z.to_nat v). rewrite Z2Nat.id by lia. split; [done|]. apply in_seq. lia.
Qed.

Lemma b64_char_plain v : 0 <= v < 64 -> 0 <= b64_char v < 128 /\ b64_char v <> 61.
Proof. intros Hv. unfold b64_char. repeat case_match; lia. Qed.

Definition b64_text (s : pystr) : Prop := Forall (fun c => 0 <= c < 128 /\ c <> 61) s.

(** One more data character. *)
Lemma a2b_char quad left pads v s :
  0 <= v < 64 ->
  a2b quad left pads (b64_char v :: s) =
  if quad =? 0 then a2b 1 v 0 s
  else if quad =? 1 then r ← a2b 2 (v mod 16) 0 s; Ok (z2b (left * 4 + v / 16) :: r)
  else if quad =? 2 then r ← a2b 3 (v mod 4) 0 s; Ok (z2b (left * 16 + v / 4) :: r)
  else r ← a2b 0 0 0 s; Ok (z2b (left * 64 + v) :: r).
Proof.
  intros Hv. cbn [a2b]. rewrite b64_value_char by done. destruct (b64_char_plain v Hv) as [_ Hn].
  by rewrite (proj2 (Z.eqb_neq _ _) Hn).
Qed.

(** Lists by groups of three. *)
Lemma triples_ind {A} (P : list A -> Prop) :
  P [] -> (forall a, P [a]) -> (forall a b, P [a; b]) -> (forall a b c l, P l -> P (a :: b :: c :: l)) -> forall l, P l.
Proof.
  intros H0 H1 H2 H3. enough (forall l, P l /\ (forall a, P (a :: l)) /\ forall a b, P (a :: b :: l)) as H by apply H.
  induction l as [|c l (IH0 & IH1 & IH2)]; [done|]. split_and!; auto.
Qed.

(** The six-bit groups of a byte, two bytes and three bytes. *)
Ltac six := split; Z.to_euclidean_division_equations; lia.

Lemma z2b_at z b : z = b2z b -> z2b z = b.
Proof. intros ->. apply z2b_b2z. Qed.

Lemma groups1 a (v := a * 16) :
  0 <= a < 256 -> 0 <= v / 64 < 64 /\ 0 <= v mod 64 < 64 /\ v / 64 * 4 + v mod 64 / 16 = a.
Proof. intros Ha. subst v. split_and!; Z.to_euclidean_division_equations; lia. Qed.

Lemma groups2 a b (v := a * 1024 + b * 4) :
  0 <= a < 256 -> 0 <= b < 256 ->
  0 <= v / 4096 < 64 /\ 0 <= v / 64 mod 64 < 64 /\ 0 <= v mod 64 < 64
  /\ v / 4096 * 4 + v / 64 mod 64 / 16 = a /\ v / 64 mod 64 mod 16 * 16 + v mod 64 / 4 = b.
Proof. intros Ha Hb. subst v. split_and!; Z.to_euclidean_division_equations; lia. Qed.

Lemma groups3 a b c (v := a * 65536 + b * 256 + c) :
  0 <= a < 256 -> 0 <= b < 256 -> 0 <= c < 256 ->
  0 <= v / 262144 < 64 /\ 0 <= v / 4096 mod 64 < 64 /\ 0 <= v / 64 mod 64 < 64 /\ 0 <= v mod 64 < 64
  /\ v / 262144 * 4 + v / 4096 mod 64 / 16 = a /\ v / 4096 mod 64 mod 16 * 16 + v / 64 mod 64 / 4 = b
  /\ v / 64 mod 64 mod 4 * 64 + v mod 64 = c.
Proof. intros Ha Hb Hc. subst v. split_and!; Z.to_euclidean_division_equations; lia. Qed.

Lemma b64url_text l : b64_text (b64url l).
Proof.
  pose proof b2z_range as R. unfold b64_text.
  induction l as [|a|a b|a b c l IH] using triples_ind; cbn [b64url].
  - constructor.
  - destruct (groups1 (b2z a)) as (?&?&_); [done|]. by repeat constructor; apply b64_char_plain.
  - destruct (groups2 (b2z a) (b2z b)) as (?&?&?&_); [done..|]. by repeat constructor; apply b64_char_plain.
  - destruct (groups3 (b2z a) (b2z b) (b2z c)) as (?&?&?&?&_); [done..|].
    do 4 (constructor; [by apply b64_char_plain|]). done.
Qed.

Lemma b64url_short l : zlen (b64url l) <= 2 * zlen l.
Proof.
  unfold zlen. induction l as [|a|a b|a b c l IH] using triples_ind; cbn [b64url length] in *; lia.
Qed.

(** The padding that completes a group of four characters. *)
Definition b64_pad (l : bytes) : pystr := repeat 61 (Z.to_nat ((3 - zlen l mod 3) mod 3)).

Lemma zlen_mod3 {A} (a b c : A) l : zlen (a :: b :: c :: l) mod 3 = zlen l mod 3.
Proof. unfold zlen. cbn [length]. replace (Z.of_nat _) with (Z.of_nat (length l) + 1 * 3) by lia. apply Z_mod_plus_full. Qed.

Lemma a2b_pad2 left : a2b 2 left 0 [61; 61] = Ok [].
Proof. reflexivity. Qed.
Lemma a2b_pad1 left : a2b 3 left 0 [61] = Ok [].
Proof. reflexivity. Qed.

Lemma a2b_b64url l : a2b 0 0 0 (b64url l ++ b64_pad l) = Ok l.
Proof.
  pose proof b2z_range as R.
  induction l as [|a|a b|a b c l IH] using triples_ind; [done|cbn [b64url]|cbn [b64url]|cbn [b64url]].
  - destruct (groups1 (b2z a)) as (?&?&?); [done|]. change (b64_pad [a]) with [61; 61]. cbn [app].
    rewrite !a2b_char by done. cbn [Z.eqb Pos.eqb]. rewrite a2b_pad2. cbn [mbind res_bind]. do 2 f_equal. by apply z2b_at.
  - destruct (groups2 (b2z a) (b2z b)) as (?&?&?&?&?); [done..|]. change (b64_pad [a; b]) with [61]. cbn [app].
    rewrite !a2b_char by done. cbn [Z.eqb Pos.eqb]. rewrite a2b_pad1. cbn [mbind res_bind].
    do 2 f_equal; [by apply z2b_at|]. f_equal. by apply z2b_at.
  - destruct (groups3 (b2z a) (b2z b) (b2z c)) as (?&?&?&?&?&?&?); [done..|].
    unfold b64_pad in *. rewrite zlen_mod3. cbn [app]. rewrite !a2b_char by done.
    cbn [Z.eqb Pos.eqb mbind res_bind]. rewrite IH. cbn [mbind res_bind]. do 2 f_equal; [by apply z2b_at|].
    f_equal; [by apply z2b_at|]. f_equal. by apply z2b_at.
Qed.

Lemma zlen_b64url l : (- zlen (b64url l)) mod 4 = (3 - zlen l mod 3) mod 3.
Proof.
  induction l as [|a|a b|a b c l IH] using triples_ind; [done..|]. rewrite zlen_mod3, <-IH. cbn [b64url].
  unfold zlen. cbn [length]. replace (- Z.of_nat (S (S (S (S (length (b64url l))))))) with (- Z.of_nat (length (b64url l)) + -1 * 4) by lia.
  apply Z_mod_plus_full.
Qed.

Lemma b64url_decodes k : b64_text (b64url k) /\ decode_public_key_b64 (b64url k) = Ok k.
Proof.
  split; [apply b64url_text|]. unfold decode_public_key_b64, urlsafe_b64decode.
  set (s := b64url k). pose proof (zlen_b64url k) as Hl. fold s in Hl.
  assert ((if negb (4 - zlen s mod 4 =? 4) then s ++ repeat 61 (Z.to_nat (4 - zlen s mod 4)) else s) = s ++ b64_pad k) as ->.
  { unfold b64_pad. rewrite <-Hl. destruct (decide (zlen s mod 4 = 0)) as [E|E].
    - rewrite E. rewrite Z.mod_opp_l_z by lia. cbn. by rewrite app_nil_r.
    - rewrite Z.mod_opp_l_nz by lia. by rewrite (proj2 (Z.eqb_neq _ 4)) by lia. }
  assert (forallb (fun c => c <? 128) (s ++ b64_pad k) = true) as ->; [|apply a2b_b64url].
  apply forallb_forall. intros x [Hx|Hx]%in_app_iff.
  - pose proof (b64url_text k) as Ht. apply list_elem_of_In in Hx. unfold b64_text in Ht. rewrite Forall_forall in Ht.
    apply Ht in Hx. lia.
  - by apply repeat_spec in Hx as ->.
Qed.

(** Keys survive their text form: the unpadded base64url text of any octets
    is plain ASCII without [=], and decoding it gives the octets back, whatever
    their number. *)
Theorem public_key_roundtrip k :
  b64_text (b64url k) /\ decode_public_key_b64 (b64url k) = Ok k.
Proof. apply b64url_decodes. Qed.

(** ** The key file *)

Section identity_properties.
Context `{HE : Ed25519} {HL : Ed25519Laws} (umask : Z).

(** The key [k] is in the file and nothing fails from here on. *)
Definition stored (p : path) (k : bytes) (s : keyring) : Prop :=
  calm (kr_world s)
  /\ exists c, fs_get (w_fs (kr_world s)) p = Some (NFile c) /\ pem_load c = Ok (PemEd25519 k).

Lemma wp_kr_sys {A} (m : M world A) (Q : res A -> keyring -> Prop) s :
  wp m (fun r w => Q r {| kr_world := w; kr_modes := kr_modes s |}) (kr_world s) -> wp (kr_sys m) Q s.
Proof. unfold wp, kr_sys. by destruct (m (kr_world s)). Qed.

(** Loading reads the file and changes nothing. *)
Lemma wp_load_key p s :
  calm (kr_world s) ->
  wp (load_key p) (fun r s' => calm (kr_world s') /\ w_fs (kr_world s') = w_fs (kr_world s) /\ kr_modes s' = kr_modes s
    /\ forall k, r = Ok k <-> stored p k s) s.
Proof.
  intros Hc. unfold load_key. wp_step. apply wp_kr_sys, wp_syscall.
  - intros e w' [_ Hc'] Hf [He|[]]; [|done]. split; [by apply Hc'|]. split; [done|]. split; [done|].
    intros k. split; [done|]. intros [_ (c & Hg & _)]. by rewrite Hg in He.
  - intros c w' [_ Hc'] Hop. destruct (fs_get _ p) as [[|c']|] eqn:Hg; [done| |done]. injection Hop as -> Hf.
    assert (forall k, pem_load c = Ok (PemEd25519 k) <-> stored p k s) as Hk.
    { intros k. unfold stored. rewrite Hg. split; [intros ?; by eauto|]. by intros [_ (? & [= <-] & ?)]. }
    wp_step. wp_step. destruct (pem_load c) as [[k|]|e]; [wp_step|wp_step|];
      (split; [by apply Hc'|]); (split; [done|]); (split; [done|]); intros k'; rewrite <-Hk;
      split; try done; by intros [= ->].
Qed.

Lemma wp_os_write p data w :
  open_at p [] [] w -> calm w ->
  wp (os_write p data) (fun r w' => r = Ok tt /\ calm w' /\ w_fs w' !! p = Some (NFile data)) w.
Proof.
  intros (Hp & Hf & Hb) Hc. unfold os_write. wp_step. apply wp_draw. intros o w' [Hp' Hc'] Hf' Ho.
  rewrite (Ho Hc). wp_step. split; [done|]. split; [by apply Hc'|]. unfold push. cbn.
  rewrite lookup_insert_eq, Hf', Hf. cbn. by rewrite lookup_insert_eq, firstn_all.
Qed.

Lemma wp_chmod p mode s :
  wp (chmod p mode) (fun r s' => w_fs (kr_world s') = w_fs (kr_world s) /\ (calm (kr_world s) -> calm (kr_world s'))
    /\ (r = Ok tt -> kr_modes s' !! p = Some mode)) s.
Proof.
  unfold chmod. wp_step. apply wp_kr_sys, wp_syscall.
  - intros e w' [_ Hc] Hf _. by split_and!.
  - intros [] w' [_ Hc] Hop. wp_step. split; [|split; [done|]]; cbn; [|by rewrite lookup_insert_eq].
    by destruct (fs_get _ p); simplify_eq.
Qed.

Lemma wp_os_open p mode s :
  calm (kr_world s) ->
  wp (os_open umask p mode) (fun r s' => forall h, r = Ok h ->
    h = p /\ calm (kr_world s') /\ open_at p [] [] (kr_world s')) s.
Proof.
  intros Hc. unfold os_open. wp_step. wp_step. wp_step. apply wp_kr_sys. eapply wp_mono; [apply wp_open_write|].
  intros r w' [Hc' Hr]. destruct r as [h|e]; [|done]. destruct Hr as (-> & _ & c & _ & Ho & ->).
  wp_step. destruct (w_fs (kr_world s) !! p).
  - repeat wp_step. intros h [= <-]. split; [done|]. split; [by apply Hc'|done].
  - repeat wp_step. intros h [= <-]. split; [done|]. split; [by apply Hc'|done].
Qed.

Lemma wp_generate fresh p s :
  calm (kr_world s) ->
  wp (generate_and_save umask fresh p) (fun r s' => forall k, r = Ok k ->
    k = fresh /\ stored p k s' /\ kr_modes s' !! p = Some KEY_FILE_MODE) s.
Proof.
  intros Hc. unfold generate_and_save. wp_step. apply wp_kr_sys. eapply wp_mono; [apply wp_mkdirs|].
  intros [[]|e] w1 ([_ Hc1] & _ & _); [|done]. wp_step.
  eapply wp_mono; [apply wp_os_open; cbn; by apply Hc1|]. intros [h|e] s2 H2; [|done].
  destruct (H2 h eq_refl) as (-> & Hc2 & Ho). wp_step. wp_step. apply wp_kr_sys.
  eapply wp_mono; [by apply wp_os_write|]. intros r w3 (-> & Hc3 & Hf3). wp_step.
  eapply wp_mono; [apply wp_chmod|]. cbn [kr_world]. intros [[]|e] s4 (Hf4 & Hc4 & Hm); [|done]. wp_step.
  intros k [= <-]. split; [done|]. split; [|by apply Hm]. split; [by apply Hc4|]. exists (pem_dump fresh).
  split; [|apply pem_load_dump]. rewrite Hf4. destruct Ho as (Hp & _). cbn. by rewrite fs_get_ne.
Qed.

(** A stored key is the one that is loaded. *)
Lemma wp_load_stored fresh p k s :
  stored p k s ->
  wp (load_or_generate umask fresh p) (fun r s' => r = Ok k /\ stored p k s' /\ kr_modes s' = kr_modes s
    /\ w_fs (kr_world s') = w_fs (kr_world s)) s.
Proof.
  intros [Hc (c & Hg & Hl)]. unfold load_or_generate. wp_step. apply wp_kr_sys, wp_syscall; [intros e w' _ _ [|[]]; done|].
  intros b w' [_ Hc'] [= <- Hf]. rewrite Hg. rewrite bool_decide_eq_true_2 by done. wp_step.
  eapply wp_mono; [apply wp_load_key; cbn; by apply Hc'|]. cbn [kr_world kr_modes]. intros r s' (Hc2 & Hf2 & Hm2 & Hk).
  assert (r = Ok k) as ->. { apply Hk. split; [by apply Hc'|]. exists c. cbn. by rewrite <-Hf. }
  split; [done|]. rewrite <-Hf in Hf2. split; [|by rewrite Hm2]. split; [done|]. exists c. by rewrite Hf2.
Qed.

(** The key in use is the stored one: found there, or put there. *)
Lemma wp_load_or_generate fresh p s :
  calm (kr_world s) ->
  wp (load_or_generate umask fresh p) (fun r s1 => forall k, r = Ok k -> stored p k s1
    /\ (stored p k s /\ w_fs (kr_world s1) = w_fs (kr_world s) /\ kr_modes s1 = kr_modes s
        \/ k = fresh /\ kr_modes s1 !! p = Some KEY_FILE_MODE)) s.
Proof.
  intros Hc. unfold load_or_generate. wp_step. apply wp_kr_sys, wp_exists; [|done].
  intros w' [_ Hc'] Hf. case_bool_decide.
  - wp_step. eapply wp_mono; [apply wp_load_key; cbn; by apply Hc'|]. cbn [kr_world kr_modes].
    intros [k|e] s2 (Hc2 & Hf2 & Hm2 & Hk).
    + intros ? [= <-]. destruct (proj1 (Hk k) eq_refl) as [_ (c & Hg & Hl)]. cbn in Hg. split.
      * split; [done|]. exists c. by rewrite Hf2.
      * left. split; [|by rewrite Hf2, Hf]. split; [done|]. exists c. by rewrite <-Hf.
    + eapply wp_mono; [by apply wp_generate|]. intros r s3 H3 k' Hr. apply H3 in Hr. naive_solver.
  - eapply wp_mono; [apply wp_generate; cbn; by apply Hc'|]. intros r s3 H3 k' Hr. apply H3 in Hr. naive_solver.
Qed.

(** C38. The device keeps its identity: when nothing fails and the manager was
    constructed, its key is the one in the key file; it is either the key that
    was stored before, the file being left alone, or the fresh key in a file
    of mode 0600; every later construction, whatever fresh key it would draw,
    gives the same manager and leaves the file alone; and what it signs
    verifies under the public key it publishes. *)
Theorem identity_persistent fresh p s m s' :
  calm (kr_world s) -> new_identity umask fresh p s = (Ok m, s') ->
  stored p (id_private_key m) s'
  /\ (stored p (id_private_key m) s /\ w_fs (kr_world s') = w_fs (kr_world s) /\ kr_modes s' = kr_modes s
      \/ id_private_key m = fresh /\ kr_modes s' !! p = Some KEY_FILE_MODE)
  /\ (forall fresh', exists s'', new_identity umask fresh' p s' = (Ok m, s'')
      /\ w_fs (kr_world s'') = w_fs (kr_world s') /\ kr_modes s'' = kr_modes s')
  /\ (forall message, verify (id_public_key_bytes m) message (sign m message) = true).
Proof.
  intros Hc Hrun. unfold new_identity in Hrun. apply mbind_inv in Hrun as (k & s1 & Hload & Hret).
  injection Hret as <- <-. cbn.
  destruct (wp_elim _ _ _ _ _ (wp_load_or_generate fresh p s Hc) Hload k eq_refl) as [Hst Hor].
  split; [done|]. split; [done|]. split.
  - intros fresh'. destruct (wp_run _ _ _ (wp_load_stored fresh' p k s1 Hst)) as (r & s'' & E & -> & _ & Hm & Hf).
    exists s''. unfold new_identity, mbind, M_bind. by rewrite E.
  - intros message. unfold verify, sign. cbn. by rewrite ed_sign_verify.
Qed.
End identity_properties.
