(* ===== verification/Discovery.v ===== *)
(** * Peer discovery: [core/discovery.py]

    The registry of peers found by mDNS and the notifications of its listeners.
    [zeroconf] is outside: a resolved service is the record [ServiceInfo] of what
    the code reads from [AsyncServiceInfo].  A change is handled in two steps,
    since the handler waits for the service to be resolved before it takes the
    lock; between them anything may happen. *)
From S2P Require Import Prelude PyStr.

Definition PROTOCOL_VERSION : Z := 1.

Record ServiceInfo := {
  si_properties : list (bytes * option bytes);
  si_v4 : list pystr;              (** [parsed_scoped_addresses(V4Only)] *)
  si_v6 : list pystr;
  si_port : option Z;
  si_name : pystr
}.

Record DiscoveredDevice := {
  dd_device_id : pystr; dd_device_name : pystr; dd_device_type : pystr; dd_os_name : pystr;
  dd_protocol_version : Z; dd_addresses : list pystr; dd_port : option Z; dd_service_name : pystr;
  dd_last_seen : Z; dd_is_available : bool }.

Definition set_available (b : bool) (d : DiscoveredDevice) : DiscoveredDevice :=
  {| dd_device_id := dd_device_id d; dd_device_name := dd_device_name d; dd_device_type := dd_device_type d;
     dd_os_name := dd_os_name d; dd_protocol_version := dd_protocol_version d; dd_addresses := dd_addresses d;
     dd_port := dd_port d; dd_service_name := dd_service_name d; dd_last_seen := dd_last_seen d;
     dd_is_available := b |}.

(** [get_prop(key, default)]: a missing or empty-valued ([None]) key gives the default. *)
Definition get_prop (props : list (bytes * option bytes)) (key : string) (dflt : pystr) : pystr :=
  match aget (map z2b (u key)) props with
  | Some (Some val) => utf8_decode_replace val
  | _ => dflt
  end.

(** [for addr in found: if addr not in addresses and not addr.startswith(loop): append] *)
Definition collect (loop : pystr) (found addresses : list pystr) : list pystr :=
  fold_left (fun acc addr => if negb (bool_decide (addr ∈ acc)) && negb (starts_with loop addr)
                             then acc ++ [addr] else acc) found addresses.

Definition LOOP4 : pystr := u "127.".
Definition LOOP6 : pystr := u "::1".

Definition from_service_info (now : Z) (info : ServiceInfo) : option DiscoveredDevice :=
  let props := si_properties info in
  if bool_decide (props = []) then None
  else
    match int_of_str 10 (get_prop props "v" (u "1")) with
    | Err _ => None
    | Ok proto_ver =>
        if negb (proto_ver =? PROTOCOL_VERSION) then None
        else
          let device_id := get_prop props "id" [] in
          if bool_decide (device_id = []) then None
          else
            let addresses := collect LOOP6 (si_v6 info) (collect LOOP4 (si_v4 info) []) in
            if bool_decide (addresses = []) then None
            else Some {| dd_device_id := device_id;
                         dd_device_name := get_prop props "name" (u "Unknown Raven Peer");
                         dd_device_type := get_prop props "type" (u "unknown");
                         dd_os_name := get_prop props "os" (u "unknown");
                         dd_protocol_version := proto_ver; dd_addresses := addresses;
                         dd_port := si_port info; dd_service_name := si_name info;
                         dd_last_seen := now; dd_is_available := true |}
    end.

(** ** The manager *)

(** [dm_sent] are the calls made to listeners, oldest first. *)
Record DiscoveryManager := {
  dm_own_id : pystr;
  dm_azc : bool;
  dm_service_info : bool;
  dm_browser : bool;
  dm_devices : list (pystr * DiscoveredDevice);
  dm_service_to_device : list (pystr * pystr);
  dm_listeners : list nat;
  dm_is_running : bool;
  dm_sent : list (nat * list DiscoveredDevice)
}.

Definition new_discovery (own_id : pystr) : DiscoveryManager :=
  {| dm_own_id := own_id; dm_azc := false; dm_service_info := false; dm_browser := false; dm_devices := [];
     dm_service_to_device := []; dm_listeners := []; dm_is_running := false; dm_sent := [] |}.

Definition with_devices (d : list (pystr * DiscoveredDevice)) (s : list (pystr * pystr)) (m : DiscoveryManager)
  : DiscoveryManager :=
  {| dm_own_id := dm_own_id m; dm_azc := dm_azc m; dm_service_info := dm_service_info m; dm_browser := dm_browser m;
     dm_devices := d; dm_service_to_device := s; dm_listeners := dm_listeners m; dm_is_running := dm_is_running m;
     dm_sent := dm_sent m |}.
Definition with_listeners (l : list nat) (m : DiscoveryManager) : DiscoveryManager :=
  {| dm_own_id := dm_own_id m; dm_azc := dm_azc m; dm_service_info := dm_service_info m; dm_browser := dm_browser m;
     dm_devices := dm_devices m; dm_service_to_device := dm_service_to_device m; dm_listeners := l;
     dm_is_running := dm_is_running m; dm_sent := dm_sent m |}.
Definition with_running (b : bool) (m : DiscoveryManager) : DiscoveryManager :=
  {| dm_own_id := dm_own_id m; dm_azc := b; dm_service_info := b; dm_browser := b; dm_devices := dm_devices m;
     dm_service_to_device := dm_service_to_device m; dm_listeners := dm_listeners m; dm_is_running := b;
     dm_sent := dm_sent m |}.
Definition send_to (who : list nat) (devices : list DiscoveredDevice) (m : DiscoveryManager) : DiscoveryManager :=
  {| dm_own_id := dm_own_id m; dm_azc := dm_azc m; dm_service_info := dm_service_info m; dm_browser := dm_browser m;
     dm_devices := dm_devices m; dm_service_to_device := dm_service_to_device m; dm_listeners := dm_listeners m;
     dm_is_running := dm_is_running m; dm_sent := dm_sent m ++ map (fun l => (l, devices)) who |}.

Definition get_devices (m : DiscoveryManager) : list DiscoveredDevice :=
  List.filter dd_is_available (dm_devices m).*2.

Definition get_device (device_id : pystr) (m : DiscoveryManager) : option DiscoveredDevice :=
  match aget device_id (dm_devices m) with
  | Some dev => if dd_is_available dev then Some dev else None
  | None => None
  end.

(** An exception of a listener is logged and changes nothing here. *)
Definition notify_listeners (m : DiscoveryManager) : DiscoveryManager := send_to (dm_listeners m) (get_devices m) m.

(** The listeners are a set; a new one is called at once (what it raises goes to
    the caller). *)
Definition add_listener (callback : nat) (m : DiscoveryManager) : DiscoveryManager :=
  let m := if bool_decide (callback ∈ dm_listeners m) then m else with_listeners (dm_listeners m ++ [callback]) m in
  send_to [callback] (get_devices m) m.
Definition remove_listener (callback : nat) (m : DiscoveryManager) : DiscoveryManager :=
  with_listeners (List.filter (fun l => negb (l =? callback)%nat) (dm_listeners m)) m.

(** [start], when zeroconf raises nothing. *)
Definition start (m : DiscoveryManager) : DiscoveryManager := if dm_is_running m then m else with_running true m.

(** [_async_handle_state_change] up to the wait, for an added or updated
    service: whether it goes on to resolve it. *)
Definition wants_resolution (m : DiscoveryManager) : bool := dm_azc m && dm_is_running m.

(** The rest of it, once the service [name] was resolved. *)
Definition service_resolved (now : Z) (name : pystr) (info : ServiceInfo) (m : DiscoveryManager) : DiscoveryManager :=
  match from_service_info now info with
  | None => m
  | Some device =>
      if bool_decide (dd_device_id device = dm_own_id m) then m
      else notify_listeners (with_devices (aset (dd_device_id device) device (dm_devices m))
                                          (aset name (dd_device_id device) (dm_service_to_device m)) m)
  end.

(** A removed service; the device stays in the registry, not available. *)
Definition service_removed (name : pystr) (m : DiscoveryManager) : DiscoveryManager :=
  if negb (dm_azc m) || negb (dm_is_running m) then m
  else
    match aget name (dm_service_to_device m) with
    | None => m
    | Some device_id =>
        let m := with_devices (dm_devices m) (adel name (dm_service_to_device m)) m in
        if bool_decide (device_id = []) then m
        else match aget device_id (dm_devices m) with
             | None => m
             | Some dev => notify_listeners (with_devices (aset device_id (set_available false dev) (dm_devices m))
                                                          (dm_service_to_device m) m)
             end
    end.

(** [stop], when closing the browser and zeroconf raises nothing. *)
Definition stop (m : DiscoveryManager) : DiscoveryManager :=
  if negb (dm_is_running m) then m
  else notify_listeners (with_devices [] [] (with_running false m)).

(** ** Runs *)

Inductive event :=
  | EStart | EStop
  | EListen (l : nat) | EUnlisten (l : nat)
  | EChange (name : pystr)                                (** added or updated: asks for the service *)
  | EResolved (now : Z) (name : pystr) (info : ServiceInfo)
  | ERemoved (name : pystr).

(** The manager and the services whose resolution is awaited. *)
Definition dstate : Type := DiscoveryManager * list pystr.
Definition handle (e : event) (s : dstate) : dstate :=
  let '(m, pending) := s in
  match e with
  | EStart => (start m, pending)
  | EStop => (stop m, pending)
  | EListen l => (add_listener l m, pending)
  | EUnlisten l => (remove_listener l m, pending)
  | EChange name => (m, if wants_resolution m then name :: pending else pending)
  | EResolved now name info =>
      if bool_decide (name ∈ pending)
      then (service_resolved now name info m, List.filter (fun n => negb (bool_decide (n = name))) pending)
      else (m, pending)
  | ERemoved name => (service_removed name m, pending)
  end.
Definition discovery_after (own_id : pystr) (evs : list event) : dstate :=
  fold_left (fun s e => handle e s) evs (new_discovery own_id, []).

(** ** What a resolved service becomes *)

Lemma collect_spec loop found acc :
  NoDup acc -> NoDup (collect loop found acc)
  /\ forall a, a ∈ collect loop found acc <-> a ∈ acc \/ a ∈ found /\ starts_with loop a = false.
Proof.
  unfold collect. revert acc; induction found as [|x found IH]; intros acc Hn; cbn [fold_left].
  { split; [done|]. intros a. set_solver. }
  case_bool_decide as Hx; cbn [negb andb].
  { destruct (IH acc Hn) as [? H]. split; [done|]. intros a. rewrite H, elem_of_cons.
    split; [intros [?|[]]; eauto|]. intros [?|[[->|?] ?]]; eauto. }
  destruct (starts_with loop x) eqn:Ex; cbn [negb].
  { destruct (IH acc Hn) as [? H]. split; [done|]. intros a. rewrite H, elem_of_cons.
    split; [intros [?|[]]; eauto|]. intros [?|[[->|?] ?]]; eauto. congruence. }
  assert (NoDup (acc ++ [x])) as Hn'.
  { apply NoDup_app. split; [done|]. split; [|apply NoDup_singleton]. by intros y Hy ->%list_elem_of_singleton. }
  destruct (IH _ Hn') as [? H]. split; [done|]. intros a. rewrite H, elem_of_app, list_elem_of_singleton, elem_of_cons.
  naive_solver.
Qed.

(** The addresses a service can be reached at. *)
Definition reachable_at (info : ServiceInfo) (a : pystr) : Prop :=
  a ∈ si_v4 info /\ starts_with LOOP4 a = false \/ a ∈ si_v6 info /\ starts_with LOOP6 a = false.

(** A device as some service announced it. *)
Definition announced (own_id : pystr) (info : ServiceInfo) (d : DiscoveredDevice) : Prop :=
  dd_device_id d = get_prop (si_properties info) "id" [] /\ dd_device_id d <> [] /\ dd_device_id d <> own_id
  /\ dd_protocol_version d = PROTOCOL_VERSION
  /\ dd_addresses d <> [] /\ NoDup (dd_addresses d) /\ (forall a, a ∈ dd_addresses d <-> reachable_at info a)
  /\ dd_port d = si_port info /\ dd_service_name d = si_name info.

Lemma from_service_info_announced own_id now info d :
  from_service_info now info = Some d -> dd_device_id d <> own_id -> announced own_id info d.
Proof.
  unfold from_service_info. intros H Hown. destruct (bool_decide (si_properties info = [])); [done|].
  destruct (int_of_str _ _) as [v|]; [|done]. destruct (negb (v =? PROTOCOL_VERSION)) eqn:Ev; [done|].
  do 2 (case_bool_decide; [done|]). injection H as <-. cbn in *. unfold announced. cbn.
  destruct (collect_spec LOOP4 (si_v4 info) [] (NoDup_nil_2)) as [Hn4 H4].
  destruct (collect_spec LOOP6 (si_v6 info) _ Hn4) as [Hn6 H6].
  split_and!; try done; [bool_prop; lia|]. intros a. rewrite H6, H4. unfold reachable_at. set_solver.
Qed.

(** ** The invariant of a run *)

(** The last call made to a listener. *)
Definition last_sent (l : nat) (sent : list (nat * list DiscoveredDevice)) : option (list DiscoveredDevice) :=
  snd <$> last (List.filter (fun p => (p.1 =? l)%nat) sent).

Record dinv (own_id : pystr) (evs : list event) (m : DiscoveryManager) : Prop := {
  di_own : dm_own_id m = own_id;
  di_keys : NoDup (dm_devices m).*1;
  di_devices : forall id d, (id, d) ∈ dm_devices m -> id = dd_device_id d
    /\ exists now name info, EResolved now name info ∈ evs /\ announced own_id info d;
  di_view : forall l, l ∈ dm_listeners m -> last_sent l (dm_sent m) = Some (get_devices m)
}.

Lemma last_sent_all l who ds sent : l ∈ who -> last_sent l (sent ++ map (fun l => (l, ds)) who) = Some ds.
Proof.
  intros Hl. unfold last_sent. rewrite List.filter_app.
  assert (exists k, List.filter (fun p : nat * list DiscoveredDevice => (p.1 =? l)%nat) (map (fun l => (l, ds)) who) = repeat (l, ds) (S k)) as [k ->].
  { induction who as [|x who IH]; [set_solver|]. cbn. destruct (Nat.eqb_spec x l) as [->|Hne].
    - destruct (decide (l ∈ who)) as [Hin|Hout].
      + destruct (IH Hin) as [k ->]. by exists (S k).
      + exists 0%nat. cbn. f_equal. clear -Hout. induction who as [|y who IH]; [done|]. cbn.
        apply not_elem_of_cons in Hout as [? Ho]. destruct (Nat.eqb_spec y l); [congruence|]. auto.
    - apply IH. set_solver. }
  cbn [repeat]. by rewrite repeat_cons, app_assoc, last_snoc.
Qed.

Lemma last_sent_other l who ds sent : l ∉ who -> last_sent l (sent ++ map (fun l => (l, ds)) who) = last_sent l sent.
Proof.
  intros Hl. unfold last_sent. rewrite List.filter_app.
  assert (List.filter (fun p : nat * list DiscoveredDevice => (p.1 =? l)%nat) (map (fun l => (l, ds)) who) = []) as ->; [|by rewrite app_nil_r].
  induction who as [|x who IH]; [done|]. cbn. apply not_elem_of_cons in Hl as [? Hl].
  destruct (Nat.eqb_spec x l); [congruence|auto].
Qed.

(** Notifying brings every listener up to date. *)
Lemma dinv_notify own_id evs m :
  dm_own_id m = own_id -> NoDup (dm_devices m).*1 ->
  (forall id d, (id, d) ∈ dm_devices m -> id = dd_device_id d
    /\ exists now name info, EResolved now name info ∈ evs /\ announced own_id info d) ->
  dinv own_id evs (notify_listeners m).
Proof. intros. split; try done. cbn. intros l Hl. by apply last_sent_all. Qed.

Lemma dinv_step own_id evs e s :
  dinv own_id evs s.1 -> dinv own_id (evs ++ [e]) (handle e s).1.
Proof.
  destruct s as [m pending]. cbn [fst]. intros Hinv.
  assert (dinv own_id (evs ++ [e]) m) as Hm.
  { destruct Hinv as [Ho Hk Hd Hv]. split; try done. intros id d (? & now & name & info & ? & ?)%Hd.
    split; [done|]. exists now, name, info. set_solver. }
  destruct Hm as [Ho Hk Hd Hv]. destruct e; cbn.
  - unfold start. destruct (dm_is_running m); by split.
  - unfold stop. destruct (negb _); [by split|]. apply dinv_notify; cbn; [done|constructor|]. set_solver.
  - unfold add_listener. set (m' := if bool_decide _ then m else _).
    assert (dm_own_id m' = dm_own_id m /\ dm_devices m' = dm_devices m /\ dm_sent m' = dm_sent m
      /\ forall x, x ∈ dm_listeners m' -> x = l \/ x ∈ dm_listeners m) as (E1 & E2 & E3 & E4).
    { subst m'. case_bool_decide; cbn; split_and!; try done; set_solver. }
    assert (get_devices m' = get_devices m) as Eg by (unfold get_devices; by rewrite E2).
    split; cbn; rewrite ?E1, ?E2, ?E3; try done. intros x Hx.
    change (get_devices (send_to _ _ _)) with (get_devices m'). rewrite Eg.
    destruct (decide (x = l)) as [->|Hne]; [by apply (last_sent_all l [l]); set_solver|].
    etrans; [apply (last_sent_other x [l]); set_solver|]. apply Hv. by destruct (E4 x Hx).
  - split; try done. cbn. intros l' [Hl' _]%list_elem_of_In%filter_In. apply Hv. by apply list_elem_of_In.
  - by split.
  - case_bool_decide; [|by split]. unfold service_resolved. destruct (from_service_info now info) as [d|] eqn:Ed; [|by split].
    case_bool_decide as Hown; [by split|]. apply dinv_notify; cbn; [done|by apply NoDup_aset|].
    intros id d' [[-> ->]|Hin]%elem_of_aset; [|by apply Hd]. split; [done|]. exists now, name, info. split; [set_solver|].
    eapply from_service_info_announced; [done|congruence].
  - unfold service_removed. destruct (_ || _); [by split|]. destruct (aget name _) as [id|]; [|by split].
    case_bool_decide; [by split|]. cbn [with_devices dm_devices].
    destruct (aget id (dm_devices m)) as [d|] eqn:Ed; [|by split].
    apply dinv_notify; cbn; [done|by apply NoDup_aset|].
    intros id' d' [[-> ->]|Hin]%elem_of_aset; [|by apply Hd]. destruct (Hd id d (aget_elem_of _ _ _ Ed)) as [-> Ha]. by split.
Qed.

Lemma dinv_run own_id evs : dinv own_id evs (discovery_after own_id evs).1.
Proof.
  unfold discovery_after. induction evs as [|e evs IH] using rev_ind.
  - split; cbn; try done; [constructor|set_solver|set_solver].
  - rewrite fold_left_app. cbn. by apply dinv_step.
Qed.

(** C39. The registry of peers, after any sequence of mDNS events, listener
    changes, starts and stops, in any order of their completion: a peer that
    [get_device] returns is one that [get_devices] lists, and conversely; it
    carries the id, port and name that a resolved service announced, speaks the
    protocol version of this device, is not this device itself, and has at least
    one address, exactly those of the service which are not loopback, each once;
    and every registered listener was last told the present list. *)
Theorem discovery_sound own_id evs :
  let m := (discovery_after own_id evs).1 in
  (forall id d, get_device id m = Some d <-> d ∈ get_devices m /\ dd_device_id d = id)
  /\ (forall d, d ∈ get_devices m -> dd_is_available d = true
        /\ exists now name info, EResolved now name info ∈ evs /\ announced own_id info d)
  /\ (forall l, l ∈ dm_listeners m -> last_sent l (dm_sent m) = Some (get_devices m)).
Proof.
  destruct (dinv_run own_id evs) as [Ho Hk Hd Hv]. cbn zeta. set (m := (discovery_after own_id evs).1) in *.
  assert (forall d, d ∈ get_devices m <-> dd_is_available d = true /\ exists id, (id, d) ∈ dm_devices m) as Hg.
  { intros d. unfold get_devices. rewrite list_elem_of_In, filter_In, <-list_elem_of_In, list_elem_of_fmap.
    split; [intros [([id d'] & -> & ?) ?]; eauto|intros [? [id ?]]; split; [by exists (id, d)|done]]. }
  split_and!; [|intros d [Ha [id [? ?]%Hd]]%Hg; eauto|done].
  intros id d. rewrite Hg. unfold get_device. split.
  - intros H. destruct (aget id (dm_devices m)) as [d'|] eqn:E; [|done].
    destruct (dd_is_available d') eqn:Ea; [|done]. injection H as ->. apply aget_elem_of in E.
    split; [|by destruct (Hd _ _ E)]. eauto.
  - intros [[Ha [id' Hin]] <-]. destruct (Hd _ _ Hin) as [-> _].
    rewrite (aget_In _ _ _ Hk Hin). by rewrite Ha.
Qed.

(** A service that is resolved after [stop] enters the registry of a stopped
    manager: the handler does not look at [_is_running] again once it waited. *)
Lemma late_resolution_survives_stop :
  let info := {| si_properties := [(map z2b (u "id"), Some (map z2b (u "peer")))]; si_v4 := [u "10.0.0.2"]; si_v6 := [];
                 si_port := Some 53770; si_name := u "x" |} in
  let m := (discovery_after (u "me") [EStart; EChange (u "x"); EStop; EResolved 0 (u "x") info]).1 in
  dm_is_running m = false /\ map dd_device_id (get_devices m) = [u "peer"].
Proof. vm_compute. done. Qed.
