(* ===== verification/Advert.v ===== *)
(** * The own advertisement: [core/discovery.py], [start]

    What this device announces by mDNS -- its addresses, properties and name --
    and what another device makes of it.  [ifaddr] and [zeroconf] are outside:
    the interfaces of the host are an argument, and a resolved service is related
    to what was registered by [carries]. *)
From S2P Require Import Prelude PyStr Json Config Discovery.

(** ** Addresses *)

(** [socket.inet_ntoa] of four octets, and [socket.inet_aton] of a dotted quad
    (the other forms that it accepts are no text of an interface). *)
Definition inet_ntoa (packed : bytes) : pystr := join (u ".") (map (fun b => dec_pos (b2z b)) packed).
Definition octet (s : pystr) : option Z :=
  let v := dec_val 0 s in if (0 <=? v) && (v <? 256) && bool_decide (s = dec_pos v) then Some v else None.
Definition inet_aton (s : pystr) : res bytes :=
  match mapM octet (split 46 s) with
  | Some ([_; _; _; _] as l) => Ok (map z2b l)
  | _ => Err OSError
  end.

(** An address of an adapter, as [ifaddr] gives it. *)
Record ip_info := { ip_is_IPv4 : bool; ip_text : pystr }.

Definition DOCKER : pystr := u "172.17.".
(** The loop over the adapters: an exception ends it and keeps what was found. *)
Fixpoint local_addresses (ips : list ip_info) (addrs : list bytes) : list bytes :=
  match ips with
  | [] => addrs
  | i :: ips =>
      if ip_is_IPv4 i && negb (starts_with LOOP4 (ip_text i)) && negb (starts_with DOCKER (ip_text i)) then
        match inet_aton (ip_text i) with
        | Err _ => addrs
        | Ok packed => local_addresses ips (if bool_decide (packed ∈ addrs) then addrs else addrs ++ [packed])
        end
      else local_addresses ips addrs
  end.
(** [adapters] is [None] when [ifaddr] cannot be used; [route] is the own address
    of a datagram socket connected to the outside, if there is a route. *)
Definition get_local_ip_addresses (adapters : option (list (list ip_info))) (route : option pystr) : list bytes :=
  let addrs := match adapters with Some l => local_addresses (concat l) [] | None => [] end in
  match addrs, route with
  | [], Some name => match inet_aton name with Ok packed => [packed] | Err _ => [] end
  | _, _ => addrs
  end.

(** ** The advertisement *)

Definition SERVICE_TYPE : pystr := u "_ferry._tcp.local.".

(** The arguments of [AsyncServiceInfo]. *)
Record Advertisement := {
  ad_type : pystr; ad_name : pystr; ad_port : json; ad_properties : list (bytes * bytes);
  ad_addresses : list bytes; ad_server : pystr
}.

(** [value[:8] if value else "host"]: only a text comes through [encode] later. *)
Definition instance_id (value : json) : res pystr :=
  if negb (py_bool value) then Ok (u "host")
  else match value with
       | JStr s => Ok (take 8 s)
       | JArr _ => Ok []
       | JObj _ => Err KeyError
       | _ => Err TypeError
       end.
(** [value.encode("utf-8")] *)
Definition encode_json (value : json) : res bytes := match value with JStr s => utf8_encode s | _ => Err AttributeError end.

Definition octets_of_loopback : bytes := map z2b [127; 0; 0; 1].
Definition octets (s : string) : bytes := map z2b (u s).

Definition advertise `{PyRepr} (config : FerryConfig) (local_addrs : list bytes) (hostname : pystr) : res Advertisement :=
  instance_id ← instance_id (c_device_id config);
  id ← encode_json (c_device_id config);
  name ← encode_json (c_device_name config);
  port_text ← py_str (c_listen_port config);
  port ← utf8_encode port_text;
  loopback ← inet_aton (u "127.0.0.1");
  Ok {| ad_type := SERVICE_TYPE; ad_name := u "Ferry-" ++ instance_id ++ u "." ++ SERVICE_TYPE;
        ad_port := c_listen_port config;
        ad_properties := [(octets "v", octets "1"); (octets "id", id); (octets "name", name);
                          (octets "type", octets "desktop"); (octets "os", octets "archlinux"); (octets "port", port);
                          (octets "app_version", octets "0.1.0")];
        ad_addresses := match local_addrs with [] => [loopback] | _ => local_addrs end;
        ad_server := hostname ++ u ".local." |}.

(** ** What is resolved

    [zeroconf] resolves a service to what was registered: the properties, the
    name, the port and the texts of the IPv4 addresses. *)
Definition carries (ad : Advertisement) (info : ServiceInfo) : Prop :=
  si_properties info = map (fun kv : bytes * bytes => (kv.1, Some kv.2)) (ad_properties ad)
  /\ si_v4 info = map inet_ntoa (ad_addresses ad) /\ si_v6 info = []
  /\ (forall z, ad_port ad = JInt z -> si_port info = Some z) /\ si_name info = ad_name ad.

(** ** Lemmas *)

Lemma dec_pos_no_dot z : 0 <= z -> 46 ∉ dec_pos z.
Proof.
  intros Hz H. destruct (dec_pos_spec z Hz) as (Hd & _). rewrite forallb_forall in Hd. apply list_elem_of_In in H.
  by apply Hd in H.
Qed.
Lemma octet_dec b : octet (dec_pos (b2z b)) = Some (b2z b).
Proof.
  pose proof (b2z_range b) as Hb. destruct (dec_pos_spec (b2z b) ltac:(lia)) as (_ & _ & Hv & _). unfold octet. rewrite Hv.
  rewrite bool_decide_eq_true_2 by done. by replace (_ && _)%bool with true by lia.
Qed.
Lemma inet_aton_ntoa packed : length packed = 4%nat -> inet_aton (inet_ntoa packed) = Ok packed.
Proof.
  intros H. unfold inet_aton, inet_ntoa. change (u ".") with [46]. rewrite split_join; [|by destruct packed|].
  - assert (mapM octet (map (fun b => dec_pos (b2z b)) packed) = Some (map b2z packed)) as ->.
    { apply mapM_Some. clear H. induction packed as [|b l IH]; constructor; [apply octet_dec|exact IH]. }
    destruct packed as [|a [|b [|c [|d [|]]]]]; try done. cbn. by rewrite !z2b_b2z.
  - apply Forall_forall. intros w (b & <- & _)%list_elem_of_In%in_map_iff. apply dec_pos_no_dot. pose proof (b2z_range b). lia.
Qed.

(** Every address has four octets and is of an interface, neither of the
    loopback nor of the bridge of containers. *)
Definition outward (ips : list ip_info) (packed : bytes) : Prop :=
  exists i, i ∈ ips /\ ip_is_IPv4 i = true /\ starts_with LOOP4 (ip_text i) = false /\ starts_with DOCKER (ip_text i) = false
  /\ inet_aton (ip_text i) = Ok packed.

Lemma join_split sep s : join [sep] (split sep s) = s.
Proof.
  induction s as [|c s IH]; [done|]. cbn [split]. assert (split sep s <> []) as Hne.
  { destruct s; cbn; [done|]. case_match; [done|]. by case_match. }
  destruct (Z.eqb_spec c sep) as [->|_].
  - destruct (split sep s) as [|w l]; [done|]. change (join [sep] ([] :: w :: l)) with (sep :: join [sep] (w :: l)). by rewrite IH.
  - destruct (split sep s) as [|w [|w' l]]; [done|by rewrite <-IH|].
    change (join [sep] ((c :: w) :: w' :: l)) with (c :: join [sep] (w :: w' :: l)). by rewrite IH.
Qed.
Lemma inet_aton_Ok s packed : inet_aton s = Ok packed -> length packed = 4%nat /\ inet_ntoa packed = s.
Proof.
  unfold inet_aton. destruct (mapM octet (split 46 s)) as [l|] eqn:E; [|done]. apply mapM_Some in E. intros H.
  assert (packed = map z2b l /\ length l = 4%nat) as [-> Hl] by (destruct l as [|a [|b [|c [|d [|]]]]]; try done; by injection H as <-).
  split; [by rewrite length_map|]. unfold inet_ntoa. rewrite map_map. transitivity (join [46] (split 46 s)); [|apply join_split].
  f_equal. clear H Hl. induction E as [|w z ws zs Hw _ IH]; [done|]. cbn [map]. rewrite IH. f_equal. unfold octet in Hw.
  destruct (_ && _) eqn:Eb; [|done]. injection Hw as Hz.
  apply andb_true_iff in Eb as [[H0 Hlt]%andb_true_iff Ew%bool_decide_eq_true]. rewrite <-Hz, b2z_z2b_small by lia. done.
Qed.

Lemma local_addresses_spec ips : forall addrs all, (forall i, i ∈ ips -> i ∈ all) ->
  NoDup addrs -> (forall p, p ∈ addrs -> outward all p) ->
  NoDup (local_addresses ips addrs) /\ forall p, p ∈ local_addresses ips addrs -> outward all p.
Proof.
  induction ips as [|i ips IH]; intros addrs all Hall Hn Ha; cbn [local_addresses]; [done|].
  assert (forall j, j ∈ ips -> j ∈ all) as Hall' by (intros j Hj; by apply Hall, list_elem_of_further).
  destruct (_ && _) eqn:Ei; [|by apply IH]. apply andb_true_iff in Ei as [[H4 Hl%negb_true_iff]%andb_true_iff Hd%negb_true_iff].
  destruct (inet_aton (ip_text i)) as [packed|] eqn:Ep; [|done]. case_bool_decide as Hin; [by apply IH|]. apply IH; [done|..].
  - apply NoDup_app. split; [done|]. split; [|apply NoDup_singleton]. by intros x Hx ->%list_elem_of_singleton.
  - intros p [Hp|Hp%list_elem_of_singleton]%elem_of_app; [by apply Ha|subst p]. exists i. split_and!; try done. apply Hall, list_elem_of_here.
Qed.

(** The texts of the addresses, when none is a loopback address, are what another
    device collects. *)
Lemma collect_all loop l : forall acc, NoDup (acc ++ l) -> Forall (fun a => starts_with loop a = false) l -> collect loop l acc = acc ++ l.
Proof.
  unfold collect. induction l as [|x l IH]; intros acc Hn Hl; [by rewrite app_nil_r|]. inversion_clear Hl as [|? ? Hx Hl']. cbn [fold_left].
  assert (x ∉ acc) as Hnot.
  { apply NoDup_app in Hn as (_ & Hn & _). intros Hx'. apply (Hn x Hx'), list_elem_of_here. }
  rewrite bool_decide_eq_false_2, Hx by done. cbn [negb andb]. rewrite IH; [by rewrite <-app_assoc|by rewrite <-app_assoc|done].
Qed.

Lemma utf8_replace_encode s b : utf8_encode s = Ok b -> utf8_decode_replace b = s.
Proof.
  intros [Hs ->]%utf8_encode_Ok. unfold utf8_decode_replace. rewrite <-(app_nil_r (concat _)), utf8_dec_concat by done. cbn. by rewrite app_nil_r.
Qed.

Section discovered.
Context `{HR : PyRepr}.
Context (config : FerryConfig) (adapters : option (list (list ip_info))) (route : option pystr) (hostname : pystr).
(** A datagram to the outside never leaves from a loopback address. *)
Hypothesis route_outside : forall name, route = Some name -> starts_with LOOP4 name = false.

Notation addrs := (get_local_ip_addresses adapters route).

Lemma addrs_spec : NoDup addrs /\ forall p, p ∈ addrs -> length p = 4%nat /\ starts_with LOOP4 (inet_ntoa p) = false.
Proof.
  assert (forall l : list (list ip_info), NoDup (local_addresses (concat l) [])
    /\ forall p, p ∈ local_addresses (concat l) [] -> length p = 4%nat /\ starts_with LOOP4 (inet_ntoa p) = false) as Hl.
  { intros l. destruct (local_addresses_spec (concat l) [] (concat l)) as [Hn H]; [done|constructor|by intros p ?%elem_of_nil|].
    split; [done|]. intros p (i & _ & _ & Hi & _ & [H1 H2]%inet_aton_Ok)%H. by rewrite H2. }
  unfold get_local_ip_addresses. set (found := match adapters with Some l => _ | None => _ end).
  assert (NoDup found /\ forall p, p ∈ found -> length p = 4%nat /\ starts_with LOOP4 (inet_ntoa p) = false) as Hf.
  { unfold found. destruct adapters as [l|]; [apply Hl|]. split; [constructor|by intros p ?%elem_of_nil]. }
  destruct found as [|p0 l0]; [|done]. destruct route as [name|] eqn:Er; [|done].
  destruct (inet_aton name) as [packed|] eqn:Ep; [|done]. split; [apply NoDup_singleton|].
  intros p ->%list_elem_of_singleton. apply inet_aton_Ok in Ep as [H1 H2]. rewrite H2. auto.
Qed.
Lemma inet_ntoa_texts l : NoDup l -> (forall p, p ∈ l -> length p = 4%nat) -> NoDup (map inet_ntoa l).
Proof.
  induction 1 as [|p l Hp _ IH]; intros H4; cbn [map]; [constructor|]. constructor.
  - intros (q & E & Hq%list_elem_of_In)%list_elem_of_In%in_map_iff. apply Hp.
    assert (inet_aton (inet_ntoa q) = inet_aton (inet_ntoa p)) as H by (by rewrite E).
    rewrite !inet_aton_ntoa in H; [by injection H as <-|apply H4, list_elem_of_here|by apply H4, list_elem_of_further].
  - apply IH. intros q Hq. by apply H4, list_elem_of_further.
Qed.

Lemma advertise_Ok ad :
  advertise config addrs hostname = Ok ad ->
  exists id name idb nameb port, c_device_id config = JStr id /\ c_device_name config = JStr name
  /\ utf8_encode id = Ok idb /\ utf8_encode name = Ok nameb /\ ad_port ad = c_listen_port config
  /\ ad_properties ad = [(octets "v", octets "1"); (octets "id", idb); (octets "name", nameb); (octets "type", octets "desktop");
                         (octets "os", octets "archlinux"); (octets "port", port); (octets "app_version", octets "0.1.0")]
  /\ ad_addresses ad = match addrs with [] => [octets_of_loopback] | _ => addrs end.
Proof.
  unfold advertise. intros (inst & _ & (idb & Hid & (nameb & Hn & (pt & _ & (port & _ & H)%bind_Ok)%bind_Ok)%bind_Ok)%bind_Ok)%bind_Ok.
  destruct (c_device_id config) as [| | | |id| |]; try done. destruct (c_device_name config) as [| | | |name| |]; try done.
  injection H as <-. by exists id, name, idb, nameb, port.
Qed.

(** C40. What this device announces is what others find: if zeroconf resolves the
    service to what [start] registered, then another device with a different id
    reads it as a device of this id and name, a desktop, at this port and at
    exactly the addresses of this host -- each once, in order, none of the
    loopback -- and lists it from then on; a host without such an address
    announces itself on the loopback, which nobody else takes; and this device
    ignores its own announcement.  An id or name that is no text is not
    announced at all. *)
Theorem advertised_is_discovered ad info now :
  advertise config addrs hostname = Ok ad -> carries ad info ->
  exists id name, c_device_id config = JStr id /\ c_device_name config = JStr name
  /\ (addrs <> [] -> id <> [] ->
      exists d, from_service_info now info = Some d
      /\ dd_device_id d = id /\ dd_device_name d = name /\ dd_device_type d = u "desktop" /\ dd_os_name d = u "archlinux"
      /\ dd_addresses d = map inet_ntoa addrs /\ dd_service_name d = ad_name ad
      /\ (forall z, c_listen_port config = JInt z -> dd_port d = Some z)
      /\ forall m, dm_own_id m <> id -> get_device id (service_resolved now (ad_name ad) info m) = Some d)
  /\ (addrs = [] -> from_service_info now info = None)
  /\ (forall m, dm_own_id m = id -> service_resolved now (ad_name ad) info m = m).
Proof.
  intros (id & name & idb & nameb & port & Hi & Hn & Hib & Hnb & Hp & Hprops & Haddrs)%advertise_Ok (C1 & C2 & C3 & C4 & C5).
  rewrite Hprops in C1. cbn [map fst snd] in C1. rewrite Haddrs in C2. rewrite Hp in C4.
  pose proof (utf8_replace_encode _ _ Hib) as Rid. pose proof (utf8_replace_encode _ _ Hnb) as Rname.
  exists id, name. split; [done|]. split; [done|].
  assert (get_prop (si_properties info) "v" (u "1") = u "1") as Pv by (rewrite C1; by vm_compute).
  assert (get_prop (si_properties info) "id" [] = id) as Pid by (rewrite C1; exact Rid).
  assert (get_prop (si_properties info) "name" (u "Unknown Raven Peer") = name) as Pname by (rewrite C1; exact Rname).
  assert (bool_decide (si_properties info = []) = false) as Pne by (rewrite C1; by apply bool_decide_eq_false_2).
  assert (int_of_str 10 (u "1") = Ok 1) as I1 by (by vm_compute).
  unfold service_resolved, from_service_info. rewrite Pne, Pv, I1, Pid, Pname. change (negb (1 =? PROTOCOL_VERSION)) with false. cbv iota.
  split; [|split].
  - intros Ha Hid. destruct addrs_spec as [Hnd H4]. rewrite (bool_decide_eq_false_2 (id = [])) by done.
    assert (collect LOOP6 (si_v6 info) (collect LOOP4 (si_v4 info) []) = map inet_ntoa addrs) as ->.
    { rewrite C3, C2. destruct addrs as [|p l]; [done|]. apply (collect_all LOOP4 _ []).
      - apply inet_ntoa_texts; [done|]. intros q Hq. by apply H4.
      - apply Forall_forall. intros w (q & <- & Hq%list_elem_of_In)%list_elem_of_In%in_map_iff. by apply H4. }
    rewrite (bool_decide_eq_false_2 (map inet_ntoa addrs = [])) by (by destruct addrs).
    eexists. split; [reflexivity|]. cbn [dd_device_id dd_device_name dd_device_type dd_os_name dd_addresses dd_service_name dd_port].
    split_and!; try done; [by rewrite C1|by rewrite C1|]. intros m Hm. cbv iota. cbn [dd_device_id]. rewrite (bool_decide_eq_false_2 (id = _)) by done.
    unfold get_device. cbn [notify_listeners send_to with_devices dm_devices]. by rewrite aget_aset_eq.
  - intros Ha. assert (collect LOOP6 (si_v6 info) (collect LOOP4 (si_v4 info) []) = []) as ->.
    { rewrite C3, C2, Ha. by vm_compute. }
    by destruct (bool_decide (id = [])), (bool_decide_reflect ([] = ([] : list pystr))).
  - intros m <-. destruct (bool_decide (dm_own_id m = [])); [done|]. destruct (bool_decide (collect _ _ _ = [])); [done|].
    cbn [dd_device_id]. by rewrite bool_decide_eq_true_2.
Qed.
End discovered.
