(* ===== verification/Peers.v ===== *)
(** * The state of the service: [PeerSession] and [FerryService] of [core/service.py]

    The tables of the service, the objects they share (peer sessions and
    transfers, referred to by their identity), and the helpers that the message
    handlers use: sending, signalling, recording, notifying.  A handler runs to
    its end before the next begins: the only suspensions inside one are the
    drains of small control frames. *)
From S2P Require Import Prelude PyStr Sha256 Json Protocol Payloads Transfer Fs Incoming Outgoing Session Bridge Db.

(** What the service takes from its host: path resolution, fresh uuids, the text
    of an exception and of a [float] put in a TEXT column, [str.lower],
    and the table of file types. *)
Class Host := {
  h_realpath : path -> res path;
  h_uuid4 : nat -> pystr;
  h_exn_text : exn -> pystr;
  h_sqlite_real : Corelib.Floats.SpecFloat.spec_float -> pystr;
  h_lower : pystr -> pystr;
  h_download_dir : path;
  h_guess_type : path -> option pystr;  (** [mimetypes.guess_type] *)
  h_notify_reply : nat -> option Z    (** the answer of the notification server *)
}.

(** [str(uuid.uuid4())] is the canonical text of a number of 128 bits. *)
Class HostLaws `{Host} := {
  uuid4_canonical n : exists z, 0 <= z < 2 ^ 128 /\ h_uuid4 n = uuid_str z
}.
Lemma uuid4_text `{HostLaws} n : forallb is_scalar (h_uuid4 n) = true /\ zlen (h_uuid4 n) = 36.
Proof. destruct (uuid4_canonical n) as (z & _ & ->). apply uuid_str_text. Qed.

(** ** Peers *)

Inductive reply := R_ACCEPT | R_REJECT | R_CANCEL.
#[export] Instance reply_eq_dec : EqDecision reply.
Proof. solve_decision. Defined.

(** Where the task of a session is. *)
Inductive phase := Handshaking | Looping | Ended.

Record PeerSession := {
  p_session : FerrySession;
  p_addr : pystr;
  p_device_id : json;              (** [None] is [JNull] *)
  p_device_name : json;
  p_static_b64 : option pystr;
  p_phase : phase;
  p_out : list bytes;              (** written to the transport *)
  p_closed : bool;                 (** [writer.close()] was called *)
  p_lost : bool;                   (** the connection broke *)
  p_transfer_events : list (pystr * list reply);   (** waiting tasks and what they were told *)
  p_result_events : list (pystr * list bool)
}.

Definition new_peer (is_initiator : bool) (addr : pystr) : PeerSession :=
  {| p_session := new_session is_initiator; p_addr := addr; p_device_id := JNull; p_device_name := JNull;
     p_static_b64 := None; p_phase := Handshaking; p_out := []; p_closed := false; p_lost := false;
     p_transfer_events := []; p_result_events := [] |}.

Definition p_set_session (x : FerrySession) (p : PeerSession) : PeerSession :=
  {| p_session := x; p_addr := p_addr p; p_device_id := p_device_id p; p_device_name := p_device_name p;
     p_static_b64 := p_static_b64 p; p_phase := p_phase p; p_out := p_out p; p_closed := p_closed p; p_lost := p_lost p;
     p_transfer_events := p_transfer_events p; p_result_events := p_result_events p |}.
Definition p_set_remote (id name : json) (static : pystr) (p : PeerSession) : PeerSession :=
  {| p_session := p_session p; p_addr := p_addr p; p_device_id := id; p_device_name := name;
     p_static_b64 := Some static; p_phase := p_phase p; p_out := p_out p; p_closed := p_closed p; p_lost := p_lost p;
     p_transfer_events := p_transfer_events p; p_result_events := p_result_events p |}.
Definition p_set_phase (x : phase) (p : PeerSession) : PeerSession :=
  {| p_session := p_session p; p_addr := p_addr p; p_device_id := p_device_id p; p_device_name := p_device_name p;
     p_static_b64 := p_static_b64 p; p_phase := x; p_out := p_out p; p_closed := p_closed p; p_lost := p_lost p;
     p_transfer_events := p_transfer_events p; p_result_events := p_result_events p |}.
Definition p_set_conn (out : list bytes) (closed lost : bool) (p : PeerSession) : PeerSession :=
  {| p_session := p_session p; p_addr := p_addr p; p_device_id := p_device_id p; p_device_name := p_device_name p;
     p_static_b64 := p_static_b64 p; p_phase := p_phase p; p_out := out; p_closed := closed; p_lost := lost;
     p_transfer_events := p_transfer_events p; p_result_events := p_result_events p |}.
Definition p_set_events (te : list (pystr * list reply)) (re : list (pystr * list bool)) (p : PeerSession) : PeerSession :=
  {| p_session := p_session p; p_addr := p_addr p; p_device_id := p_device_id p; p_device_name := p_device_name p;
     p_static_b64 := p_static_b64 p; p_phase := p_phase p; p_out := p_out p; p_closed := p_closed p; p_lost := p_lost p;
     p_transfer_events := te; p_result_events := re |}.

(** [writer.write]: nothing is sent on a connection that is closed or lost. *)
Definition p_write (frame : bytes) (p : PeerSession) : PeerSession :=
  if p_closed p || p_lost p then p else p_set_conn (p_out p ++ [frame]) (p_closed p) (p_lost p) p.
Definition p_close (p : PeerSession) : PeerSession := p_set_conn (p_out p) true (p_lost p) p.
Definition p_lose (p : PeerSession) : PeerSession := p_set_conn (p_out p) (p_closed p) true p.

(** [ps.remote_device_id or ps.remote_addr], and the same with the name. *)
Definition or_addr (j : json) (p : PeerSession) : json := if py_bool j then j else JStr (p_addr p).

(** ** The service *)

(** A batch in the table, of either direction. *)
Inductive Batch := BIn (b : BatchIncomingTransfer) | BOut (b : BatchOutgoingTransfer).
Definition b_state (b : Batch) : BatchState := match b with BIn b => bi_state b | BOut b => bo_state b end.
Definition b_name (b : Batch) : pystr := match b with BIn b => bi_batch_name b | BOut b => bo_batch_name b end.
Definition b_total_items (b : Batch) : Z := match b with BIn b => bi_total_items b | BOut b => bo_total_items b end.
Definition b_total_bytes (b : Batch) : Z := match b with BIn b => bi_total_bytes b | BOut b => bo_total_bytes b end.
Definition b_completed (b : Batch) : Z := match b with BIn b => bi_items_completed b | BOut b => bo_items_completed b end.
Definition b_failed (b : Batch) : Z := match b with BIn b => bi_items_failed b | BOut b => bo_items_failed b end.
Definition b_bytes (b : Batch) : Z := match b with BIn b => bi_bytes_transferred b | BOut b => bo_bytes_transferred b end.
Definition b_set (st : BatchState) (completed failed bytes : Z) (b : Batch) : Batch :=
  match b with
  | BIn b => BIn {| bi_batch_id := bi_batch_id b; bi_batch_name := bi_batch_name b; bi_total_items := bi_total_items b;
                    bi_total_bytes := bi_total_bytes b; bi_state := st; bi_items_completed := completed;
                    bi_items_failed := failed; bi_bytes_transferred := bytes |}
  | BOut b => BOut {| bo_batch_id := bo_batch_id b; bo_batch_name := bo_batch_name b; bo_total_items := bo_total_items b;
                      bo_total_bytes := bo_total_bytes b; bo_paths := bo_paths b; bo_state := st;
                      bo_items_completed := completed; bo_items_failed := failed; bo_bytes_transferred := bytes |}
  end.

(** The calls of session, request, progress and completion listeners, and the
    pairing request to the local clients. *)
Inductive notice :=
  | NSession (addr : pystr) (state : SessionState)
  | NRequest (addr transfer_id file_name : pystr) (file_size : Z)
  | NProgress (transfer_id : pystr) (done total : Z)
  | NComplete (transfer_id : pystr) (success : bool) (file_name direction : pystr)
  | NPairing (addr : pystr) (device_name : json) (sas : pystr).

Record Service := mkService {
  v_peers : list PeerSession;  (** The [PeerSession] objects, by identity. *)
  v_xfers : list IncomingTransfer;  (** The [IncomingTransfer] objects, by identity. *)
  v_sends : list OutgoingTransfer;  (** The [OutgoingTransfer] objects, by identity. *)
  v_sessions : list (pystr * nat);  (** [_active_sessions] *)
  v_incoming : list (pystr * nat);  (** [_incoming_transfers] *)
  v_incoming_peers : list (pystr * nat);  (** [_incoming_peers] *)
  v_outgoing : list (pystr * (nat * nat));  (** [_active_outgoing_transfers] *)
  v_batches : list (pystr * nat);  (** [_active_batches] *)
  v_timeouts : list (pystr * nat);  (** [_accept_timeout_tasks] *)
  v_tasks : list (nat * (pystr * nat * TransferMetadata));  (** the acceptance tasks not finished or cancelled *)
  v_last_chunk : list (pystr * Z);  (** [_last_chunk_time] *)
  v_recorded : list pystr;  (** [_recorded_transfer_ids] *)
  v_db : db;  (** [db] *)
  v_world : world;  (** the file system *)
  v_bridge : Bridge;  (** [notification_bridge] *)
  v_notices : list notice;  (** calls of listeners, oldest first *)
  v_now : Z;  (** [int(time.time() * 1000)] *)
  v_clock : Z;  (** [time.monotonic()], in nanoseconds *)
  v_fresh : nat;  (** how many uuids and tasks were made *)
  v_batch_objs : list Batch  (** The batch objects, by identity. *)
}.

Definition set_peers (x : list PeerSession) (s : Service) : Service :=
  let 'mkService _ b c d e f g h i j k l m n o p q r s t := s in mkService x b c d e f g h i j k l m n o p q r s t.
Definition set_xfers (x : list IncomingTransfer) (s : Service) : Service :=
  let 'mkService a _ c d e f g h i j k l m n o p q r s t := s in mkService a x c d e f g h i j k l m n o p q r s t.
Definition set_sends (x : list OutgoingTransfer) (s : Service) : Service :=
  let 'mkService a b _ d e f g h i j k l m n o p q r s t := s in mkService a b x d e f g h i j k l m n o p q r s t.
Definition set_sessions (x : list (pystr * nat)) (s : Service) : Service :=
  let 'mkService a b c _ e f g h i j k l m n o p q r s t := s in mkService a b c x e f g h i j k l m n o p q r s t.
Definition set_incoming (x : list (pystr * nat)) (s : Service) : Service :=
  let 'mkService a b c d _ f g h i j k l m n o p q r s t := s in mkService a b c d x f g h i j k l m n o p q r s t.
Definition set_incoming_peers (x : list (pystr * nat)) (s : Service) : Service :=
  let 'mkService a b c d e _ g h i j k l m n o p q r s t := s in mkService a b c d e x g h i j k l m n o p q r s t.
Definition set_outgoing (x : list (pystr * (nat * nat))) (s : Service) : Service :=
  let 'mkService a b c d e f _ h i j k l m n o p q r s t := s in mkService a b c d e f x h i j k l m n o p q r s t.
Definition set_batches (x : list (pystr * nat)) (s : Service) : Service :=
  let 'mkService a b c d e f g _ i j k l m n o p q r s t := s in mkService a b c d e f g x i j k l m n o p q r s t.
Definition set_timeouts (x : list (pystr * nat)) (s : Service) : Service :=
  let 'mkService a b c d e f g h _ j k l m n o p q r s t := s in mkService a b c d e f g h x j k l m n o p q r s t.
Definition set_tasks (x : list (nat * (pystr * nat * TransferMetadata))) (s : Service) : Service :=
  let 'mkService a b c d e f g h i _ k l m n o p q r s t := s in mkService a b c d e f g h i x k l m n o p q r s t.
Definition set_last_chunk (x : list (pystr * Z)) (s : Service) : Service :=
  let 'mkService a b c d e f g h i j _ l m n o p q r s t := s in mkService a b c d e f g h i j x l m n o p q r s t.
Definition set_recorded (x : list pystr) (s : Service) : Service :=
  let 'mkService a b c d e f g h i j k _ m n o p q r s t := s in mkService a b c d e f g h i j k x m n o p q r s t.
Definition set_db (x : db) (s : Service) : Service :=
  let 'mkService a b c d e f g h i j k l _ n o p q r s t := s in mkService a b c d e f g h i j k l x n o p q r s t.
Definition set_world (x : world) (s : Service) : Service :=
  let 'mkService a b c d e f g h i j k l m _ o p q r s t := s in mkService a b c d e f g h i j k l m x o p q r s t.
Definition set_bridge (x : Bridge) (s : Service) : Service :=
  let 'mkService a b c d e f g h i j k l m n _ p q r s t := s in mkService a b c d e f g h i j k l m n x p q r s t.
Definition set_notices (x : list notice) (s : Service) : Service :=
  let 'mkService a b c d e f g h i j k l m n o _ q r s t := s in mkService a b c d e f g h i j k l m n o x q r s t.
Definition set_now (x : Z) (s : Service) : Service :=
  let 'mkService a b c d e f g h i j k l m n o p _ r s t := s in mkService a b c d e f g h i j k l m n o p x r s t.
Definition set_clock (x : Z) (s : Service) : Service :=
  let 'mkService a b c d e f g h i j k l m n o p q _ s t := s in mkService a b c d e f g h i j k l m n o p q x s t.
Definition set_fresh (x : nat) (s : Service) : Service :=
  let 'mkService a b c d e f g h i j k l m n o p q r _ t := s in mkService a b c d e f g h i j k l m n o p q r x t.

Definition set_batch_objs (x : list Batch) (s : Service) : Service :=
  let 'mkService a b c d e f g h i j k l m n o p q r s _ := s in mkService a b c d e f g h i j k l m n o p q r s x.

Definition notify (n : notice) : M Service unit := modify (fun s => set_notices (v_notices s ++ [n]) s).

(** ** Objects *)

Definition no_peer : PeerSession := new_peer false [].
Definition peer_at (pid : nat) (s : Service) : PeerSession := default no_peer (v_peers s !! pid).
Definition peer (pid : nat) : M Service PeerSession := s ← get; mret (peer_at pid s).
Definition upd_peer (pid : nat) (f : PeerSession -> PeerSession) : M Service unit :=
  modify (fun s => set_peers (alter f pid (v_peers s)) s).
Definition on_session {A} (pid : nat) (m : M FerrySession A) : M Service A := fun s =>
  let '(r, fs') := m (p_session (peer_at pid s)) in
  (r, set_peers (alter (p_set_session fs') pid (v_peers s)) s).

(** A method of the transfer object [oid]; there is always such an object. *)
Definition on_incoming {A} (oid : nat) (m : M st A) : M Service A := fun s =>
  match v_xfers s !! oid with
  | None => (Err AssertionError, s)
  | Some t => let '(r, (t', w')) := m (t, v_world s) in (r, set_world w' (set_xfers (<[oid := t']> (v_xfers s)) s))
  end.
Definition incoming_object (oid : nat) : M Service IncomingTransfer :=
  s ← get; match v_xfers s !! oid with None => raise AssertionError | Some t => mret t end.
(** [IncomingTransfer(...)] *)
Definition new_object (t : IncomingTransfer) : M Service nat := fun s =>
  (Ok (length (v_xfers s)), set_xfers (v_xfers s ++ [t]) s).
(** The batch of an id in the table, and its object. *)
Definition find_batch (id : pystr) (s : Service) : option (nat * Batch) :=
  i ← aget id (v_batches s); b ← v_batch_objs s !! i; Some (i, b).
Definition upd_batch (i : nat) (f : Batch -> Batch) : M Service unit :=
  modify (fun s => set_batch_objs (alter f i (v_batch_objs s)) s).
(** A new batch object, entered into the table. *)
Definition new_batch (id : pystr) (b : Batch) : M Service nat := fun s =>
  let i := length (v_batch_objs s) in
  (Ok i, set_batches (aset id i (v_batches s)) (set_batch_objs (v_batch_objs s ++ [b]) s)).
Definition draw_fresh : M Service nat := fun s => (Ok (v_fresh s), set_fresh (S (v_fresh s)) s).

(** [for x in l: f(x)] *)
Fixpoint iterM {S A} (f : A -> M S unit) (l : list A) : M S unit :=
  match l with [] => mret tt | x :: l' => f x;; iterM f l' end.

(** ** Values of the wire as keys and columns *)

(** A JSON value as a key of a [dict] whose keys are strings: a list or dict
    does not hash, another value is never found. *)
Definition as_key (j : json) : res (option pystr) :=
  match j with
  | JStr s => Ok (Some s)
  | JArr _ | JObj _ => Err TypeError
  | _ => Ok None
  end.

(** [x[:8] if x else "?"], evaluated for a log line. *)
Definition tid_log (j : json) : res unit :=
  match j with
  | JStr _ | JArr _ => Ok tt
  | JObj d => match d with [] => Ok tt | _ => Err KeyError end
  | _ => raise_if (py_bool j) TypeError
  end.

(** [x[:8]], evaluated for a log line. *)
Definition slice8 (j : json) : res unit :=
  match j with JStr _ | JArr _ => Ok tt | JObj _ => Err KeyError | _ => Err TypeError end.

(** A JSON value bound to a TEXT column. *)
Definition db_text `{Host} (j : json) : res pystr :=
  match j with
  | JStr s => Ok s
  | JInt z => bind_param (PInt z);; Ok (int_text z)
  | JBool b => Ok (u (if b then "1" else "0"))
  | JFloat f => Ok (h_sqlite_real f)
  | JNull | JArr _ | JObj _ => Err SqliteError
  end.

(** A JSON value as the id in a query on [transfer_id]: ids are uuid texts, which
    no number equals. *)
Definition db_key (j : json) : res (option pystr) :=
  match j with
  | JStr s => Ok (Some s)
  | JInt z => bind_param (PInt z);; Ok None
  | JArr _ | JObj _ => Err SqliteError
  | _ => Ok None
  end.

Section helpers.
Context `{HC : Crypto} `{HR : PyRepr} `{HH : Host}.

(** ** Sending *)

Definition cannot_send : list SessionState := [DISCONNECTED; CONNECTING; HANDSHAKING; SFAILED; CLOSING].

(** [writer.write(data); await writer.drain()] *)
Definition write_drain (pid : nat) (data : bytes) : M Service unit :=
  upd_peer pid (p_write data);;
  p ← peer pid;
  lift (raise_if (p_lost p) OSError).

(** [FerryEnvelope(type=msg_type.value, payload=payload)] *)
Definition make_envelope (mt : MessageType) (payload : jdict) : M Service FerryEnvelope :=
  n ← draw_fresh;
  s ← get;
  mret (new_envelope (h_uuid4 n) (v_now s) mt payload).

Definition send_encrypted (pid : nat) (mt : MessageType) (payload : jdict) : M Service unit :=
  p ← peer pid;
  lift (raise_if (bool_decide (s_state (p_session p) ∈ cannot_send)) RuntimeError);;
  envelope ← make_envelope mt payload;
  text ← lift (envelope_to_json envelope);
  plaintext ← lift (utf8_encode text);
  frame ← on_session pid (encrypt_frame plaintext);
  write_drain pid frame.

Definition send_plain (pid : nat) (mt : MessageType) (payload : jdict) : M Service unit :=
  envelope ← make_envelope mt payload;
  frame ← lift (encode_frame envelope);
  write_drain pid frame.

(** ** Waiting tasks *)

(** [_signal_transfer_event(ps, "_transfer_events", id, value)] *)
Definition signal_transfer (pid : nat) (transfer_id : json) (value : reply) : M Service unit :=
  k ← lift (as_key transfer_id);
  upd_peer pid (fun p =>
    match k with
    | None => p
    | Some tid => match aget tid (p_transfer_events p) with
                  | None => p
                  | Some holder => p_set_events (aset tid (holder ++ [value]) (p_transfer_events p)) (p_result_events p) p
                  end
    end).
(** [_signal_transfer_event(ps, "_result_events", id, value)] *)
Definition signal_result (pid : nat) (transfer_id : json) (value : bool) : M Service unit :=
  k ← lift (as_key transfer_id);
  upd_peer pid (fun p =>
    match k with
    | None => p
    | Some tid => match aget tid (p_result_events p) with
                  | None => p
                  | Some holder => p_set_events (p_transfer_events p) (aset tid (holder ++ [value]) (p_result_events p)) p
                  end
    end).

(** [_wait_for_transfer_response]: up to its wait, and from the moment the
    event is set. *)
Definition wait_response_begin (pid : nat) (tid : pystr) : M Service unit :=
  upd_peer pid (fun p => p_set_events (aset tid [] (p_transfer_events p)) (p_result_events p) p).
Definition wait_response_end (pid : nat) (tid : pystr) : M Service reply :=
  p ← peer pid;
  match aget tid (p_transfer_events p) with
  | None => raise KeyError
  | Some holder =>
      upd_peer pid (fun p => p_set_events (adel tid (p_transfer_events p)) (p_result_events p) p);;
      mret (hd R_REJECT holder)
  end.
Definition wait_result_begin (pid : nat) (tid : pystr) : M Service unit :=
  upd_peer pid (fun p => p_set_events (p_transfer_events p) (aset tid [] (p_result_events p)) p).
Definition wait_result_end (pid : nat) (tid : pystr) : M Service bool :=
  p ← peer pid;
  match aget tid (p_result_events p) with
  | None => raise KeyError
  | Some holder =>
      upd_peer pid (fun p => p_set_events (p_transfer_events p) (adel tid (p_result_events p)) p);;
      mret (hd false holder)
  end.

(** The event of a waiting task is set. *)
Definition answered (pid : nat) (tid : pystr) (s : Service) : bool :=
  match aget tid (p_transfer_events (peer_at pid s)) with Some (_ :: _) => true | _ => false end.
Definition judged (pid : nat) (tid : pystr) (s : Service) : bool :=
  match aget tid (p_result_events (peer_at pid s)) with Some (_ :: _) => true | _ => false end.

(** ** History *)

Definition record_transfer_once (transfer_id : pystr) (device_id : json) (file_name : pystr) (file_size : Z)
    (direction status : pystr) (started_at : Z) (sha256 : pystr) : M Service unit :=
  s ← get;
  if bool_decide (transfer_id ∈ v_recorded s) then mret tt
  else
    swallow (dev ← lift (db_text device_id);
             d ← lift (add_transfer {| t_transfer_id := transfer_id; t_device_id := dev; t_file_name := file_name;
                                       t_file_size := file_size; t_direction := direction; t_status := status;
                                       t_started_at := started_at; t_completed_at := Some (v_now s); t_sha256 := sha256 |}
                                    (v_db s));
             modify (set_db d);;
             modify (fun s => set_recorded (transfer_id :: v_recorded s) s)).

Definition INCOMING_ : pystr := u "INCOMING".
Definition OUTGOING_ : pystr := u "OUTGOING".

(** The history record of a received file that did or did not arrive. *)
Definition record_incoming (t : IncomingTransfer) (transfer_id : pystr) (device_id : json) (status : pystr)
    (started_at : Z) (sha256 : pystr) : M Service unit :=
  record_transfer_once transfer_id device_id (m_file_name (i_meta t)) (m_file_size (i_meta t)) INCOMING_ status
    started_at sha256.

(** ** Tables *)

(** [timeout_task = self._accept_timeout_tasks.pop(id, None); if timeout_task: timeout_task.cancel()] *)
Definition pop_timeout (tid : pystr) : M Service unit :=
  modify (fun s => match aget tid (v_timeouts s) with
                   | None => s
                   | Some task => set_tasks (adel task (v_tasks s)) (set_timeouts (adel tid (v_timeouts s)) s)
                   end).
Definition pop_last_chunk (tid : pystr) : M Service unit := modify (fun s => set_last_chunk (adel tid (v_last_chunk s)) s).
Definition pop_incoming (tid : pystr) : M Service unit := modify (fun s => set_incoming (adel tid (v_incoming s)) s).
Definition pop_incoming_peer (tid : pystr) : M Service unit :=
  modify (fun s => set_incoming_peers (adel tid (v_incoming_peers s)) s).
Definition pop_batch (id : pystr) : M Service unit := modify (fun s => set_batches (adel id (v_batches s)) s).
Definition track (tid : pystr) (oid pid : nat) : M Service unit :=
  modify (fun s => set_incoming_peers (aset tid pid (v_incoming_peers s)) (set_incoming (aset tid oid (v_incoming s)) s)).

(** ** Sessions *)

Definition persist_trust (pid : nat) : M Service unit :=
  p ← peer pid;
  s ← get;
  id ← (if py_bool (p_device_id p) then lift (db_text (p_device_id p)) else n ← draw_fresh; mret (h_uuid4 n));
  name ← lift (if py_bool (p_device_name p) then db_text (p_device_name p) else Ok (u "Unknown"));
  match p_static_b64 p with
  | None => raise SqliteError
  | Some key =>
      d ← lift (add_or_update_device {| d_device_id := id; d_device_name := name; d_public_key := key;
                                        d_identity_public_key_b64 := key; d_paired_at := v_now s; d_last_seen := v_now s |}
                                     (v_db s));
      modify (set_db d)
  end.

Definition notify_session_change (pid : nat) : M Service unit :=
  p ← peer pid; notify (NSession (p_addr p) (s_state (p_session p))).

Definition disconnect_session (pid : nat) : M Service unit :=
  p ← peer pid;
  (if negb (bool_decide (s_state (p_session p) ∈ [DISCONNECTED; SFAILED]))
   then swallow (on_session pid (session_transition SFAILED)) else mret tt);;
  notify_session_change pid;;
  upd_peer pid p_close.

Definition accept_pairing (remote_addr : pystr) : M Service unit :=
  s ← get;
  match aget remote_addr (v_sessions s) with
  | None => mret tt
  | Some pid =>
      p ← peer pid;
      match s_state (p_session p) with
      | PAIRING => on_session pid (session_transition WAITING_FOR_REMOTE_DECISION)
      | WAITING_FOR_LOCAL_DECISION =>
          on_session pid (session_transition PAIR_ACCEPTED);;
          persist_trust pid;;
          on_session pid (session_transition ESTABLISHED)
      | _ => mret tt
      end;;
      notify_session_change pid;;
      send_encrypted pid PAIR_DECISION (mkdict [("decision", JStr (u "ACCEPT"))])%string
  end.

Definition reject_pairing (remote_addr : pystr) : M Service unit :=
  s ← get;
  match aget remote_addr (v_sessions s) with
  | None => mret tt
  | Some pid =>
      swallow (send_encrypted pid PAIR_DECISION (mkdict [("decision", JStr (u "REJECT"))])%string);;
      disconnect_session pid
  end.
End helpers.
