(* ===== verification/Service.v ===== *)
(** * The message handlers of the service: [FerryService] of [core/service.py]

    Every handler of a decrypted message, every action of the local user, the
    timers, and the end of a session, on the state of [Peers].  The last part is
    the service as a transition system over such events. *)
From S2P Require Import Prelude PyStr Sha256 Json Protocol Payloads Transfer Fs Incoming Outgoing Session Bridge Db Peers.

Definition is_transfer_error (e : exn) : bool := match e with TransferError => true | _ => false end.
Definition is_value_or_runtime (e : exn) : bool := is_ValueError e || match e with RuntimeError => true | _ => false end.
Definition is_value_or_key (e : exn) : bool := is_ValueError e || match e with KeyError => true | _ => false end.

(** [list(caps)] *)
Definition py_list (j : json) : res (list json) :=
  match j with
  | JArr l => Ok l
  | JStr s => Ok (map (fun c => JStr [c]) s)
  | JObj d => Ok (map (fun kv => JStr kv.1) d)
  | _ => Err TypeError
  end.

(** [NotificationPostPayload.from_dict] of any JSON value: on a list or string
    the membership tests run, then the indexing fails. *)
Definition notification_fields : list string := ["ferry_id"; "package"; "app_label"; "title"; "body"; "posted_at"]%string.
Definition notification_of_json `{Hr : PyRepr} (j : json) : res NotificationPostPayload.t :=
  match j with
  | JObj d => NotificationPostPayload.from_dict d
  | JArr l => Err (if forallb (fun k => existsb (fun x => eq_str x (u k)) l) notification_fields then TypeError else ValueError)
  | JStr s => Err (if forallb (fun k => contains (u k) s) notification_fields then TypeError else ValueError)
  | _ => Err TypeError
  end.

(** [PurePath.stem]: the name up to its last dot, unless that is its first or
    last character. *)
Fixpoint last_dot (name : pystr) : option nat :=
  match name with
  | [] => None
  | c :: name' => match last_dot name' with
                  | Some i => Some (S i)
                  | None => if c =? 46 then Some O else None
                  end
  end.
Definition path_stem (name : pystr) : pystr :=
  match last_dot name with
  | Some i => if (0 <? i)%nat && (S i <? length name)%nat then take i name else name
  | None => name
  end.
Definition is_part (name : pystr) : bool := bool_decide (PART `suffix_of` name).

Section handlers.
Context `{HC : Crypto} `{HR : PyRepr} `{HH : Host}.

Definition tid_dict (tid : pystr) : jdict := mkdict [("transfer_id", JStr tid)]%string.
Definition tid_reason (tid : json) (reason : string) : jdict := mkdict [("transfer_id", tid); ("reason", JStr (u reason))]%string.
Definition batch_dict (id : pystr) : jdict := mkdict [("batch_id", JStr id)]%string.

Definition staging_part (tid : pystr) : path := path_join (h_download_dir ++ [u "staging"]) (tid ++ PART).

(** ** The end of a session *)

Definition cancel_incoming_transfer_for_peer (pid : nat) : M Service unit :=
  s ← get;
  let to_cancel := List.filter (fun e => bool_decide (aget e.1 (v_incoming_peers s) = Some pid)) (v_incoming s) in
  iterM (fun e : pystr * nat =>
    let '(transfer_id, oid) := e in
    pop_incoming transfer_id;;
    pop_incoming_peer transfer_id;;
    pop_timeout transfer_id;;
    pop_last_chunk transfer_id;;
    on_incoming oid cancel;;
    p ← peer pid;
    t ← incoming_object oid;
    let final_status := if bool_decide (i_state t = INTERRUPTED) then u "INTERRUPTED" else u "FAILED" in
    record_incoming t transfer_id (or_addr (p_device_id p) p) final_status (m_created_at (i_meta t)) [];;
    notify (NComplete transfer_id false (m_file_name (i_meta t)) INCOMING_)) to_cancel.

Definition cancel_send (oid : nat) : M Service unit := modify (fun s => set_sends (alter ocancel oid (v_sends s)) s).

Definition cancel_outgoing_transfer_for_peer (pid : nat) : M Service unit :=
  s ← get;
  let to_cancel := List.filter (fun e => bool_decide (e.2.1 = pid)) (v_outgoing s) in
  iterM (fun e : pystr * (nat * nat) =>
    let '(transfer_id, (_, oid)) := e in
    cancel_send oid;;
    signal_transfer pid (JStr transfer_id) R_CANCEL;;
    signal_result pid (JStr transfer_id) false) to_cancel.

Definition cancel_incoming_transfer (tid : json) : M Service unit :=
  k ← lift (as_key tid);
  match k with
  | None => mret tt
  | Some transfer_id =>
      s ← get;
      pop_incoming transfer_id;;
      pop_incoming_peer transfer_id;;
      pop_timeout transfer_id;;
      pop_last_chunk transfer_id;;
      match aget transfer_id (v_incoming s) with
      | None => mret tt
      | Some oid =>
          on_incoming oid cancel;;
          t ← incoming_object oid;
          notify (NComplete transfer_id false (m_file_name (i_meta t)) INCOMING_)
      end
  end.

(** ** Chunks *)

(** [batch.bytes_transferred += n], and the progress listeners. *)
Definition add_batch_bytes (id : pystr) (i : nat) (n : Z) : M Service unit :=
  upd_batch i (fun b => b_set (b_state b) (b_completed b) (b_failed b) (b_bytes b + n) b);;
  s ← get;
  match v_batch_objs s !! i with
  | None => mret tt
  | Some b => notify (NProgress id (b_bytes b) (b_total_bytes b))
  end.

Definition on_chunk_received (plaintext : bytes) : M Service unit :=
  match decode_chunk_frame plaintext with
  | Err e => if is_ValueError e then mret tt else raise e
  | Ok chunk =>
      let tid := f_transfer_id chunk in
      s ← get;
      match aget tid (v_incoming s) with
      | None => mret tt
      | Some oid =>
          modify (fun s => set_last_chunk (aset tid (v_clock s) (v_last_chunk s)) s);;
          try_except
            (on_incoming oid (receive_chunk chunk);;
             t ← incoming_object oid;
             let batch_id := m_batch_id (i_meta t) in
             if negb (bool_decide (batch_id = [])) then
               s ← get;
               match aget batch_id (v_batches s) with
               | None => mret tt
               | Some i => add_batch_bytes batch_id i (zlen (f_data chunk))
               end
             else notify (NProgress tid (i_bytes_received t) (m_file_size (i_meta t))))
            (fun e => is_transfer_error e || is_value_or_runtime e)
            (fun e =>
             if is_transfer_error e then
               s ← get;
               pop_incoming_peer tid;;
               pop_incoming tid;;
               pop_last_chunk tid;;
               pop_timeout tid;;
               t ← incoming_object oid;
               match aget tid (v_incoming_peers s) with
               | None => mret tt
               | Some pid =>
                   swallow (send_encrypted pid TRANSFER_ERROR
                     (mkdict [("transfer_id", JStr tid); ("error_code", JStr (u "ERR_IO_FAILURE"));
                              ("message", JStr (h_exn_text e))]%string));;
                   p ← peer pid;
                   record_incoming t tid (or_addr (p_device_id p) p) (u "FAILED") (m_created_at (i_meta t)) []
               end;;
               notify (NComplete tid false (m_file_name (i_meta t)) INCOMING_)
             else
               on_incoming oid cancel;;
               pop_incoming tid;;
               pop_last_chunk tid)
      end
  end.

(** ** Requests *)

Definition on_transfer_request (pid : nat) (payload : jdict) : M Service unit :=
  s ← get;
  match metadata_from_dict (v_now s) payload with
  | Err e =>
      if is_value_or_key e then
        send_encrypted pid TRANSFER_ERROR
          (mkdict [("transfer_id", dget_or payload "transfer_id" (JStr [])); ("error_code", JStr (u "INVALID_REQUEST"));
                   ("message", JStr (h_exn_text e))]%string)
      else raise e
  | Ok meta =>
      let tid := m_transfer_id meta in
      let accepted_batch :=
        match find_batch (m_batch_id meta) s with
        | Some (_, b) => bool_decide (b_state b = B_ACCEPTED)
        | None => false
        end in
      if negb (bool_decide (m_batch_id meta = [])) && negb accepted_batch
      then send_encrypted pid TRANSFER_REJECT (tid_reason (JStr tid) "INVALID_REQUEST")
      else
        let is_batched := negb (bool_decide (m_batch_id meta = [])) in
        if negb (bool_decide (v_incoming s = [])) && negb is_batched
        then send_encrypted pid TRANSFER_REJECT (tid_reason (JStr tid) "BUSY")
        else
          oid ← new_object (new_incoming meta h_download_dir);
          track tid oid pid;;
          if is_batched then
            on_incoming oid (begin h_realpath);;
            send_encrypted pid TRANSFER_ACCEPT (tid_dict tid)
          else
            p ← peer pid;
            notify (NRequest (p_addr p) tid (m_file_name meta) (m_file_size meta));;
            (** the title of the desktop notification is a concatenation *)
            lift (match or_addr (p_device_name p) p with JStr _ => Ok tt | _ => Err TypeError end);;
            task ← draw_fresh;
            modify (fun s => set_timeouts (aset tid task (v_timeouts s)) (set_tasks (v_tasks s ++ [(task, (tid, pid, meta))]) s))
  end.

(** The acceptance task [task] once it has slept. *)
Definition acceptance_timeout (task : nat) : M Service unit :=
  s ← get;
  match aget task (v_tasks s) with
  | None => mret tt
  | Some (transfer_id, pid, meta) =>
      modify (fun s => set_tasks (adel task (v_tasks s)) s);;
      match aget transfer_id (v_incoming s) with
      | None => mret tt
      | Some oid =>
          pop_incoming transfer_id;;
          pop_incoming_peer transfer_id;;
          modify (fun s => set_timeouts (adel transfer_id (v_timeouts s)) s);;
          on_incoming oid cancel;;
          swallow (send_encrypted pid TRANSFER_REJECT (tid_reason (JStr transfer_id) "TIMEOUT_EXPIRED"));;
          p ← peer pid;
          record_transfer_once transfer_id (or_addr (p_device_id p) p) (m_file_name meta) (m_file_size meta) INCOMING_
            (u "REJECTED") (m_created_at meta) [];;
          notify (NComplete transfer_id false (m_file_name meta) INCOMING_)
      end
  end.

(** ** Completion *)

(** A file of a batch was finished. *)
Definition batch_item_done (batch_id : pystr) (success : bool) (device_id : json) (started_at : Z) : M Service unit :=
  s ← get;
  match find_batch batch_id s with
  | None => mret tt
  | Some (i, b) =>
      let b := if success then b_set (b_state b) (b_completed b + 1) (b_failed b) (b_bytes b) b
               else b_set (b_state b) (b_completed b) (b_failed b + 1) (b_bytes b) b in
      upd_batch i (fun _ => b);;
      if b_completed b + b_failed b =? b_total_items b then
        let batch_success := b_failed b =? 0 in
        pop_batch batch_id;;
        record_transfer_once batch_id device_id (b_name b) (b_total_bytes b) INCOMING_
          (if batch_success then u "COMPLETED" else u "FAILED") started_at [];;
        notify (NComplete batch_id batch_success (b_name b) INCOMING_)
      else mret tt
  end.

Definition on_transfer_complete (pid : nat) (tid : json) : M Service unit :=
  k ← lift (as_key tid);
  s ← get;
  match k ≫= (fun k => o ← aget k (v_incoming s); Some (k, o)) with
  | None => lift (tid_log tid)
  | Some (transfer_id, oid) =>
      pop_timeout transfer_id;;
      pop_last_chunk transfer_id;;
      success ← on_incoming oid finalise;
      t ← incoming_object oid;
      let sha256 := if (success : bool) then m_sha256 (i_meta t) else [] in
      send_encrypted pid TRANSFER_RESULT
        (mkdict [("transfer_id", JStr transfer_id); ("success", JBool success); ("sha256", JStr sha256)]%string);;
      pop_incoming transfer_id;;
      pop_incoming_peer transfer_id;;
      p ← peer pid;
      let device_id := or_addr (p_device_id p) p in
      let batch_id := m_batch_id (i_meta t) in
      if bool_decide (batch_id = []) then
        record_incoming t transfer_id device_id (if success then u "COMPLETED" else u "FAILED") (m_created_at (i_meta t)) sha256;;
        notify (NComplete transfer_id success (m_file_name (i_meta t)) INCOMING_)
      else batch_item_done batch_id success device_id (m_created_at (i_meta t))
  end.

(** ** Cancellation *)

Definition on_transfer_cancel (pid : nat) (tid : json) : M Service unit :=
  lift (tid_log tid);;
  k ← lift (as_key tid);
  s ← get;
  let incoming := k ≫= (fun k => aget k (v_incoming s)) in
  let outgoing := k ≫= (fun k => aget k (v_outgoing s)) in
  match k, incoming, outgoing with
  | None, _, _ | _, None, None => signal_transfer pid tid R_CANCEL;; signal_result pid tid false
  | Some transfer_id, _, _ =>
      pop_timeout transfer_id;;
      pop_last_chunk transfer_id;;
      pop_incoming transfer_id;;
      pop_incoming_peer transfer_id;;
      match incoming with
      | None => mret tt
      | Some oid =>
          on_incoming oid cancel;;
          p ← peer pid;
          t ← incoming_object oid;
          record_incoming t transfer_id (or_addr (p_device_id p) p) (u "CANCELLED") (m_created_at (i_meta t)) [];;
          notify (NComplete transfer_id false (m_file_name (i_meta t)) INCOMING_)
      end;;
      match outgoing with None => mret tt | Some (_, oid) => cancel_send oid end;;
      signal_transfer pid tid R_CANCEL;;
      signal_result pid tid false
  end.

(** ** Batches *)

Definition on_batch_request (pid : nat) (payload : jdict) : M Service unit :=
  match BatchRequestPayload.from_dict payload with
  | Err _ => mret tt
  | Ok req =>
      let id := BatchRequestPayload.batch_id req in
      s ← get;
      if negb (bool_decide (v_batches s = []) && bool_decide (v_incoming s = [])) then
        send_encrypted pid BATCH_REJECT (mkdict [("batch_id", JStr id); ("reason", JStr (u "BUSY"))])%string
      else
        let batch := new_batch_incoming id (BatchRequestPayload.batch_name req) (BatchRequestPayload.total_items req)
                       (BatchRequestPayload.total_bytes req) in
        new_batch id (BIn batch);;
        p ← peer pid;
        notify (NRequest (p_addr p) id (u "[Batch] " ++ BatchRequestPayload.batch_name req) (BatchRequestPayload.total_bytes req))
  end.

Definition on_batch_complete (batch_id : json) : M Service unit :=
  k ← lift (as_key batch_id);
  match k with None => mret tt | Some id => pop_batch id end.

Definition on_batch_cancel (batch_id : json) : M Service unit :=
  k ← lift (as_key batch_id);
  s ← get;
  match k ≫= (fun k => b ← find_batch k s; Some (k, b)) with
  | None => mret tt
  | Some (id, (_, b)) => pop_batch id;; notify (NComplete id false (b_name b) INCOMING_)
  end.
Definition accept_batch (remote_addr batch_id : pystr) : M Service unit :=
  s ← get;
  match aget batch_id (v_batches s), aget remote_addr (v_sessions s) with
  | Some i, Some pid =>
      upd_batch i (fun b => b_set B_ACCEPTED (b_completed b) (b_failed b) (b_bytes b) b);;
      send_encrypted pid BATCH_ACCEPT (batch_dict batch_id)
  | _, _ => mret tt
  end.

Definition reject_batch (remote_addr batch_id : pystr) : M Service unit :=
  s ← get;
  pop_batch batch_id;;
  match aget batch_id (v_batches s), aget remote_addr (v_sessions s) with
  | Some _, Some pid =>
      send_encrypted pid BATCH_REJECT (mkdict [("batch_id", JStr batch_id); ("reason", JStr (u "USER_REJECTED"))])%string
  | _, _ => mret tt
  end.

(** ** The local user *)

Definition accept_transfer (remote_addr transfer_id : pystr) : M Service unit :=
  s ← get;
  match aget transfer_id (v_incoming s) with
  | None => if bool_decide (is_Some (aget transfer_id (v_batches s))) then accept_batch remote_addr transfer_id else mret tt
  | Some oid =>
      match aget remote_addr (v_sessions s) with
      | None => mret tt
      | Some pid =>
          pop_timeout transfer_id;;
          on_incoming oid (begin h_realpath);;
          send_encrypted pid TRANSFER_ACCEPT (tid_dict transfer_id)
      end
  end.

Definition reject_transfer (remote_addr transfer_id : pystr) : M Service unit :=
  s ← get;
  pop_incoming transfer_id;;
  match aget transfer_id (v_incoming s) with
  | None => if bool_decide (is_Some (aget transfer_id (v_batches s))) then reject_batch remote_addr transfer_id else mret tt
  | Some oid =>
      match aget remote_addr (v_sessions s) with
      | None => mret tt
      | Some pid =>
          pop_timeout transfer_id;;
          on_incoming oid cancel;;
          send_encrypted pid TRANSFER_REJECT (tid_reason (JStr transfer_id) "USER_REJECTED")
      end
  end.

Definition cancel_transfer (transfer_id : pystr) (reason : json) : M Service bool :=
  s ← get;
  match find_batch transfer_id s, aget transfer_id (v_outgoing s), aget transfer_id (v_incoming s) with
  | Some (_, b), _, _ =>
      pop_batch transfer_id;;
      iterM (fun pid => swallow (send_encrypted pid BATCH_CANCEL (batch_dict transfer_id))) (v_sessions s).*2;;
      record_transfer_once transfer_id (JStr (u "unknown")) (b_name b) (b_total_bytes b) OUTGOING_ (u "CANCELLED") (v_now s) [];;
      notify (NComplete transfer_id false (b_name b) OUTGOING_);;
      mret true
  | None, Some (pid, oid), _ =>
      cancel_send oid;;
      signal_transfer pid (JStr transfer_id) R_CANCEL;;
      signal_result pid (JStr transfer_id) false;;
      mret true
  | None, None, Some oid =>
      pop_incoming transfer_id;;
      pop_incoming_peer transfer_id;;
      pop_timeout transfer_id;;
      pop_last_chunk transfer_id;;
      on_incoming oid cancel;;
      t ← incoming_object oid;
      device_id ← match aget transfer_id (v_incoming_peers s) with
                  | None => mret (JStr (u "unknown"))
                  | Some pid =>
                      swallow (send_encrypted pid TRANSFER_CANCEL
                                 (mkdict [("transfer_id", JStr transfer_id); ("reason", reason)])%string);;
                      p ← peer pid; mret (or_addr (p_device_id p) p)
                  end;
      record_incoming t transfer_id device_id (u "CANCELLED") (v_now s) [];;
      notify (NComplete transfer_id false (m_file_name (i_meta t)) INCOMING_);;
      mret true
  | None, None, None => mret false
  end.

Definition fs_call {A} (m : M world A) : M Service A := fun s =>
  let '(r, w) := m (v_world s) in (r, set_world w s).

(** The id is a value of the wire: the path is made of its text. *)
Definition discard_interrupted_transfer (transfer_id : json) : M Service unit :=
  text ← lift (py_str transfer_id);
  let part_file := staging_part text in
  b ← fs_call (exists_ part_file);
  (if (b : bool)
   then try_except (fs_call (unlink part_file);; lift (slice8 transfer_id)) is_OSError (fun _ => lift (slice8 transfer_id))
   else mret tt);;
  k ← lift (as_key transfer_id);
  match k with None => mret tt | Some id => pop_incoming id;; pop_incoming_peer id end;;
  swallow (k ← lift (db_key transfer_id);
           match k with
           | None => mret tt
           | Some id => s ← get; d ← lift (delete_interrupted_transfer id (v_db s)); modify (set_db d)
           end).

(** Unpairing: the row of the trusted device goes, its sessions stay. *)
Definition remove_trusted_device (key : pystr) : M Service unit :=
  s ← get; d ← lift (remove_device_by_public_key key (v_db s)); modify (set_db d).

(** One round of [_monitor_stall_timeouts]: the connections of transfers without
    a chunk for half a minute are closed. *)
Definition stalled (s : Service) : list pystr :=
  (List.filter (fun e => v_clock s - e.2 >? 30 * NANO) (v_last_chunk s)).*1.
Definition stall_turn : M Service unit :=
  s ← get;
  iterM (fun tid => s ← get;
                    match aget tid (v_incoming_peers s) with
                    | Some pid => upd_peer pid p_close
                    | None => mret tt
                    end) (stalled s).

(** ** Leftovers of a crash *)

Definition staging_dir : path := h_download_dir ++ [u "staging"].
(** [staging_dir.glob("*.part")], in whatever order the system lists them. *)
Definition in_staging (p : path) : bool := bool_decide (p <> [] /\ parent p = staging_dir) && is_part (path_name p).
Definition glob_part : M world (list path) :=
  w ← get; mret (List.filter in_staging (map_to_list (w_fs w)).*1).

Definition clean_file (stale_file : path) : M Service unit :=
  s ← get;
  info ← lift (get_interrupted_transfer (path_stem (path_name stale_file)) (v_db s));
  match info with
  | Some info => if r_expire_at info >? v_now s then mret tt else fs_call (unlink stale_file)
  | None => fs_call (unlink stale_file)
  end.
Definition clean_staging : M Service unit :=
  b ← fs_call (exists_ staging_dir);
  if (b : bool) then stale ← fs_call glob_part; iterM (fun f => swallow (clean_file f)) stale else mret tt.

(** The part of [start] on the file system. *)
Definition prepare_files : M Service unit := fs_call (mkdirs h_download_dir);; clean_staging.

(** ** Resuming *)

(** The object made again from what the database kept. *)
Definition restored (meta : TransferMetadata) : IncomingTransfer :=
  set_state INTERRUPTED (set_temp_path (staging_part (m_transfer_id meta)) (new_incoming meta h_download_dir)).
Definition stored_metadata (now : Z) (info : InterruptedTransferInfo) : res TransferMetadata :=
  j ← json_loads (r_original_metadata_json info); d ← as_dict j; metadata_from_dict now d.

Definition find_interrupted (k : option pystr) (d : db) : res (option (pystr * InterruptedTransferInfo)) :=
  match k with
  | None => Ok None
  | Some id => match get_interrupted_transfer id d with
               | Ok i => Ok (pair id <$> i)
               | Err e => Err e
               end
  end.

(** [request_resume] up to its wait: what it waits for, unless it gave up. *)
Definition request_resume_begin (remote_addr transfer_id : pystr) : M Service (option (nat * nat * Z)) :=
  s ← get;
  match aget remote_addr (v_sessions s) with
  | None => mret None
  | Some pid =>
      info ← lift (get_interrupted_transfer transfer_id (v_db s));
      match info with
      | None => mret None
      | Some info =>
          match stored_metadata (v_now s) info with
          | Err _ => mret None
          | Ok meta =>
              oid ← new_object (restored meta);
              req ← try_except
                      (r ← on_incoming oid (prepare_resume_request (Some (r_bytes_received info)) (Some (r_resume_chunk_index info)));
                       mret (Some r))
                      (fun _ => true) (fun _ => mret None);
              match req with
              | None => mret None
              | Some req =>
                  track transfer_id oid pid;;
                  send_encrypted pid TRANSFER_RESUME_REQUEST (TransferResumeRequestPayload.to_dict req);;
                  wait_response_begin pid transfer_id;;
                  mret (Some (pid, oid, TransferResumeRequestPayload.resume_chunk_index req))
              end
          end
      end
  end.

(** The rest of it: the answer came, or the half minute is over. *)
Definition request_resume_end (pid : nat) (transfer_id : pystr) (oid : nat) (chunk_index : Z) (timeout : bool) : M Service bool :=
  response ← if timeout then mret R_REJECT else wait_response_end pid transfer_id;
  if bool_decide (response = R_ACCEPT) then
    try_except (on_incoming oid (resume chunk_index);; mret true) (fun _ => true)
      (fun _ => pop_incoming transfer_id;; pop_incoming_peer transfer_id;; mret false)
  else pop_incoming transfer_id;; pop_incoming_peer transfer_id;; mret false.

Definition on_transfer_resume_request (pid : nat) (payload : jdict) : M Service unit :=
  let tid := dget_or payload "transfer_id" JNull in
  if negb (py_bool tid) then mret tt
  else
    let reject reason := swallow (send_encrypted pid TRANSFER_RESUME_REJECT (tid_reason tid reason)) in
    k ← lift (db_key tid);
    s ← get;
    found ← lift (find_interrupted k (v_db s));
    match found with
    | None => reject "TRANSFER_NOT_FOUND"%string
    | Some (transfer_id, info) =>
        p ← peer pid;
        if negb (bool_decide (p_static_b64 p = Some (r_sender_identity info))) then reject "WRONG_PEER"%string
        else
          partial ← lift (match dget_or payload "partial_sha256" (JStr []) with
                          | JStr x => Ok (h_lower x) | _ => Err AttributeError end);
          if negb (bool_decide (partial = h_lower (r_partial_sha256 info))) then reject "PARTIAL_CORRUPT"%string
          else if negb (eq_int (dget_or payload "resume_chunk_index" (JInt 0)) (r_resume_chunk_index info))
          then reject "PARTIAL_CORRUPT"%string
          else
            try_except
              (meta ← lift (stored_metadata (v_now s) info);
               oid ← new_object (restored meta);
               on_incoming oid (resume (r_resume_chunk_index info));;
               track transfer_id oid pid;;
               send_encrypted pid TRANSFER_RESUME_ACCEPT
                 (mkdict [("transfer_id", JStr transfer_id); ("resume_chunk_index", JInt (r_resume_chunk_index info));
                          ("protocol_version", JInt 1)]%string))
              (fun _ => true) (fun _ => reject "SOURCE_MODIFIED"%string)
    end.

(** ** Dispatch *)

Definition handle_transfer_message (pid : nat) (envelope : FerryEnvelope) : M Service unit :=
  payload ← lift (as_dict (e_payload envelope));
  let transfer_id := dget_or payload "transfer_id" (JStr []) in
  let batch_id := dget_or payload "batch_id" (JStr []) in
  match mt_of (e_type envelope) with
  | Some TRANSFER_REQUEST => on_transfer_request pid payload
  | Some TRANSFER_ACCEPT => signal_transfer pid transfer_id R_ACCEPT
  | Some TRANSFER_REJECT => signal_transfer pid transfer_id R_REJECT
  | Some TRANSFER_COMPLETE => on_transfer_complete pid transfer_id
  | Some TRANSFER_RESULT => signal_result pid transfer_id (py_bool (dget_or payload "success" (JBool false)))
  | Some TRANSFER_CANCEL => on_transfer_cancel pid transfer_id
  | Some TRANSFER_ERROR => cancel_incoming_transfer transfer_id
  | Some TRANSFER_RESUME_REQUEST => on_transfer_resume_request pid payload
  | Some TRANSFER_RESUME_ACCEPT => signal_transfer pid transfer_id R_ACCEPT
  | Some TRANSFER_RESUME_REJECT => signal_transfer pid transfer_id R_REJECT
  | Some BATCH_REQUEST => on_batch_request pid payload
  | Some BATCH_ACCEPT => signal_transfer pid batch_id R_ACCEPT
  | Some BATCH_REJECT => signal_transfer pid batch_id R_REJECT
  | Some BATCH_CANCEL => on_batch_cancel batch_id
  | Some BATCH_COMPLETE => on_batch_complete batch_id
  | _ => mret tt
  end.

Definition upd_bridge (f : Bridge -> Bridge) : M Service unit := modify (fun s => set_bridge (f (v_bridge s)) s).

Definition on_notification_post (payload : json) : M Service unit :=
  raw ← lift (text ← json_dumps payload; utf8_encode text);
  if zlen raw >? MAX_NOTIFICATION_FRAME_BYTES then mret tt
  else
    try_except
      (dto ← lift (notification_of_json payload);
       n ← draw_fresh;
       s ← get;
       upd_bridge (fun b => (post (v_clock s) (h_notify_reply n) (NotificationPostPayload.ferry_id dto)
                                (NotificationPostPayload.app_label dto) (NotificationPostPayload.title dto)
                                (NotificationPostPayload.body dto) b).2))
      is_value_or_key (fun _ => mret tt).

Definition on_notification_remove (payload : json) : M Service unit :=
  try_except
    (dto ← lift (d ← as_dict payload; NotificationRemovePayload.from_dict d);
     upd_bridge (fun b => (remove (NotificationRemovePayload.ferry_id dto) b).2))
    is_value_or_key (fun _ => mret tt).

Definition CAPS : jdict := mkdict [("capabilities", JArr [JStr (u "notify.v1")])]%string.

(** A pairing decision of the peer: whether the session goes on. *)
Definition on_pair_decision (pid : nat) (payload : json) : M Service bool :=
  d ← lift (as_dict payload);
  let decision := dget_or d "decision" JNull in
  if eq_str decision (u "REJECT") then mret false
  else
    (if eq_str decision (u "ACCEPT") then
       p ← peer pid;
       match s_state (p_session p) with
       | PAIRING => on_session pid (session_transition WAITING_FOR_LOCAL_DECISION)
       | WAITING_FOR_REMOTE_DECISION =>
           on_session pid (session_transition PAIR_ACCEPTED);;
           persist_trust pid;;
           on_session pid (session_transition ESTABLISHED);;
           swallow (send_encrypted pid CAPABILITIES CAPS)
       | _ => mret tt
       end;;
       notify_session_change pid
     else mret tt);;
    mret true.

(** One turn of the session loop on the bytes of a frame. *)
Definition session_turn (pid : nat) (frame_data : bytes) : M Service bool :=
  plaintext ← on_session pid (decrypt_frame frame_data);
  if is_chunk_frame plaintext then on_chunk_received plaintext;; mret true
  else
    text ← lift (utf8_decode plaintext);
    n ← draw_fresh;
    s ← get;
    envelope ← lift (envelope_from_json (h_uuid4 n) (v_now s) text);
    match mt_of (e_type envelope) with
    | Some DISCONNECT => mret false
    | Some PAIR_DECISION => on_pair_decision pid (e_payload envelope)
    | Some CAPABILITIES =>
        d ← lift (as_dict (e_payload envelope));
        caps ← lift (py_list (dget_or d "capabilities" (JArr [])));
        on_session pid (modify (with_capabilities caps));;
        mret true
    | Some NOTIFICATION_POST => on_notification_post (e_payload envelope);; mret true
    | Some NOTIFICATION_REMOVE => on_notification_remove (e_payload envelope);; mret true
    | _ => handle_transfer_message pid envelope;; mret true
    end.

(** ** Leaving the loop *)

(** The [finally] of the loop. *)
Definition loop_finally (pid : nat) : M Service unit :=
  cancel_incoming_transfer_for_peer pid;;
  cancel_outgoing_transfer_for_peer pid;;
  on_session pid (session_transition CLOSING);;
  on_session pid (session_transition DISCONNECTED).

(** The [except Exception] and the [finally] of [_run_handshake]. *)
Definition handshake_failed (pid : nat) : M Service unit :=
  p ← peer pid;
  (if negb (bool_decide (s_state (p_session p) ∈ [ESTABLISHED; CLOSING; SFAILED; DISCONNECTED]))
   then swallow (on_session pid (session_transition SFAILED)) else mret tt);;
  notify (NSession (p_addr p) SFAILED).
Definition handshake_finally (pid : nat) : M Service unit :=
  p ← peer pid;
  modify (fun s => set_sessions (adel (p_addr p) (v_sessions s)) s);;
  upd_peer pid p_close;;
  (if negb (bool_decide (s_state (p_session p) ∈ [DISCONNECTED; SFAILED]))
   then swallow (on_session pid (session_transition CLOSING);; on_session pid (session_transition DISCONNECTED)) else mret tt);;
  notify_session_change pid;;
  upd_peer pid (p_set_phase Ended).

(** The loop ended, in whatever way: the rest of the session's task. *)
Definition session_over (pid : nat) : M Service unit :=
  try_except (loop_finally pid) (fun _ => true) (fun _ => handshake_failed pid);;
  handshake_finally pid.

(** One frame, and the end of the session if it was the last. *)
Definition session_frame (pid : nat) (frame_data : bytes) : M Service unit :=
  continue ← try_except (session_turn pid frame_data) (fun _ => true) (fun _ => mret false);
  if (continue : bool) then mret tt else session_over pid.
End handlers.
