(* ===== verification/Sending.v ===== *)
(** * Sending a file or a batch: [send_file] and [send_batch] of [core/service.py]

    Both are coroutines that are suspended for long: while the peer decides,
    while a chunk drains, while the peer verifies.  Each is a machine here: a
    suspended task is a value, and a step runs it from one suspension to the
    next.  Anything may happen in the service between two steps. *)
From S2P Require Import Prelude PyStr Sha256 Json Protocol Payloads Transfer Fs Incoming Outgoing Session Bridge Db.
From S2P Require Import Identity Peers Service.

(** ** The files of a batch *)

(** [p.is_file()] and [p.is_dir()] *)
Definition is_file (p : path) : M world bool :=
  syscall (fun f => Ok (match fs_get f p with Some (NFile _) => true | _ => false end, f)).
Definition is_dir (p : path) : M world bool :=
  syscall (fun f => Ok (match fs_get f p with Some NDir => true | _ => false end, f)).

(** The files below a directory, in whatever order the system lists them. *)
Definition below (dir : path) (e : path * node) : bool :=
  match e.2 with NFile _ => bool_decide (dir `prefix_of` e.1) && negb (bool_decide (e.1 = dir)) | NDir => false end.
Definition walk (dir : path) : M world (list path) :=
  w ← get; mret (List.filter (below dir) (map_to_list (w_fs w))).*1.

(** What was found so far, and its size. *)
Abbreviation found := (list (path * pystr) * Z)%type (only parsing).
(** [filepath.relative_to(base_dir).as_posix()] *)
Definition relative_posix (base : path) (p : path) : pystr := join (u "/") (drop (length base) p).

Definition collect_file (base : path) (acc : found) (filepath : path) : M world found :=
  b ← is_file filepath;
  if (b : bool) then
    let files := acc.1 ++ [(filepath, relative_posix base filepath)] in
    size ← try_except (stat_size filepath) (fun _ => true) (fun _ => mret 0);
    mret (files, acc.2 + size)
  else mret acc.

Fixpoint foldM {S A B} (f : A -> B -> M S A) (a : A) (l : list B) : M S A :=
  match l with [] => mret a | x :: l' => a' ← f a x; foldM f a' l' end.

Section sending.
Context `{HC : Crypto} `{HR : PyRepr} `{HH : Host}.
(** This device. *)
Context (identity : IdentityManager).

Definition collect_path (acc : found) (p : path) : M world found :=
  p ← lift (h_realpath p);
  e ← exists_ p;
  if negb e then mret acc
  else
    b ← is_file p;
    if (b : bool) then size ← stat_size p; mret (acc.1 ++ [(p, path_name p)], acc.2 + size)
    else
      b ← is_dir p;
      if (b : bool) then files ← walk p; foldM (collect_file (parent p)) acc files else mret acc.
Definition collect_files (source_paths : list path) : M world found := foldM collect_path ([], 0) source_paths.

(** ** [send_file] *)

Inductive send_phase :=
  | SWaitAccept                         (** in [_wait_for_transfer_response] *)
  | SStreaming (g : gen) (sent : Z)     (** about to advance the generator *)
  | SDraining (g : gen) (sent size : Z) (** a chunk was written and drains *)
  | SWaitResult.                        (** in [_wait_for_transfer_result] *)

(** A suspended call of [send_file]: its local variables. *)
Record send_task := {
  k_pid : nat; k_oid : nat; k_meta : TransferMetadata; k_batch_id : pystr; k_started_at : Z;
  k_batch : option nat; k_phase : send_phase
}.
Definition k_tid (k : send_task) : pystr := m_transfer_id (k_meta k).
Definition k_set (batch : option nat) (ph : send_phase) (k : send_task) : send_task :=
  {| k_pid := k_pid k; k_oid := k_oid k; k_meta := k_meta k; k_batch_id := k_batch_id k; k_started_at := k_started_at k;
     k_batch := batch; k_phase := ph |}.

(** Suspended again, or the result. *)
Abbreviation stepped := (send_task + bool)%type (only parsing).

Definition on_outgoing {A} (oid : nat) (m : M ost A) : M Service A := fun s =>
  match v_sends s !! oid with
  | None => (Err AssertionError, s)
  | Some t => let '(r, (t', w')) := m (t, v_world s) in (r, set_world w' (set_sends (<[oid := t']> (v_sends s)) s))
  end.
(** [OutgoingTransfer(...)] *)
Definition new_send (t : OutgoingTransfer) : M Service nat := fun s =>
  (Ok (length (v_sends s)), set_sends (v_sends s ++ [t]) s).
Definition pop_outgoing (tid : pystr) : M Service unit := modify (fun s => set_outgoing (adel tid (v_outgoing s)) s).

(** [try: ... finally: self._active_outgoing_transfers.pop(id, None)] around a
    part of the coroutine: it runs when the coroutine ends here. *)
Definition guarded (tid : pystr) (m : M Service stepped) : M Service stepped :=
  x ← try_except m (fun _ => true) (fun e => pop_outgoing tid;; raise e);
  match x with
  | inl k => mret (inl k)
  | inr b => pop_outgoing tid;; mret (inr b)
  end.

(** [if not batch_id:] history and completion listeners. *)
Definition report (k : send_task) (status : string) (sha256 : pystr) (success : bool) : M Service unit :=
  if bool_decide (k_batch_id k = []) then
    p ← peer (k_pid k);
    record_transfer_once (k_tid k) (or_addr (p_device_id p) p) (m_file_name (k_meta k)) (m_file_size (k_meta k)) OUTGOING_
      (u status) (k_started_at k) sha256;;
    notify (NComplete (k_tid k) success (m_file_name (k_meta k)) OUTGOING_)
  else mret tt.

(** [xfer._cancelled or xfer.state == TransferState.CANCELLING] *)
Definition is_cancelled (oid : nat) : M Service bool :=
  s ← get;
  match v_sends s !! oid with
  | None => raise AssertionError
  | Some t => mret (o_cancelled t || bool_decide (o_state t = CANCELLING))
  end.
Definition cancelled_flag (oid : nat) : M Service bool :=
  s ← get;
  match v_sends s !! oid with None => raise AssertionError | Some t => mret (o_cancelled t) end.

Definition send_file_begin (remote_addr : pystr) (source_path : path) (transfer_id : option pystr)
    (batch_id relative_path : pystr) : M Service stepped :=
  s ← get;
  match aget remote_addr (v_sessions s) with
  | None => raise RuntimeError
  | Some pid =>
      p ← peer pid;
      lift (raise_if (negb (bool_decide (s_state (p_session p) = ESTABLISHED))) RuntimeError);;
      new_id ← match transfer_id with Some ((_ :: _) as t) => mret t | _ => n ← draw_fresh; mret (h_uuid4 n) end;
      oid ← new_send (new_outgoing new_id source_path (default [] (p_static_b64 p)) transfer_id batch_id relative_path);
      meta ← try_except
               (m ← on_outgoing oid (build_metadata h_guess_type (v_now s) (public_key_b64 identity)); mret (Some m))
               (fun e => is_OSError e || is_ValueError e) (fun _ => mret None);
      match meta with
      | None => mret (inr false)
      | Some meta =>
          let tid := m_transfer_id meta in
          let k := {| k_pid := pid; k_oid := oid; k_meta := meta; k_batch_id := batch_id; k_started_at := v_now s;
                      k_batch := None; k_phase := SWaitAccept |} in
          modify (fun s => set_outgoing (aset tid (pid, oid) (v_outgoing s)) s);;
          guarded tid
            (send_encrypted pid TRANSFER_REQUEST (metadata_to_dict meta);;
             wait_response_begin pid tid;;
             mret (inl k))
      end
  end.

(** The answer came, or the minute is over. *)
Definition send_file_response (k : send_task) (timeout : bool) : M Service stepped :=
  response ← if timeout then mret R_REJECT else wait_response_end (k_pid k) (k_tid k);
  if negb (bool_decide (response = R_ACCEPT)) then
    c ← cancelled_flag (k_oid k);
    report k (if bool_decide (response = R_CANCEL) || c then "CANCELLED" else "REJECTED") (m_sha256 (k_meta k)) false;;
    mret (inr false)
  else
    s ← get;
    let batch := if bool_decide (k_batch_id k = []) then None else aget (k_batch_id k) (v_batches s) in
    mret (inl (k_set batch (SStreaming stream_chunks 0) k)).

Definition cancel_notice (k : send_task) (reason : string) : M Service unit :=
  swallow (send_encrypted (k_pid k) TRANSFER_CANCEL (tid_reason (JStr (k_tid k)) reason)).

(** After the loop over the chunks. *)
Definition send_file_streamed (k : send_task) : M Service stepped :=
  c ← is_cancelled (k_oid k);
  if (c : bool) then
    cancel_notice k "USER_CANCELLED";;
    report k "CANCELLED" (m_sha256 (k_meta k)) false;;
    mret (inr false)
  else
    send_encrypted (k_pid k) TRANSFER_COMPLETE (tid_dict (k_tid k));;
    wait_result_begin (k_pid k) (k_tid k);;
    mret (inl (k_set (k_batch k) SWaitResult k)).

(** The next turn of the loop, up to the drain of its chunk. *)
Definition send_file_next (k : send_task) (g : gen) (sent : Z) : M Service stepped :=
  y ← try_except (x ← on_outgoing (k_oid k) (gen_next g); mret (Some x)) is_transfer_error (fun _ => mret None);
  match y with
  | None =>
      cancel_notice k "IO_ERROR";;
      report k "FAILED" (m_sha256 (k_meta k)) false;;
      mret (inr false)
  | Some (None, _) => send_file_streamed k
  | Some (Some chunk_frame_bytes, g') =>
      c ← is_cancelled (k_oid k);
      if (c : bool) then send_file_streamed k
      else
        encrypted ← on_session (k_pid k) (encrypt_frame chunk_frame_bytes);
        upd_peer (k_pid k) (p_write encrypted);;
        mret (inl (k_set (k_batch k) (SDraining g' sent (Z.max 0 (zlen chunk_frame_bytes - CHUNK_HEADER_SIZE))) k))
  end.

(** The drain ended: progress. *)
Definition send_file_drained (k : send_task) (g : gen) (sent size : Z) : M Service stepped :=
  p ← peer (k_pid k);
  lift (raise_if (p_lost p) OSError);;
  match k_batch k with
  | Some i => add_batch_bytes (k_batch_id k) i size
  | None => notify (NProgress (k_tid k) (sent + size) (m_file_size (k_meta k)))
  end;;
  mret (inl (k_set (k_batch k) (SStreaming g (sent + size)) k)).

(** The verdict came, or the minute is over. *)
Definition send_file_result (k : send_task) (timeout : bool) : M Service stepped :=
  result ← if timeout then mret false else wait_result_end (k_pid k) (k_tid k);
  report k (if (result : bool) then "COMPLETED" else "FAILED") (if result then m_sha256 (k_meta k) else []) result;;
  mret (inr result).

Definition send_step (k : send_task) (timeout : bool) : M Service stepped :=
  guarded (k_tid k)
    match k_phase k with
    | SWaitAccept => send_file_response k timeout
    | SStreaming g sent => send_file_next k g sent
    | SDraining g sent size => send_file_drained k g sent size
    | SWaitResult => send_file_result k timeout
    end.

(** Whether the task can be resumed: its event is set, or its time is over. *)
Definition send_ready (k : send_task) (timeout : bool) (s : Service) : bool :=
  match k_phase k with
  | SWaitAccept => timeout || answered (k_pid k) (k_tid k) s
  | SWaitResult => timeout || judged (k_pid k) (k_tid k) s
  | _ => true
  end.

(** ** [send_batch] *)

Record batch_task := {
  b_addr : pystr; b_pid : nat; b_files : list (path * pystr) (** not sent yet *); b_obj : nat; b_id : pystr; b_title : pystr;
  b_items : Z; b_size : Z; b_created : Z; b_success : Z;
  b_item : option send_task (** [None] while the peer decides *)
}.
Definition b_step (files : list (path * pystr)) (success : Z) (item : option send_task) (t : batch_task) : batch_task :=
  {| b_addr := b_addr t; b_pid := b_pid t; b_files := files; b_obj := b_obj t; b_id := b_id t; b_title := b_title t;
     b_items := b_items t; b_size := b_size t; b_created := b_created t; b_success := success; b_item := item |}.

Definition send_batch_begin (remote_addr : pystr) (source_paths : list path) (batch_name : pystr) : M Service (batch_task + bool) :=
  s ← get;
  match aget remote_addr (v_sessions s) with
  | None => mret (inr false)
  | Some pid =>
      p ← peer pid;
      if negb (bool_decide (s_state (p_session p) = ESTABLISHED)) then mret (inr false)
      else
        '(all_files, total_bytes) ← fs_call (collect_files source_paths);
        let total_items := zlen all_files in
        if total_items =? 0 then mret (inr false)
        else
          n ← draw_fresh;
          let batch_id := h_uuid4 n in
          let req := {| BatchRequestPayload.batch_id := batch_id; BatchRequestPayload.batch_name := batch_name;
                        BatchRequestPayload.total_items := total_items; BatchRequestPayload.total_bytes := total_bytes;
                        BatchRequestPayload.sender_identity := public_key_b64 identity;
                        BatchRequestPayload.created_at := v_now s; BatchRequestPayload.protocol_version := PROTOCOL_VERSION |} in
          i ← new_batch batch_id (BOut (new_batch_outgoing batch_id batch_name total_items total_bytes all_files.*1));
          send_encrypted pid BATCH_REQUEST (BatchRequestPayload.to_dict req);;
          wait_response_begin pid batch_id;;
          mret (inl {| b_addr := remote_addr; b_pid := pid; b_files := all_files; b_obj := i; b_id := batch_id;
                       b_title := batch_name; b_items := total_items; b_size := total_bytes; b_created := v_now s;
                       b_success := 0; b_item := None |})
  end.

(** [batch.items_completed += 1] or [batch.items_failed += 1] *)
Definition count_item (t : batch_task) (success : bool) : M Service unit :=
  upd_batch (b_obj t) (fun b => if success then b_set (b_state b) (b_completed b + 1) (b_failed b) (b_bytes b) b
                                else b_set (b_state b) (b_completed b) (b_failed b + 1) (b_bytes b) b).

(** After the loop over the files. *)
Definition send_batch_done (t : batch_task) : M Service (batch_task + bool) :=
  s ← get;
  (if bool_decide (is_Some (aget (b_id t) (v_batches s))) then
     send_encrypted (b_pid t) BATCH_COMPLETE (batch_dict (b_id t));; pop_batch (b_id t)
   else mret tt);;
  let all := b_success t =? b_items t in
  p ← peer (b_pid t);
  record_transfer_once (b_id t) (or_addr (p_device_id p) p) (b_title t) (b_size t) OUTGOING_
    (if all then u "COMPLETED" else u "FAILED") (b_created t) [];;
  notify (NComplete (b_id t) all (b_title t) OUTGOING_);;
  mret (inr all).

(** The loop from its next file on, until an item is suspended. *)
Fixpoint send_batch_loop (t : batch_task) (success : Z) (files : list (path * pystr)) : M Service (batch_task + bool) :=
  match files with
  | [] => send_batch_done (b_step [] success None t)
  | (abs_path, rel_path) :: rest =>
      s ← get;
      if negb (bool_decide (is_Some (aget (b_id t) (v_batches s)))) then send_batch_done (b_step files success None t)
      else
        r ← send_file_begin (b_addr t) abs_path None (b_id t) rel_path;
        match r with
        | inl k => mret (inl (b_step rest success (Some k) t))
        | inr ok => count_item t ok;; send_batch_loop t (if (ok : bool) then success + 1 else success) rest
        end
  end.

(** A step: the answer of the peer (a timeout raises), or a step of the item. *)
Definition batch_step (t : batch_task) (timeout : bool) : M Service (batch_task + bool) :=
  match b_item t with
  | None =>
      response ← if timeout then raise OSError else wait_response_end (b_pid t) (b_id t);
      if negb (bool_decide (response = R_ACCEPT)) then pop_batch (b_id t);; mret (inr false)
      else send_batch_loop t 0 (b_files t)
  | Some k =>
      r ← send_step k timeout;
      match r with
      | inl k => mret (inl (b_step (b_files t) (b_success t) (Some k) t))
      | inr ok => count_item t ok;; send_batch_loop t (if (ok : bool) then b_success t + 1 else b_success t) (b_files t)
      end
  end.
Definition batch_ready (t : batch_task) (timeout : bool) (s : Service) : bool :=
  match b_item t with
  | Some k => send_ready k timeout s
  | None => timeout || answered (b_pid t) (b_id t) s
  end.
End sending.
