(* ===== verification/Handshake.v ===== *)
(** * The handshake task of a connection: [_run_handshake] of [core/service.py]

    Everything the peer sends is one stream of octets, so a run of the task is a
    function of it; a run ends when the encrypted loop is entered or the task is
    over.  The events of the whole service, in any order, are at the end. *)
From S2P Require Import Prelude PyStr Sha256 Json Protocol Payloads Transfer Fs Incoming Outgoing Session Bridge Db.
From S2P Require Import Identity Peers Service Sending.

(** [await reader.readexactly(n)]: a stream that ends early raises. *)
Definition readexactly (n : Z) (stream : bytes) : res (bytes * bytes) :=
  if zlen stream <? n then Err EOFError else Ok (take (Z.to_nat n) stream, drop (Z.to_nat n) stream).

Lemma readexactly_app n (a b : bytes) : zlen a = n -> readexactly n (a ++ b) = Ok (a, b).
Proof.
  intros <-. unfold readexactly. rewrite zlen_app. pose proof (zlen_nonneg b). replace (_ <? _) with false by lia.
  unfold zlen. by rewrite Nat2Z.id, take_app_length, drop_app_length.
Qed.

Definition read_aead_frame_bytes (stream : bytes) : res (bytes * bytes) :=
  '(header, stream) ← readexactly AEAD_HEADER_SIZE stream;
  let ct_len := be_val header in
  '(rest, stream) ← readexactly (AEAD_NONCE_SIZE + ct_len) stream;
  Ok (header ++ rest, stream).

Definition recv_plain (uid : pystr) (now : Z) (stream : bytes) : res (FerryEnvelope * bytes) :=
  '(header, stream) ← readexactly 6 stream;
  raise_if (negb (bool_decide (slice 0 2 header = MAGIC_BYTES))) ValueError;;
  let length := be_val (slice 2 6 header) in
  raise_if (length >? MAX_CONTROL_FRAME_SIZE) ValueError;;
  '(payload_bytes, stream) ← readexactly length stream;
  text ← utf8_decode payload_bytes;
  env ← envelope_from_json uid now text;
  Ok (env, stream).

Definition decode_key_json (j : json) : res bytes :=
  match j with JStr s => decode_public_key_b64 s | _ => Err TypeError end.

(** [base64.urlsafe_b64encode(b).decode()], with its padding. *)
Definition b64url_padded (l : bytes) : pystr := b64url l ++ repeat 61 (Z.to_nat ((3 - zlen l mod 3) mod 3)).

Section handshake.
Context `{HC : Crypto} `{HR : PyRepr} `{HH : Host} `{HE : Ed25519}.
(** This device: its identity and its configured id and name. *)
Context (identity : IdentityManager) (device_id device_name : pystr).

Definition init_payload (hs : HandshakeData) (is_paired : bool) : jdict :=
  mkdict [("device_id", JStr device_id); ("device_name", JStr device_name); ("device_type", JStr (u "desktop"));
          ("public_key", JStr (public_key_b64 identity)); ("ephemeral_key", JStr (b64url (ephemeral_pub_key hs)));
          ("nonce", JStr (b64url (nonce hs))); ("is_paired", JBool is_paired)]%string.

(** [db.get_device_by_public_key] of a value of the wire ([NULL] equals no key). *)
Definition device_by_key (j : json) : M Service (option TrustedDevice) :=
  s ← get;
  lift match j with
       | JNull => Ok None
       | _ => k ← db_text j; get_device_by_public_key k (v_db s)
       end.

(** Receive an envelope of the given type. *)
Definition expect (mt : MessageType) (stream : bytes) : M Service (jdict * bytes) :=
  n ← draw_fresh;
  s ← get;
  '(env, stream) ← lift (recv_plain (h_uuid4 n) (v_now s) stream);
  lift (raise_if (negb (is_type (e_type env) mt)) ValueError);;
  d ← lift (as_dict (e_payload env));
  mret (d, stream).

(** Step 1: the exchange of HANDSHAKE_INIT and HANDSHAKE_RESPONSE. *)
Definition exchange_init (pid : nat) (is_initiator : bool) (hs : HandshakeData) (stream : bytes) : M Service (jdict * bytes) :=
  if is_initiator then
    p ← peer pid;
    known ← match p_static_b64 p with
            | Some ((_ :: _) as k) => e ← device_by_key (JStr k); mret (bool_decide (is_Some e))
            | _ => mret false
            end;
    send_plain pid HANDSHAKE_INIT (init_payload hs known);;
    expect HANDSHAKE_RESPONSE stream
  else
    '(remote, stream) ← expect HANDSHAKE_INIT stream;
    existing ← device_by_key (dget_or remote "public_key" (JStr []));
    send_plain pid HANDSHAKE_RESPONSE (init_payload hs (bool_decide (is_Some existing)));;
    mret (remote, stream).

(** What the peer's payload says goes into the session; its static key, as text
    and as octets. *)
Definition accept_remote (pid : nat) (remote : jdict) : M Service (pystr * bytes) :=
  let static_b64 := dget_or remote "public_key" (JStr []) in
  static ← lift (decode_key_json static_b64);
  eph ← lift (decode_key_json (dget_or remote "ephemeral_key" (JStr [])));
  nonce ← lift (decode_key_json (dget_or remote "nonce" (JStr [])));
  b64 ← lift match static_b64 with JStr s => Ok s | _ => Err TypeError end;
  upd_peer pid (p_set_remote (dget_or remote "device_id" (JStr [])) (dget_or remote "device_name" (JStr [])) b64);;
  on_session pid (accept_remote_handshake {| static_pub_key := static; ephemeral_pub_key := eph; nonce := nonce |});;
  mret (b64, static).

Definition auth_payload (transcript : bytes) : jdict :=
  mkdict [("signature", JStr (b64url (sign identity transcript)));
          ("transcript_hash", JStr (b64url_padded (sha256 transcript)))]%string.

(** Step 3: the exchange of signatures over the transcript. *)
Definition exchange_auth (pid : nat) (is_initiator : bool) (transcript : bytes) (stream : bytes) : M Service (json * bytes) :=
  if is_initiator then
    send_plain pid AUTH_CHALLENGE (auth_payload transcript);;
    '(d, stream) ← expect AUTH_RESPONSE stream;
    mret (dget_or d "signature" (JStr []), stream)
  else
    '(d, stream) ← expect AUTH_CHALLENGE stream;
    send_plain pid AUTH_RESPONSE (auth_payload transcript);;
    mret (dget_or d "signature" (JStr []), stream).

(** A peer whose signature was verified: resume trust, or ask for pairing. *)
Definition enrol (pid : nat) (static_b64 : pystr) : M Service unit :=
  s ← get;
  existing ← lift (get_device_by_public_key static_b64 (v_db s));
  p ← peer pid;
  match existing with
  | Some old =>
      id ← lift (if py_bool (p_device_id p) then db_text (p_device_id p) else Ok (d_device_id old));
      name ← lift (if py_bool (p_device_name p) then db_text (p_device_name p) else Ok (d_device_name old));
      d ← lift (add_or_update_device {| d_device_id := id; d_device_name := name; d_public_key := d_public_key old;
                                        d_identity_public_key_b64 := d_identity_public_key_b64 old;
                                        d_paired_at := d_paired_at old; d_last_seen := v_now s |} (v_db s));
      modify (set_db d);;
      on_session pid (session_transition ESTABLISHED);;
      modify (fun s => set_sessions (aset (p_addr p) pid (v_sessions s)) s);;
      notify (NSession (p_addr p) ESTABLISHED);;
      swallow (send_encrypted pid CAPABILITIES CAPS)
  | None =>
      on_session pid (session_transition PAIRING);;
      modify (fun s => set_sessions (aset (p_addr p) pid (v_sessions s)) s);;
      notify (NSession (p_addr p) PAIRING);;
      p ← peer pid;
      notify (NPairing (p_addr p) (or_addr (p_device_name p) p) (default [] (sas_code (p_session p))))
  end.

(** The [try] block up to the session loop; [fresh] and [local_nonce] are the
    random draws.  What is left of the stream goes to the loop. *)
Definition handshake_body (pid : nat) (is_initiator : bool) (fresh local_nonce : bytes) (stream : bytes) : M Service bytes :=
  on_session pid (session_transition CONNECTING);;
  on_session pid (session_transition HANDSHAKING);;
  hs ← on_session pid (build_local_handshake fresh local_nonce (id_public_key_bytes identity));
  '(remote, stream) ← exchange_init pid is_initiator hs stream;
  '(static_b64, static) ← accept_remote pid remote;
  on_session pid derive_keys;;
  on_session pid (session_transition AUTHENTICATING);;
  p ← peer pid;
  transcript ← lift (build_auth_transcript (p_session p));
  '(sig_b64, stream) ← exchange_auth pid is_initiator transcript stream;
  remote_sig ← lift (decode_key_json sig_b64);
  lift (raise_if (negb (verify static transcript remote_sig)) ValueError);;
  enrol pid static_b64;;
  upd_peer pid (p_set_phase Looping);;
  mret stream.

(** [_run_handshake] up to the loop: whether it is entered. *)
Definition run_handshake (pid : nat) (is_initiator : bool) (fresh local_nonce : bytes) (stream : bytes) : M Service bool :=
  entered ← try_except (handshake_body pid is_initiator fresh local_nonce stream;; mret true) (fun _ => true)
              (fun _ => handshake_failed pid;; mret false);
  (if (entered : bool) then mret tt else handshake_finally pid);;
  mret entered.

(** ** The events of the service *)

Inductive event :=
  | EvTick (now clock : Z)
  | EvConnect (is_initiator : bool) (addr : pystr)
  | EvHandshake (pid : nat) (fresh local_nonce stream : bytes)
  | EvFrame (pid : nat) (frame_data : bytes)
  | EvOver (pid : nat)                                   (** idle too long, or the stream ended *)
  | EvCancelled (pid : nat)                              (** its task was cancelled *)
  | EvLost (pid : nat)
  | EvAcceptPairing (addr : pystr) | EvRejectPairing (addr : pystr)
  | EvAccept (addr transfer_id : pystr) | EvReject (addr transfer_id : pystr)
  | EvAcceptBatch (addr batch_id : pystr) | EvRejectBatch (addr batch_id : pystr)
  | EvCancel (transfer_id : pystr) (reason : json)
  | EvDiscard (transfer_id : json)
  | EvResume (addr transfer_id : pystr)
  | EvResumed (pid : nat) (transfer_id : pystr) (oid : nat) (chunk_index : Z) (timeout : bool)
  | EvSendFile (addr : pystr) (source : path) (transfer_id : option pystr) (batch_id relative_path : pystr)
  | EvSendStep (k : send_task) (timeout : bool)
  | EvSendBatch (addr : pystr) (sources : list path) (name : pystr)
  | EvBatchStep (t : batch_task) (timeout : bool)
  | EvTimeout (task : nat)
  | EvStart
  | EvStall
  | EvForget (key : pystr)
  | EvClipboard (pid : nat) (payload : jdict).

Definition in_phase (x : phase) (pid : nat) (s : Service) : bool :=
  match v_peers s !! pid with
  | Some p => match x, p_phase p with Handshaking, Handshaking | Looping, Looping | Ended, Ended => true | _, _ => false end
  | None => false
  end.

Definition is_initiator_of (pid : nat) (s : Service) : bool := s_is_initiator (p_session (peer_at pid s)).

(** An event in a state: exceptions end in a log or in the local client. *)
Definition run_event (e : event) (s : Service) : Service :=
  match e with
  | EvTick now clock => set_clock clock (set_now now s)
  | EvConnect is_initiator addr => set_peers (v_peers s ++ [new_peer is_initiator addr]) s
  | EvHandshake pid fresh local_nonce stream =>
      if in_phase Handshaking pid s then (run_handshake pid (is_initiator_of pid s) fresh local_nonce stream s).2 else s
  | EvFrame pid frame_data => if in_phase Looping pid s then (session_frame pid frame_data s).2 else s
  | EvOver pid => if in_phase Looping pid s then (session_over pid s).2 else s
  | EvCancelled pid =>
      if in_phase Looping pid s then (session_over pid s).2
      else if in_phase Handshaking pid s then (handshake_finally pid s).2 else s
  | EvLost pid => (upd_peer pid p_lose s).2
  | EvAcceptPairing addr => (accept_pairing addr s).2
  | EvRejectPairing addr => (reject_pairing addr s).2
  | EvAccept addr tid => (accept_transfer addr tid s).2
  | EvReject addr tid => (reject_transfer addr tid s).2
  | EvAcceptBatch addr id => (accept_batch addr id s).2
  | EvRejectBatch addr id => (reject_batch addr id s).2
  | EvCancel tid reason => (cancel_transfer tid reason s).2
  | EvDiscard tid => (discard_interrupted_transfer tid s).2
  | EvResume addr tid => (request_resume_begin addr tid s).2
  | EvResumed pid tid oid k timeout => if timeout || answered pid tid s then (request_resume_end pid tid oid k timeout s).2 else s
  | EvSendFile addr source tid batch_id rel => (send_file_begin identity addr source tid batch_id rel s).2
  | EvSendStep k timeout => if send_ready k timeout s then (send_step k timeout s).2 else s
  | EvSendBatch addr sources name => (send_batch_begin identity addr sources name s).2
  | EvBatchStep t timeout => if batch_ready t timeout s then (batch_step identity t timeout s).2 else s
  | EvTimeout task => (acceptance_timeout task s).2
  | EvStart => (prepare_files s).2
  | EvStall => (stall_turn s).2
  | EvForget key => (remove_trusted_device key s).2
  | EvClipboard pid payload => (send_encrypted pid CLIPBOARD_SYNC payload s).2
  end.
End handshake.
