(* ===== verification/Views.v ===== *)
(** * Exact views of a service

    A handler reads and writes a small part of the service; an exact run follows
    that part.  The class [PeerView] says when a record is such a part: it holds
    the peer of one session and the count of the uuids drawn.  The runs of the
    operations that every message needs are proved once, for all views. *)
From S2P Require Import Prelude PyStr Sha256 Json Protocol Wire Payloads Transfer Fs Incoming Outgoing Session Bridge Db.
From S2P Require Import Identity Peers Service.

Class PeerView {V : Type} (pid : nat) (now : Z) (holds : V -> Service -> Prop) := {
  pv_peer : V -> PeerSession;
  pv_at : PeerSession -> V -> V;
  pv_fresh : V -> nat;
  pv_drawn : V -> V;
  pv_at_same x : pv_at (pv_peer x) x = x;
  pv_at_at p q x : pv_at p (pv_at q x) = pv_at p x;
  pv_peer_at p x : pv_peer (pv_at p x) = p;
  pv_peer_drawn x : pv_peer (pv_drawn x) = pv_peer x;
  pv_drawn_at p x : pv_drawn (pv_at p x) = pv_at p (pv_drawn x);
  pv_found x s : holds x s -> v_peers s !! pid = Some (pv_peer x) /\ v_fresh s = pv_fresh x /\ v_now s = now;
  pv_set x s l p : holds x s -> l !! pid = Some p -> holds (pv_at p x) (set_peers l s);
  pv_draw x s : holds x s -> holds (pv_drawn x) (set_fresh (S (pv_fresh x)) s)
}.

(** ** Sessions with keys *)

(** The session at one end of a channel, on a connection that works: it sends
    under [ks], receives under [kr], and has counted so many frames. *)
Record linked (p : PeerSession) (ks kr : bytes) (cs cr : Z) : Prop := {
  lk_send : s_send_cipher (p_session p) = Some ks;
  lk_recv : s_recv_cipher (p_session p) = Some kr;
  lk_cs : s_send_counter (p_session p) = cs;
  lk_cr : s_recv_counter (p_session p) = cr;
  lk_open : p_closed p = false;
  lk_alive : p_lost p = false
}.
Definition p_sent (f : bytes) (p : PeerSession) : PeerSession :=
  p_set_conn (p_out p ++ [f]) (p_closed p) (p_lost p)
    (p_set_session (with_counters (s_send_counter (p_session p) + 1) (s_recv_counter (p_session p)) (p_session p)) p).
Definition p_heard (p : PeerSession) : PeerSession :=
  p_set_session (with_counters (s_send_counter (p_session p)) (s_recv_counter (p_session p) + 1) (p_session p)) p.
Lemma linked_sent p ks kr cs cr f : linked p ks kr cs cr -> linked (p_sent f p) ks kr (cs + 1) cr.
Proof. intros []. split; cbn; congruence. Qed.
Lemma linked_heard p ks kr cs cr : linked p ks kr cs cr -> linked (p_heard p) ks kr cs (cr + 1).
Proof. intros []. split; cbn; congruence. Qed.
Lemma linked_state p ks kr cs cr st :
  linked p ks kr cs cr -> linked (p_set_session (with_state st (p_session p)) p) ks kr cs cr.
Proof. by intros []. Qed.

Section frames.
Context `{HC : Crypto} {HL : CryptoLaws} `{HR : PyRepr}.

(** The frame of the plaintext [pl] as the [c]-th under the key [k]. *)
Definition sealed (k : bytes) (c : Z) (pl f : bytes) : Prop :=
  exists n, make_nonce c = Ok n /\ zlen pl <= MAX_AEAD_PLAINTEXT
  /\ f = be_bytes 4 (zlen (aead_encrypt k n pl)) ++ n ++ aead_encrypt k n pl.
(** The octets of an envelope with this message. *)
Definition spells (mt : MessageType) (payload : jdict) (pl : bytes) : Prop :=
  exists uid t text, envelope_ok (new_envelope uid t mt payload) = true
  /\ envelope_to_json (new_envelope uid t mt payload) = Ok text /\ utf8_encode text = Ok pl /\ exists r, text = 123 :: r.
Definition letter (k : bytes) (c : Z) (mt : MessageType) (payload : jdict) (f : bytes) : Prop :=
  exists pl, sealed k c pl f /\ spells mt payload pl.
(** A message of moderate size. *)
Definition short (payload : jdict) : Prop := json_ok (JObj payload) = true /\ weight (JObj payload) <= 1000000.

Lemma encrypt_sealed pl s k :
  s_send_cipher s = Some k -> zlen pl <= MAX_AEAD_PLAINTEXT -> 0 <= s_send_counter s < 2 ^ 64 ->
  exists f, sealed k (s_send_counter s) pl f
  /\ encrypt_frame pl s = (Ok f, with_counters (s_send_counter s + 1) (s_recv_counter s) s).
Proof.
  intros Hk Hp Hc. destruct (encrypt_frame_run k pl s Hk Hp Hc) as (n & Hn & He). eexists. split; [|exact He].
  exists n. rewrite aead_length. done.
Qed.
Lemma decrypt_sealed pl f s k :
  s_recv_cipher s = Some k -> 0 <= s_recv_counter s < 2 ^ 64 -> sealed k (s_recv_counter s) pl f ->
  decrypt_frame f s = (Ok pl, with_counters (s_send_counter s) (s_recv_counter s + 1) s).
Proof.
  intros Hk Hc (n & Hn & Hl & ->).
  assert (zlen (aead_encrypt k n pl) < 2 ^ 32) as Hz by (rewrite aead_length; unfold MAX_AEAD_PLAINTEXT, AEAD_TAG_SIZE in *; lia).
  pose proof (decrypt_frame_run k n (aead_encrypt k n pl) [] s Hk Hc (make_nonce_length _ _ Hn) Hz) as H. rewrite app_nil_r in H.
  rewrite H, bool_decide_eq_true_2 by done. by rewrite (proj2 (aead_open k n _ pl)).
Qed.
Lemma spells_not_chunk mt payload pl : spells mt payload pl -> is_chunk_frame pl = false.
Proof.
  intros (uid & t & text & _ & _ & Hpl & r & ->). unfold is_chunk_frame. apply bool_decide_eq_false_2. intros H.
  unfold utf8_encode in Hpl. destruct (forallb _ _); [|done]. injection Hpl as <-. discriminate H.
Qed.
End frames.

(** ** What goes from one service to another *)

(** The frames that a service wrote between two states, and their reception. *)
Definition news (pid : nat) (s s' : Service) : list bytes :=
  drop (length (p_out (peer_at pid s))) (p_out (peer_at pid s')).
Definition hears `{Crypto} `{PyRepr} `{Host} (pid : nat) (fs : list bytes) : M Service unit := iterM (session_frame pid) fs.

(** ** Runs on any view *)

Section runs.
Context {V : Type} {pid : nat} {now : Z} {holds : V -> Service -> Prop} {PV : PeerView pid now holds}.
Notation runs := (Prelude.runs holds).

Lemma pv_peer_runs {A} (f : PeerSession -> M Service A) x r y : runs (f (pv_peer x)) x r y -> runs (peer pid ≫= f) x r y.
Proof.
  intros H s Hs. unfold peer. do 3 wp_step. unfold peer_at. destruct (pv_found x s Hs) as (Hp & _). rewrite Hp. by apply H.
Qed.
Lemma pv_this x : runs (peer pid) x (Ok (pv_peer x)) x.
Proof. intros s Hs. unfold peer. do 2 wp_step. unfold peer_at. by destruct (pv_found x s Hs) as (-> & _). Qed.
Lemma pv_upd x f : runs (upd_peer pid f) x (Ok tt) (pv_at (f (pv_peer x)) x).
Proof.
  apply runs_modify. intros s Hs. destruct (pv_found x s Hs) as (Hp & _). apply pv_set; [done|].
  by rewrite list_lookup_alter_eq, Hp.
Qed.
Lemma pv_on_session {A} (m : M FerrySession A) x r fs :
  m (p_session (pv_peer x)) = (r, fs) -> runs (on_session pid m) x r (pv_at (p_set_session fs (pv_peer x)) x).
Proof.
  intros Hm s Hs. destruct (pv_found x s Hs) as (Hp & _). unfold wp, on_session, peer_at. rewrite Hp.
  cbn [default from_option id]. rewrite Hm. split; [done|]. apply pv_set; [done|]. by rewrite list_lookup_alter_eq, Hp.
Qed.
Lemma pv_draw_runs x : runs draw_fresh x (Ok (pv_fresh x)) (pv_drawn x).
Proof.
  intros s Hs. destruct (pv_found x s Hs) as (_ & Hf & _). unfold wp, draw_fresh. rewrite Hf. split; [done|]. by apply pv_draw.
Qed.
Lemma pv_now_runs {A} (f : Z -> M Service A) x r y : runs (f now) x r y -> runs (s ← get; f (v_now s)) x r y.
Proof. intros H. apply runs_get. intros s Hs. by destruct (pv_found x s Hs) as (_ & _ & ->). Qed.

Lemma pv_write x f :
  p_closed (pv_peer x) = false -> p_lost (pv_peer x) = false ->
  runs (write_drain pid f) x (Ok tt) (pv_at (p_set_conn (p_out (pv_peer x) ++ [f]) false false (pv_peer x)) x).
Proof.
  intros H1 H2. assert (p_write f (pv_peer x) = p_set_conn (p_out (pv_peer x) ++ [f]) false false (pv_peer x)) as E
    by (unfold p_write; by rewrite H1, H2).
  unfold write_drain. eapply runs_bind; [apply pv_upd|]. rewrite E. apply pv_peer_runs. rewrite pv_peer_at. apply runs_lift.
Qed.

Context `{HC : Crypto} {HL : CryptoLaws} `{HR : PyRepr} `{HH : Host} {HHL : HostLaws}.

(** A message goes out. *)
Lemma pv_send x ks kr cs cr mt payload :
  linked (pv_peer x) ks kr cs cr -> s_state (p_session (pv_peer x)) ∉ cannot_send ->
  0 <= cs < 2 ^ 64 -> 0 <= now < 2 ^ 63 -> short payload ->
  exists f, letter ks cs mt payload f
  /\ runs (send_encrypted pid mt payload) x (Ok tt) (pv_at (p_sent f (pv_peer x)) (pv_drawn x)).
Proof.
  intros [Hs Hr Hcs Hcr Ho Ha] Hst Hc Hn [Hok Hw]. set (uid := h_uuid4 (pv_fresh x)).
  destruct (uuid4_text (pv_fresh x)) as [U1 U2]. fold uid in U1, U2.
  destruct (message_fits uid now mt payload U1 U2 Hn Hok Hw) as [He Hz].
  destruct (envelope_text _ He) as (text & pl & Ht & Hpl & Hl & Hhd).
  destruct (encrypt_sealed pl (p_session (pv_peer x)) ks Hs) as (f & Hf & Hrun);
    [change MAX_AEAD_PLAINTEXT with MAX_CONTROL_FRAME_SIZE; lia|by rewrite Hcs|].
  exists f. split; [exists pl; split; [by rewrite <-Hcs|by exists uid, now, text]|].
  unfold send_encrypted. apply pv_peer_runs. rewrite bool_decide_eq_false_2 by done. eapply runs_bind; [apply runs_lift|].
  eapply runs_bind.
  { unfold make_envelope. eapply runs_bind; [apply pv_draw_runs|]. apply (pv_now_runs (fun t => mret (new_envelope _ t mt payload))).
    apply runs_ret. }
  fold uid. rewrite Ht. eapply runs_bind; [apply runs_lift|]. rewrite Hpl. eapply runs_bind; [apply runs_lift|].
  eapply runs_bind; [apply pv_on_session; rewrite pv_peer_drawn; exact Hrun|]. rewrite pv_peer_drawn.
  match goal with |- Prelude.runs _ _ ?z _ _ => pose proof (pv_write z f) as H end. rewrite !pv_peer_at, !pv_at_at in H.
  unfold p_sent. rewrite Ho, Ha. by apply H.
Qed.

(** A message comes in: what the session's loop does with its envelope. *)
Definition dispatch (mt : MessageType) (e : FerryEnvelope) : M Service bool :=
  match mt with
  | DISCONNECT => mret false
  | PAIR_DECISION => on_pair_decision pid (e_payload e)
  | CAPABILITIES =>
      d ← lift (as_dict (e_payload e));
      caps ← lift (py_list (dget_or d "capabilities" (JArr [])));
      on_session pid (modify (with_capabilities caps));;
      mret true
  | NOTIFICATION_POST => on_notification_post (e_payload e);; mret true
  | NOTIFICATION_REMOVE => on_notification_remove (e_payload e);; mret true
  | _ => handle_transfer_message pid e;; mret true
  end.
Lemma pv_session_frame x f y : runs (session_turn pid f) x (Ok true) y -> runs (session_frame pid f) x (Ok tt) y.
Proof. intros H. unfold session_frame. eapply runs_bind; [by apply runs_try|]. apply runs_ret. Qed.
Lemma pv_hear x ks kr cs cr mt payload f y :
  linked (pv_peer x) ks kr cs cr -> 0 <= cr < 2 ^ 64 -> letter kr cr mt payload f ->
  (forall e, e_type e = JStr (u (mt_value mt)) -> e_payload e = JObj payload ->
     runs (dispatch mt e) (pv_drawn (pv_at (p_heard (pv_peer x)) x)) (Ok true) y) ->
  runs (session_frame pid f) x (Ok tt) y.
Proof.
  intros [Hs Hr Hcs Hcr Ho Ha] Hc (pl & Hf & Hsp) H. apply pv_session_frame. unfold session_turn.
  eapply runs_bind; [apply pv_on_session; eapply decrypt_sealed; [exact Hr|by rewrite Hcr|by rewrite Hcr]|].
  rewrite (spells_not_chunk _ _ _ Hsp). destruct Hsp as (uid & t & text & He & Ht & Hpl & _).
  rewrite (utf8_decode_encode _ _ Hpl). eapply runs_bind; [apply runs_lift|]. eapply runs_bind; [apply pv_draw_runs|].
  apply runs_get. intros s _. rewrite (envelope_json_roundtrip _ _ _ _ He Ht). eapply runs_bind; [apply runs_lift|].
  cbn [e_type new_envelope]. rewrite mt_of_value.
  specialize (H (new_envelope uid t mt payload) eq_refl eq_refl). destruct mt; exact H.
Qed.
Lemma pv_hear_chunk x ks kr cs cr b f y :
  linked (pv_peer x) ks kr cs cr -> 0 <= cr < 2 ^ 64 -> sealed kr cr b f -> is_chunk_frame b = true ->
  runs (on_chunk_received b) (pv_at (p_heard (pv_peer x)) x) (Ok tt) y -> runs (session_frame pid f) x (Ok tt) y.
Proof.
  intros [Hs Hr Hcs Hcr Ho Ha] Hc Hf Hb H. apply pv_session_frame. unfold session_turn.
  eapply runs_bind; [apply pv_on_session; eapply decrypt_sealed; [exact Hr|by rewrite Hcr|by rewrite Hcr]|].
  rewrite Hb. eapply runs_bind; [exact H|]. apply runs_ret.
Qed.

(** The reception of the frames that the other side wrote. *)
Lemma pv_hears_one f x y : runs (session_frame pid f) x (Ok tt) y -> runs (hears pid [f]) x (Ok tt) y.
Proof. intros H. eapply runs_bind; [exact H|]. apply runs_ret. Qed.
Lemma pv_hears_app fs gs x y z : runs (hears pid fs) x (Ok tt) y -> runs (hears pid gs) y (Ok tt) z -> runs (hears pid (fs ++ gs)) x (Ok tt) z.
Proof.
  intros H H' s Hs. destruct (runs_elim _ _ _ _ _ _ H Hs) as (s1 & E & Hs1). destruct (runs_elim _ _ _ _ _ _ H' Hs1) as (s2 & E2 & Hs2).
  eapply wp_intro; [|split; [reflexivity|exact Hs2]]. clear - E E2. revert s E.
  induction fs as [|f fs IH]; intros s E; [by injection E as ->|].
  unfold hears in *. cbn [iterM app] in *. unfold mbind, M_bind in *. destruct (session_frame pid f s) as [[[]|e] s']; [|done]. by apply IH.
Qed.
Lemma pv_news x s y s' fs : holds x s -> holds y s' -> p_out (pv_peer y) = p_out (pv_peer x) ++ fs -> news pid s s' = fs.
Proof.
  intros (Hp & _)%pv_found (Hp' & _)%pv_found H. unfold news, peer_at. rewrite Hp, Hp'. cbn. change (id ?p) with p. by rewrite H, drop_app_length.
Qed.
End runs.
