(* ===== verification/FirstContact.v ===== *)
(** * Two devices that meet for the first time

    The handshake task on an honest peer's stream, run step by step: what each
    side writes, and that both end in PAIRING with the same verification code. *)
From S2P Require Import Prelude PyStr Sha256 Json Protocol Wire Payloads Transfer Fs Incoming Outgoing Session Bridge Db.
From S2P Require Import Identity Peers Service Handshake Views.

(** ** Exact runs

    The state that the handshake of the peer [pid] reads and writes: how many
    uuids were drawn, and the peer itself; database and clock stay.  When it is
    over, the service finds the peer under the address [seat]. *)
Section runs.
Context (pid : nat) (d : db) (now : Z) (seat : option pystr).

Definition holds (x : nat * PeerSession) (s : Service) : Prop :=
  v_peers s !! pid = Some x.2 /\ v_fresh s = x.1 /\ v_db s = d /\ v_now s = now
  /\ forall a, seat = Some a -> aget a (v_sessions s) = Some pid.
Notation runs := (Prelude.runs holds).

#[export] Instance party_view : PeerView pid now holds.
Proof.
  refine {| pv_peer := snd; pv_at p x := (x.1, p); pv_fresh := fst; pv_drawn x := (S x.1, x.2) |};
    [intros []|intros ?? []|intros ? []|intros []|intros ? []|intros x s (Hp & Hn & Hd & Ht & Hq)
    |intros x s l p (Hp & Hn & Hd & Ht & Hq) Hl; destruct s|intros x s (Hp & Hn & Hd & Ht & Hq); destruct s]; done.
Defined.

Lemma party_peer {A} (f : PeerSession -> M Service A) n p r y : runs (f p) (n, p) r y -> runs (peer pid ≫= f) (n, p) r y.
Proof. exact (pv_peer_runs (PV := party_view) f (n, p) r y). Qed.
Lemma party_this x : runs (peer pid) x (Ok x.2) x.
Proof. exact (pv_this (PV := party_view) x). Qed.
Lemma party_upd n p f : runs (upd_peer pid f) (n, p) (Ok tt) (n, f p).
Proof. exact (pv_upd (PV := party_view) (n, p) f). Qed.
Lemma party_on_session {A} (m : M FerrySession A) n p r fs :
  m (p_session p) = (r, fs) -> runs (on_session pid m) (n, p) r (n, p_set_session fs p).
Proof. exact (pv_on_session (PV := party_view) m (n, p) r fs). Qed.
Lemma party_draw n p : runs draw_fresh (n, p) (Ok n) (S n, p).
Proof. exact (pv_draw_runs (PV := party_view) (n, p)). Qed.
Lemma party_notify n x : runs (notify n) x (Ok tt) x.
Proof. apply runs_modify. by intros []. Qed.
End runs.

(** ** Frames of the handshake *)

Section frames.
Context `{HR : PyRepr} `{HH : Host}.


(** The reader takes exactly the frame that was encoded. *)
Lemma recv_plain_frame uid now e b rest :
  envelope_ok e = true -> encode_frame e = Ok b -> recv_plain uid now (b ++ rest) = Ok (e, rest).
Proof.
  intros Hok (text & body & Ht & Hb & Hl & ->)%encode_frame_Ok.
  destruct (frame_slices body [] Hl) as (_ & Hm & Hv & _).
  assert (length (be_bytes 4 (zlen body)) = 4%nat) as H4 by apply length_be_bytes.
  assert (zlen (MAGIC_BYTES ++ be_bytes 4 (zlen body)) = 6) as H6 by (rewrite zlen_app; unfold zlen at 2; rewrite H4; done).
  unfold recv_plain.
  replace ((MAGIC_BYTES ++ be_bytes 4 (zlen body) ++ body) ++ rest) with ((MAGIC_BYTES ++ be_bytes 4 (zlen body)) ++ body ++ rest)
    by (by rewrite <-!app_assoc).
  rewrite readexactly_app by done. cbn [mbind res_bind].
  assert (slice 0 2 (MAGIC_BYTES ++ be_bytes 4 (zlen body)) = MAGIC_BYTES) as -> by done.
  rewrite bool_decide_eq_true_2 by done. cbn [negb raise_if mbind res_bind].
  assert (be_val (slice 2 6 (MAGIC_BYTES ++ be_bytes 4 (zlen body))) = zlen body) as ->.
  { rewrite slice_app_r by done. rewrite <-(app_nil_r (be_bytes 4 (zlen body))), (take_all_app 4) by done.
    apply be_val_bytes. unfold MAX_CONTROL_FRAME_SIZE in Hl. pose proof (zlen_nonneg body). cbn. lia. }
  replace (_ >? _) with false by lia. cbn [raise_if mbind res_bind]. rewrite readexactly_app by done. cbn [mbind res_bind].
  rewrite (utf8_decode_encode _ _ Hb). cbn [mbind res_bind]. by rewrite (envelope_json_roundtrip uid now e text).
Qed.

Lemma runs_make_envelope pid d now q n p mt payload :
  runs (holds pid d now q) (make_envelope mt payload) (n, p) (Ok (new_envelope (h_uuid4 n) now mt payload)) (S n, p).
Proof.
  unfold make_envelope. eapply runs_bind; [apply party_draw|]. apply runs_get. intros s (_ & _ & _ & -> & _). apply runs_ret.
Qed.

Lemma runs_write pid d now q n p f :
  p_lost p = false -> runs (holds pid d now q) (write_drain pid f) (n, p) (Ok tt) (n, p_write f p).
Proof.
  intros Hl. unfold write_drain. eapply runs_bind; [apply party_upd|]. apply party_peer.
  assert (p_lost (p_write f p) = false) as -> by (unfold p_write; by case_match). apply runs_lift.
Qed.

Lemma runs_send_plain pid d now q n p mt payload f :
  p_lost p = false -> encode_frame (new_envelope (h_uuid4 n) now mt payload) = Ok f ->
  runs (holds pid d now q) (send_plain pid mt payload) (n, p) (Ok tt) (S n, p_write f p).
Proof.
  intros Hl Hf. unfold send_plain. eapply runs_bind; [apply runs_make_envelope|]. rewrite Hf.
  eapply runs_bind; [apply runs_lift|]. by apply runs_write.
Qed.

Lemma runs_expect pid d now q n p uid t mt payload b rest :
  envelope_ok (new_envelope uid t mt payload) = true -> encode_frame (new_envelope uid t mt payload) = Ok b ->
  runs (holds pid d now q) (expect mt (b ++ rest)) (n, p) (Ok (payload, rest)) (S n, p).
Proof.
  intros Hok Hb. unfold expect. eapply runs_bind; [apply party_draw|]. apply runs_get. intros s Hs.
  rewrite (recv_plain_frame _ _ _ _ _ Hok Hb). eapply runs_bind; [apply runs_lift|].
  cbn [new_envelope e_type e_payload]. rewrite is_type_value. destruct (bool_decide_reflect (mt = mt)); [|done].
  eapply runs_bind; [apply runs_lift|]. eapply runs_bind; [apply runs_lift|]. apply runs_ret.
Qed.
Lemma runs_expect_eof pid d now q n p mt : runs (holds pid d now q) (expect mt []) (n, p) (Err EOFError) (S n, p).
Proof.
  unfold expect. eapply runs_bind; [apply party_draw|]. apply runs_get. intros s Hs. apply runs_bind_err, runs_lift.
Qed.
End frames.

(** ** The parties *)

(** A device: its identity and names, where the other side connects from, and
    the random draws of one handshake. *)
Record party := {
  y_identity : IdentityManager; y_id : pystr; y_name : pystr; y_fresh : bytes; y_nonce : bytes
}.

Section parties.
Context `{HC : Crypto} `{HR : PyRepr} `{HH : Host} {HHL : HostLaws} `{HE : Ed25519}.

Definition y_hs (y : party) : HandshakeData :=
  {| static_pub_key := id_public_key_bytes (y_identity y); ephemeral_pub_key := x_public (y_fresh y); nonce := y_nonce y |}.
Definition y_key (y : party) : pystr := public_key_b64 (y_identity y).
Definition hello (y : party) : jdict := init_payload (y_identity y) (y_id y) (y_name y) (y_hs y) false.
(** What both sign: the initiator's data first. *)
Definition transcript (a b : party) : bytes :=
  of_ascii "ferry-auth-v1|" ++ static_pub_key (y_hs a) ++ ephemeral_pub_key (y_hs a) ++ nonce (y_hs a)
  ++ static_pub_key (y_hs b) ++ ephemeral_pub_key (y_hs b) ++ nonce (y_hs b).
Definition proof (y : party) (tr : bytes) : jdict := auth_payload (y_identity y) tr.

(** Names of up to a thousand characters; keys, nonce and signatures of their
    documented sizes. *)
Record fits (y : party) : Prop := {
  fi_text : forallb is_scalar (y_id y) = true /\ forallb is_scalar (y_name y) = true;
  fi_names : zlen (y_id y) <= 1000 /\ zlen (y_name y) <= 1000;
  fi_keys : zlen (id_public_key_bytes (y_identity y)) = 32 /\ zlen (x_public (y_fresh y)) = 32 /\ zlen (y_nonce y) = 16;
  fi_signature m : zlen (sign (y_identity y) m) = 64
}.

Lemma b64url_ascii k : ascii (b64url k).
Proof. eapply Forall_impl; [apply b64url_text|]. cbv beta. lia. Qed.
Lemma b64url_padded_text k : ascii (b64url_padded k) /\ zlen (b64url_padded k) <= 2 * zlen k + 2.
Proof.
  unfold b64url_padded. split.
  - apply ascii_app; [apply b64url_ascii|]. apply Forall_forall. intros c Hc%list_elem_of_In%repeat_spec. subst. lia.
  - rewrite zlen_app. pose proof (b64url_short k). unfold zlen at 2. rewrite repeat_length.
    pose proof (Z.mod_pos_bound (3 - zlen k mod 3) 3 ltac:(lia)). lia.
Qed.

(** The frame that a device sends as its [n]-th. *)
Definition frame_of (n : nat) (now : Z) (mt : MessageType) (payload : jdict) : bytes :=
  match encode_frame (new_envelope (h_uuid4 n) now mt payload) with Ok f => f | Err _ => [] end.
(** Some device's frame with this message. *)
Definition is_frame (mt : MessageType) (payload : jdict) (f : bytes) : Prop :=
  exists uid t, envelope_ok (new_envelope uid t mt payload) = true /\ encode_frame (new_envelope uid t mt payload) = Ok f.

Lemma frame_of_spec n now mt payload :
  0 <= now < 2 ^ 63 -> json_ok (JObj payload) = true -> weight (JObj payload) <= 1000000 ->
  encode_frame (new_envelope (h_uuid4 n) now mt payload) = Ok (frame_of n now mt payload)
  /\ is_frame mt payload (frame_of n now mt payload).
Proof.
  intros Hn Hok Hw. destruct (uuid4_text n) as [H1 H2]. destruct (message_fits (h_uuid4 n) now mt payload H1 H2 Hn Hok Hw) as [He [f Hf]%encode_frame_fits]; [|done].
  unfold frame_of. rewrite Hf. split; [done|]. exists (h_uuid4 n), now. done.
Qed.

(** Both messages of a device fit in a frame. *)
Lemma hello_fits y : fits y -> json_ok (JObj (hello y)) = true /\ weight (JObj (hello y)) <= 1000000.
Proof.
  intros [[Ti Tn] [Li Ln] (Ks & Ke & Kn) _]. unfold hello, init_payload, mkdict, public_key_b64, y_hs.
  cbn [map fst snd static_pub_key ephemeral_pub_key nonce]. split.
  - cbn [json_ok forallb snd fst]. rewrite Ti, Tn, !(scalar_ascii _ (b64url_ascii _)). by vm_compute.
  - pose proof (b64url_short (id_public_key_bytes (y_identity y))). pose proof (b64url_short (x_public (y_fresh y))).
    pose proof (b64url_short (y_nonce y)).
    cbn [weight fold_right fst snd].
    repeat match goal with |- context [zlen (u ?s)] => let n := eval vm_compute in (zlen (u s)) in change (zlen (u s)) with n end. lia.
Qed.
Lemma proof_fits y tr : fits y -> json_ok (JObj (proof y tr)) = true /\ weight (JObj (proof y tr)) <= 1000000.
Proof.
  intros [_ _ _ Hs]. unfold proof, auth_payload, mkdict. cbn [map fst snd]. set (h := sha256 tr).
  destruct (b64url_padded_text h) as [Ha Hl].
  assert (zlen h = 32) as H32 by (unfold zlen, h; by rewrite length_sha256). split.
  - cbn [json_ok forallb snd fst]. rewrite (scalar_ascii _ (b64url_ascii _)), (scalar_ascii _ Ha). by vm_compute.
  - pose proof (b64url_short (sign (y_identity y) tr)). specialize (Hs tr). cbn [weight fold_right fst snd].
    repeat match goal with |- context [zlen (u ?s)] => let n := eval vm_compute in (zlen (u s)) in change (zlen (u s)) with n end. lia.
Qed.
End parties.

(** ** One side of the handshake *)

Section side.
Context `{HC : Crypto} `{HR : PyRepr} `{HH : Host} {HHL : HostLaws} `{HE : Ed25519} {HEL : Ed25519Laws}.
(** The side [y], its place in the protocol, the other side [o], and the state
    in which the connection finds the service. *)
Context (pid : nat) (addr : pystr) (i : bool) (y o : party) (d : db) (now : Z) (n : nat) (shared : bytes).
Hypothesis clock : 0 <= now < 2 ^ 63.
Hypothesis Hy : fits y.
Hypothesis genuine : id_public_key_bytes (y_identity o) = ed_public (id_private_key (y_identity o)).
Hypothesis unknown : get_device_by_public_key (y_key o) d = Ok None.
Hypothesis exchange : x_exchange (y_fresh y) (x_public (y_fresh o)) = Ok shared.

Definition signed : bytes := if i then transcript y o else transcript o y.
Definition out1 : bytes := frame_of (if i then n else S n) now (if i then HANDSHAKE_INIT else HANDSHAKE_RESPONSE) (hello y).
Definition out2 : bytes :=
  frame_of (if i then S (S n) else S (S (S n))) now (if i then AUTH_CHALLENGE else AUTH_RESPONSE) (proof y signed).
Definition in1 (f : bytes) : Prop := is_frame (if i then HANDSHAKE_RESPONSE else HANDSHAKE_INIT) (hello o) f.
Definition in2 (f : bytes) : Prop := is_frame (if i then AUTH_RESPONSE else AUTH_CHALLENGE) (proof o signed) f.

(** The session along the way, and the peer around it. *)
Definition fs_open : FerrySession :=
  with_hs (Some (y_hs y)) None
    (with_eph (Some (y_fresh y)) (Some (x_public (y_fresh y))) (with_state HANDSHAKING (with_state CONNECTING (new_session i)))).
Definition fs_met : FerrySession := with_hs (Some (y_hs y)) (Some (y_hs o)) fs_open.
Definition keys : DerivedKeys :=
  if i then derived_from true (y_hs y) (y_hs o) shared else derived_from false (y_hs o) (y_hs y) shared.
Definition fs_keyed : FerrySession := with_state AUTHENTICATING (with_keys keys (with_eph None (Some (x_public (y_fresh y))) fs_met)).
Definition side (fs : FerrySession) (met : bool) (ph : phase) (out : list bytes) : PeerSession :=
  {| p_session := fs; p_addr := addr; p_device_id := if met then JStr (y_id o) else JNull;
     p_device_name := if met then JStr (y_name o) else JNull; p_static_b64 := if met then Some (y_key o) else None;
     p_phase := ph; p_out := out; p_closed := false; p_lost := false; p_transfer_events := []; p_result_events := [] |}.

Notation runs := (Prelude.runs (holds pid d now None)).

Lemma out1_frame : encode_frame (new_envelope (h_uuid4 (if i then n else S n)) now
    (if i then HANDSHAKE_INIT else HANDSHAKE_RESPONSE) (hello y)) = Ok out1
  /\ is_frame (if i then HANDSHAKE_INIT else HANDSHAKE_RESPONSE) (hello y) out1.
Proof. destruct (hello_fits y Hy). by apply frame_of_spec. Qed.
Lemma out2_frame : encode_frame (new_envelope (h_uuid4 (if i then S (S n) else S (S (S n)))) now
    (if i then AUTH_CHALLENGE else AUTH_RESPONSE) (proof y signed)) = Ok out2
  /\ is_frame (if i then AUTH_CHALLENGE else AUTH_RESPONSE) (proof y signed) out2.
Proof. destruct (proof_fits y signed Hy). by apply frame_of_spec. Qed.

Lemma runs_on_side {A} (m : M FerrySession A) k fs met ph out r fs' :
  m fs = (r, fs') -> runs (on_session pid m) (k, side fs met ph out) r (k, side fs' met ph out).
Proof. intros H. by apply (party_on_session pid d now None m k (side fs met ph out) r fs'). Qed.
Lemma party_send k fs met ph out mt payload f :
  encode_frame (new_envelope (h_uuid4 k) now mt payload) = Ok f ->
  runs (send_plain pid mt payload) (k, side fs met ph out) (Ok tt) (S k, side fs met ph (out ++ [f])).
Proof. intros H. by apply (runs_send_plain pid d now None k (side fs met ph out) mt payload f). Qed.
Lemma runs_receive k p mt payload b rest :
  is_frame mt payload b -> runs (expect mt (b ++ rest)) (k, p) (Ok (payload, rest)) (S k, p).
Proof. intros (uid & t & Hok & Hb). by apply (runs_expect pid d now None k p uid t). Qed.
Lemma runs_unknown x : runs (device_by_key (JStr (y_key o))) x (Ok None) x.
Proof.
  unfold device_by_key. apply runs_get. intros s (_ & _ & -> & _ & _). cbn [db_text mbind res_bind]. rewrite unknown. apply runs_lift.
Qed.

(** The first exchange, when the other side's first message arrives. *)
Lemma runs_exchange_init g rest :
  in1 g -> runs (exchange_init (y_identity y) (y_id y) (y_name y) pid i (y_hs y) (g ++ rest)) (n, side fs_open false Handshaking [])
    (Ok (hello o, rest)) (S (S n), side fs_open false Handshaking [out1]).
Proof.
  destruct out1_frame as [Ho _]. unfold in1, exchange_init in *. destruct i; intros Hg.
  - apply party_peer. eapply runs_bind; [apply runs_ret|].
    eapply runs_bind; [apply (party_send n _ _ _ []); exact Ho|]. by apply runs_receive.
  - eapply runs_bind; [by apply runs_receive|]. eapply runs_bind; [apply runs_unknown|].
    eapply runs_bind; [apply (party_send (S n) _ _ _ []); exact Ho|]. apply runs_ret.
Qed.

(** The second exchange. *)
Lemma runs_exchange_auth fs g rest :
  in2 g -> runs (exchange_auth (y_identity y) pid i signed (g ++ rest)) (S (S n), side fs true Handshaking [out1])
    (Ok (JStr (b64url (sign (y_identity o) signed)), rest)) (S (S (S (S n))), side fs true Handshaking [out1; out2]).
Proof.
  destruct out2_frame as [Ho _]. unfold in2, exchange_auth, out2 in *. destruct i; intros Hg.
  - eapply runs_bind; [apply (party_send _ _ _ _ [_]); exact Ho|]. eapply runs_bind; [by apply runs_receive|]. apply runs_ret.
  - eapply runs_bind; [by apply runs_receive|]. eapply runs_bind; [apply (party_send _ _ _ _ [_]); exact Ho|]. apply runs_ret.
Qed.

Lemma hello_dict k v : aget (u k) (hello o) = Some v -> dget_or (hello o) k (JStr []) = v.
Proof. unfold dget_or, dget. by intros ->. Qed.
Lemma decode_b64url x : decode_key_json (JStr (b64url x)) = Ok x.
Proof. apply b64url_decodes. Qed.

Lemma runs_accept_remote k fs out :
  runs (accept_remote pid (hello o)) (k, side fs false Handshaking out) (Ok (y_key o, id_public_key_bytes (y_identity o)))
    (k, side (with_hs (s_local_hs fs) (Some (y_hs o)) fs) true Handshaking out).
Proof.
  unfold accept_remote.
  rewrite (hello_dict "public_key" (JStr (b64url (id_public_key_bytes (y_identity o))))) by done.
  rewrite (hello_dict "ephemeral_key" (JStr (b64url (x_public (y_fresh o))))) by done.
  rewrite (hello_dict "nonce" (JStr (b64url (y_nonce o)))) by done.
  rewrite (hello_dict "device_id" (JStr (y_id o))), (hello_dict "device_name" (JStr (y_name o))) by done.
  rewrite !decode_b64url. do 4 (eapply runs_bind; [apply runs_lift|]).
  eapply runs_bind; [apply party_upd|]. eapply runs_bind; [by apply (runs_on_side _ k fs true)|]. apply runs_ret.
Qed.

Notation body := (handshake_body (y_identity y) (y_id y) (y_name y) pid i (y_fresh y) (y_nonce y)).
(** The connection as the task finds it. *)
Notation start := (n, side (new_session i) false Handshaking []).

(** The same from a service to one that finds the peer at its address. *)
Notation reaches := (leads (holds pid d now None)).
Lemma reaches_opening {W A} (H' : W -> Service -> Prop) (K : HandshakeData -> M Service A) r z :
  reaches H' (K (y_hs y)) (n, side fs_open false Handshaking []) r z ->
  reaches H' (on_session pid (session_transition CONNECTING);; on_session pid (session_transition HANDSHAKING);;
        hs ← on_session pid (build_local_handshake (y_fresh y) (y_nonce y) (id_public_key_bytes (y_identity y))); K hs) start r z.
Proof.
  intros H. do 2 (eapply leads_bind; [by apply runs_on_side|]). eapply leads_bind; [|exact H]. by apply runs_on_side.
Qed.

(** From the second exchange on. *)
Definition after_keys (stream : bytes) : M Service bytes :=
  '(sig_b64, stream) ← exchange_auth (y_identity y) pid i signed stream;
  remote_sig ← lift (decode_key_json sig_b64);
  lift (raise_if (negb (verify (id_public_key_bytes (y_identity o)) signed remote_sig)) ValueError);;
  enrol pid (y_key o);;
  upd_peer pid (p_set_phase Looping);;
  mret stream.

Lemma fs_met_keys : derive_keys fs_met = (Ok keys, with_keys keys (with_eph None (Some (x_public (y_fresh y))) fs_met)).
Proof. unfold keys. by rewrite (derive_keys_run fs_met (y_fresh y) (y_hs y) (y_hs o) shared). Qed.
Lemma fs_keyed_transcript : build_auth_transcript fs_keyed = Ok signed.
Proof. unfold signed, build_auth_transcript. change (s_is_initiator fs_keyed) with i. by destruct i. Qed.

Lemma reaches_auth {W} (H' : W -> Service -> Prop) g rest r z :
  in1 g -> reaches H' (after_keys rest) (S (S n), side fs_keyed true Handshaking [out1]) r z -> reaches H' (body (g ++ rest)) start r z.
Proof.
  intros Hg H. unfold handshake_body. apply reaches_opening.
  eapply leads_bind; [by apply runs_exchange_init|]. cbv beta iota.
  eapply leads_bind; [apply runs_accept_remote|]. cbv beta iota.
  eapply leads_bind; [by apply (runs_on_side _ _ fs_met), fs_met_keys|].
  eapply leads_bind; [by apply (runs_on_side _ _ _ _ _ _ _ fs_keyed)|].
  eapply leads_bind; [apply party_this|]. cbn [snd side p_session]. rewrite fs_keyed_transcript. eapply leads_bind; [apply runs_lift|]. exact H.
Qed.

Lemma signature_verifies : verify (id_public_key_bytes (y_identity o)) signed (sign (y_identity o) signed) = true.
Proof.
  unfold verify, sign. rewrite genuine. pose proof (ed_sign_verify (id_private_key (y_identity o)) signed) as H.
  destruct (ed_from_public _); cbn [mbind res_bind] in *; by rewrite ?H.
Qed.

Definition fs_done : FerrySession := with_state PAIRING fs_keyed.
(** In the session loop, at its address. *)
Notation seated := (holds pid d now (Some addr)).
Lemma reaches_enrol k out :
  reaches seated (enrol pid (y_key o)) (k, side fs_keyed true Handshaking out) (Ok tt) (k, side fs_done true Handshaking out).
Proof.
  unfold enrol. apply leads_get. intros s (_ & _ & -> & _). rewrite unknown. eapply leads_bind; [apply runs_lift|].
  eapply leads_bind; [apply party_this|]. eapply leads_bind; [by apply runs_on_side|].
  eapply leads_modify.
  { intros s' (Hp & Hn & Hd & Ht & _). split_and!; [by destruct s'..|]. intros a [= <-].
    replace (v_sessions (set_sessions _ s')) with (aset addr pid (v_sessions s')) by (by destruct s'). apply aget_aset_eq. }
  apply (runs_bind seated) with tt (k, side fs_done true Handshaking out); [apply party_notify|].
  apply party_peer. apply party_notify.
Qed.

(** The whole stream: the task enters the session loop in PAIRING. *)
Lemma reaches_loop g1 g2 rest :
  in1 g1 -> in2 g2 -> reaches seated (body (g1 ++ g2 ++ rest)) start (Ok rest) (S (S (S (S n))), side fs_done true Looping [out1; out2]).
Proof.
  intros H1 H2. apply reaches_auth; [done|]. unfold after_keys.
  eapply leads_bind; [by apply runs_exchange_auth|]. cbv beta iota. rewrite decode_b64url.
  eapply leads_bind; [apply runs_lift|]. rewrite signature_verifies. eapply leads_bind; [apply runs_lift|].
  eapply leads_seq; [apply reaches_enrol|]. eapply leads_bind; [apply party_upd|]. apply runs_ret.
Qed.
(** The stream ends after the first message, or before it (which the initiator
    sends of its own accord). *)
Lemma runs_half g1 :
  in1 g1 -> exists k fs met, runs (body g1) start (Err EOFError) (k, side fs met Handshaking (if i then [out1; out2] else [out1])).
Proof.
  intros H1. exists (if i then S (S (S (S n))) else S (S (S n))), fs_keyed, true. rewrite <-(app_nil_r g1). apply reaches_auth; [done|].
  unfold after_keys. apply (runs_bind_err (holds pid d now None)).
  destruct out2_frame as [Ho _]. unfold exchange_auth, out2 in *. destruct i.
  - eapply runs_bind; [apply (party_send _ _ _ _ [_]); exact Ho|]. apply runs_bind_err. apply runs_expect_eof.
  - apply runs_bind_err. apply runs_expect_eof.
Qed.
Lemma runs_nothing :
  i = true -> exists k fs met, runs (body []) start (Err EOFError) (k, side fs met Handshaking [out1]).
Proof.
  intros Hi. exists (S (S n)), fs_open, false. unfold handshake_body. apply reaches_opening.
  apply (runs_bind_err (holds pid d now None)).
  destruct out1_frame as [Ho _]. unfold exchange_init, out1 in *. rewrite Hi in *.
  apply party_peer. eapply runs_bind; [apply runs_ret|].
  eapply runs_bind; [apply (party_send n _ _ _ []); exact Ho|]. apply runs_expect_eof.
Qed.

(** ** The task around the body *)

Notation task := (run_handshake (y_identity y) (y_id y) (y_name y) pid i (y_fresh y) (y_nonce y)).
Definition wrote (out : list bytes) (s : Service) : Prop := p_out <$> v_peers s !! pid = Some out.

Lemma wrote_upd out f : (forall p, p_out (f p) = p_out p) -> stable (wrote out) (upd_peer pid f).
Proof.
  intros Hf s Hs. apply wp_modify. unfold wrote in *. replace (v_peers (set_peers _ s)) with (alter f pid (v_peers s)) by (by destruct s).
  rewrite list_lookup_alter_eq. destruct (v_peers s !! pid); [|done]. cbn in *. by rewrite Hf.
Qed.
Lemma stable_on_session {A} out (m : M FerrySession A) : stable (wrote out) (on_session pid m).
Proof.
  intros s Hs. unfold wp, on_session. destruct (m _) as [r fs]. exact (wrote_upd out (p_set_session fs) (fun p => eq_refl) s Hs).
Qed.
Lemma stable_peer {A} out (f : PeerSession -> M Service A) : (forall p, stable (wrote out) (f p)) -> stable (wrote out) (peer pid ≫= f).
Proof. intros H s Hs. unfold peer. do 3 wp_step. by apply H. Qed.
Lemma stable_aside out f : (forall s, v_peers (f s) = v_peers s) -> stable (wrote out) (modify f).
Proof. intros H s Hs. apply wp_modify. unfold wrote. by rewrite H. Qed.

Lemma failed_wrote out : stable (wrote out) (handshake_failed pid).
Proof.
  apply stable_peer. intros p. apply stable_bind.
  - case_match; [apply stable_swallow, stable_on_session|apply stable_ret].
  - intros _. apply stable_aside. by intros [].
Qed.
Lemma finally_wrote out : stable (wrote out) (handshake_finally pid).
Proof.
  apply stable_peer. intros p. apply stable_bind; [apply stable_aside; by intros []|intros _].
  apply stable_bind; [by apply wrote_upd|intros _]. apply stable_bind.
  - case_match; [|apply stable_ret]. apply stable_swallow, stable_bind; [|intros _]; apply stable_on_session.
  - intros _. apply stable_bind; [|intros _; by apply wrote_upd].
    apply stable_peer. intros p'. apply stable_aside. by intros [].
Qed.

(** The body raises: what was written stays written. *)
Lemma task_fails s stream k p e :
  holds pid d now None start s -> runs (body stream) start (Err e) (k, p) -> wp (task stream) (fun _ s' => wrote (p_out p) s') s.
Proof.
  intros Hs H. unfold run_handshake. do 3 wp_step. eapply wp_mono; [by apply H|]. intros r s' [-> (Hp & _)]. wp_step.
  eapply wp_mono; [apply failed_wrote; unfold wrote; by rewrite Hp|]. intros [[]|e'] s1 H1; [|done].
  do 2 wp_step. eapply wp_mono; [by apply finally_wrote|]. by intros [[]|e''] s2 H2.
Qed.
(** The body returns. *)
Lemma task_enters {W} (H' : W -> Service -> Prop) stream z rest :
  reaches H' (body stream) start (Ok rest) z -> reaches H' (task stream) start (Ok true) z.
Proof.
  intros H s Hs. unfold run_handshake. do 3 wp_step. eapply wp_mono; [by apply H|]. intros r s' [-> Hz]. by do 4 wp_step.
Qed.

(** What the task has written when it is over. *)
Definition says (stream : bytes) (s : Service) : bytes := concat (p_out (peer_at pid (task stream s).2)).

Lemma says_fails s stream k fs met out :
  holds pid d now None start s -> runs (body stream) start (Err EOFError) (k, side fs met Handshaking out) -> says stream s = concat out.
Proof.
  intros Hs H. pose proof (task_fails s stream _ _ _ Hs H) as Hw. unfold says, peer_at, wp, wrote in *.
  destruct (task stream s) as [r s']. cbn [snd] in *. destruct (v_peers s' !! pid) as [p'|]; [|done]. injection Hw as Hw.
  cbn. by rewrite Hw.
Qed.
Lemma says_half s g1 : holds pid d now None start s -> in1 g1 -> says g1 s = if i then out1 ++ out2 else out1.
Proof.
  intros Hs H1. destruct (runs_half g1 H1) as (k & fs & met & H). rewrite (says_fails _ _ _ _ _ _ Hs H).
  destruct i; cbn; by rewrite app_nil_r.
Qed.
Lemma says_nothing s : holds pid d now None start s -> i = true -> says [] s = out1.
Proof.
  intros Hs H1. destruct (runs_nothing H1) as (k & fs & met & H). rewrite (says_fails _ _ _ _ _ _ Hs H). cbn. by rewrite app_nil_r.
Qed.
Lemma task_whole g1 g2 :
  in1 g1 -> in2 g2 -> reaches seated (task (g1 ++ g2)) start (Ok true) (S (S (S (S n))), side fs_done true Looping [out1; out2]).
Proof. intros H1 H2. eapply task_enters. pose proof (reaches_loop g1 g2 [] H1 H2) as H. rewrite app_nil_r in H. exact H. Qed.
End side.

(** ** Both sides *)

Section meeting.
Context `{HC : Crypto} {HL : CryptoLaws} `{HR : PyRepr} `{HH : Host} {HHL : HostLaws} `{HE : Ed25519} {HEL : Ed25519Laws}.

(** The device [y] has just been connected to [o], whose key it does not know. *)
Record newcomer (i : bool) (y o : party) (pid : nat) (s : Service) : Prop := {
  nc_fits : fits y;
  nc_genuine : id_public_key_bytes (y_identity y) = ed_public (id_private_key (y_identity y));
  nc_peer : exists addr, v_peers s !! pid = Some (new_peer i addr);
  nc_clock : 0 <= v_now s < 2 ^ 63;
  nc_unknown : get_device_by_public_key (y_key o) (v_db s) = Ok None
}.

Definition attempt (i : bool) (y : party) (pid : nat) (stream : bytes) (s : Service) : res bool * Service :=
  run_handshake (y_identity y) (y_id y) (y_name y) pid i (y_fresh y) (y_nonce y) stream s.

(** The two sides when both tasks are in their session loops. *)
Definition met (i : bool) (y o : party) (shared : bytes) (pid : nat) (s : Service) : PeerSession :=
  side (p_addr (peer_at pid s)) o (fs_done i y o shared) true Looping
    [out1 i y (v_now s) (v_fresh s); out2 i y o (v_now s) (v_fresh s)].
Definition written (pid : nat) (x : res bool * Service) : bytes := concat (p_out (peer_at pid x.2)).
Lemma meeting a b pa pb sa sb shared :
  newcomer true a b pa sa -> newcomer false b a pb sb ->
  x_exchange (y_fresh a) (x_public (y_fresh b)) = Ok shared ->
  let a1 := written pa (attempt true a pa [] sa) in
  let b1 := written pb (attempt false b pb a1 sb) in
  let a2 := written pa (attempt true a pa b1 sa) in
  let b2 := written pb (attempt false b pb a2 sb) in
  a1 `prefix_of` a2 /\ b1 `prefix_of` b2
  /\ exists sa' sb', attempt true a pa b2 sa = (Ok true, sa') /\ attempt false b pb a2 sb = (Ok true, sb')
  /\ holds pa (v_db sa) (v_now sa) (Some (p_addr (peer_at pa sa))) (S (S (S (S (v_fresh sa)))), met true a b shared pa sa) sa'
  /\ holds pb (v_db sb) (v_now sb) (Some (p_addr (peer_at pb sb))) (S (S (S (S (v_fresh sb)))), met false b a shared pb sb) sb'.
Proof.
  intros [Fa Ga [aa Pa] Ca Ua] [Fb Gb [ab Pb] Cb Ub] Hx. unfold met.
  assert (p_addr (peer_at pa sa) = aa) as -> by (unfold peer_at; by rewrite Pa).
  assert (p_addr (peer_at pb sb) = ab) as -> by (unfold peer_at; by rewrite Pb).
  assert (x_exchange (y_fresh b) (x_public (y_fresh a)) = Ok shared) as Hx' by (by rewrite x_agree).
  assert (holds pa (v_db sa) (v_now sa) None (v_fresh sa, side aa b (new_session true) false Handshaking []) sa) as Ha by done.
  assert (holds pb (v_db sb) (v_now sb) None (v_fresh sb, side ab a (new_session false) false Handshaking []) sb) as Hb by done.
  pose proof (out1_frame true a (v_now sa) (v_fresh sa) Ca Fa) as [_ A1].
  pose proof (out1_frame false b (v_now sb) (v_fresh sb) Cb Fb) as [_ B1].
  pose proof (out2_frame true a b (v_now sa) (v_fresh sa) Ca Fa) as [_ A2].
  pose proof (out2_frame false b a (v_now sb) (v_fresh sb) Cb Fb) as [_ B2].
  pose proof (says_nothing pa aa true a b (v_db sa) (v_now sa) (v_fresh sa) Ca Fa sa Ha eq_refl) as Ea1.
  set (fa1 := out1 true a (v_now sa) (v_fresh sa)) in *. set (fb1 := out1 false b (v_now sb) (v_fresh sb)) in *.
  set (fa2 := out2 true a b (v_now sa) (v_fresh sa)) in *. set (fb2 := out2 false b a (v_now sb) (v_fresh sb)) in *.
  pose proof (says_half pb ab false b a (v_db sb) (v_now sb) (v_fresh sb) shared Cb Fb Ub Hx' sb fa1 Hb A1) as Eb1.
  pose proof (says_half pa aa true a b (v_db sa) (v_now sa) (v_fresh sa) shared Ca Fa Ua Hx sa fb1 Ha B1) as Ea2.
  cbv iota in Ea2, Eb1. fold fa1 fa2 in Ea2. fold fb1 in Eb1.
  destruct (leads_elim _ _ _ _ _ _ _ (task_whole pa aa true a b (v_db sa) (v_now sa) (v_fresh sa) shared Ca Fa Gb Ua Hx fb1 fb2 B1 B2) Ha)
    as (sa' & Ra & Qa).
  destruct (leads_elim _ _ _ _ _ _ _ (task_whole pb ab false b a (v_db sb) (v_now sb) (v_fresh sb) shared Cb Fb Ga Ub Hx' fa1 fa2 A1 A2) Hb)
    as (sb' & Rb & Qb).
  cbv zeta. change (written pa (attempt true a pa [] sa)) with (says pa true a [] sa). rewrite Ea1.
  change (written pb (attempt false b pb fa1 sb)) with (says pb false b fa1 sb). rewrite Eb1.
  change (written pa (attempt true a pa _ sa)) with (says pa true a fb1 sa). rewrite Ea2.
  assert (written pb (attempt false b pb (fa1 ++ fa2) sb) = fb1 ++ fb2) as ->.
  { unfold written, attempt, peer_at. rewrite Rb. destruct Qb as [Qb _]. cbn [snd]. rewrite Qb. cbn. by rewrite app_nil_r. }
  split; [by apply prefix_app_r|]. split; [by apply prefix_app_r|].
  exists sa', sb'. done.
Qed.

(** C3. The handshake completes: two devices that do not know each other, each
    fed with what the other has written so far, exchange two frames each; both
    tasks then enter their session loop in PAIRING, each has recorded the other's
    static key and name, what one encrypts with is what the other decrypts with,
    and both users are shown the same verification code.  What a side has written
    only grows with what it reads. *)
Theorem strangers_meet a b pa pb sa sb shared :
  newcomer true a b pa sa -> newcomer false b a pb sb ->
  x_exchange (y_fresh a) (x_public (y_fresh b)) = Ok shared ->
  let a1 := written pa (attempt true a pa [] sa) in
  let b1 := written pb (attempt false b pb a1 sb) in
  let a2 := written pa (attempt true a pa b1 sa) in
  let b2 := written pb (attempt false b pb a2 sb) in
  a1 `prefix_of` a2 /\ b1 `prefix_of` b2
  /\ exists sa' sb', attempt true a pa b2 sa = (Ok true, sa') /\ attempt false b pb a2 sb = (Ok true, sb')
  /\ let A := peer_at pa sa' in let B := peer_at pb sb' in
     s_state (p_session A) = PAIRING /\ s_state (p_session B) = PAIRING
     /\ p_phase A = Looping /\ p_phase B = Looping
     /\ p_static_b64 A = Some (y_key b) /\ p_static_b64 B = Some (y_key a)
     /\ p_device_name A = JStr (y_name b) /\ p_device_name B = JStr (y_name a)
     /\ (exists k, s_send_cipher (p_session A) = Some k /\ s_recv_cipher (p_session B) = Some k)
     /\ (exists k, s_recv_cipher (p_session A) = Some k /\ s_send_cipher (p_session B) = Some k)
     /\ (exists code, sas_code (p_session A) = Some code /\ sas_code (p_session B) = Some code).
Proof.
  intros Na Nb Hx a1 b1 a2 b2. destruct (meeting a b pa pb sa sb shared Na Nb Hx) as (P1 & P2 & sa' & sb' & Ra & Rb & [Ha _] & [Hb _]).
  split; [exact P1|]. split; [exact P2|]. exists sa', sb'. split; [exact Ra|]. split; [exact Rb|]. unfold peer_at. rewrite Ha, Hb.
  cbn. split_and!; eauto.
Qed.
End meeting.
