(* ===== verification/Channel.v ===== *)
(** * Encrypted messages between two services

    What a service sends in a session is what the service at the other end
    handles: the bridge between the counters and keys of the two sessions and
    the handlers.  The runs are exact on a view of the service: the peer of the
    session, and the tables that a transfer uses. *)
From S2P Require Import Prelude PyStr Sha256 Json Protocol Wire Payloads Transfer Fs Incoming Outgoing Session Bridge Db.
From S2P Require Import Identity Peers Service Sending Handshake Views.

(** ** The view *)

Record view := mkView {
  a_peer : PeerSession; a_xfers : list IncomingTransfer; a_sends : list OutgoingTransfer; a_world : world;
  a_incoming : list (pystr * nat); a_outgoing : list (pystr * (nat * nat)); a_sessions : list (pystr * nat);
  a_fresh : nat; a_last : option notice (** the last call of a listener *)
}.
Definition at_peer x (v : view) : view := let 'mkView _ b c d e f g h i := v in mkView x b c d e f g h i.
Definition at_xfers x (v : view) : view := let 'mkView a _ c d e f g h i := v in mkView a x c d e f g h i.
Definition at_sends x (v : view) : view := let 'mkView a b _ d e f g h i := v in mkView a b x d e f g h i.
Definition at_world x (v : view) : view := let 'mkView a b c _ e f g h i := v in mkView a b c x e f g h i.
Definition at_incoming x (v : view) : view := let 'mkView a b c d _ f g h i := v in mkView a b c d x f g h i.
Definition at_outgoing x (v : view) : view := let 'mkView a b c d e _ g h i := v in mkView a b c d e x g h i.
Definition at_fresh x (v : view) : view := let 'mkView a b c d e f g _ i := v in mkView a b c d e f g x i.
Definition at_last x (v : view) : view := let 'mkView a b c d e f g h _ := v in mkView a b c d e f g h x.

(** Computes the fields of an updated view. *)
Tactic Notation "view" := cbn [at_peer at_xfers at_sends at_world at_incoming at_outgoing at_fresh at_last
                  a_peer a_xfers a_sends a_world a_incoming a_outgoing a_sessions a_fresh a_last].

Tactic Notation "view" "in" hyp(H) :=
  cbn [at_peer at_xfers at_sends at_world at_incoming at_outgoing at_fresh at_last
       a_peer a_xfers a_sends a_world a_incoming a_outgoing a_sessions a_fresh a_last] in H.

Section view.
Context (pid : nat) (now : Z).

Definition view_of (p : PeerSession) (s : Service) : view :=
  mkView p (v_xfers s) (v_sends s) (v_world s) (v_incoming s) (v_outgoing s) (v_sessions s) (v_fresh s) (last (v_notices s)).
Definition sees (x : view) (s : Service) : Prop := exists p, v_peers s !! pid = Some p /\ x = view_of p s /\ v_now s = now.

Lemma sees_at p s : v_peers s !! pid = Some p -> v_now s = now -> sees (view_of p s) s.
Proof. by exists p. Qed.

Notation runs := (runs sees).

Lemma runs_see {A} (f : Service -> M Service A) x r y :
  (forall s, sees x s -> runs (f s) x r y) -> runs (get ≫= f) x r y.
Proof. apply runs_get. Qed.
Lemma sees_peers x s l p : sees x s -> l !! pid = Some p -> sees (at_peer p x) (set_peers l s).
Proof. intros (q & Hq & -> & <-) Hl. exists p. by destruct s. Qed.

#[export] Instance sees_view : PeerView pid now sees.
Proof.
  refine {| pv_peer := a_peer; pv_at := at_peer; pv_fresh := a_fresh; pv_drawn x := at_fresh (S (a_fresh x)) x |};
    [intros []|intros ?? []|intros ? []|intros []|intros ? []|intros x s (q & Hq & -> & <-)|exact sees_peers
    |intros x s (q & Hq & -> & <-); exists q; destruct s]; done.
Defined.

Lemma runs_peer {A} (f : PeerSession -> M Service A) x r y : runs (f (a_peer x)) x r y -> runs (peer pid ≫= f) x r y.
Proof. exact (pv_peer_runs (PV := sees_view) f x r y). Qed.
Lemma runs_upd x f : runs (upd_peer pid f) x (Ok tt) (at_peer (f (a_peer x)) x).
Proof. exact (pv_upd (PV := sees_view) x f). Qed.
Lemma runs_on_session {A} (m : M FerrySession A) x r fs :
  m (p_session (a_peer x)) = (r, fs) -> runs (on_session pid m) x r (at_peer (p_set_session fs (a_peer x)) x).
Proof. exact (pv_on_session (PV := sees_view) m x r fs). Qed.
Lemma runs_draw x : runs draw_fresh x (Ok (a_fresh x)) (at_fresh (S (a_fresh x)) x).
Proof. exact (pv_draw_runs (PV := sees_view) x). Qed.
Lemma runs_notify x n : runs (notify n) x (Ok tt) (at_last (Some n) x).
Proof. apply runs_modify. intros s (q & Hq & -> & <-). exists q. destruct s. unfold view_of. cbn in *. by rewrite last_snoc. Qed.

Lemma runs_on_incoming {A} (m : M st A) x oid t r t' w' :
  a_xfers x !! oid = Some t -> m (t, a_world x) = (r, (t', w')) ->
  runs (on_incoming oid m) x r (at_world w' (at_xfers (<[oid := t']> (a_xfers x)) x)).
Proof.
  intros Ht Hm s (q & Hq & -> & <-). unfold wp, on_incoming. cbn in Ht, Hm. rewrite Ht, Hm. cbn. split; [done|]. exists q. by destruct s.
Qed.
Lemma runs_incoming_object {A} (f : IncomingTransfer -> M Service A) x oid t r y :
  a_xfers x !! oid = Some t -> runs (f t) x r y -> runs (incoming_object oid ≫= f) x r y.
Proof. intros Ht H s Hs. pose proof Hs as (q & Hq & E & _). subst x. cbn in Ht. unfold incoming_object. do 3 wp_step. rewrite Ht. by apply H. Qed.
Lemma runs_new_object x t : runs (new_object t) x (Ok (length (a_xfers x))) (at_xfers (a_xfers x ++ [t]) x).
Proof. intros s (q & Hq & -> & <-). split; [done|]. exists q. by destruct s. Qed.
Lemma runs_on_outgoing {A} (m : M ost A) x oid t r t' w' :
  a_sends x !! oid = Some t -> m (t, a_world x) = (r, (t', w')) ->
  runs (on_outgoing oid m) x r (at_world w' (at_sends (<[oid := t']> (a_sends x)) x)).
Proof.
  intros Ht Hm s (q & Hq & -> & <-). unfold wp, on_outgoing. cbn in Ht, Hm. rewrite Ht, Hm. cbn. split; [done|]. exists q. by destruct s.
Qed.
Lemma runs_new_send x t : runs (new_send t) x (Ok (length (a_sends x))) (at_sends (a_sends x ++ [t]) x).
Proof. intros s (q & Hq & -> & <-). split; [done|]. exists q. by destruct s. Qed.
Lemma runs_is_cancelled x oid t :
  a_sends x !! oid = Some t -> runs (is_cancelled oid) x (Ok (o_cancelled t || bool_decide (o_state t = CANCELLING))) x.
Proof. intros Ht s Hs. pose proof Hs as (q & Hq & E & _). subst x. cbn in Ht. unfold is_cancelled. do 2 wp_step. by rewrite Ht. Qed.

(** Tables that the view leaves out. *)
Lemma runs_aside x f :
  (forall p s, view_of p (f s) = view_of p s /\ v_peers (f s) = v_peers s /\ v_now (f s) = v_now s) -> runs (modify f) x (Ok tt) x.
Proof. intros Hf. apply runs_modify. intros s (q & Hq & -> & <-). destruct (Hf q s) as (E1 & E2 & E3). exists q. by rewrite E1, E2, E3. Qed.
Lemma runs_pop_timeout x tid : runs (pop_timeout tid) x (Ok tt) x.
Proof. apply runs_aside. intros p []. cbn. by case_match. Qed.
Lemma runs_pop_last_chunk x tid : runs (pop_last_chunk tid) x (Ok tt) x.
Proof. apply runs_aside. by intros p []. Qed.
Lemma runs_pop_incoming_peer x tid : runs (pop_incoming_peer tid) x (Ok tt) x.
Proof. apply runs_aside. by intros p []. Qed.
Lemma runs_pop_incoming x tid : runs (pop_incoming tid) x (Ok tt) (at_incoming (adel tid (a_incoming x)) x).
Proof. apply runs_modify. intros s (q & Hq & -> & <-). exists q. by destruct s. Qed.
Lemma runs_track x tid oid pid0 : runs (track tid oid pid0) x (Ok tt) (at_incoming (aset tid oid (a_incoming x)) x).
Proof. apply runs_modify. intros s (q & Hq & -> & <-). exists q. by destruct s. Qed.
Lemma runs_pop_outgoing x tid : runs (pop_outgoing tid) x (Ok tt) (at_outgoing (adel tid (a_outgoing x)) x).
Proof. apply runs_modify. intros s (q & Hq & -> & <-). exists q. by destruct s. Qed.
Lemma runs_record `{HH : Host} x tid dev name size dir status started sha :
  runs (record_transfer_once tid dev name size dir status started sha) x (Ok tt) x.
Proof.
  apply runs_see. intros s0 _. case_match; [apply runs_ret|]. intros s (q & Hq & -> & <-). do 3 wp_step.
  destruct (db_text dev); [|split; [done|by exists q]]. repeat wp_step. destruct (add_transfer _ _); [|split; [done|by exists q]]. repeat wp_step. split; [done|]. exists q. by destruct s.
Qed.
End view.

(** ** Frames between linked sessions *)

Section messages.
Context `{HC : Crypto} {HL : CryptoLaws} `{HR : PyRepr} `{HH : Host} {HHL : HostLaws} (pid : nat) (now : Z).

(** An established session on a connection that works. *)
Record ready (p : PeerSession) (ks kr : bytes) (cs cr : Z) : Prop := {
  rd_state : s_state (p_session p) = ESTABLISHED;
  rd_send : s_send_cipher (p_session p) = Some ks;
  rd_recv : s_recv_cipher (p_session p) = Some kr;
  rd_cs : s_send_counter (p_session p) = cs;
  rd_cr : s_recv_counter (p_session p) = cr;
  rd_open : p_closed p = false;
  rd_alive : p_lost p = false
}.
Lemma ready_linked p ks kr cs cr : ready p ks kr cs cr <-> s_state (p_session p) = ESTABLISHED /\ linked p ks kr cs cr.
Proof. split; [by intros []|by intros [? []]]. Qed.
Lemma ready_sent p ks kr cs cr f : ready p ks kr cs cr -> ready (p_sent f p) ks kr (cs + 1) cr.
Proof. intros []. split; cbn; congruence. Qed.
Lemma ready_heard p ks kr cs cr : ready p ks kr cs cr -> ready (p_heard p) ks kr cs (cr + 1).
Proof. intros []. split; cbn; congruence. Qed.
Lemma ready_events p ks kr cs cr te re : ready p ks kr cs cr -> ready (p_set_events te re p) ks kr cs cr.
Proof. by intros []. Qed.

Notation runs := (runs (sees pid now)).

(** A message goes out. *)
Lemma runs_send x ks kr cs cr mt payload :
  ready (a_peer x) ks kr cs cr -> 0 <= cs < 2 ^ 64 -> 0 <= now < 2 ^ 63 -> short payload ->
  exists f, letter ks cs mt payload f
  /\ runs (send_encrypted pid mt payload) x (Ok tt) (at_fresh (S (a_fresh x)) (at_peer (p_sent f (a_peer x)) x)).
Proof.
  intros [Hst Hl]%ready_linked Hc Hn Hp.
  destruct (pv_send (PV := sees_view pid now) x ks kr cs cr mt payload Hl) as (f & Hf & H); try done.
  { simpl. rewrite Hst. by apply (bool_decide_unpack _). }
  exists f. split; [done|]. by destruct x.
Qed.

(** A message comes in and is handled. *)
Definition is_transfer_type (mt : MessageType) : bool :=
  match mt with DISCONNECT | PAIR_DECISION | CAPABILITIES | NOTIFICATION_POST | NOTIFICATION_REMOVE => false | _ => true end.

Lemma runs_hear x ks kr cs cr mt payload f y :
  ready (a_peer x) ks kr cs cr -> 0 <= cr < 2 ^ 64 -> letter kr cr mt payload f -> is_transfer_type mt = true ->
  (forall e, e_type e = JStr (u (mt_value mt)) -> e_payload e = JObj payload ->
     runs (handle_transfer_message pid e) (at_fresh (S (a_fresh x)) (at_peer (p_heard (a_peer x)) x)) (Ok tt) y) ->
  runs (session_frame pid f) x (Ok tt) y.
Proof.
  intros [_ Hl]%ready_linked Hc Hf Hmt H. eapply (pv_hear (PV := sees_view pid now)); [exact Hl|done..|].
  intros e He Hp. specialize (H e He Hp).
  destruct x; destruct mt; try discriminate Hmt; (eapply runs_bind; [exact H|apply runs_ret]).
Qed.

Lemma runs_hear_chunk x ks kr cs cr b f y :
  ready (a_peer x) ks kr cs cr -> 0 <= cr < 2 ^ 64 -> sealed kr cr b f -> is_chunk_frame b = true ->
  runs (on_chunk_received b) (at_peer (p_heard (a_peer x)) x) (Ok tt) y -> runs (session_frame pid f) x (Ok tt) y.
Proof.
  intros [_ Hl]%ready_linked Hc Hf Hb H. eapply (pv_hear_chunk (PV := sees_view pid now)); [exact Hl|done..].
Qed.
End messages.
