(* ===== verification/Delivery.v ===== *)
(** * A file sent from one service to another

    [send_file] of one service and the handlers of the other, connected by an
    established session: the exact run of every handler that takes part, and the
    delivery of the file. *)
From S2P Require Import Prelude PyStr Sha256 Json Protocol Wire Payloads Transfer Fs Incoming Outgoing Session Bridge Db.
From S2P Require Import Identity Peers Service Sending Handshake Views Channel.

Section delivery.
Context `{HC : Crypto} {HL : CryptoLaws} `{HR : PyRepr} `{HH : Host} {HHL : HostLaws} (pid : nat) (now : Z).
Notation runs := (runs (sees pid now)).

Lemma runs_now {A} (f : Service -> M Service A) x r y :
  (forall s, v_now s = now -> v_incoming s = a_incoming x -> v_sessions s = a_sessions x -> v_sends s = a_sends x -> runs (f s) x r y) ->
  runs (get ≫= f) x r y.
Proof. intros H. apply runs_get. intros s (q & Hq & -> & Hn). by apply H. Qed.

(** ** The receiving service *)

Lemma runs_on_request x payload m name :
  metadata_from_dict now payload = Ok m -> m_batch_id m = [] -> a_incoming x = [] ->
  or_addr (p_device_name (a_peer x)) (a_peer x) = JStr name ->
  exists n, runs (on_transfer_request pid payload) x (Ok tt)
    (at_fresh (S (a_fresh x)) (at_last (Some n) (at_incoming [(m_transfer_id m, length (a_xfers x))]
      (at_xfers (a_xfers x ++ [new_incoming m h_download_dir]) x)))).
Proof.
  destruct x as [p xf sd w inc og ss fr la]. intros Hm Hb Hi Hname. cbn in Hi, Hname |- *. eexists. unfold on_transfer_request. apply runs_now. intros s Hn Hinc _ _. rewrite Hn, Hm, Hb, Hinc. cbn [a_incoming]. rewrite Hi.
  cbv beta zeta. rewrite !bool_decide_eq_true_2 by done. cbn [negb andb].
  eapply runs_bind; [apply runs_new_object|]. eapply runs_bind; [apply runs_track|].
  apply runs_peer. eapply runs_bind; [apply runs_notify|].
  subst inc. cbn. rewrite Hname. apply runs_lift_bind.
  eapply runs_bind; [apply runs_draw|]. apply runs_aside. by intros q [].
Qed.

Lemma runs_accept x addr tid oid t t' w' ks kr cs cr :
  aget tid (a_incoming x) = Some oid -> aget addr (a_sessions x) = Some pid -> a_xfers x !! oid = Some t ->
  begin h_realpath (t, a_world x) = (Ok tt, (t', w')) ->
  ready (a_peer x) ks kr cs cr -> 0 <= cs < 2 ^ 64 -> 0 <= now < 2 ^ 63 -> short (tid_dict tid) ->
  exists f, letter ks cs TRANSFER_ACCEPT (tid_dict tid) f
  /\ runs (accept_transfer addr tid) x (Ok tt)
       (at_fresh (S (a_fresh x)) (at_peer (p_sent f (a_peer x)) (at_world w' (at_xfers (<[oid := t']> (a_xfers x)) x)))).
Proof.
  intros Hi Hs Ht Hb Hr Hc Hn Hsh. destruct x as [p xf sd w inc og ss fr la]. cbn in *.
  destruct (runs_send pid now (mkView p (<[oid := t']> xf) sd w' inc og ss fr la) ks kr cs cr TRANSFER_ACCEPT (tid_dict tid) Hr Hc Hn Hsh)
    as (f & Hf & Hrun). exists f. split; [done|].
  unfold accept_transfer. apply runs_now. intros s _ -> -> _. cbn. rewrite Hi, Hs.
  eapply runs_bind; [apply runs_pop_timeout|]. eapply runs_bind; [by eapply runs_on_incoming|]. exact Hrun.
Qed.

(** One chunk. *)
Lemma runs_on_chunk x b oid t t' w' c :
  decode_chunk_frame b = Ok c -> aget (f_transfer_id c) (a_incoming x) = Some oid -> a_xfers x !! oid = Some t ->
  receive_chunk c (t, a_world x) = (Ok tt, (t', w')) -> m_batch_id (i_meta t') = [] ->
  exists n, runs (on_chunk_received b) x (Ok tt) (at_last (Some n) (at_world w' (at_xfers (<[oid := t']> (a_xfers x)) x))).
Proof.
  intros Hd Hi Ht Hc Hb. eexists. unfold on_chunk_received. rewrite Hd. cbv beta zeta. apply runs_now. intros s _ Hinc _ _. rewrite Hinc, Hi.
  eapply runs_bind; [apply runs_aside; by intros q []|].
  apply runs_try. eapply runs_bind; [by eapply runs_on_incoming|].
  eapply runs_incoming_object.
  { destruct x as [p xf sd w inc og ss fr la]. cbn in *. apply list_lookup_insert_eq. by eapply lookup_lt_Some. }
  cbv beta zeta. rewrite Hb, bool_decide_eq_true_2 by done. cbn [negb]. apply runs_notify.
Qed.

Lemma receive_chunk_Ok c t w s' :
  receive_chunk c (t, w) = (Ok tt, s') -> f_transfer_id c = m_transfer_id (i_meta t).
Proof.
  unfold receive_chunk. intros (t0 & s1 & [= <- <-] & H)%mbind_inv. cbn [fst] in H.
  apply mbind_inv in H as ([] & s1 & H1 & H). apply pair_equal_spec in H1 as [_ <-].
  apply mbind_inv in H as ([] & s1 & H1 & _). apply pair_equal_spec in H1 as [H1 _].
  apply raise_if_Ok in H1. apply negb_false_iff, bool_decide_eq_true in H1. done.
Qed.
Lemma decode_chunk_is b c : decode_chunk_frame b = Ok c -> is_chunk_frame b = true.
Proof.
  unfold decode_chunk_frame, is_chunk_frame. intros (? & _ & H)%bind_Ok. apply bind_Ok in H as (? & H & _).
  apply raise_if_Ok in H. by apply negb_false_iff in H.
Qed.

Fixpoint sealed_all (k : bytes) (c : Z) (bs fs : list bytes) : Prop :=
  match bs, fs with
  | [], [] => True
  | b :: bs', f :: fs' => sealed k c b f /\ sealed_all k (c + 1) bs' fs'
  | _, _ => False
  end.

(** What the reception of chunks leaves alone. *)
Definition same_tables (x y : view) : Prop :=
  a_incoming y = a_incoming x /\ a_sessions y = a_sessions x /\ p_out (a_peer y) = p_out (a_peer x).

(** The frames of a stream, one after the other. *)
Lemma runs_chunks m oid ks kr cs bs : forall fs x t t' w' cr,
  sealed_all kr cr bs fs -> receive_frames bs (t, a_world x) = (Ok tt, (t', w')) ->
  frame h_realpath m h_download_dir ∅ (t, a_world x) -> m_batch_id m = [] -> a_xfers x !! oid = Some t ->
  aget (m_transfer_id m) (a_incoming x) = Some oid -> ready (a_peer x) ks kr cs cr -> 0 <= cr -> cr + zlen bs <= 2 ^ 64 ->
  exists y, runs (iterM (session_frame pid) fs) x (Ok tt) y /\ a_xfers y !! oid = Some t' /\ a_world y = w' /\ same_tables x y
  /\ ready (a_peer y) ks kr cs (cr + zlen bs).
Proof.
  induction bs as [|b bs IH]; intros [|f fs] x t t' w' cr Hs Hr Hfr Hb Ht Hi Hrd Hc Hmax; try done.
  { apply pair_equal_spec in Hr as [_ [= <- <-]]. exists x. cbn [iterM]. rewrite Z.add_0_r. split; [apply runs_ret|]. done. }
  destruct Hs as [Hf Hs]. cbn [receive_frames] in Hr. apply mbind_inv in Hr as (c & s0 & H1 & Hr).
  apply pair_equal_spec in H1 as [Hdec <-]. apply mbind_inv in Hr as ([] & [t1 w1] & Hch & Hr).
  pose proof (receive_chunk_Ok _ _ _ _ Hch) as Htid.
  assert (i_meta t = m) as Hm by apply Hfr. rewrite Hm in Htid.
  assert (frame h_realpath m h_download_dir ∅ (t1, w1)) as Hfr1.
  { exact (wp_elim _ _ _ _ _ (preserves_receive_chunk h_realpath m h_download_dir ∅ c _ Hfr) Hch). }
  assert (i_meta t1 = m) as Hm1 by apply Hfr1.
  assert (m_batch_id (i_meta t1) = []) as Hb1 by (by rewrite Hm1).
  assert (zlen (b :: bs) = 1 + zlen bs) as Hz by (unfold zlen; cbn [length]; lia). pose proof (zlen_nonneg bs).
  destruct x as [p xf sd w inc og ss fr la]. cbn in *.
  destruct (runs_on_chunk (mkView (p_heard p) xf sd w inc og ss fr la) b oid t t1 w1 c Hdec
    ltac:(cbn; by rewrite Htid) Ht Hch Hb1) as (nn & Hrun).
  destruct (IH fs (mkView (p_heard p) (<[oid := t1]> xf) sd w1 inc og ss fr (Some nn)) t1 t' w' (cr + 1)) as (y & Hy & H1 & H2 & (H3 & H4 & H5) & H6);
    try done; [apply list_lookup_insert_eq; by eapply lookup_lt_Some|by apply ready_heard|lia|cbn; lia|].
  exists y. split.
  - eapply runs_bind; [|exact Hy].
    eapply (runs_hear_chunk pid now _ ks kr cs cr b f); [done|lia|done|by eapply decode_chunk_is|exact Hrun].
  - split; [done|]. split; [done|]. split; [done|]. rewrite Hz. by replace (cr + (1 + zlen bs)) with (cr + 1 + zlen bs) by lia.
Qed.

(** The verdict of the receiving service. *)
Definition verdict (m : TransferMetadata) : jdict :=
  mkdict [("transfer_id", JStr (m_transfer_id m)); ("success", JBool true); ("sha256", JStr (m_sha256 m))]%string.

Lemma runs_on_complete x m oid t t' w' ks kr cs cr :
  aget (m_transfer_id m) (a_incoming x) = Some oid -> a_xfers x !! oid = Some t ->
  finalise (t, a_world x) = (Ok true, (t', w')) -> i_meta t' = m -> m_batch_id m = [] ->
  ready (a_peer x) ks kr cs cr -> 0 <= cs < 2 ^ 64 -> 0 <= now < 2 ^ 63 -> short (verdict m) ->
  exists f, letter ks cs TRANSFER_RESULT (verdict m) f
  /\ runs (on_transfer_complete pid (JStr (m_transfer_id m))) x (Ok tt)
       (at_last (Some (NComplete (m_transfer_id m) true (m_file_name m) INCOMING_))
         (at_incoming (adel (m_transfer_id m) (a_incoming x))
           (at_fresh (S (a_fresh x)) (at_peer (p_sent f (a_peer x)) (at_world w' (at_xfers (<[oid := t']> (a_xfers x)) x)))))).
Proof.
  intros Hi Ht Hfin Hm Hb Hr Hc Hn Hsh. destruct x as [p xf sd w inc og ss fr la]. cbn in *.
  assert (<[oid := t']> xf !! oid = Some t') as Ht' by (apply list_lookup_insert_eq; by eapply lookup_lt_Some).
  destruct (runs_send pid now (mkView p (<[oid := t']> xf) sd w' inc og ss fr la) ks kr cs cr TRANSFER_RESULT (verdict m) Hr Hc Hn Hsh)
    as (f & Hf & Hrun). exists f. split; [done|].
  unfold on_transfer_complete. apply runs_lift_bind. apply runs_now. intros s _ -> _ _. cbn. rewrite Hi. cbn.
  eapply runs_bind; [apply runs_pop_timeout|]. eapply runs_bind; [apply runs_pop_last_chunk|].
  eapply runs_bind; [by eapply runs_on_incoming|]. eapply runs_incoming_object; [exact Ht'|]. rewrite Hm. cbv beta zeta.
  eapply runs_bind; [exact Hrun|]. eapply runs_bind; [apply runs_pop_incoming|]. eapply runs_bind; [apply runs_pop_incoming_peer|].
  apply runs_peer. rewrite Hb, bool_decide_eq_true_2 by done. unfold record_incoming.
  eapply runs_bind; [apply runs_record|]. apply runs_notify.
Qed.

(** The same from the frames that carry these messages. *)
Lemma runs_hear_request x payload m name f ks kr cs cr :
  metadata_from_dict now payload = Ok m -> m_batch_id m = [] -> a_incoming x = [] ->
  or_addr (p_device_name (a_peer x)) (a_peer x) = JStr name ->
  ready (a_peer x) ks kr cs cr -> 0 <= cr < 2 ^ 64 -> letter kr cr TRANSFER_REQUEST payload f ->
  exists n, runs (session_frame pid f) x (Ok tt)
    (at_peer (p_heard (a_peer x)) (at_fresh (S (S (a_fresh x))) (at_last (Some n) (at_incoming [(m_transfer_id m, length (a_xfers x))]
      (at_xfers (a_xfers x ++ [new_incoming m h_download_dir]) x))))).
Proof.
  intros Hm Hb Hi Hname Hr Hc Hf. destruct x as [p xf sd w inc og ss fr la]. cbn [a_incoming a_peer] in *. subst inc.
  destruct (runs_on_request (mkView (p_heard p) xf sd w [] og ss (S fr) la) payload m name Hm Hb eq_refl Hname) as (n & H).
  exists n. eapply runs_hear; [done..|]. intros e Ht Hp. unfold handle_transfer_message. rewrite Ht, Hp, mt_of_value.
  apply runs_lift_bind. exact H.
Qed.
Lemma runs_hear_complete x m oid t t' w' f ks kr cs cr :
  aget (m_transfer_id m) (a_incoming x) = Some oid -> a_xfers x !! oid = Some t ->
  finalise (t, a_world x) = (Ok true, (t', w')) -> i_meta t' = m -> m_batch_id m = [] ->
  ready (a_peer x) ks kr cs cr -> 0 <= cs < 2 ^ 64 -> 0 <= cr < 2 ^ 64 -> 0 <= now < 2 ^ 63 -> short (verdict m) ->
  letter kr cr TRANSFER_COMPLETE (tid_dict (m_transfer_id m)) f ->
  exists fV y, letter ks cs TRANSFER_RESULT (verdict m) fV /\ runs (session_frame pid f) x (Ok tt) y
  /\ p_out (a_peer y) = p_out (a_peer x) ++ [fV] /\ a_world y = w' /\ a_incoming y = adel (m_transfer_id m) (a_incoming x)
  /\ a_last y = Some (NComplete (m_transfer_id m) true (m_file_name m) INCOMING_).
Proof.
  intros Hi Ht Hfin Hm Hb Hr Hcs Hcr Hn Hsh Hf. destruct x as [p xf sd w inc og ss fr la]. cbn [a_incoming a_peer a_xfers a_world] in *.
  destruct (runs_on_complete (mkView (p_heard p) xf sd w inc og ss (S fr) la) m oid t t' w' ks kr cs (cr + 1)) as (fV & HfV & H);
    try done; [by apply ready_heard|].
  eexists fV, _. split; [done|]. split.
  { eapply runs_hear; [done..|]. intros e Hty Hp. unfold handle_transfer_message. rewrite Hty, Hp, mt_of_value.
    apply runs_lift_bind. exact H. }
  done.
Qed.

(** ** The sending service *)

Lemma runs_guarded_inl tid m x k y : runs m x (Ok (inl k)) y -> runs (guarded tid m) x (Ok (inl k)) y.
Proof. intros H. unfold guarded. eapply runs_bind; [by apply runs_try|]. apply runs_ret. Qed.
Lemma runs_guarded_inr tid m x b y :
  runs m x (Ok (inr b)) y -> runs (guarded tid m) x (Ok (inr b)) (at_outgoing (adel tid (a_outgoing y)) y).
Proof. intros H. unfold guarded. eapply runs_bind; [by apply runs_try|]. eapply runs_bind; [apply runs_pop_outgoing|]. apply runs_ret. Qed.

(** The task of a file that is not part of a batch. *)
Definition task (oid : nat) (m : TransferMetadata) (ph : send_phase) : send_task :=
  {| k_pid := pid; k_oid := oid; k_meta := m; k_batch_id := []; k_started_at := now; k_batch := None; k_phase := ph |}.
(** The transfer object that [send_file] makes, and its offer. *)
Definition fresh_transfer (x : view) (source : path) : OutgoingTransfer :=
  new_outgoing (h_uuid4 (a_fresh x)) source (default [] (p_static_b64 (a_peer x))) None [] [].
Definition offer (identity : IdentityManager) (x : view) (source : path) (c : bytes) : TransferMetadata :=
  offered h_guess_type now (public_key_b64 identity) c (fresh_transfer x source).
Definition await (tid : pystr) (p : PeerSession) : PeerSession :=
  p_set_events (aset tid [] (p_transfer_events p)) (p_result_events p) p.
Definition await_result (tid : pystr) (p : PeerSession) : PeerSession :=
  p_set_events (p_transfer_events p) (aset tid [] (p_result_events p)) p.

Lemma runs_send_begin identity x addr source c ks kr cs cr :
  let t := fresh_transfer x source in let m := offer identity x source c in
  aget addr (a_sessions x) = Some pid -> ready (a_peer x) ks kr cs cr -> 0 <= cs < 2 ^ 64 -> 0 <= now < 2 ^ 63 ->
  readable source c (a_world x) -> short (metadata_to_dict m) ->
  exists w1 f, readable source c w1 /\ letter ks cs TRANSFER_REQUEST (metadata_to_dict m) f
  /\ runs (send_file_begin identity addr source None [] []) x (Ok (inl (task (length (a_sends x)) m SWaitAccept)))
       (at_peer (await (m_transfer_id m) (p_sent f (a_peer x)))
         (at_outgoing (aset (m_transfer_id m) (pid, length (a_sends x)) (a_outgoing x))
           (at_world w1 (at_sends (a_sends x ++ [t]) (at_fresh (S (S (a_fresh x))) x))))).
Proof.
  intros t m Ha Hr Hc Hn Hrd Hsh.
  destruct (wp_run _ _ _ (wp_build_metadata h_guess_type now (public_key_b64 identity) c t (a_world x) Hrd))
    as (r & [t1 w1] & E1 & -> & E & Hrd1 & _). cbn [fst snd] in E, Hrd1. subst t1. fold m in E1.
  destruct x as [p xf sd w inc og ss fr la]. cbn [a_peer a_sends a_world a_sessions a_fresh a_outgoing] in *.
  set (oid := length sd). set (tid := m_transfer_id m) in *.
  destruct (runs_send pid now (mkView p xf (sd ++ [t]) w1 inc (aset tid (pid, oid) og) ss (S fr) la) ks kr cs cr
    TRANSFER_REQUEST (metadata_to_dict m) Hr Hc Hn Hsh) as (f & Hf & Hrun).
  exists w1, f. split; [done|]. split; [done|]. unfold send_file_begin. apply runs_now. intros s Hnow _ -> _. cbn [a_sessions]. rewrite Ha.
  apply runs_peer. cbn [a_peer]. rewrite (rd_state _ _ _ _ _ Hr). apply runs_lift_bind.
  eapply runs_bind; [eapply runs_bind; [apply runs_draw|apply runs_ret]|].
  eapply runs_bind; [apply runs_new_send|]. view. fold oid.
  change (new_outgoing (h_uuid4 fr) source (default [] (p_static_b64 p)) None [] []) with t.
  assert ((sd ++ [t]) !! oid = Some t) as Hlook by (by apply list_lookup_middle).
  assert (<[oid := t]> (sd ++ [t]) = sd ++ [t]) as Hins by (by apply list_insert_id).
  eapply runs_bind.
  { apply runs_try. eapply runs_bind; [|apply runs_ret]. rewrite Hnow. eapply runs_on_outgoing; [exact Hlook|exact E1]. }
  cbv beta iota zeta. view. rewrite Hins, Hnow. fold tid.
  eapply runs_bind.
  { apply (runs_modify _ _ _ (mkView p xf (sd ++ [t]) w1 inc (aset tid (pid, oid) og) ss (S fr) la)).
    intros s' (q & Hq & [= -> -> -> -> -> -> -> -> ->] & Hn'). exists q. by destruct s'. }
  apply runs_guarded_inl. eapply runs_bind; [exact Hrun|]. unfold wait_response_begin.
  eapply runs_bind; [apply runs_upd|]. apply runs_ret.
Qed.

(** The answers of the other side reach the waiting task. *)
Definition answer (tid : pystr) (h : list reply) (p : PeerSession) : PeerSession :=
  p_set_events (aset tid h (p_transfer_events p)) (p_result_events p) p.
Definition judge (tid : pystr) (h : list bool) (p : PeerSession) : PeerSession :=
  p_set_events (p_transfer_events p) (aset tid h (p_result_events p)) p.

Lemma runs_hear_accept x tid h f ks kr cs cr :
  ready (a_peer x) ks kr cs cr -> 0 <= cr < 2 ^ 64 -> letter kr cr TRANSFER_ACCEPT (tid_dict tid) f ->
  aget tid (p_transfer_events (a_peer x)) = Some h ->
  runs (session_frame pid f) x (Ok tt) (at_peer (answer tid (h ++ [R_ACCEPT]) (p_heard (a_peer x))) (at_fresh (S (a_fresh x)) x)).
Proof.
  intros Hr Hc Hf Hh. eapply runs_hear; [done..|]. intros e Ht Hp. unfold handle_transfer_message. rewrite Ht, Hp, mt_of_value.
  apply runs_lift_bind. change (dget_or (tid_dict tid) "transfer_id" (JStr [])) with (JStr tid). apply runs_lift_bind.
  destruct x as [p xf sd w inc og ss fr la]. cbn in Hh |- *. eapply runs_eq; [apply runs_upd|]. view. cbn. by rewrite Hh.
Qed.
Lemma runs_hear_verdict x m h f ks kr cs cr :
  ready (a_peer x) ks kr cs cr -> 0 <= cr < 2 ^ 64 -> letter kr cr TRANSFER_RESULT (verdict m) f ->
  aget (m_transfer_id m) (p_result_events (a_peer x)) = Some h ->
  runs (session_frame pid f) x (Ok tt) (at_peer (judge (m_transfer_id m) (h ++ [true]) (p_heard (a_peer x))) (at_fresh (S (a_fresh x)) x)).
Proof.
  intros Hr Hc Hf Hh. eapply runs_hear; [done..|]. intros e Ht Hp. unfold handle_transfer_message. rewrite Ht, Hp, mt_of_value.
  apply runs_lift_bind. change (dget_or (verdict m) "transfer_id" (JStr [])) with (JStr (m_transfer_id m)).
  change (py_bool (dget_or (verdict m) "success" (JBool false))) with true. apply runs_lift_bind.
  destruct x as [p xf sd w inc og ss fr la]. cbn in Hh |- *. eapply runs_eq; [apply runs_upd|]. view. cbn. by rewrite Hh.
Qed.

(** The task goes on. *)
Lemma runs_accepted x oid m :
  aget (m_transfer_id m) (p_transfer_events (a_peer x)) = Some [R_ACCEPT] ->
  runs (send_step (task oid m SWaitAccept) false) x (Ok (inl (task oid m (SStreaming stream_chunks 0))))
    (at_peer (p_set_events (adel (m_transfer_id m) (p_transfer_events (a_peer x))) (p_result_events (a_peer x)) (a_peer x)) x).
Proof.
  intros He. apply runs_guarded_inl. change (k_tid (task oid m SWaitAccept)) with (m_transfer_id m).
  cbn [k_phase task]. unfold send_file_response, wait_response_end. change (k_tid _) with (m_transfer_id m). cbn [k_pid].
  eapply runs_bind.
  { apply runs_peer. rewrite He. eapply runs_bind; [apply runs_upd|]. apply runs_ret. }
  cbn [hd]. rewrite bool_decide_eq_true_2 by done. cbn [negb]. apply runs_get. intros s _. apply runs_ret.
Qed.

Fixpoint send_steps (n : nat) (k : send_task) : M Service (send_task + bool) :=
  match n with
  | O => mret (inl k)
  | S n => r ← send_step k false; match r with inl k' => send_steps n k' | inr b => mret (inr b) end
  end.

(** A transfer that is not cancelled stays so while its generator runs. *)
Definition going (s : ost) : Prop := o_cancelled s.1 = false /\ o_state s.1 <> CANCELLING.
Lemma going_next g : stable going (gen_next g).
Proof.
  assert (forall A (m : M world A), stable going (osys m)) as Hsys.
  { intros A m s Hs. unfold wp, osys. by destruct (m (snd s)). }
  assert (forall n, n <> CANCELLING -> stable going (otransition n)) as Htr.
  { intros n Hn s Hs. apply wp_otransition; [|done]. intros _. by destruct Hs. }
  assert (forall A, stable going (fail_transfer (A := A))) as Hfail.
  { intros A. apply stable_bind; [|intros _; apply stable_raise]. intros s [H1 H2]. by apply wp_oupd. }
  assert (forall A (k : OutgoingTransfer -> M ost A), (forall t, o_cancelled t = false -> stable going (k t)) -> stable going (oself ≫= k)) as Hself.
  { intros A k Hk s Hs. apply wp_oself. by apply Hk; [apply Hs|]. }
  assert (forall seq pos, stable going (read_loop seq pos)) as Hread.
  { intros seq pos. unfold read_loop. apply Hself. intros t ->. apply stable_bind; [by apply stable_try|].
    intros c. case_bool_decide; [apply stable_bind; [by apply Htr|intros _; apply stable_ret]|]. apply stable_bind; [apply stable_lift|intros b].
    apply stable_bind; [intros s []; by apply wp_oupd|intros _; apply stable_ret]. }
  destruct g; cbn [gen_next]; [|apply Hread|apply stable_ret]. unfold gen_start. apply stable_bind; [by apply Htr|intros _].
  apply Hself. intros t _. apply stable_bind; [by apply stable_try|intros _].
  apply stable_bind; [|intros _; apply Hread]. case_match; [by apply stable_try|apply stable_ret].
Qed.

(** One turn of the streaming loop, when the generator yields a frame ... *)
Lemma runs_turn oid m g g' sent x t t' w' b ks kr cs cr :
  gen_next g (t, a_world x) = (Ok (Some b, g'), (t', w')) -> going (t, a_world x) -> a_sends x !! oid = Some t ->
  zlen b <= MAX_AEAD_PLAINTEXT -> ready (a_peer x) ks kr cs cr -> 0 <= cs < 2 ^ 64 ->
  exists f n sent', sealed ks cs b f
  /\ runs (send_steps 2 (task oid m (SStreaming g sent))) x (Ok (inl (task oid m (SStreaming g' sent'))))
       (at_last (Some n) (at_peer (p_sent f (a_peer x)) (at_world w' (at_sends (<[oid := t']> (a_sends x)) x)))).
Proof.
  intros Hg Hgo Ht Hb Hr Hc. destruct x as [p xf sd w inc og ss fr la]. cbn [a_peer a_sends a_world] in *.
  pose proof Hr as [Hst Hs Hre Hcs Hcr Ho Ha].
  destruct (encrypt_sealed b (p_session p) ks Hs Hb ltac:(by rewrite Hcs)) as (f & Hf & Henc).
  pose proof (wp_elim _ _ _ _ _ (going_next g _ Hgo) Hg) as [Hca Hcan]. cbn [fst] in Hca, Hcan.
  assert (<[oid := t']> sd !! oid = Some t') as Ht' by (apply list_lookup_insert_eq; by eapply lookup_lt_Some).
  exists f. eexists _, _. split; [by rewrite <-Hcs|]. cbn [send_steps]. eapply runs_bind.
  { apply runs_guarded_inl. cbn [k_phase task]. unfold send_file_next. cbn [k_oid k_pid].
    eapply runs_bind; [apply runs_try; eapply runs_bind; [by eapply runs_on_outgoing|apply runs_ret]|]. cbv beta iota. view.
    eapply runs_bind; [apply runs_is_cancelled; exact Ht'|]. rewrite Hca, bool_decide_eq_false_2 by done. cbn [orb].
    eapply runs_bind; [apply runs_on_session; exact Henc|]. eapply runs_bind; [apply runs_upd|]. apply runs_ret. }
  view. cbv beta iota. eapply runs_bind; [apply runs_guarded_inl; cbn [k_phase k_set]; unfold send_file_drained|cbv beta iota; apply runs_ret].
  apply runs_peer. view. unfold p_write. cbn [p_closed p_lost p_set_session k_set k_pid]. rewrite Ho, Ha. cbn [orb p_lost p_set_conn].
  apply runs_lift_bind. cbn [k_batch k_set]. eapply runs_bind; [apply runs_notify|]. unfold p_sent. rewrite Ho, Ha. apply runs_ret.
Qed.
(** ... and when it is exhausted. *)
Lemma runs_last_turn oid m g g' sent x t t' w' ks kr cs cr :
  gen_next g (t, a_world x) = (Ok (None, g'), (t', w')) -> going (t, a_world x) -> a_sends x !! oid = Some t ->
  ready (a_peer x) ks kr cs cr -> 0 <= cs < 2 ^ 64 -> 0 <= now < 2 ^ 63 -> short (tid_dict (m_transfer_id m)) ->
  exists f, letter ks cs TRANSFER_COMPLETE (tid_dict (m_transfer_id m)) f
  /\ runs (send_steps 1 (task oid m (SStreaming g sent))) x (Ok (inl (task oid m SWaitResult)))
       (at_peer (await_result (m_transfer_id m) (p_sent f (a_peer x)))
         (at_fresh (S (a_fresh x)) (at_world w' (at_sends (<[oid := t']> (a_sends x)) x)))).
Proof.
  intros Hg Hgo Ht Hr Hc Hn Hsh. destruct x as [p xf sd w inc og ss fr la]. cbn [a_peer a_sends a_world] in *.
  pose proof (wp_elim _ _ _ _ _ (going_next g _ Hgo) Hg) as [Hca Hcan]. cbn [fst] in Hca, Hcan.
  assert (<[oid := t']> sd !! oid = Some t') as Ht' by (apply list_lookup_insert_eq; by eapply lookup_lt_Some).
  destruct (runs_send pid now (mkView p xf (<[oid := t']> sd) w' inc og ss fr la) ks kr cs cr TRANSFER_COMPLETE
    (tid_dict (m_transfer_id m)) Hr Hc Hn Hsh) as (f & Hf & Hrun).
  exists f. split; [done|]. cbn [send_steps].
  eapply runs_bind; [apply runs_guarded_inl; cbn [k_phase task]; unfold send_file_next|cbv beta iota; apply runs_ret].
  cbn [k_oid k_pid].
  eapply runs_bind; [apply runs_try; eapply runs_bind; [by eapply runs_on_outgoing|apply runs_ret]|]. cbv beta iota. view.
  unfold send_file_streamed. eapply runs_bind; [apply runs_is_cancelled; exact Ht'|]. rewrite Hca, bool_decide_eq_false_2 by done. cbn [orb].
  eapply runs_bind; [exact Hrun|]. eapply runs_bind; [apply runs_upd|]. apply runs_ret.
Qed.

Lemma send_steps_app n n' : forall k s,
  send_steps (n + n') k s = (r ← send_steps n k; match r with inl k' => send_steps n' k' | inr b => mret (inr b) end) s.
Proof.
  induction n as [|n IH]; intros k s; [done|]. cbn [send_steps Nat.add]. unfold mbind, M_bind in *.
  by destruct (send_step k false s) as [[[k'|b]|e] s'].
Qed.
Lemma runs_steps n n' k k' x y r z :
  runs (send_steps n k) x (Ok (inl k')) y -> runs (send_steps n' k') y r z -> runs (send_steps (n + n') k) x r z.
Proof.
  intros H H' s Hs. unfold wp. rewrite send_steps_app. revert s Hs. change (runs (r ← send_steps n k;
    match r with inl k' => send_steps n' k' | inr b => mret (inr b) end) x r z). by eapply runs_bind.
Qed.

(** The whole stream: a frame per chunk, then TRANSFER_COMPLETE. *)
Lemma runs_stream oid m ks kr cr fuel : forall g sent x t bs t2 w2 cs,
  drain fuel g (t, a_world x) = (Ok bs, (t2, w2)) -> going (t, a_world x) -> a_sends x !! oid = Some t ->
  Forall (fun b => zlen b <= MAX_AEAD_PLAINTEXT) bs -> ready (a_peer x) ks kr cs cr -> 0 <= cs -> cs + zlen bs < 2 ^ 64 ->
  0 <= now < 2 ^ 63 -> short (tid_dict (m_transfer_id m)) ->
  exists n fs f y, sealed_all ks cs bs fs /\ letter ks (cs + zlen bs) TRANSFER_COMPLETE (tid_dict (m_transfer_id m)) f
  /\ runs (send_steps n (task oid m (SStreaming g sent))) x (Ok (inl (task oid m SWaitResult))) y
  /\ p_out (a_peer y) = p_out (a_peer x) ++ fs ++ [f] /\ ready (a_peer y) ks kr (cs + zlen bs + 1) cr
  /\ aget (m_transfer_id m) (p_result_events (a_peer y)) = Some [] /\ a_outgoing y = a_outgoing x.
Proof.
  induction fuel as [|fuel IH]; intros g sent x t bs t2 w2 cs Hd Hgo Ht Hlen Hr Hc Hmax Hn Hsh; [done|].
  cbn [drain] in Hd. apply mbind_inv in Hd as ([yv g'] & [t1 w1] & Hg & Hd).
  destruct yv as [b|].
  - apply mbind_inv in Hd as (rest & [t3 w3] & Hd & Hd'). apply pair_equal_spec in Hd' as [[= <-] [= -> ->]].
    apply Forall_cons in Hlen as [Hb Hlen].
    assert (zlen (b :: rest) = 1 + zlen rest) as Hz by (unfold zlen; cbn [length]; lia). pose proof (zlen_nonneg rest).
    destruct (runs_turn oid m g g' sent x t t1 w1 b ks kr cs cr Hg Hgo Ht Hb Hr ltac:(lia)) as (f & nn & sent' & Hf & Hrun).
    pose proof (wp_elim _ _ _ _ _ (going_next g _ Hgo) Hg) as Hgo1.
    destruct x as [p xf sd w inc og ss fr la]. cbn [a_peer a_sends a_world a_outgoing] in *.
    destruct (IH g' sent' (mkView (p_sent f p) xf (<[oid := t1]> sd) w1 inc og ss fr (Some nn)) t1 rest t2 w2 (cs + 1))
      as (n & fs & fC & y & Hfs & HfC & Hy & Hout & Hry & Hev & Hog); try done.
    { apply list_lookup_insert_eq. by eapply lookup_lt_Some. }
    { by apply ready_sent. }
    { lia. }
    { lia. }
    cbn [a_peer a_outgoing p_sent p_set_conn p_out] in *.
    exists (2 + n)%nat, (f :: fs), fC, y. split; [by split|]. rewrite Hz.
    replace (cs + (1 + zlen rest)) with (cs + 1 + zlen rest) by lia. split; [done|].
    split; [by eapply runs_steps|]. split; [by rewrite Hout, <-!app_assoc|]. done.
  - apply pair_equal_spec in Hd as [[= <-] _].
    destruct (runs_last_turn oid m g g' sent x t t1 w1 ks kr cs cr Hg Hgo Ht Hr ltac:(change (zlen []) with 0 in Hmax; lia) Hn Hsh) as (f & Hf & Hrun).
    destruct x as [p xf sd w inc og ss fr la]. cbn [a_peer a_sends a_world a_outgoing] in *.
    eexists 1%nat, [], f, _. split; [done|]. cbn [app]. rewrite Z.add_0_r. split; [done|]. split; [exact Hrun|].
    split; [done|]. split; [by apply ready_events, ready_sent|]. split; [|done]. cbn. apply aget_aset_eq.
Qed.

(** The end of the task. *)
Lemma runs_finished x oid m :
  aget (m_transfer_id m) (p_result_events (a_peer x)) = Some [true] ->
  exists p, runs (send_step (task oid m SWaitResult) false) x (Ok (inr true))
    (at_outgoing (adel (m_transfer_id m) (a_outgoing x))
      (at_last (Some (NComplete (m_transfer_id m) true (m_file_name m) OUTGOING_)) (at_peer p x))).
Proof.
  intros He. destruct x as [p xf sd w inc og ss fr la]. cbn [a_peer a_outgoing] in *. eexists.
  eapply runs_eq.
  { apply runs_guarded_inr. cbn [k_phase task]. unfold send_file_result, wait_result_end. change (k_tid _) with (m_transfer_id m). cbn [k_pid].
    eapply runs_bind; [apply runs_peer; view; rewrite He; eapply runs_bind; [apply runs_upd|apply runs_ret]|].
    cbn [hd]. eapply runs_bind; [unfold report; cbn [k_batch_id k_pid]|apply runs_ret].
    rewrite bool_decide_eq_true_2 by done. apply runs_peer. eapply runs_bind; [apply runs_record|]. apply runs_notify. }
  reflexivity.
Qed.
End delivery.

(** ** Both services *)

Section both.
Context `{HC : Crypto} {HL : CryptoLaws} `{HR : PyRepr} `{HH : Host} {HHL : HostLaws}.

Lemma sees_fields pid now x s :
  sees pid now x s -> a_world x = v_world s /\ a_incoming x = v_incoming s /\ a_outgoing x = v_outgoing s /\ a_last x = last (v_notices s).
Proof. by intros (p & _ & -> & _). Qed.
Lemma short_ids z : short (tid_dict (uuid_str z)).
Proof.
  destruct (uuid_str_text z) as [H1 H2]. unfold short, tid_dict, mkdict. cbn [map fst snd]. split.
  - cbn [json_ok forallb fst snd]. rewrite H1. by vm_compute.
  - cbn [weight fold_right fst snd]. rewrite H2. change (zlen (u "transfer_id")) with 11. lia.
Qed.
Lemma short_verdict m z c : m_transfer_id m = uuid_str z -> m_sha256 m = hexdigest c -> short (verdict m).
Proof.
  intros E1 E2. destruct (uuid_str_text z) as [H1 H2]. unfold short, verdict, mkdict. cbn [map fst snd]. rewrite E1, E2.
  assert (ascii (hexdigest c)) as Ha.
  { eapply Forall_impl; [apply hexdigest_hex|]. intros x Hx. unfold is_hex, between in Hx. lia. }
  assert (zlen (hexdigest c) = 64) as Hl by (unfold zlen; by rewrite length_hexdigest).
  split.
  - cbn [json_ok forallb fst snd]. rewrite H1, (scalar_ascii _ Ha). by vm_compute.
  - cbn [weight fold_right fst snd]. rewrite H2, Hl. change (zlen (u "transfer_id")) with 11.
    change (zlen (u "success")) with 7. change (zlen (u "sha256")) with 6. lia.
Qed.

(** The receiving side up to the user's consent ... *)
Lemma receives_offer pid now x addr payload m z name t1 w1 f ks kr cs cr :
  metadata_from_dict now payload = Ok m -> m_batch_id m = [] -> m_transfer_id m = uuid_str z ->
  a_incoming x = [] -> or_addr (p_device_name (a_peer x)) (a_peer x) = JStr name -> aget addr (a_sessions x) = Some pid ->
  ready (a_peer x) ks kr cs cr -> 0 <= now < 2 ^ 63 -> 0 <= cs < 2 ^ 64 -> 0 <= cr < 2 ^ 64 ->
  begin h_realpath (new_incoming m h_download_dir, a_world x) = (Ok tt, (t1, w1)) -> letter kr cr TRANSFER_REQUEST payload f ->
  exists y1 y2 fA, let R {A} := @runs _ _ (sees pid now) A in let oid := length (a_xfers x) in
    R (hears pid [f]) x (Ok tt) y1 /\ R (accept_transfer addr (m_transfer_id m)) y1 (Ok tt) y2
  /\ p_out (a_peer y2) = p_out (a_peer x) ++ [fA] /\ letter ks cs TRANSFER_ACCEPT (tid_dict (m_transfer_id m)) fA
  /\ a_xfers y2 !! oid = Some t1 /\ a_world y2 = w1 /\ a_incoming y2 = [(m_transfer_id m, oid)]
  /\ ready (a_peer y2) ks kr (cs + 1) (cr + 1).
Proof.
  intros Hm Hb Hz Hi Hname Haddr Hr Hn Hcs Hcr Hbeg Hf. pose proof (short_ids z) as Hsh. rewrite <-Hz in Hsh.
  destruct (runs_hear_request pid now x payload m name f ks kr cs cr Hm Hb Hi Hname Hr Hcr Hf) as (nq & HR1).
  destruct x as [p xf sd w inc og ss fr la]. cbn [a_incoming a_peer a_sessions a_world a_xfers a_fresh] in *. view in HR1.
  set (t0 := new_incoming m h_download_dir) in *. set (oid := length xf) in *.
  assert (forall v : IncomingTransfer, (xf ++ [v]) !! oid = Some v) as Hlook by (intros v; by apply list_lookup_middle).
  assert (aget (m_transfer_id m) [(m_transfer_id m, oid)] = Some oid) as Hget by apply (aget_aset_eq _ _ []).
  set (y1 := mkView (p_heard p) (xf ++ [t0]) sd w [(m_transfer_id m, oid)] og ss (S (S fr)) (Some nq)) in *.
  destruct (runs_accept pid now y1 addr (m_transfer_id m) oid t0 t1 w1 ks kr cs (cr + 1)) as (fA & HfA & HR2);
    [exact Hget|exact Haddr|apply Hlook|exact Hbeg|by apply ready_heard|lia|done|done|].
  eexists y1, _, fA. split; [by apply pv_hears_one|]. split; [exact HR2|]. split; [done|]. split; [done|].
  split; [cbn; apply list_lookup_insert_eq; by eapply lookup_lt_Some, Hlook|]. split; [done|]. split; [done|].
  by apply ready_sent, ready_heard.
Qed.
(** ... and from the first chunk to the verdict. *)
Lemma receives_file pid now x m oid t1 bs t' w' fs fC ks kr cs cr :
  m_batch_id m = [] -> a_incoming x = [(m_transfer_id m, oid)] -> a_xfers x !! oid = Some t1 ->
  frame h_realpath m h_download_dir ∅ (t1, a_world x) -> (receive_frames bs;; finalise) (t1, a_world x) = (Ok true, (t', w')) ->
  ready (a_peer x) ks kr cs cr -> 0 <= now < 2 ^ 63 -> 0 <= cs < 2 ^ 64 -> 0 <= cr -> cr + zlen bs < 2 ^ 64 -> short (verdict m) ->
  sealed_all kr cr bs fs -> letter kr (cr + zlen bs) TRANSFER_COMPLETE (tid_dict (m_transfer_id m)) fC ->
  exists y fV, runs (sees pid now) (hears pid (fs ++ [fC])) x (Ok tt) y /\ p_out (a_peer y) = p_out (a_peer x) ++ [fV]
  /\ letter ks cs TRANSFER_RESULT (verdict m) fV
  /\ a_world y = w' /\ a_incoming y = [] /\ a_last y = Some (NComplete (m_transfer_id m) true (m_file_name m) INCOMING_).
Proof.
  intros Hb Hi Ht F1 Hrecv Hr Hn Hcs Hcr Hmax Hsv Hfs HfC. pose proof (zlen_nonneg bs) as Hbs.
  apply mbind_inv in Hrecv as ([] & [t2 w2] & Hch & Hfin).
  assert (i_meta t' = m) as Hm'.
  { pose proof (wp_elim _ _ _ _ _ (preserves_receive_frames h_realpath m h_download_dir ∅ bs _ F1) Hch) as F2.
    by pose proof (wp_elim _ _ _ _ _ (preserves_finalise h_realpath m h_download_dir ∅ _ F2) Hfin) as [F3%fr_meta _]. }
  assert (aget (m_transfer_id m) (a_incoming x) = Some oid) as Hget by (rewrite Hi; apply (aget_aset_eq _ _ [])).
  assert (adel (m_transfer_id m) (a_incoming x) = []) as Hdel by (rewrite Hi; apply (adel_aset_fresh _ _ []), not_elem_of_nil).
  destruct (runs_chunks pid now m oid ks kr cs bs fs x t1 t2 w2 cr) as (y3 & HR3 & X3 & W3 & (I3 & _ & O3) & R3); try done; [lia|].
  destruct (runs_hear_complete pid now y3 m oid t2 t' w' fC ks kr cs (cr + zlen bs)) as (fV & y4 & HfV & HR4 & O4 & W4 & I4 & L4);
    try done; [by rewrite I3|by rewrite W3|lia|].
  exists y4, fV. split; [eapply pv_hears_app; [exact HR3|by apply pv_hears_one]|]. split; [by rewrite O4, O3|]. split; [done|]. split; [done|].
  split; [by rewrite I4, I3, <-Hdel|done].
Qed.

(** The sending side, from the answer to the wait for the verdict ... *)
Lemma sends pid now x oid m z fuel t bs t2 w2 f ks kr cs cr :
  m_transfer_id m = uuid_str z -> aget (m_transfer_id m) (p_transfer_events (a_peer x)) = Some [] -> a_sends x !! oid = Some t ->
  drain fuel stream_chunks (t, a_world x) = (Ok bs, (t2, w2)) -> going (t, a_world x) ->
  Forall (fun b => zlen b <= MAX_AEAD_PLAINTEXT) bs -> ready (a_peer x) ks kr cs cr -> 0 <= cs -> cs + zlen bs < 2 ^ 64 ->
  0 <= cr < 2 ^ 64 -> 0 <= now < 2 ^ 63 -> letter kr cr TRANSFER_ACCEPT (tid_dict (m_transfer_id m)) f ->
  exists y1 n fs fC y2, let R {A} := @runs _ _ (sees pid now) A in
    R (hears pid [f]) x (Ok tt) y1 /\ p_out (a_peer y1) = p_out (a_peer x)
  /\ R (send_steps n (task pid now oid m SWaitAccept)) y1 (Ok (inl (task pid now oid m SWaitResult))) y2
  /\ p_out (a_peer y2) = p_out (a_peer y1) ++ fs ++ [fC] /\ sealed_all ks cs bs fs
  /\ letter ks (cs + zlen bs) TRANSFER_COMPLETE (tid_dict (m_transfer_id m)) fC
  /\ ready (a_peer y2) ks kr (cs + zlen bs + 1) (cr + 1) /\ aget (m_transfer_id m) (p_result_events (a_peer y2)) = Some []
  /\ a_outgoing y2 = a_outgoing x.
Proof.
  intros Hz Hev Ht Hd Hgo Hlen Hr Hcs Hmax Hcr Hn Hf. pose proof (short_ids z) as Hsh. rewrite <-Hz in Hsh.
  pose proof (runs_hear_accept pid now x (m_transfer_id m) [] f ks kr cs cr Hr Hcr Hf Hev) as H1.
  destruct x as [p xf sd w inc og ss fr la]. cbn [a_peer a_sends a_world a_outgoing a_fresh] in *. view in H1.
  set (y1 := mkView _ _ _ _ _ _ _ (S fr) _) in H1.
  assert (aget (m_transfer_id m) (p_transfer_events (a_peer y1)) = Some [R_ACCEPT]) as Hev1 by (cbn; apply aget_aset_eq).
  pose proof (runs_accepted pid now y1 oid m Hev1) as H2. set (y1' := at_peer _ y1) in H2.
  destruct (runs_stream pid now oid m ks kr (cr + 1) fuel stream_chunks 0 y1' t bs t2 w2 cs)
    as (n & fs & fC & y2 & Hfs & HfC & H3 & Ho & Hr2 & Hev2 & Hog); try done; [by apply ready_events, ready_events, ready_heard|].
  exists y1, (S n), fs, fC, y2. split; [by apply pv_hears_one|]. split; [done|]. split; [|done].
  change (S n) with (1 + n)%nat. eapply runs_steps; [|exact H3]. cbn [send_steps]. eapply runs_bind; [exact H2|]. apply runs_ret.
Qed.
(** ... and the end. *)
Lemma sends_end pid now x oid m f ks kr cs cr :
  aget (m_transfer_id m) (p_result_events (a_peer x)) = Some [] -> ready (a_peer x) ks kr cs cr -> 0 <= cr < 2 ^ 64 ->
  letter kr cr TRANSFER_RESULT (verdict m) f ->
  exists y1 y2, runs (sees pid now) (hears pid [f]) x (Ok tt) y1
  /\ runs (sees pid now) (send_step (task pid now oid m SWaitResult) false) y1 (Ok (inr true)) y2
  /\ a_outgoing y2 = adel (m_transfer_id m) (a_outgoing x)
  /\ a_last y2 = Some (NComplete (m_transfer_id m) true (m_file_name m) OUTGOING_).
Proof.
  intros Hev Hr Hcr Hf. pose proof (runs_hear_verdict pid now x m [] f ks kr cs cr Hr Hcr Hf Hev) as H1.
  destruct x as [p xf sd w inc og ss fr la]. cbn [a_peer a_outgoing a_fresh] in *. view in H1.
  set (y1 := mkView _ _ _ _ _ _ _ (S fr) _) in H1.
  assert (aget (m_transfer_id m) (p_result_events (a_peer y1)) = Some [true]) as Hev1 by (cbn; apply aget_aset_eq).
  destruct (runs_finished pid now y1 oid m Hev1) as (p' & H2).
  exists y1. eexists. split; [by apply pv_hears_one|]. split; [exact H2|]. done.
Qed.

(** The two transfer objects alone: the chunks of a file and their reception. *)
Lemma stream_and_receive z t c w m f wB :
  o_transfer_id t = uuid_str z -> 0 <= z < 2 ^ 128 -> o_state t = IDLE -> o_cancelled t = false -> readable (o_source_path t) c w ->
  m_transfer_id m = uuid_str z -> m_chunk_size m = CHUNK_SIZE -> m_sha256 m = hexdigest c -> zlen c <= TEN_GIB -> calm wB ->
  resolve_safe_destination h_realpath h_download_dir (m_file_name m) (m_relative_path m) = Ok f ->
  unobstructed (new_incoming m h_download_dir) f wB -> free_destination m h_download_dir f wB ->
  exists fuel bs t2 w2 t' w', drain fuel stream_chunks (t, w) = (Ok bs, (t2, w2))
  /\ Forall (fun b => zlen b <= MAX_AEAD_PLAINTEXT) bs /\ zlen bs <= 2 ^ 20
  /\ receive_file h_realpath bs (new_incoming m h_download_dir, wB) = (Ok true, (t', w'))
  /\ w_fs w' !! f = Some (NFile c) /\ w_fs w' !! part_path m h_download_dir = None.
Proof.
  intros Hz Hz1 Hst Hca Hrd Hmz Hcs Hsha Hten Hc Hf Hun Hfree.
  set (fuel := Z.to_nat (zlen c / CHUNK_SIZE + 1)). pose proof (zlen_nonneg c) as H0.
  assert (zlen c <= Z.of_nat fuel * CHUNK_SIZE /\ Z.of_nat fuel <= 163841) as [Hfuel Hfb].
  { unfold fuel, CHUNK_SIZE, TEN_GIB in *. pose proof (Z.div_mod (zlen c) 65536). pose proof (Z.mod_pos_bound (zlen c) 65536).
    assert (0 <= zlen c / 65536 <= 163840) by (split; [apply Z.div_pos; lia|apply Z.div_le_upper_bound; lia]). lia. }
  assert (uuid_int (o_transfer_id t) = Ok z) as Hu by (rewrite Hz; by apply uuid_int_str).
  destruct (wp_run _ _ _ (drain_start fuel c z 0 t w Hu ltac:(rewrite Hst; set_solver) Hca Hrd ltac:(done) ltac:(lia) Hfuel))
    as (r & [t2 w2] & E2 & bs & -> & Hbs & _). change (rest_at (0 * CHUNK_SIZE) c) with c in *.
  destruct (encode_all_small _ _ _ (pieces_small fuel c) _ _ Hbs) as [Hlen Hsmall].
  destruct (wp_run _ _ _ (wp_receive_file h_realpath (o_transfer_id t) z m h_download_dir f c fuel bs wB Hbs Hfuel Hu Hmz Hcs
    ltac:(by rewrite Hsha, lower_hexdigest) Hc Hf Hun Hfree)) as (r & [t' w'] & E3 & -> & _ & H1 & H2).
  exists (S fuel), bs, t2, w2, t', w'. split; [exact E2|]. split; [|split; [|by split]].
  - eapply Forall_impl; [exact Hsmall|]. cbn beta. unfold CHUNK_SIZE, MAX_AEAD_PLAINTEXT. lia.
  - unfold zlen. rewrite Hlen. pose proof (length_pieces fuel c). lia.
Qed.

(** What [send_file] offers in the state [s], and its id. *)
Definition offered_by (identity : IdentityManager) (pid : nat) (source : path) (c : bytes) (s : Service) : TransferMetadata :=
  offer (v_now s) identity (view_of (peer_at pid s) s) source c.

(** The exchange, as the two services see it: the sender's views [x], the
    receiver's views [y], and the frames that go between them. *)
Lemma delivery_seen identity pa pb na nb x y addr_b addr_a source c m' f name ka kb ca cb :
  let m := offer na identity x source c in
  let RA {A} := @runs _ _ (sees pa na) A in let RB {A} := @runs _ _ (sees pb nb) A in
  ready (a_peer x) ka kb ca cb -> ready (a_peer y) kb ka cb ca -> 0 <= ca <= 2 ^ 64 - 2 ^ 33 -> 0 <= cb <= 2 ^ 64 - 2 ^ 33 ->
  0 <= na < 2 ^ 63 -> 0 <= nb < 2 ^ 63 -> aget addr_b (a_sessions x) = Some pa -> aget addr_a (a_sessions y) = Some pb ->
  readable source c (a_world x) -> short (metadata_to_dict m) ->
  a_incoming y = [] -> or_addr (p_device_name (a_peer y)) (a_peer y) = JStr name ->
  metadata_from_dict nb (metadata_to_dict m) = Ok m' -> calm (a_world y) ->
  resolve_safe_destination h_realpath h_download_dir (m_file_name m') (m_relative_path m') = Ok f ->
  unobstructed (new_incoming m' h_download_dir) f (a_world y) -> free_destination m' h_download_dir f (a_world y) ->
  exists x1 y1 y2 x2 n x3 y3 x4 x5 fR fA fs fV, let k := task pa na (length (a_sends x)) m in
    m_transfer_id m' = m_transfer_id m
  /\ RA (send_file_begin identity addr_b source None [] []) x (Ok (inl (k SWaitAccept))) x1 /\ p_out (a_peer x1) = p_out (a_peer x) ++ [fR]
  /\ RB (hears pb [fR]) y (Ok tt) y1
  /\ RB (accept_transfer addr_a (m_transfer_id m)) y1 (Ok tt) y2 /\ p_out (a_peer y2) = p_out (a_peer y) ++ [fA]
  /\ RA (hears pa [fA]) x1 (Ok tt) x2
  /\ RA (send_steps n (k SWaitAccept)) x2 (Ok (inl (k SWaitResult))) x3 /\ p_out (a_peer x3) = p_out (a_peer x2) ++ fs
  /\ RB (hears pb fs) y2 (Ok tt) y3 /\ p_out (a_peer y3) = p_out (a_peer y2) ++ [fV]
  /\ RA (hears pa [fV]) x3 (Ok tt) x4 /\ RA (send_step (k SWaitResult) false) x4 (Ok (inr true)) x5
  /\ w_fs (a_world y3) !! f = Some (NFile c) /\ w_fs (a_world y3) !! part_path m' h_download_dir = None
  /\ a_incoming y3 = [] /\ a_outgoing x5 = adel (m_transfer_id m) (aset (m_transfer_id m) (pa, length (a_sends x)) (a_outgoing x))
  /\ a_last y3 = Some (NComplete (m_transfer_id m) true (m_file_name m') INCOMING_)
  /\ a_last x5 = Some (NComplete (m_transfer_id m) true (m_file_name m) OUTGOING_).
Proof.
  destruct x as [p xf sd w inc og ss fr la]. set (x := mkView p xf sd w inc og ss fr la).
  intros m RA RB Ra Rb Hca Hcb Na Nb Haddr Haddr' Hrd Hsh Hinc Hname Hm' Hcalm Hres Hun Hfree. unfold RA, RB.
  destruct (uuid4_canonical (a_fresh x)) as (z & Hz & Ez).
  assert (m_transfer_id m = uuid_str z) as Hmz by exact Ez.
  destruct (from_dict_fields _ _ _ Hm') as (N1 & _ & N3 & N4 & N5 & N6 & _).
  change (m_sha256 m) with (hexdigest c) in N4. rewrite lower_hexdigest in N4.
  change (m_chunk_size m) with CHUNK_SIZE in N3. change (m_batch_id m) with (@nil Z) in N5. change (m_file_size m) with (zlen c) in N6.
  destruct (runs_send_begin pa na identity x addr_b source c ka kb ca cb Haddr Ra ltac:(lia) Na Hrd Hsh) as (w1 & fR & Hrd1 & HfR & HA1).
  set (oid := length (a_sends x)) in *. set (t := fresh_transfer x source) in *. fold m in HfR, HA1.
  destruct (stream_and_receive z t c w1 m' f (a_world y)) as (fuel & bs & t2 & w2 & t' & w' & Hd & Hsm & Hlen & Hrecv & Hw1 & Hw2);
    try done; [congruence|].
  pose proof (zlen_nonneg bs) as Hbs0. match type of HA1 with Prelude.runs _ _ _ _ ?v => set (x1 := v) in * end.
  assert (aget (m_transfer_id m) (p_transfer_events (a_peer x1)) = Some []) as Hev by (cbn; apply aget_aset_eq).
  assert (a_sends x1 !! oid = Some t) as Hsd by (by apply list_lookup_middle).
  assert (ready (a_peer x1) ka kb (ca + 1) cb) as Ra1 by (by apply ready_events, ready_sent).
  apply mbind_inv in Hrecv as ([] & [t1 wb1] & Hbeg & Hrecv).
  assert (frame h_realpath m' h_download_dir ∅ (t1, wb1)) as F1.
  { refine (wp_elim _ _ _ _ _ (preserves_begin h_realpath m' h_download_dir ∅ _ _) Hbeg).
    split; [exact (fixed_reach _ _ _ _ (reach_new _ _ _ (a_world y)))|]. intros ? b Hx. by rewrite lookup_empty in Hx. }
  destruct (receives_offer pb nb y addr_a (metadata_to_dict m) m' z name t1 wb1 fR kb ka cb ca)
    as (y1 & y2 & fA & HB1 & HB2 & OB2 & HfA & XB & WB & IB & RB2); try done; [by rewrite N1|lia|lia|].
  rewrite N1 in HfA, HB2.
  destruct (sends pa na x1 oid m z fuel t bs t2 w2 fA ka kb (ca + 1) cb)
    as (x2 & n & fs & fC & x3 & HA2 & OA2 & HA3 & OA3 & Hfs & HfC & RA3 & EA3 & GA3); try done; [lia|lia|lia|].
  destruct (receives_file pb nb y2 m' (length (a_xfers y)) t1 bs t' w' fs fC kb ka (cb + 1) (ca + 1))
    as (y3 & fV & HB3 & OB3 & HfV & WB3 & IB3 & LB3); try done;
    [by rewrite WB|by rewrite WB|lia|lia|lia|by eapply short_verdict; [rewrite N1|rewrite N4]|by rewrite N1|].
  destruct (sends_end pa na x3 oid m fV ka kb (ca + 1 + zlen bs + 1) (cb + 1)) as (x4 & x5 & HA4 & HA5 & GA5 & LA5); try done; [lia|..].
  { unfold verdict in *. by rewrite N1, N4 in HfV. }
  exists x1, y1, y2, x2, n, x3, y3, x4, x5, fR, fA, (fs ++ [fC]), fV.
  rewrite WB3, LB3, GA5, GA3, N1. by split_and!.
Qed.

(** Two services that are connected by an established session, at the ends [pa]
    and [pb], with room for 2^33 frames in each direction. *)
Record connected (pa pb : nat) (sa sb : Service) : Prop := {
  cn_peers : (pa < length (v_peers sa))%nat /\ (pb < length (v_peers sb))%nat;
  cn_ready : exists ka kb ca cb, ready (peer_at pa sa) ka kb ca cb /\ ready (peer_at pb sb) kb ka cb ca
    /\ 0 <= ca <= 2 ^ 64 - 2 ^ 33 /\ 0 <= cb <= 2 ^ 64 - 2 ^ 33;
  cn_clocks : 0 <= v_now sa < 2 ^ 63 /\ 0 <= v_now sb < 2 ^ 63
}.

(** C5. A file goes from one service to another: over an established session, a
    user sends a readable file to a peer that is free, finds the offer
    acceptable and whose user accepts; the sending task and the handlers of both
    services, each fed with the frames that the other one wrote, run without an
    exception; [send_file] returns [True]; the receiver has stored exactly the
    bytes of the file at the destination it resolved and keeps no [.part] file;
    the tables of both services are as before, and both report success. *)
Theorem file_between_services identity pa pb sa sb addr_b addr_a source c m' f name :
  connected pa pb sa sb -> aget addr_b (v_sessions sa) = Some pa -> aget addr_a (v_sessions sb) = Some pb ->
  let m := offered_by identity pa source c sa in
  readable source c (v_world sa) -> short (metadata_to_dict m) -> m_transfer_id m ∉ (v_outgoing sa).*1 ->
  v_incoming sb = [] -> or_addr (p_device_name (peer_at pb sb)) (peer_at pb sb) = JStr name ->
  metadata_from_dict (v_now sb) (metadata_to_dict m) = Ok m' -> calm (v_world sb) ->
  resolve_safe_destination h_realpath h_download_dir (m_file_name m') (m_relative_path m') = Ok f ->
  unobstructed (new_incoming m' h_download_dir) f (v_world sb) -> free_destination m' h_download_dir f (v_world sb) ->
  exists k sa1 sb1 sb2 sa2 n k' sa3 sb3 sa4 sa5,
    send_file_begin identity addr_b source None [] [] sa = (Ok (inl k), sa1)
  /\ hears pb (news pa sa sa1) sb = (Ok tt, sb1)
  /\ accept_transfer addr_a (k_tid k) sb1 = (Ok tt, sb2)
  /\ hears pa (news pb sb sb2) sa1 = (Ok tt, sa2)
  /\ send_steps n k sa2 = (Ok (inl k'), sa3) /\ k_phase k' = SWaitResult
  /\ hears pb (news pa sa2 sa3) sb2 = (Ok tt, sb3)
  /\ hears pa (news pb sb2 sb3) sa3 = (Ok tt, sa4)
  /\ send_step k' false sa4 = (Ok (inr true), sa5)
  /\ w_fs (v_world sb3) !! f = Some (NFile c) /\ w_fs (v_world sb3) !! part_path m' h_download_dir = None
  /\ v_incoming sb3 = [] /\ v_outgoing sa5 = v_outgoing sa
  /\ last (v_notices sb3) = Some (NComplete (k_tid k) true (m_file_name m') INCOMING_)
  /\ last (v_notices sa5) = Some (NComplete (k_tid k) true (m_file_name m) OUTGOING_).
Proof.
  intros [[La Lb] (ka & kb & ca & cb & Ra & Rb & Hca & Hcb) [Na Nb]] Haddr Haddr' m Hrd Hsh Hnew Hinc Hname Hm' Hcalm Hres Hun Hfree.
  destruct (lookup_lt_is_Some_2 _ _ La) as [p Hp]. destruct (lookup_lt_is_Some_2 _ _ Lb) as [q Hq].
  pose proof (sees_at pa (v_now sa) p sa Hp eq_refl) as VA. pose proof (sees_at pb (v_now sb) q sb Hq eq_refl) as VB.
  unfold m, offered_by, peer_at in *. rewrite Hp, Hq in *. cbn [default] in *. change id with (fun x : PeerSession => x) in *. clear m.
  set (x := view_of p sa) in *. set (y := view_of q sb) in *.
  destruct (delivery_seen identity pa pb (v_now sa) (v_now sb) x y addr_b addr_a source c m' f name ka kb ca cb)
    as (x1 & y1 & y2 & x2 & n & x3 & y3 & x4 & x5 & fR & fA & fs & fV & E & HA1 & O1 & HB1 & HB2 & O2 & HA2 & HA3 & O3
        & HB3 & O4 & HA4 & HA5 & Hw & Hpart & Hi & Ho & L1 & L2); try done.
  destruct (runs_elim _ _ _ _ _ _ HA1 VA) as (sa1 & SA1 & VA1).
  destruct (runs_elim _ _ _ _ _ _ HB1 VB) as (sb1 & SB1 & VB1). destruct (runs_elim _ _ _ _ _ _ HB2 VB1) as (sb2 & SB2 & VB2).
  destruct (runs_elim _ _ _ _ _ _ HA2 VA1) as (sa2 & SA2 & VA2). destruct (runs_elim _ _ _ _ _ _ HA3 VA2) as (sa3 & SA3 & VA3).
  destruct (runs_elim _ _ _ _ _ _ HB3 VB2) as (sb3 & SB3 & VB3).
  destruct (runs_elim _ _ _ _ _ _ HA4 VA3) as (sa4 & SA4 & VA4). destruct (runs_elim _ _ _ _ _ _ HA5 VA4) as (sa5 & SA5 & VA5).
  destruct (sees_fields _ _ _ _ VB3) as (FW & FI & _ & FL). destruct (sees_fields _ _ _ _ VA5) as (_ & _ & FO & FL').
  eexists _, sa1, sb1, sb2, sa2, n, _, sa3, sb3, sa4, sa5.
  rewrite (pv_news (PV := sees_view pa (v_now sa)) _ _ _ _ _ VA VA1 O1), (pv_news (PV := sees_view pb (v_now sb)) _ _ _ _ _ VB VB2 O2), (pv_news (PV := sees_view pa (v_now sa)) _ _ _ _ _ VA2 VA3 O3),
    (pv_news (PV := sees_view pb (v_now sb)) _ _ _ _ _ VB2 VB3 O4), <-FW, <-FI, <-FL, <-FL', <-FO, Ho.
  split_and!; try done. by apply adel_aset_fresh.
Qed.
End both.
