(* ===== verification/Enrolment.v ===== *)
(** * From strangers to a connected pair

    What follows the handshake of two devices that meet for the first time: both
    users compare the codes and accept, in whatever order, and both services end
    in an established session, each with the other device in its database. *)
From S2P Require Import Prelude PyStr Sha256 Json Protocol Wire Payloads Transfer Fs Incoming Outgoing Session Bridge Db.
From S2P Require Import Identity Peers Service Sending Handshake Views FirstContact Channel Delivery.

(** ** The view: the peer, the database and the last notice *)

Record seat := mkSeat { e_peer : PeerSession; e_fresh : nat; e_db : db; e_last : option notice }.
Definition seat_peer x (v : seat) : seat := mkSeat x (e_fresh v) (e_db v) (e_last v).
Definition seat_db x (v : seat) : seat := mkSeat (e_peer v) (e_fresh v) x (e_last v).
Definition seat_last x (v : seat) : seat := mkSeat (e_peer v) (e_fresh v) (e_db v) x.
Definition seat_drawn (v : seat) : seat := mkSeat (e_peer v) (S (e_fresh v)) (e_db v) (e_last v).

Section seat.
Context (pid : nat) (addr : pystr) (now : Z).

(** The user finds the session under the address. *)
Definition sits (x : seat) (s : Service) : Prop :=
  v_peers s !! pid = Some (e_peer x) /\ v_fresh s = e_fresh x /\ v_db s = e_db x /\ last (v_notices s) = e_last x
  /\ v_now s = now /\ aget addr (v_sessions s) = Some pid.

#[export] Instance seat_view : PeerView pid now sits.
Proof.
  refine {| pv_peer := e_peer; pv_at := seat_peer; pv_fresh := e_fresh; pv_drawn := seat_drawn |};
    [intros []|intros ?? []|intros ? []|intros []|intros ? []|intros x s (Hp & Hn & Hd & Hl & Ht & Ha)
    |intros x s l p (Hp & Hn & Hd & Hl & Ht & Ha) Hq; destruct s|intros x s (Hp & Hn & Hd & Hl & Ht & Ha); destruct s]; done.
Defined.

Notation runs := (Prelude.runs sits).

Lemma sit_notify n x : runs (notify n) x (Ok tt) (seat_last (Some n) x).
Proof.
  apply runs_modify. intros s (Hp & Hn & Hd & Hl & Ht & Ha). destruct s. split_and!; try done. apply last_snoc.
Qed.
Lemma sit_set_db d x : runs (modify (set_db d)) x (Ok tt) (seat_db d x).
Proof. apply runs_modify. intros s (Hp & Hn & Hd & Hl & Ht & Ha). by destruct s. Qed.
Lemma sit_get {A} (k : Service -> M Service A) x r y :
  (forall s, v_db s = e_db x -> v_now s = now -> aget addr (v_sessions s) = Some pid -> runs (k s) x r y) -> runs (get ≫= k) x r y.
Proof. intros H. apply runs_get. intros s (_ & _ & Hd & _ & Ht & Ha). by apply H. Qed.
Lemma sit_notify_change x :
  p_addr (e_peer x) = addr ->
  runs (notify_session_change pid) x (Ok tt) (seat_last (Some (NSession addr (s_state (p_session (e_peer x))))) x).
Proof. intros <-. unfold notify_session_change. apply (pv_peer_runs (PV := seat_view)). apply sit_notify. Qed.
End seat.

(** ** Places

    What a device knows of the other one: its key, id and name. *)
Record other := { o_key : pystr; o_id : pystr; o_name : pystr }.
Definition presentable (o : other) : Prop :=
  (forallb is_scalar (o_key o) = true /\ forallb is_scalar (o_id o) = true /\ forallb is_scalar (o_name o) = true)
  /\ o_id o <> [] /\ o_name o <> [].
(** The database finds the other device by its key. *)
Definition trusts_other (o : other) (d : db) : Prop :=
  exists dev, get_device_by_public_key (o_key o) d = Ok (Some dev) /\ d_device_id dev = o_id o /\ d_device_name dev = o_name o.

(** One side of an enrolment: where its session is, and the other device. *)
Record place := { pl_pid : nat; pl_addr : pystr; pl_now : Z; pl_other : other }.
Record sound_place (p : place) : Prop := { sp_clock : 0 <= pl_now p < 2 ^ 63; sp_other : presentable (pl_other p) }.
Definition at_place (p : place) : seat -> Service -> Prop := sits (pl_pid p) (pl_addr p) (pl_now p).

(** ** One side *)

Section enrolment.
Context `{HC : Crypto} {HL : CryptoLaws} `{HR : PyRepr} `{HH : Host} {HHL : HostLaws}.
Context (p : place).
Hypothesis Hp : sound_place p.
Notation pid := (pl_pid p).
Notation addr := (pl_addr p).
Notation now := (pl_now p).
Notation key := (o_key (pl_other p)).
Notation id := (o_id (pl_other p)).
Notation name := (o_name (pl_other p)).

Notation runs := (Prelude.runs (at_place p)).

(** The session is in the state [st] with these keys, counters and database. *)
Record stands (x : seat) (st : SessionState) (ks kr : bytes) (cs cr : Z) (d : db) : Prop := {
  st_state : s_state (p_session (e_peer x)) = st;
  st_linked : linked (e_peer x) ks kr cs cr;
  st_addr : p_addr (e_peer x) = addr;
  st_other : p_static_b64 (e_peer x) = Some key /\ p_device_id (e_peer x) = JStr id /\ p_device_name (e_peer x) = JStr name;
  st_db : e_db x = d
}.

Lemma stands_last x n st ks kr cs cr d : stands x st ks kr cs cr d -> stands (seat_last n x) st ks kr cs cr d.
Proof. by intros []. Qed.
Lemma stands_drawn x st ks kr cs cr d : stands x st ks kr cs cr d -> stands (seat_drawn x) st ks kr cs cr d.
Proof. by intros []. Qed.
Lemma stands_db x d' st ks kr cs cr d : stands x st ks kr cs cr d -> stands (seat_db d' x) st ks kr cs cr d'.
Proof. by intros []. Qed.
Lemma stands_sent x f st ks kr cs cr d :
  stands x st ks kr cs cr d -> stands (seat_peer (p_sent f (e_peer x)) x) st ks kr (cs + 1) cr d.
Proof. intros []. split; try done. by apply linked_sent. Qed.
Lemma stands_able x st ks kr cs cr d caps :
  stands x st ks kr cs cr d -> stands (seat_peer (p_set_session (with_capabilities caps (p_session (e_peer x))) (e_peer x)) x) st ks kr cs cr d.
Proof. by intros [? []]. Qed.

(** The steps of an enrolment: a change of state, a letter, the new entry. *)
Lemma sit_transition x st st' ks kr cs cr d :
  stands x st ks kr cs cr d -> st' ∈ valid_next st ->
  exists y, runs (on_session pid (session_transition st')) x (Ok tt) y /\ stands y st' ks kr cs cr d
  /\ e_last y = e_last x /\ p_out (e_peer y) = p_out (e_peer x).
Proof.
  intros [Hst Hl Ha Ho Hd] Hn. eexists. split; [|split; [|split]].
  - apply (pv_on_session (PV := seat_view pid addr now)). unfold session_transition, mbind, M_bind, get. cbn [pv_peer seat_view].
    rewrite Hst, bool_decide_eq_true_2 by done. reflexivity.
  - by destruct Hl.
  - done.
  - done.
Qed.
Lemma sit_send x st ks kr cs cr d mt payload :
  stands x st ks kr cs cr d -> st ∉ cannot_send -> 0 <= cs < 2 ^ 64 -> short payload ->
  exists f y, letter ks cs mt payload f /\ runs (send_encrypted pid mt payload) x (Ok tt) y /\ stands y st ks kr (cs + 1) cr d
  /\ e_last y = e_last x /\ p_out (e_peer y) = p_out (e_peer x) ++ [f].
Proof.
  intros Hx Hn Hc Hs. pose proof Hx as [Hst Hl _ _ _].
  destruct (pv_send (PV := seat_view pid addr now) x ks kr cs cr mt payload Hl) as (f & Hf & H); try done; [cbn; by rewrite Hst|by apply sp_clock|].
  exists f. eexists. split; [done|]. split; [exact H|]. split; [by apply (stands_sent (seat_drawn x)), stands_drawn|done].
Qed.
Lemma sit_trust x st ks kr cs cr d :
  stands x st ks kr cs cr d -> get_device_by_public_key key d = Ok None ->
  exists y d', runs (persist_trust pid) x (Ok tt) y /\ stands y st ks kr cs cr d' /\ trusts_other (pl_other p) d'
  /\ e_last y = e_last x /\ p_out (e_peer y) = p_out (e_peer x).
Proof.
  intros Hx Hd. pose proof Hx as [_ _ _ (Ho1 & Ho2 & Ho3) Hdb]. destruct Hp as [clock [(T1 & T2 & T3) [N1 N2]]].
  destruct (add_new_key {| d_device_id := id; d_device_name := name; d_public_key := key; d_identity_public_key_b64 := key;
    d_paired_at := now; d_last_seen := now |} d) as (d' & dev & Hadd & Hget & Hi & Hn); try done.
  exists (seat_db d' x), d'. split; [|split; [by eapply stands_db|split; [by exists dev|done]]].
  unfold persist_trust. apply (pv_peer_runs (PV := seat_view pid addr now)). cbn [pv_peer seat_view]. rewrite Ho1, Ho2, Ho3.
  apply sit_get. intros s Hs -> _. rewrite Hs, Hdb.
  assert (py_bool (JStr id) = true) as -> by (by destruct id). assert (py_bool (JStr name) = true) as -> by (by destruct name).
  eapply runs_bind; [apply runs_lift|]. eapply runs_bind; [apply runs_lift|]. rewrite Hadd. eapply runs_bind; [apply runs_lift|].
  apply sit_set_db.
Qed.

(** Both decisions are in: the peer is stored and the session established. *)
Lemma sit_settle x st ks kr cs cr d :
  stands x st ks kr cs cr d -> PAIR_ACCEPTED ∈ valid_next st -> get_device_by_public_key key d = Ok None ->
  exists y1 y2 y d', runs (on_session pid (session_transition PAIR_ACCEPTED)) x (Ok tt) y1 /\ runs (persist_trust pid) y1 (Ok tt) y2
  /\ runs (on_session pid (session_transition ESTABLISHED)) y2 (Ok tt) y
  /\ stands y ESTABLISHED ks kr cs cr d' /\ trusts_other (pl_other p) d' /\ e_last y = e_last x /\ p_out (e_peer y) = p_out (e_peer x).
Proof.
  intros Hx Hn Hd. destruct (sit_transition x st PAIR_ACCEPTED ks kr cs cr d Hx Hn) as (y1 & R1 & S1 & L1 & O1).
  destruct (sit_trust y1 _ ks kr cs cr d S1 Hd) as (y2 & d' & R2 & S2 & T & L2 & O2).
  destruct (sit_transition y2 _ ESTABLISHED ks kr cs cr d' S2) as (y3 & R3 & S3 & L3 & O3);
    [by apply (bool_decide_unpack _)|].
  exists y1, y2, y3, d'. split_and!; congruence || done.
Qed.

(** ** The moves *)

Definition ACCEPTED : jdict := mkdict [("decision", JStr (u "ACCEPT"))]%string.
Lemma short_moves : short ACCEPTED /\ short CAPS.
Proof. split; split; by (vm_compute || apply (bool_decide_unpack _); vm_compute). Qed.

(** The user accepts; the peer's decision has not come. *)
Lemma accepts_first x ks kr cs cr d :
  stands x PAIRING ks kr cs cr d -> 0 <= cs < 2 ^ 64 ->
  exists f y, letter ks cs PAIR_DECISION ACCEPTED f /\ runs (accept_pairing addr) x (Ok tt) y
  /\ stands y WAITING_FOR_REMOTE_DECISION ks kr (cs + 1) cr d /\ p_out (e_peer y) = p_out (e_peer x) ++ [f].
Proof.
  intros Hx Hc. destruct (sit_transition x _ WAITING_FOR_REMOTE_DECISION _ _ _ _ _ Hx) as (y1 & R1 & S1 & L1 & O1);
    [by apply (bool_decide_unpack _)|].
  destruct (sit_send (seat_last (Some (NSession addr WAITING_FOR_REMOTE_DECISION)) y1) _ ks kr cs cr d PAIR_DECISION ACCEPTED
    (stands_last _ _ _ _ _ _ _ _ S1)) as (f & y & Hf & R & S & L & O); [by apply (bool_decide_unpack _)|done|apply short_moves|].
  exists f, y. split; [done|]. split; [|split; [done|by rewrite O; cbn; rewrite O1]].
  unfold accept_pairing. apply sit_get. intros s _ _ ->. apply (pv_peer_runs (PV := seat_view pid addr now)).
  cbn [pv_peer seat_view]. rewrite (st_state _ _ _ _ _ _ _ Hx). eapply runs_bind; [exact R1|].
  eapply runs_bind; [apply sit_notify_change, (st_addr _ _ _ _ _ _ _ S1)|]. rewrite (st_state _ _ _ _ _ _ _ S1). exact R.
Qed.
(** The user accepts after the peer. *)
Lemma accepts_last x ks kr cs cr d :
  stands x WAITING_FOR_LOCAL_DECISION ks kr cs cr d -> 0 <= cs < 2 ^ 64 -> get_device_by_public_key key d = Ok None ->
  exists f y d', letter ks cs PAIR_DECISION ACCEPTED f /\ runs (accept_pairing addr) x (Ok tt) y
  /\ stands y ESTABLISHED ks kr (cs + 1) cr d' /\ trusts_other (pl_other p) d' /\ e_last y = Some (NSession addr ESTABLISHED)
  /\ p_out (e_peer y) = p_out (e_peer x) ++ [f].
Proof.
  intros Hx Hc Hd. destruct (sit_settle x _ ks kr cs cr d Hx) as (y1 & y2 & y3 & d' & R1 & R2 & R3 & S3 & T & L3 & O3);
    [by apply (bool_decide_unpack _)|done|].
  destruct (sit_send (seat_last (Some (NSession addr ESTABLISHED)) y3) _ ks kr cs cr d' PAIR_DECISION ACCEPTED
    (stands_last _ _ _ _ _ _ _ _ S3)) as (f & y & Hf & R & S & L & O); [by apply (bool_decide_unpack _)|done|apply short_moves|].
  exists f, y, d'. split; [done|]. split; [|split; [done|split; [done|split; [by rewrite L|by rewrite O; cbn; rewrite O3]]]].
  unfold accept_pairing. apply sit_get. intros s _ _ ->. apply (pv_peer_runs (PV := seat_view pid addr now)).
  cbn [pv_peer seat_view]. rewrite (st_state _ _ _ _ _ _ _ Hx).
  eapply runs_bind; [eapply runs_bind; [exact R1|eapply runs_bind; [exact R2|exact R3]]|].
  eapply runs_bind; [apply sit_notify_change, (st_addr _ _ _ _ _ _ _ S3)|]. rewrite (st_state _ _ _ _ _ _ _ S3). exact R.
Qed.

(** A message arrives: its decision runs on [heard]. *)
Definition heard (x : seat) : seat := seat_drawn (seat_peer (p_heard (e_peer x)) x).
Lemma stands_heard x st ks kr cs cr d : stands x st ks kr cs cr d -> stands (heard x) st ks kr cs (cr + 1) d.
Proof. intros []. split; try done. by apply linked_heard. Qed.
Lemma sit_hear x st ks kr cs cr d mt payload f m y :
  stands x st ks kr cs cr d -> 0 <= cr < 2 ^ 64 -> letter kr cr mt payload f ->
  (forall e, e_payload e = JObj payload -> dispatch (pid := pid) mt e = m) ->
  runs m (heard x) (Ok true) y -> runs (session_frame pid f) x (Ok tt) y.
Proof.
  intros [_ Hl _ _ _] Hc Hf Hm H. eapply (pv_hear (PV := seat_view pid addr now)); [exact Hl|done..|].
  intros e _ He. by rewrite (Hm e He).
Qed.

(** The decision in the message. *)
Ltac accepted_dict :=
  apply runs_lift_bind; cbv zeta; change (eq_str (dget_or ACCEPTED "decision" JNull) (u "REJECT")) with false;
  change (eq_str (dget_or ACCEPTED "decision" JNull) (u "ACCEPT")) with true; cbv iota.

(** The peer accepts first ... *)
Lemma hears_first x ks kr cs cr d f :
  stands x PAIRING ks kr cs cr d -> 0 <= cr < 2 ^ 64 -> letter kr cr PAIR_DECISION ACCEPTED f ->
  exists y, runs (session_frame pid f) x (Ok tt) y /\ stands y WAITING_FOR_LOCAL_DECISION ks kr cs (cr + 1) d
  /\ p_out (e_peer y) = p_out (e_peer x).
Proof.
  intros Hx Hc Hf. pose proof (stands_heard _ _ _ _ _ _ _ Hx) as Hh.
  destruct (sit_transition (heard x) _ WAITING_FOR_LOCAL_DECISION _ _ _ _ _ Hh) as (y1 & R1 & S1 & L1 & O1);
    [by apply (bool_decide_unpack _)|].
  exists (seat_last (Some (NSession addr WAITING_FOR_LOCAL_DECISION)) y1). split; [|split; [by apply stands_last|done]].
  eapply sit_hear; [done..|intros e He; cbn [dispatch]; by rewrite He|]. accepted_dict.
  eapply runs_bind; [|apply runs_ret]. apply (pv_peer_runs (PV := seat_view pid addr now)). cbn [pv_peer seat_view].
  rewrite (st_state _ _ _ _ _ _ _ Hh). eapply runs_bind; [exact R1|]. eapply runs_eq; [apply sit_notify_change, (st_addr _ _ _ _ _ _ _ S1)|].
  by rewrite (st_state _ _ _ _ _ _ _ S1).
Qed.
(** ... or last: this side tells it what it can do. *)
Lemma hears_last x ks kr cs cr d f :
  stands x WAITING_FOR_REMOTE_DECISION ks kr cs cr d -> 0 <= cs < 2 ^ 64 -> 0 <= cr < 2 ^ 64 ->
  letter kr cr PAIR_DECISION ACCEPTED f -> get_device_by_public_key key d = Ok None ->
  exists g y d', letter ks cs CAPABILITIES CAPS g /\ runs (session_frame pid f) x (Ok tt) y
  /\ stands y ESTABLISHED ks kr (cs + 1) (cr + 1) d' /\ trusts_other (pl_other p) d' /\ e_last y = Some (NSession addr ESTABLISHED)
  /\ p_out (e_peer y) = p_out (e_peer x) ++ [g].
Proof.
  intros Hx Hcs Hc Hf Hd. pose proof (stands_heard _ _ _ _ _ _ _ Hx) as Hh.
  destruct (sit_settle (heard x) _ ks kr cs (cr + 1) d Hh) as (y1 & y2 & y3 & d' & R1 & R2 & R3 & S3 & T & L3 & O3);
    [by apply (bool_decide_unpack _)|done|].
  destruct (sit_send y3 _ ks kr cs (cr + 1) d' CAPABILITIES CAPS S3) as (g & y & Hg & R & S & L & O);
    [by apply (bool_decide_unpack _)|done|apply short_moves|].
  exists g, (seat_last (Some (NSession addr ESTABLISHED)) y), d'. split; [done|].
  split; [|split; [by apply stands_last|split; [done|split; [done|by cbn; rewrite O, O3]]]].
  eapply sit_hear; [done..|intros e He; cbn [dispatch]; by rewrite He|]. accepted_dict.
  eapply runs_bind; [|apply runs_ret]. apply (pv_peer_runs (PV := seat_view pid addr now)). cbn [pv_peer seat_view].
  rewrite (st_state _ _ _ _ _ _ _ Hh). eapply runs_bind.
  { eapply runs_bind; [exact R1|]. eapply runs_bind; [exact R2|]. eapply runs_bind; [exact R3|]. eapply runs_swallow, R. }
  eapply runs_eq; [apply sit_notify_change, (st_addr _ _ _ _ _ _ _ S)|]. by rewrite (st_state _ _ _ _ _ _ _ S).
Qed.
(** What the peer can do; or its decision, when the session is established. *)
Lemma hears_capabilities x ks kr cs cr d f :
  stands x ESTABLISHED ks kr cs cr d -> 0 <= cr < 2 ^ 64 -> letter kr cr CAPABILITIES CAPS f ->
  exists y, runs (session_frame pid f) x (Ok tt) y /\ stands y ESTABLISHED ks kr cs (cr + 1) d /\ e_last y = e_last x
  /\ p_out (e_peer y) = p_out (e_peer x).
Proof.
  intros Hx Hc Hf. pose proof (stands_heard _ _ _ _ _ _ _ Hx) as Hh. eexists. split; [|split; [by apply stands_able, Hh|done]].
  eapply sit_hear; [done..|intros e He; cbn [dispatch]; by rewrite He|]. apply runs_lift_bind. cbn [as_dict].
  change (py_list (dget_or CAPS "capabilities" (JArr []))) with (Ok [JStr (u "notify.v1")] : res (list json)).
  apply runs_lift_bind. eapply runs_bind; [|apply runs_ret]. by apply (pv_on_session (PV := seat_view pid addr now)).
Qed.
End enrolment.

(** ** Both sides, in whatever order the users accept *)

Section orders.
Context `{HC : Crypto} {HL : CryptoLaws} `{HR : PyRepr} `{HH : Host} {HHL : HostLaws}.

(** The side is done. *)
Definition done_at (p : place) (x : seat) (ks kr : bytes) (cs cr : Z) : Prop :=
  exists d, stands p x ESTABLISHED ks kr cs cr d /\ trusts_other (pl_other p) d /\ e_last x = Some (NSession (pl_addr p) ESTABLISHED).

(** The services of both sides after the frames of one went to the other. *)
Definition in_turn (p q : place) (Q : Service -> Service -> Prop) (sa sb : Service) : Prop :=
  exists sa1 sb1 sb2 sa2 sb3,
    accept_pairing (pl_addr p) sa = (Ok tt, sa1)
  /\ hears (pl_pid q) (news (pl_pid p) sa sa1) sb = (Ok tt, sb1)
  /\ accept_pairing (pl_addr q) sb1 = (Ok tt, sb2)
  /\ hears (pl_pid p) (news (pl_pid q) sb1 sb2) sa1 = (Ok tt, sa2)
  /\ hears (pl_pid q) (news (pl_pid p) sa1 sa2) sb2 = (Ok tt, sb3)
  /\ Q sa2 sb3.
Definition crossed (p q : place) (Q : Service -> Service -> Prop) (sa sb : Service) : Prop :=
  exists sa1 sb1 sa2 sb2 sa3 sb3,
    accept_pairing (pl_addr p) sa = (Ok tt, sa1) /\ accept_pairing (pl_addr q) sb = (Ok tt, sb1)
  /\ hears (pl_pid p) (news (pl_pid q) sb sb1) sa1 = (Ok tt, sa2)
  /\ hears (pl_pid q) (news (pl_pid p) sa sa1) sb1 = (Ok tt, sb2)
  /\ hears (pl_pid p) (news (pl_pid q) sb1 sb2) sa2 = (Ok tt, sa3)
  /\ hears (pl_pid q) (news (pl_pid p) sa1 sa2) sb2 = (Ok tt, sb3)
  /\ Q sa3 sb3.

Lemma in_turn_mono p q (P Q : Service -> Service -> Prop) sa sb :
  (forall s s', P s s' -> Q s s') -> in_turn p q P sa sb -> in_turn p q Q sa sb.
Proof. intros H (s1 & s2 & s3 & s4 & s5 & ? & ? & ? & ? & ? & ?). exists s1, s2, s3, s4, s5. by split_and!; auto. Qed.
Lemma crossed_mono p q (P Q : Service -> Service -> Prop) sa sb :
  (forall s s', P s s' -> Q s s') -> crossed p q P sa sb -> crossed p q Q sa sb.
Proof. intros H (s1 & s2 & s3 & s4 & s5 & s6 & ? & ? & ? & ? & ? & ? & ?). exists s1, s2, s3, s4, s5, s6. by split_and!; auto. Qed.

Lemma at_news p x y s s' f :
  at_place p x s -> at_place p y s' -> p_out (e_peer y) = p_out (e_peer x) ++ [f] -> news (pl_pid p) s s' = [f].
Proof. intros Hx Hy H. exact (pv_news (PV := seat_view (pl_pid p) (pl_addr p) (pl_now p)) x s y s' [f] Hx Hy H). Qed.
(** Running one step of one side. *)
Lemma at_run {A} p (m : M Service A) x a y s :
  runs (at_place p) m x (Ok a) y -> at_place p x s -> exists s', m s = (Ok a, s') /\ at_place p y s'.
Proof. apply runs_elim. Qed.
Lemma at_hear p x f y s :
  runs (at_place p) (session_frame (pl_pid p) f) x (Ok tt) y -> at_place p x s ->
  exists s', hears (pl_pid p) [f] s = (Ok tt, s') /\ at_place p y s'.
Proof.
  intros H. apply runs_elim. exact (pv_hears_one f x y H).
Qed.

Context (p q : place) (x y : seat) (sa sb : Service) (ka kb : bytes) (da db_ : db).
Hypothesis Hp : sound_place p.
Hypothesis Hq : sound_place q.
Hypothesis Hx : stands p x PAIRING ka kb 0 0 da.
Hypothesis Hy : stands q y PAIRING kb ka 0 0 db_.
Hypothesis Ha : at_place p x sa.
Hypothesis Hb : at_place q y sb.
Hypothesis new_a : get_device_by_public_key (o_key (pl_other p)) da = Ok None.
Hypothesis new_b : get_device_by_public_key (o_key (pl_other q)) db_ = Ok None.

Definition both_done (ca cb : Z) (s s' : Service) : Prop :=
  exists x' y', at_place p x' s /\ at_place q y' s' /\ done_at p x' ka kb ca cb /\ done_at q y' kb ka cb ca.

Lemma enrolled_in_turn : in_turn p q (both_done 2 1) sa sb.
Proof.
  destruct (accepts_first p Hp _ _ _ _ _ _ Hx) as (f & x1 & Lf & R1 & X1 & O1); [lia|].
  destruct (at_run p _ _ _ _ _ R1 Ha) as (sa1 & E1 & A1).
  destruct (hears_first q _ _ _ _ _ _ f Hy) as (y1 & R2 & Y1 & O2); [lia|done|].
  destruct (at_hear q _ _ _ _ R2 Hb) as (sb1 & E2 & B1).
  destruct (accepts_last q Hq _ _ _ _ _ _ Y1) as (g & y2 & d2 & Lg & R3 & Y2 & T2 & N2 & O3); [lia|done|].
  destruct (at_run q _ _ _ _ _ R3 B1) as (sb2 & E3 & B2).
  destruct (hears_last p Hp _ _ _ _ _ _ g X1) as (h & x2 & d1 & Lh & R4 & X2 & T1 & N1 & O4); [lia|lia|done|done|].
  destruct (at_hear p _ _ _ _ R4 A1) as (sa2 & E4 & A2).
  destruct (hears_capabilities q _ _ _ _ _ _ h Y2) as (y3 & R5 & Y3 & L5 & O5); [lia|done|].
  destruct (at_hear q _ _ _ _ R5 B2) as (sb3 & E5 & B3).
  exists sa1, sb1, sb2, sa2, sb3.
  rewrite (at_news _ _ _ _ _ _ Ha A1 O1), (at_news _ _ _ _ _ _ B1 B2 O3), (at_news _ _ _ _ _ _ A1 A2 O4).
  do 5 (split; [done|]). exists x2, y3. split; [done|]. split; [done|].
  split; [by exists d1|exists d2; split; [done|split; [done|by rewrite L5]]].
Qed.

Lemma enrolled_crossed : crossed p q (both_done 2 2) sa sb.
Proof.
  destruct (accepts_first p Hp _ _ _ _ _ _ Hx) as (f & x1 & Lf & R1 & X1 & O1); [lia|].
  destruct (at_run p _ _ _ _ _ R1 Ha) as (sa1 & E1 & A1).
  destruct (accepts_first q Hq _ _ _ _ _ _ Hy) as (g & y1 & Lg & R2 & Y1 & O2); [lia|].
  destruct (at_run q _ _ _ _ _ R2 Hb) as (sb1 & E2 & B1).
  destruct (hears_last p Hp _ _ _ _ _ _ g X1) as (h & x2 & d1 & Lh & R3 & X2 & T1 & N1 & O3); [lia|lia|done|done|].
  destruct (at_hear p _ _ _ _ R3 A1) as (sa2 & E3 & A2).
  destruct (hears_last q Hq _ _ _ _ _ _ f Y1) as (k & y2 & d2 & Lk & R4 & Y2 & T2 & N2 & O4); [lia|lia|done|done|].
  destruct (at_hear q _ _ _ _ R4 B1) as (sb2 & E4 & B2).
  destruct (hears_capabilities p _ _ _ _ _ _ k X2) as (x3 & R5 & X3 & L5 & O5); [lia|done|].
  destruct (at_hear p _ _ _ _ R5 A2) as (sa3 & E5 & A3).
  destruct (hears_capabilities q _ _ _ _ _ _ h Y2) as (y3 & R6 & Y3 & L6 & O6); [lia|done|].
  destruct (at_hear q _ _ _ _ R6 B2) as (sb3 & E6 & B3).
  exists sa1, sb1, sa2, sb2, sa3, sb3.
  rewrite (at_news _ _ _ _ _ _ Ha A1 O1), (at_news _ _ _ _ _ _ Hb B1 O2), (at_news _ _ _ _ _ _ B1 B2 O4), (at_news _ _ _ _ _ _ A1 A2 O3).
  do 6 (split; [done|]). exists x3, y3. split; [done|]. split; [done|].
  split; [exists d1|exists d2]; (split; [done|split; [done|congruence]]).
Qed.
End orders.

(** ** The services *)

Section services.
Context `{HC : Crypto} {HL : CryptoLaws} `{HR : PyRepr} `{HH : Host} {HHL : HostLaws} `{HE : Ed25519} {HEL : Ed25519Laws}.

(** The device, as the other side knows it, and where that is. *)
Definition as_other (o : party) : other := {| o_key := y_key o; o_id := y_id o; o_name := y_name o |}.
Definition place_of (pid : nat) (s : Service) (o : party) : place :=
  {| pl_pid := pid; pl_addr := p_addr (peer_at pid s); pl_now := v_now s; pl_other := as_other o |}.

Lemma fits_presentable o : fits o -> y_id o <> [] -> y_name o <> [] -> presentable (as_other o).
Proof. intros [[T1 T2] _ _ _] N1 N2. split; [|done]. split; [by apply scalar_ascii, b64url_ascii|done]. Qed.

(** The user finds the session, the database knows the other device, and the
    last thing the user was told is that the session is established. *)
Definition enrolled_with (o : party) (p : place) (s : Service) : Prop :=
  aget (pl_addr p) (v_sessions s) = Some (pl_pid p)
  /\ (exists dev, get_device_by_public_key (y_key o) (v_db s) = Ok (Some dev) /\ d_device_id dev = y_id o /\ d_device_name dev = y_name o)
  /\ last (v_notices s) = Some (NSession (pl_addr p) ESTABLISHED).

Lemma done_enrolled o p x s ks kr cs cr :
  pl_other p = as_other o -> at_place p x s -> done_at p x ks kr cs cr -> enrolled_with o p s.
Proof.
  intros Eo (_ & _ & Hd & Hl & _ & Ha) (d & Hx & Ht & Hn). rewrite Eo in Ht. split; [done|]. split; [|congruence].
  destruct Hx as [_ _ _ _ Hdb]. by rewrite Hd, Hdb.
Qed.
Lemma done_ready p x s ks kr cs cr :
  at_place p x s -> done_at p x ks kr cs cr ->
  (pl_pid p < length (v_peers s))%nat /\ ready (peer_at (pl_pid p) s) ks kr cs cr /\ v_now s = pl_now p.
Proof.
  intros (Hp & _ & _ & _ & Hn & _) (d & [Hst Hl _ _ _] & _). split; [by eapply lookup_lt_Some|]. split; [|done].
  unfold peer_at. rewrite Hp. by apply ready_linked.
Qed.
Lemma done_connected p q x y sa sb ka kb ca cb :
  sound_place p -> sound_place q -> at_place p x sa -> at_place q y sb ->
  done_at p x ka kb ca cb -> done_at q y kb ka cb ca -> 0 <= ca <= 2 ^ 64 - 2 ^ 33 -> 0 <= cb <= 2 ^ 64 - 2 ^ 33 ->
  connected (pl_pid p) (pl_pid q) sa sb.
Proof.
  intros [Cp _] [Cq _] Ha Hb Da Db Ra Rb. destruct (done_ready _ _ _ _ _ _ _ Ha Da) as (L1 & R1 & N1).
  destruct (done_ready _ _ _ _ _ _ _ Hb Db) as (L2 & R2 & N2). split; [done| |by rewrite N1, N2]. by exists ka, kb, ca, cb.
Qed.

(** The handshake leaves both sides waiting for their users. *)
Lemma met_placed i y o shared pid s s' n :
  newcomer i y o pid s ->
  holds pid (v_db s) (v_now s) (Some (p_addr (peer_at pid s))) (n, met i y o shared pid s) s' ->
  let p := place_of pid s o in let k := keys i y o shared in
  exists x, at_place p x s' /\ stands p x PAIRING (send_key k) (recv_key k) 0 0 (v_db s)
  /\ get_device_by_public_key (o_key (pl_other p)) (v_db s) = Ok None.
Proof.
  intros Hn (Hp & Hf & Hd & Ht & Ha) p k. exists (mkSeat (met i y o shared pid s) n (v_db s) (last (v_notices s'))).
  split; [split_and!; try done; by apply Ha|]. split; [|apply Hn]. by split; [..|split_and!|].
Qed.

(** C4. Strangers become a connected pair: after the handshake of two devices that
    did not know each other, the two users accept -- one after the other, in
    either order, or both before the other's decision has arrived -- and the two
    services exchange what they wrote, without an exception; at the end the
    session is established at both ends and connects them (files can be sent),
    each finds the other in its session table and, by key, in its database under
    the id and name it announced, and both users have been told. *)
Theorem strangers_become_connected a b pa pb sa sb shared :
  newcomer true a b pa sa -> newcomer false b a pb sb ->
  x_exchange (y_fresh a) (x_public (y_fresh b)) = Ok shared ->
  y_id a <> [] /\ y_name a <> [] -> y_id b <> [] /\ y_name b <> [] ->
  let a1 := written pa (attempt true a pa [] sa) in
  let b1 := written pb (attempt false b pb a1 sb) in
  let a2 := written pa (attempt true a pa b1 sa) in
  let b2 := written pb (attempt false b pb a2 sb) in
  let p := place_of pa sa b in let q := place_of pb sb a in
  let pair s s' := connected pa pb s s' /\ enrolled_with b p s /\ enrolled_with a q s' in
  exists sa' sb', attempt true a pa b2 sa = (Ok true, sa') /\ attempt false b pb a2 sb = (Ok true, sb')
  /\ in_turn p q pair sa' sb' /\ in_turn q p (fun s' s => pair s s') sb' sa' /\ crossed p q pair sa' sb'.
Proof.
  intros Na Nb Hx [Ia1 Ia2] [Ib1 Ib2] a1 b1 a2 b2 p q pair.
  destruct (meeting a b pa pb sa sb shared Na Nb Hx) as (_ & _ & sa' & sb' & Ra & Rb & Ha & Hb).
  exists sa', sb'. split; [exact Ra|]. split; [exact Rb|].
  destruct (met_placed true a b shared pa sa sa' _ Na Ha) as (x & Ax & Sx & Ux).
  destruct (met_placed false b a shared pb sb sb' _ Nb Hb) as (y & By & Sy & Uy). fold p in Ax, Sx, Ux. fold q in By, Sy, Uy.
  assert (sound_place p) as Hp by (split; [apply Na|by apply fits_presentable; [apply Nb|..]]).
  assert (sound_place q) as Hq by (split; [apply Nb|by apply fits_presentable; [apply Na|..]]).
  set (ka := send_key (keys true a b shared)) in *. set (kb := recv_key (keys true a b shared)) in *.
  change (send_key (keys false b a shared)) with kb in Sy. change (recv_key (keys false b a shared)) with ka in Sy.
  assert (forall ca cb s s', 0 <= ca <= 2 -> 0 <= cb <= 2 -> both_done p q ka kb ca cb s s' -> pair s s') as Hpair.
  { intros ca cb s s' Hca Hcb (x' & y' & A' & B' & D & D'). split; [|split; by eapply done_enrolled].
    eapply (done_connected p q); try done; lia. }
  split; [|split].
  - eapply in_turn_mono; [|by apply (enrolled_in_turn p q x y sa' sb' ka kb _ _ Hp Hq Sx Sy Ax By)]. intros s s'. by apply Hpair.
  - eapply in_turn_mono; [|by apply (enrolled_in_turn q p y x sb' sa' kb ka _ _ Hq Hp Sy Sx By Ax)].
    intros s' s (y' & x' & B' & A' & D' & D). apply (Hpair 1 2); [lia|lia|]. by exists x', y'.
  - eapply crossed_mono; [|by apply (enrolled_crossed p q x y sa' sb' ka kb _ _ Hp Hq Sx Sy Ax By)]. intros s s'. by apply Hpair.
Qed.
End services.
