(* ===== verification/Ipc.v ===== *)
(** * The local interface: [core/ipc.py]

    Frames between the daemon and its user interfaces, the connected clients,
    the events pushed to them, and the commands they send.  The server is proved
    against what it uses of the service, the class [UiService]. *)
From S2P Require Import Prelude PyStr Sha256 Json Protocol Wire Payloads Transfer Fs Incoming Outgoing Session Bridge Config Db.
From S2P Require Import Identity Discovery Peers Service Sending Handshake.

(** ** Frames *)

Definition IPC_MAGIC : bytes := map z2b (u "FY").
Definition IPC_MAX_FRAME : Z := 8 * 1024 * 1024.

Section frames.
Context `{HR : PyRepr}.
Definition encode_ipc_frame (now : Z) (msg_type : json) (payload : json) : res bytes :=
  text ← json_dumps_compact (JObj (mkdict [("type", msg_type); ("ts", JInt now); ("payload", payload)]%string));
  body ← utf8_encode text;
  len ← pack_I (zlen body);
  Ok (IPC_MAGIC ++ len ++ body).
End frames.

(** A message, with the rest of the stream; [None] ends the connection. *)
Definition read_ipc_frame (stream : bytes) : res (option (json * bytes)) :=
  match readexactly 6 stream with
  | Err _ => Ok None
  | Ok (header, stream) =>
      if negb (bool_decide (slice 0 2 header = IPC_MAGIC)) then Ok None
      else
        let length := be_val (slice 2 6 header) in
        if length >? IPC_MAX_FRAME then Ok None
        else
          match readexactly length stream with
          | Err _ => Ok None
          | Ok (body, stream) =>
              text ← utf8_decode body;
              match json_loads text with
              | Ok msg => Ok (Some (msg, stream))
              | Err JSONDecodeError => Ok None
              | Err e => Err e
              end
          end
  end.

(** ** Names *)

Definition session_state_name (s : SessionState) : string :=
  match s with
  | DISCONNECTED => "DISCONNECTED" | CONNECTING => "CONNECTING" | HANDSHAKING => "HANDSHAKING" | PAIRING => "PAIRING"
  | WAITING_FOR_LOCAL_DECISION => "WAITING_FOR_LOCAL_DECISION" | WAITING_FOR_REMOTE_DECISION => "WAITING_FOR_REMOTE_DECISION"
  | PAIR_ACCEPTED => "PAIR_ACCEPTED" | AUTHENTICATING => "AUTHENTICATING" | ESTABLISHED => "ESTABLISHED"
  | CLOSING => "CLOSING" | SFAILED => "FAILED"
  end%string.
Definition transfer_state_name (s : TransferState) : string :=
  match s with
  | IDLE => "IDLE" | REQUESTED => "REQUESTED" | ACCEPTED => "ACCEPTED" | TRANSFERRING => "TRANSFERRING"
  | CANCELLING => "CANCELLING" | COMPLETED => "COMPLETED" | FAILED => "FAILED" | CANCELLED => "CANCELLED"
  | INTERRUPTED => "INTERRUPTED" | RESUME_REQUESTED => "RESUME_REQUESTED" | RESUMING => "RESUMING"
  end%string.

(** [payload[key]] and [payload.get(key, default)] of any JSON value. *)
Definition item (payload : json) (key : string) : res json :=
  match payload with JObj d => dindex d key | _ => Err TypeError end.
Definition item_or (payload : json) (key : string) (default : json) : res json :=
  d ← as_dict payload; Ok (dget_or d key default).

(** ** Clients *)

(** One connected client: what was written to it, whether it is marked closed,
    whether its transport was closed here or broke. *)
Record IPCClient := { ic_out : list bytes; ic_closed : bool; ic_shut : bool; ic_lost : bool }.
Definition new_client : IPCClient := {| ic_out := []; ic_closed := false; ic_shut := false; ic_lost := false |}.
Definition ic_close (c : IPCClient) : IPCClient :=
  {| ic_out := ic_out c; ic_closed := true; ic_shut := true; ic_lost := ic_lost c |}.
(** [_IPCClient.send] of a frame, or of a message that has none. *)
Definition ic_send (frame : res bytes) (c : IPCClient) : IPCClient :=
  if ic_closed c then c
  else match frame with
       | Err _ => {| ic_out := ic_out c; ic_closed := true; ic_shut := ic_shut c; ic_lost := ic_lost c |}
       | Ok f => {| ic_out := if ic_shut c || ic_lost c then ic_out c else ic_out c ++ [f]; ic_closed := ic_lost c;
                    ic_shut := ic_shut c; ic_lost := ic_lost c |}
       end.

(** ** What the server uses of the service *)

(** A coroutine that was scheduled and not awaited. *)
Inductive job :=
  | JBroadcast (msg_type : string) (payload : json)
  | JSendFile (remote_addr : json) (file_path : path)
  | JSendBatch (remote_addr : json) (paths : list path) (batch_name : json)
  | JConnect (device : DiscoveredDevice)
  | JResume (remote_addr transfer_id : json)
  | JClipboard (pid : nat) (payload : jdict).

(** The service as the server sees it; arguments are values of the wire. *)
Class UiService (S : Type) := {
  svc_accept_transfer (remote_addr transfer_id : json) : M S unit;
  svc_reject_transfer (remote_addr transfer_id : json) : M S unit;
  svc_cancel_transfer (transfer_id reason : json) : M S bool;
  svc_accept_batch (remote_addr batch_id : json) : M S unit;
  svc_reject_batch (remote_addr batch_id : json) : M S unit;
  svc_accept_pairing (remote_addr : json) : M S unit;
  svc_reject_pairing (remote_addr : json) : M S unit;
  svc_discard (transfer_id : json) : M S unit;
  svc_remove_device (public_key : json) : M S unit;
  svc_list_transfers (limit : json) (s : S) : res (list TransferRecord);
  svc_list_devices (s : S) : list TrustedDevice;
  svc_discovered_devices (s : S) : list DiscoveredDevice;
  svc_sessions (s : S) : list (pystr * (nat * PeerSession));
  svc_incoming (s : S) : list (pystr * IncomingTransfer);
  svc_outgoing (s : S) : list (pystr * OutgoingTransfer);
  svc_config (s : S) : FerryConfig;
  svc_public_key (s : S) : pystr;
  svc_now (s : S) : Z
}.

(** What the server takes from its host: a text as a path, the value of a time
    stamp, and the number a value has as an SQL [LIMIT]. *)
Class IpcHost := {
  ih_path : pystr -> path;
  ih_float : Z -> Corelib.Floats.SpecFloat.spec_float;
  ih_sql_limit : json -> res Z
}.

Definition opt_json (z : option Z) : json := match z with Some z => JInt z | None => JNull end.
Definition opt_str (s : option pystr) : json := match s with Some s => JStr s | None => JNull end.

Section events.
Context `{HR : PyRepr} `{HI : IpcHost}.

(** [DiscoveredDevice.to_dict()] *)
Definition device_to_dict (d : DiscoveredDevice) : jdict :=
  mkdict [("device_id", JStr (dd_device_id d)); ("device_name", JStr (dd_device_name d)); ("device_type", JStr (dd_device_type d));
          ("os_name", JStr (dd_os_name d)); ("protocol_version", JInt (dd_protocol_version d));
          ("addresses", JArr (map JStr (dd_addresses d))); ("port", opt_json (dd_port d));
          ("service_name", JStr (dd_service_name d)); ("last_seen", JFloat (ih_float (dd_last_seen d)));
          ("is_available", JBool (dd_is_available d))]%string.
Definition record_to_dict (r : TransferRecord) : jdict :=
  mkdict [("transfer_id", JStr (t_transfer_id r)); ("device_id", JStr (t_device_id r)); ("file_name", JStr (t_file_name r));
          ("file_size", JInt (t_file_size r)); ("direction", JStr (t_direction r)); ("status", JStr (t_status r));
          ("started_at", JInt (t_started_at r)); ("completed_at", opt_json (t_completed_at r)); ("sha256", JStr (t_sha256 r))]%string.
Definition trusted_to_dict (d : TrustedDevice) : jdict :=
  mkdict [("device_id", JStr (d_device_id d)); ("device_name", JStr (d_device_name d));
          ("identity_public_key_b64", JStr (d_identity_public_key_b64 d)); ("last_seen", JInt (d_last_seen d))]%string.
Definition devices_payload (l : list TrustedDevice) : json :=
  JObj (mkdict [("devices", JArr (map (fun d => JObj (trusted_to_dict d)) l))]%string).
End events.

(** ** The server *)

Section server.
Context `{HC : Crypto} `{HR : PyRepr} `{HH : Host} `{HI : IpcHost} {S : Type} `{HS : UiService S}.

(** Its client objects by identity, those that subscribed (in the order, and as
    often, as they did), and the coroutines it scheduled. *)
Record IpcServer := { ip_service : S; ip_objs : list IPCClient; ip_clients : list nat; ip_jobs : list job }.
Definition set_clients (l : list nat) (s : IpcServer) : IpcServer :=
  {| ip_service := ip_service s; ip_objs := ip_objs s; ip_clients := l; ip_jobs := ip_jobs s |}.
Definition set_objs (l : list IPCClient) (s : IpcServer) : IpcServer :=
  {| ip_service := ip_service s; ip_objs := l; ip_clients := ip_clients s; ip_jobs := ip_jobs s |}.
Definition set_service (x : S) (s : IpcServer) : IpcServer :=
  {| ip_service := x; ip_objs := ip_objs s; ip_clients := ip_clients s; ip_jobs := ip_jobs s |}.
Definition set_jobs (l : list job) (s : IpcServer) : IpcServer :=
  {| ip_service := ip_service s; ip_objs := ip_objs s; ip_clients := ip_clients s; ip_jobs := l |}.

Definition on_service {A} (m : M S A) : M IpcServer A := fun s =>
  let '(r, x) := m (ip_service s) in (r, set_service x s).
(** [asyncio.ensure_future] *)
Definition schedule (j : job) : M IpcServer unit := modify (fun s => set_jobs (ip_jobs s ++ [j]) s).
Definition is_closed (cid : nat) (s : IpcServer) : bool := from_option ic_closed true (ip_objs s !! cid).

Definition client_send (cid : nat) (msg_type : string) (payload : json) : M IpcServer unit :=
  modify (fun s => set_objs (alter (ic_send (encode_ipc_frame (svc_now (ip_service s)) (JStr (u msg_type)) payload)) cid (ip_objs s)) s).
Definition send_error (cid : nat) (message : pystr) : M IpcServer unit :=
  client_send cid "IPC_ERROR" (JObj (mkdict [("message", JStr message)]%string)).

(** [if c in self._clients: self._clients.remove(c)] *)
Fixpoint remove_first (c : nat) (l : list nat) : list nat :=
  match l with [] => [] | x :: l' => if (x =? c)%nat then l' else x :: remove_first c l' end.
Definition drop_client (c : nat) : M IpcServer unit := modify (fun s => set_clients (remove_first c (ip_clients s)) s).

(** The loop of [broadcast] over the clients, which collects the dead ones. *)
Fixpoint broadcast_to (msg_type : string) (payload : json) (l dead : list nat) : M IpcServer (list nat) :=
  match l with
  | [] => mret dead
  | c :: l' =>
      client_send c msg_type payload;;
      s ← get;
      broadcast_to msg_type payload l' (if is_closed c s then dead ++ [c] else dead)
  end.
Definition broadcast (msg_type : string) (payload : json) : M IpcServer unit :=
  s ← get;
  dead ← broadcast_to msg_type payload (ip_clients s) [];
  iterM drop_client dead.

(** ** Events of the service *)

Definition on_devices_changed (devices : list DiscoveredDevice) : M IpcServer unit :=
  schedule (JBroadcast "IPC_DEVICE_UPDATE" (JObj (mkdict [("devices", JArr (map (fun d => JObj (device_to_dict d)) devices))]%string))).
Definition session_payload (s : IpcServer) (remote_addr : pystr) (state : SessionState) : json :=
  let payload := [("remote_addr", JStr remote_addr); ("state", JStr (u (session_state_name state)))]%string in
  let more := match aget remote_addr (svc_sessions (ip_service s)) with
              | None => []
              | Some (_, p) => [("remote_device_id", p_device_id p); ("remote_device_name", p_device_name p);
                                ("remote_static_pub_b64", opt_str (p_static_b64 p))]%string
              end in
  JObj (mkdict (payload ++ more)).
Definition on_session_changed (remote_addr : pystr) (state : SessionState) : M IpcServer unit :=
  s ← get; schedule (JBroadcast "IPC_SESSION_UPDATE" (session_payload s remote_addr state)).
Definition on_ipc_transfer_request (remote_addr transfer_id file_name : pystr) (file_size : Z) : M IpcServer unit :=
  schedule (JBroadcast "IPC_TRANSFER_REQUEST"
    (JObj (mkdict [("remote_addr", JStr remote_addr); ("transfer_id", JStr transfer_id); ("file_name", JStr file_name);
                   ("file_size", JInt file_size)]%string))).
Definition on_transfer_progress (transfer_id : pystr) (bytes_done total_bytes : Z) : M IpcServer unit :=
  schedule (JBroadcast "IPC_TRANSFER_PROGRESS"
    (JObj (mkdict [("transfer_id", JStr transfer_id); ("bytes_done", JInt bytes_done); ("total_bytes", JInt total_bytes)]%string))).
Definition on_ipc_transfer_complete (transfer_id : pystr) (success : bool) (file_name direction : pystr) : M IpcServer unit :=
  schedule (JBroadcast "IPC_TRANSFER_COMPLETE"
    (JObj (mkdict [("transfer_id", JStr transfer_id); ("success", JBool success); ("file_name", JStr file_name);
                   ("direction", JStr direction)]%string))).
Definition on_pairing_request (remote_addr : pystr) (device_name : json) (sas_code : pystr) : M IpcServer unit :=
  schedule (JBroadcast "IPC_PAIRING_REQUEST"
    (JObj (mkdict [("remote_addr", JStr remote_addr); ("device_name", device_name); ("sas_code", JStr sas_code)]%string))).
Definition on_clipboard_incoming (text : pystr) : M IpcServer unit :=
  schedule (JBroadcast "IPC_CLIPBOARD_INCOMING" (JObj (mkdict [("text", JStr text)]%string))).

(** The listener of a notice of the service. *)
Definition on_notice (n : notice) : M IpcServer unit :=
  match n with
  | NSession addr state => on_session_changed addr state
  | NRequest addr tid name size => on_ipc_transfer_request addr tid name size
  | NProgress tid done total => on_transfer_progress tid done total
  | NComplete tid ok name dir => on_ipc_transfer_complete tid ok name dir
  | NPairing addr name sas => on_pairing_request addr name sas
  end.

(** ** The snapshot *)

(** [try: ... except Exception: default] around an expression. *)
Definition or_else {A} (r : res A) (default : A) : A := match r with Ok a => a | Err _ => default end.

(** [DatabaseManager] has no method [is_trusted]: calling it raises. *)
Definition snapshot_device (d : DiscoveredDevice) : res json :=
  is_trusted ← (if bool_decide (dd_device_id d = []) then Ok false else Err AttributeError);
  Ok (JObj (mkdict [("device_id", JStr (dd_device_id d)); ("device_name", JStr (dd_device_name d));
                    ("device_type", JStr (dd_device_type d)); ("addresses", JArr (map JStr (dd_addresses d)));
                    ("port", opt_json (dd_port d)); ("is_trusted", JBool is_trusted)]%string)).
Definition snapshot_session (e : pystr * (nat * PeerSession)) : json :=
  let p := e.2.2 in
  JObj (mkdict [("remote_addr", JStr e.1); ("remote_device_id", p_device_id p); ("remote_device_name", p_device_name p);
                ("state", JStr (u (session_state_name (s_state (p_session p)))))]%string).
Definition snapshot_incoming (e : pystr * IncomingTransfer) : json :=
  let t := e.2 in
  JObj (mkdict [("transfer_id", JStr e.1); ("direction", JStr (u "INCOMING")); ("file_name", JStr (m_file_name (i_meta t)));
                ("file_size", JInt (m_file_size (i_meta t))); ("bytes_done", JInt (i_bytes_received t));
                ("state", JStr (u (transfer_state_name (i_state t))))]%string).
(** [OutgoingTransfer] has no attribute [meta]: reading it raises. *)
Definition snapshot_outgoing (e : pystr * OutgoingTransfer) : res json := Err AttributeError.

Definition state_snapshot (s : S) : json :=
  let devices := or_else (mapM_res snapshot_device (svc_discovered_devices s)) [] in
  let sessions := map snapshot_session (svc_sessions s) in
  let active := or_else (out ← mapM_res snapshot_outgoing (svc_outgoing s); Ok (map snapshot_incoming (svc_incoming s) ++ out)) [] in
  let c := svc_config s in
  let config := or_else (dir ← py_str (c_download_dir c);
                         Ok (mkdict [("device_name", c_device_name c); ("device_id", c_device_id c);
                                     ("listen_port", c_listen_port c); ("download_dir", JStr dir)]%string)) [] in
  JObj (mkdict [("devices", JArr devices); ("sessions", JArr sessions); ("active_transfers", JArr active);
                ("config", JObj config); ("identity_key_prefix", JStr (take 12 (svc_public_key s)))]%string).
Definition send_state_snapshot (cid : nat) : M IpcServer unit :=
  s ← get; client_send cid "IPC_STATE_SNAPSHOT" (state_snapshot (ip_service s)).

(** ** Commands *)

Definition get_item (payload : json) (key : string) : M IpcServer json := lift (item payload key).
Definition get_item_or (payload : json) (key : string) (default : json) : M IpcServer json := lift (item_or payload key default).
(** [Path(x)] *)
Definition to_path (j : json) : res path := match j with JStr s => Ok (ih_path s) | _ => Err TypeError end.

(** The clipboard text goes to every established session. *)
Definition clipboard_send (text : json) : M IpcServer unit :=
  s ← get;
  iterM (fun e : pystr * (nat * PeerSession) =>
    if bool_decide (s_state (p_session e.2.2) = ESTABLISHED)
    then schedule (JClipboard e.2.1 (mkdict [("text", text); ("ts", JInt (svc_now (ip_service s)))]%string))
    else mret tt) (svc_sessions (ip_service s)).

Definition command (cid : nat) (msg_type payload : json) : M IpcServer unit :=
  let cmd := fun name : string => eq_str msg_type (u name) in
  if cmd "IPC_ACCEPT_TRANSFER" then
    tid ← get_item payload "transfer_id"; addr ← get_item_or payload "remote_addr" (JStr []);
    on_service (svc_accept_transfer addr tid)
  else if cmd "IPC_REJECT_TRANSFER" then
    tid ← get_item payload "transfer_id"; addr ← get_item_or payload "remote_addr" (JStr []);
    on_service (svc_reject_transfer addr tid)
  else if cmd "IPC_CANCEL_TRANSFER" then
    tid ← get_item payload "transfer_id"; reason ← get_item_or payload "reason" (JStr (u "USER_CANCELLED"));
    on_service (svc_cancel_transfer tid reason);; mret tt
  else if cmd "IPC_ACCEPT_BATCH" then
    id ← get_item payload "batch_id"; addr ← get_item payload "remote_addr"; on_service (svc_accept_batch addr id)
  else if cmd "IPC_REJECT_BATCH" then
    id ← get_item payload "batch_id"; addr ← get_item payload "remote_addr"; on_service (svc_reject_batch addr id)
  else if cmd "IPC_ACCEPT_PAIRING" then
    addr ← get_item payload "remote_addr"; on_service (svc_accept_pairing addr)
  else if cmd "IPC_REJECT_PAIRING" then
    addr ← get_item payload "remote_addr"; on_service (svc_reject_pairing addr)
  else if cmd "IPC_SEND_FILE" then
    addr ← get_item payload "remote_addr"; f ← get_item payload "file_path"; p ← lift (to_path f); schedule (JSendFile addr p)
  else if cmd "IPC_SEND_BATCH" then
    addr ← get_item payload "remote_addr"; l ← get_item payload "paths"; l ← lift (py_list l); paths ← lift (mapM_res to_path l);
    name ← get_item_or payload "batch_name" (JStr (u "Batch")); schedule (JSendBatch addr paths name)
  else if cmd "IPC_CONNECT_PEER" then
    id ← get_item_or payload "device_id" (JStr []);
    s ← get;
    match find (fun d => eq_str id (dd_device_id d)) (svc_discovered_devices (ip_service s)) with
    | Some target => schedule (JConnect target)
    | None => text ← lift (py_str id); send_error cid (u "Device " ++ text ++ u " not found")
    end
  else if cmd "IPC_GET_HISTORY" then
    limit ← get_item_or payload "limit" (JInt 50);
    s ← get;
    match svc_list_transfers limit (ip_service s) with
    | Ok records => client_send cid "IPC_HISTORY_RESULT" (JObj (mkdict [("records", JArr (map (fun r => JObj (record_to_dict r)) records))]%string))
    | Err e => send_error cid (h_exn_text e)
    end
  else if cmd "IPC_GET_TRUSTED_DEVICES" then
    s ← get; client_send cid "IPC_TRUSTED_DEVICES_RESULT" (devices_payload (svc_list_devices (ip_service s)))
  else if cmd "IPC_DISCARD_RESUME" then
    tid ← get_item payload "transfer_id"; on_service (svc_discard tid)
  else if cmd "IPC_REQUEST_RESUME" then
    addr ← get_item payload "remote_addr"; tid ← get_item payload "transfer_id"; schedule (JResume addr tid)
  else if cmd "IPC_CLIPBOARD_SEND" then
    text ← get_item_or payload "text" (JStr []); clipboard_send text
  else if cmd "IPC_REMOVE_TRUSTED_DEVICE" then
    key ← get_item payload "public_key_b64";
    on_service (svc_remove_device key);;
    s ← get; schedule (JBroadcast "IPC_TRUSTED_DEVICES_RESULT" (devices_payload (svc_list_devices (ip_service s))))
  else if cmd "IPC_SET_CLIPBOARD_SYNC" then
    get_item payload "enabled";; mret tt
  else
    text ← lift (py_str msg_type); send_error cid (u "Unknown command: " ++ text).

Definition dispatch_command (cid : nat) (msg_type payload : json) : M IpcServer unit :=
  try_except (command cid msg_type payload) (fun _ => true) (fun e =>
    send_error cid (match e with KeyError => u "Missing field: " ++ h_exn_text KeyError | _ => h_exn_text e end)).

(** ** The task of a client *)

(** One message of the loop of [_handle_client]. *)
Definition handle_message (cid : nat) (msg : json) : M IpcServer unit :=
  msg ← lift (as_dict msg);
  let msg_type := dget_or msg "type" (JStr []) in
  let payload := dget_or msg "payload" (JObj []) in
  s ← get;
  if eq_str msg_type (u "IPC_SUBSCRIBE") then
    modify (fun s => set_clients (ip_clients s ++ [cid]) s);; send_state_snapshot cid
  else if negb (bool_decide (cid ∈ ip_clients s)) then send_error cid (u "Must send IPC_SUBSCRIBE first")
  else dispatch_command cid msg_type payload.

(** The [finally] block. *)
Definition client_over (cid : nat) : M IpcServer unit :=
  modify (fun s => set_objs (alter ic_close cid (ip_objs s)) s);; drop_client cid.

(** The loop over everything a client sends. *)
Fixpoint client_loop (fuel : nat) (cid : nat) (stream : bytes) : M IpcServer unit :=
  match fuel with
  | O => raise OutOfFuel
  | Datatypes.S fuel =>
      x ← lift (read_ipc_frame stream);
      match x with
      | None => mret tt
      | Some (msg, stream) => handle_message cid msg;; client_loop fuel cid stream
      end
  end.
Definition handle_client (cid : nat) (stream : bytes) : M IpcServer unit :=
  swallow (client_loop (Datatypes.S (length stream)) cid stream);; client_over cid.
(** A connection: the object of a new client. *)
Definition accept_client : M IpcServer nat := fun s => (Ok (length (ip_objs s)), set_objs (ip_objs s ++ [new_client]) s).

(** [stop]: the clients are closed and forgotten. *)
Definition ipc_stop : M IpcServer unit :=
  s ← get;
  iterM (fun c => modify (fun s => set_objs (alter ic_close c (ip_objs s)) s)) (ip_clients s);;
  modify (set_clients []).
End server.
Arguments IpcServer S : clear implicits.

(** ** Frames: what was encoded is read *)

Section frame_laws.
Context `{HR : PyRepr}.

Definition ipc_message (now : Z) (msg_type payload : json) : json :=
  JObj (mkdict [("type", msg_type); ("ts", JInt now); ("payload", payload)]%string).

Lemma encode_ipc_frame_Ok now ty payload f :
  encode_ipc_frame now ty payload = Ok f -> exists text body, json_dumps_compact (ipc_message now ty payload) = Ok text
  /\ utf8_encode text = Ok body /\ 0 <= zlen body < 2 ^ 32 /\ f = IPC_MAGIC ++ be_bytes 4 (zlen body) ++ body.
Proof.
  unfold encode_ipc_frame, ipc_message. intros (text & Ht & H)%bind_Ok. apply bind_Ok in H as (body & Hb & H).
  apply bind_Ok in H as (l & [Hl ->]%pack_I_Ok & [= <-]). by exists text, body.
Qed.

(** Every message of moderate size has a frame. *)
Lemma encode_ipc_frame_fits now ty payload :
  json_ok (ipc_message now ty payload) = true -> weight (ipc_message now ty payload) <= IPC_MAX_FRAME ->
  exists f, encode_ipc_frame now ty payload = Ok f /\ zlen f <= 6 + IPC_MAX_FRAME.
Proof.
  intros Hok Hw. destruct (render_text (u ",") (u ":")) with (j := ipc_message now ty payload) as [Ha Hl];
    [split; [by apply ascii_u|done]..|done|]. destruct (utf8_ascii _ Ha) as (body & Hb & Hz).
  exists (IPC_MAGIC ++ be_bytes 4 (zlen body) ++ body). pose proof (zlen_nonneg body).
  assert (pack_I (zlen body) = Ok (be_bytes 4 (zlen body))) as Hp by (apply pack_I_Ok; unfold IPC_MAX_FRAME in *; split; [lia|done]).
  split.
  - unfold encode_ipc_frame. fold (ipc_message now ty payload). unfold json_dumps_compact, dumps_with.
    rewrite (json_ok_printable [] []) by done. cbn [mbind res_bind]. rewrite Hb. cbn [mbind res_bind]. by rewrite Hp.
  - rewrite !zlen_app. unfold zlen at 1 2. rewrite length_be_bytes. change (Z.of_nat (length IPC_MAGIC)) with 2. lia.
Qed.

Lemma read_encode now ty payload f rest :
  json_ok (ipc_message now ty payload) = true -> encode_ipc_frame now ty payload = Ok f -> zlen f <= 6 + IPC_MAX_FRAME ->
  read_ipc_frame (f ++ rest) = Ok (Some (ipc_message now ty payload, rest)).
Proof.
  intros Hok (text & body & Ht & Hb & Hl & ->)%encode_ipc_frame_Ok Hmax.
  assert (length (be_bytes 4 (zlen body)) = 4%nat) as H4 by apply length_be_bytes.
  assert (zlen body <= IPC_MAX_FRAME) as Hmax'.
  { rewrite !zlen_app in Hmax. unfold zlen at 1 2 in Hmax. rewrite H4 in Hmax. change (Z.of_nat (length IPC_MAGIC)) with 2 in Hmax. lia. }
  unfold read_ipc_frame. replace ((IPC_MAGIC ++ be_bytes 4 (zlen body) ++ body) ++ rest) with ((IPC_MAGIC ++ be_bytes 4 (zlen body)) ++ body ++ rest)
    by (by rewrite <-!app_assoc).
  rewrite readexactly_app by (rewrite zlen_app; unfold zlen at 2; by rewrite H4).
  assert (slice 0 2 (IPC_MAGIC ++ be_bytes 4 (zlen body)) = IPC_MAGIC) as -> by done.
  assert (slice 2 6 (IPC_MAGIC ++ be_bytes 4 (zlen body)) = be_bytes 4 (zlen body)) as ->.
  { unfold slice. change (drop _ _) with (be_bytes 4 (zlen body)). by rewrite take_ge by (rewrite H4; done). }
  rewrite bool_decide_eq_true_2 by done. cbn [negb]. rewrite be_val_bytes by (cbn; lia).
  replace (_ >? _) with false by lia. rewrite readexactly_app by done.
  rewrite (utf8_decode_encode _ _ Hb). cbn [mbind res_bind]. by rewrite (json_loads_dumps_compact _ _ Hok Ht).
Qed.
(** The other side reads the message that was encoded, and stops where the
    frame ends. *)
Theorem read_encode_ipc_frame now ty payload f rest :
  json_ok (ipc_message now ty payload) = true -> encode_ipc_frame now ty payload = Ok f -> zlen f <= 6 + IPC_MAX_FRAME ->
  read_ipc_frame (f ++ rest) = Ok (Some (ipc_message now ty payload, rest)).
Proof. apply read_encode. Qed.
End frame_laws.

(** A frame takes at least its header. *)
Lemma read_ipc_frame_consumes stream msg rest :
  read_ipc_frame stream = Ok (Some (msg, rest)) -> (length rest < length stream)%nat.
Proof.
  unfold read_ipc_frame, readexactly. destruct (_ <? 6) eqn:E6; [done|]. bool_prop. destruct (negb _); [done|].
  destruct (_ >? _) eqn:Em; [done|]. destruct (_ <? _) eqn:El; [done|].
  intros (text & _ & H)%bind_Ok. destruct (json_loads text) as [j|[]]; [|done..]. injection H as <- <-.
  rewrite !length_drop. unfold zlen in *. lia.
Qed.

(** ** The server *)

Section server_laws.
Context `{HC : Crypto} `{HR : PyRepr} `{HH : Host} `{HI : IpcHost} {S : Type} `{HS : UiService S}.

(** Nothing but the object of the client [cid] differs. *)
Definition same_but (cid : nat) (s s' : IpcServer S) : Prop :=
  ip_service s' = ip_service s /\ ip_clients s' = ip_clients s /\ ip_jobs s' = ip_jobs s
  /\ forall c, c <> cid -> ip_objs s' !! c = ip_objs s !! c.
Lemma same_but_refl cid s : same_but cid s s.
Proof. done. Qed.
Lemma same_but_trans cid s1 s2 s3 : same_but cid s1 s2 -> same_but cid s2 s3 -> same_but cid s1 s3.
Proof. intros (A & B & C & D) (A' & B' & C' & D'). split_and!; [congruence..|]. intros c Hc. by rewrite D', D. Qed.

Lemma wp_client_send cid ty payload (s : IpcServer S) :
  wp (client_send cid ty payload) (fun r s' => r = Ok tt /\ same_but cid s s') s.
Proof. unfold client_send. wp_step. split; [done|]. split_and!; try done. intros c Hc. by apply list_lookup_alter_ne. Qed.

Definition subscribes (msg : json) : bool :=
  match msg with JObj d => eq_str (dget_or d "type" (JStr [])) (u "IPC_SUBSCRIBE") | _ => false end.
(** The messages of a stream, as the loop reads them. *)
Fixpoint ipc_messages (fuel : nat) (stream : bytes) : list json :=
  match fuel with
  | O => []
  | Datatypes.S fuel => match read_ipc_frame stream with
                        | Ok (Some (msg, rest)) => msg :: ipc_messages fuel rest
                        | _ => []
                        end
  end.

Lemma wp_unsubscribed cid msg (s : IpcServer S) :
  cid ∉ ip_clients s -> subscribes msg = false -> wp (handle_message cid msg) (fun _ s' => same_but cid s s') s.
Proof.
  intros Hc Hm. unfold handle_message. wp_step. wp_step. destruct msg as [| | | | | |d]; try done. cbn [as_dict subscribes] in *.
  cbv zeta. wp_step. wp_step. rewrite Hm, bool_decide_eq_false_2 by done. cbn [negb].
  eapply wp_mono; [apply wp_client_send|]. by intros r s' [_ ?].
Qed.

Lemma remove_first_fresh c l : c ∉ l -> remove_first c l = l.
Proof.
  induction l as [|x l IH]; [done|]. intros [Hx Hl]%not_elem_of_cons. cbn [remove_first].
  rewrite (proj2 (Nat.eqb_neq x c)) by done. by rewrite IH.
Qed.

(** C23. Commands need a subscription: a connection that sends no [SUBSCRIBE],
    whatever else it sends, leaves the service, the other clients and the
    scheduled work as they were. *)
Theorem commands_need_subscription cid stream (s : IpcServer S) :
  cid ∉ ip_clients s -> Forall (fun m => subscribes m = false) (ipc_messages (Datatypes.S (length stream)) stream) ->
  wp (handle_client cid stream) (fun r s' => r = Ok tt /\ same_but cid s s') s.
Proof.
  intros Hc Hm. unfold handle_client. wp_step. wp_step.
  assert (forall n stream (s : IpcServer S), cid ∉ ip_clients s -> Forall (fun m => subscribes m = false) (ipc_messages n stream) ->
    wp (client_loop n cid stream) (fun _ s' => same_but cid s s') s) as H.
  { clear. intros n. induction n as [|n IH]; intros stream s Hc Hm; cbn [client_loop]; [by wp_step|].
    wp_step. wp_step. cbn [ipc_messages] in Hm. destruct (read_ipc_frame stream) as [[[msg rest]|]|e]; [|by wp_step|done].
    inversion_clear Hm as [|? ? Hmsg Hrest]. wp_step. eapply wp_mono; [by apply wp_unsubscribed|].
    intros [[]|e] s' Hs'; [|done]. eapply wp_mono; [apply IH|intros ? ? ?; by eapply same_but_trans]; [|done].
    destruct Hs' as (_ & -> & _). done. }
  eapply wp_mono; [by apply H|]. intros _ s' (A & B & C & D). unfold client_over, drop_client. wp_step. wp_step. wp_step.
  split; [done|]. split_and!; cbn; [done|rewrite B; by apply remove_first_fresh|done|].
  intros c Hne. rewrite list_lookup_alter_ne by done. by apply D.
Qed.

(** No message of a client makes the loop run out of fuel. *)
Lemma handle_message_fuel cid msg (s : IpcServer S) : wp (handle_message cid msg) (fun r _ => r <> Err OutOfFuel) s.
Proof.
  unfold handle_message. wp_step. wp_step. destruct msg; try done. cbn [as_dict]. cbv zeta. wp_step. wp_step.
  destruct (eq_str _ _); [by unfold send_state_snapshot, client_send; repeat wp_step|]. destruct (negb _); [by unfold send_error, client_send; wp_step|].
  unfold dispatch_command. wp_step. apply (wp_mono _ (fun _ _ => True)); [done|]. intros [[]|e] s' _; [done|]. by unfold send_error, client_send; wp_step.
Qed.
Lemma client_loop_fuel cid fuel : forall stream (s : IpcServer S) fuel', (length stream < fuel)%nat -> (length stream < fuel')%nat ->
  client_loop fuel cid stream s = client_loop fuel' cid stream s /\ (client_loop fuel cid stream s).1 <> Err OutOfFuel.
Proof.
  induction fuel as [|n IH]; intros stream s [|n'] Hn Hn'; [lia..|]. cbn [client_loop].
  unfold mbind, M_bind, lift. destruct (read_ipc_frame stream) as [[[msg rest]|]|e] eqn:E; [|done|].
  - apply read_ipc_frame_consumes in E. pose proof (handle_message_fuel cid msg s) as Hm. unfold wp in Hm.
    destruct (handle_message cid msg s) as [[[]|e] s']; [apply IH; lia|done].
  - split; [done|]. cbn. intros [= ->]. unfold read_ipc_frame in E. repeat case_match; try done.
    apply bind_Err in E as [E|(t & _ & E)]; [by apply utf8_decode_raises in E|].
    destruct (json_loads t) as [j|e'] eqn:Ej; [done|]. apply json_loads_raises in Ej. by destruct e'; simplify_eq.
Qed.

(** C24. Whatever a client sends, its task ends: the loop stops after finitely
    many turns (more fuel changes nothing), no exception leaves the task, and the
    client is closed. *)
Theorem handle_client_ends cid stream fuel (s : IpcServer S) :
  (length stream < fuel)%nat ->
  exists s', handle_client cid stream s = (Ok tt, s') /\ is_closed cid s' = true
  /\ (swallow (client_loop fuel cid stream);; client_over cid) s = (Ok tt, s')
  /\ (client_loop fuel cid stream s).1 <> Err OutOfFuel.
Proof.
  intros Hf. destruct (client_loop_fuel cid fuel stream s (Datatypes.S (length stream)) Hf ltac:(lia)) as [E Ho].
  assert (forall x, wp (client_over cid) (fun r (s' : IpcServer S) => r = Ok tt /\ is_closed cid s' = true) x) as Hover.
  { intros x. unfold client_over, drop_client. wp_step. wp_step. wp_step. split; [done|]. unfold is_closed. cbn.
    rewrite list_lookup_alter_eq. by destruct (_ !! _). }
  assert (wp (handle_client cid stream) (fun r s' => r = Ok tt /\ is_closed cid s' = true) s) as H.
  { unfold handle_client. wp_step. wp_step. apply (wp_mono _ (fun _ _ => True)); [done|]. intros _ x _. apply Hover. }
  destruct (wp_run _ _ _ H) as (r & s' & E' & -> & Hc). exists s'. split_and!; try done.
  rewrite <-E'. unfold handle_client, swallow, try_except, mbind, M_bind. by rewrite E.
Qed.

(** ** Broadcasts *)

Definition frame_for (ty : string) (payload : json) (s : IpcServer S) : res bytes :=
  encode_ipc_frame (svc_now (ip_service s)) (JStr (u ty)) payload.
(** The objects after a frame was sent to the clients [l], to each as often as it
    is listed. *)
Definition sent_to (f : res bytes) (l : list nat) (objs objs' : list IPCClient) : Prop :=
  forall c, objs' !! c = Nat.iter (count_occ Nat.eq_dec l c) (ic_send f) <$> objs !! c.

(** Whether a client is closed is settled by the first frame. *)
Lemma ic_send_settles f n c : ic_closed (Nat.iter n (ic_send f) (ic_send f c)) = ic_closed (ic_send f c).
Proof.
  destruct (ic_closed (ic_send f c)) eqn:E.
  - assert (Nat.iter n (ic_send f) (ic_send f c) = ic_send f c) as ->; [|done]. induction n as [|n IH]; [done|].
    rewrite Nat.iter_succ, IH. unfold ic_send at 1. by rewrite E.
  - destruct f as [f|e]; [|unfold ic_send in E; destruct (ic_closed c) eqn:E'; cbn in E; congruence].
    cut (ic_closed (Nat.iter n (ic_send (Ok f)) (ic_send (Ok f) c)) = false /\ ic_lost (Nat.iter n (ic_send (Ok f)) (ic_send (Ok f) c)) = false); [by intros []|].
    induction n as [|n [IH1 IH2]].
    + split; [done|]. cbn. unfold ic_send in *. by destruct (ic_closed c) eqn:E'; [congruence|].
    + rewrite Nat.iter_succ. revert IH1 IH2. generalize (Nat.iter n (ic_send (Ok f)) (ic_send (Ok f) c)).
      intros d Hc Hl. unfold ic_send. by rewrite Hc.
Qed.

Lemma wp_broadcast_to ty payload l : forall dead (s : IpcServer S),
  wp (broadcast_to ty payload l dead) (fun r s' =>
    r = Ok (dead ++ List.filter (fun c => is_closed c s') l)
    /\ ip_service s' = ip_service s /\ ip_clients s' = ip_clients s /\ ip_jobs s' = ip_jobs s
    /\ sent_to (frame_for ty payload s) l (ip_objs s) (ip_objs s')) s.
Proof.
  induction l as [|c l IH]; intros dead s; cbn [broadcast_to].
  { wp_step. rewrite app_nil_r. split_and!; try done. intros c. by destruct (_ !! c). }
  wp_step. unfold client_send. wp_step. wp_step. wp_step.
  set (s1 := set_objs _ s). eapply wp_mono; [by apply IH|]. intros r s' (-> & Hv & Hcl & Hj & Hs).
  change (frame_for ty payload s1) with (frame_for ty payload s) in Hs.
  assert (ip_objs s1 !! c = ic_send (frame_for ty payload s) <$> ip_objs s !! c) as E1 by (unfold s1; cbn; by rewrite list_lookup_alter_eq).
  assert (is_closed c s' = is_closed c s1) as Ec.
  { unfold is_closed. rewrite (Hs c), E1. destruct (ip_objs s !! c); [|done]. cbn. apply ic_send_settles. }
  split_and!; try done.
  - cbn [List.filter]. rewrite Ec. by destruct (is_closed c s1); rewrite <-?app_assoc.
  - intros d. rewrite (Hs d). cbn [count_occ]. destruct (Nat.eq_dec c d) as [<-|Hne].
    + rewrite E1. destruct (ip_objs s !! c); [|done]. cbn [fmap option_fmap option_map]. by rewrite Nat.iter_succ_r.
    + unfold s1. cbn [ip_objs set_objs]. by rewrite list_lookup_alter_ne.
Qed.

(** Dropping the clients that satisfy [dead], one entry of the list for each. *)
Lemma remove_each (dead : nat -> bool) l :
  fold_left (fun l c => remove_first c l) (List.filter dead l) l = List.filter (fun c => negb (dead c)) l.
Proof.
  induction l as [|x l IH]; [done|]. cbn [List.filter]. destruct (dead x) eqn:Ex; cbn [negb].
  - cbn [fold_left remove_first]. by rewrite Nat.eqb_refl.
  - rewrite <-IH. assert (Forall (fun c => c <> x) (List.filter dead l)) as H.
    { apply Forall_forall. intros c [_ Hc]%list_elem_of_In%filter_In ->. congruence. }
    clear IH. revert H. generalize (List.filter dead l). intros cs. revert l. induction cs as [|c cs IH]; intros l H; [done|].
    inversion_clear H as [|? ? Hc Hcs]. cbn [fold_left remove_first]. rewrite (proj2 (Nat.eqb_neq x c)) by done. by apply IH.
Qed.
Lemma wp_drop_clients dead : forall (s : IpcServer S),
  wp (iterM drop_client dead) (fun r s' => r = Ok tt /\ ip_service s' = ip_service s /\ ip_objs s' = ip_objs s /\ ip_jobs s' = ip_jobs s
    /\ ip_clients s' = fold_left (fun l c => remove_first c l) dead (ip_clients s)) s.
Proof.
  induction dead as [|c dead IH]; intros s; cbn [iterM]; [by wp_step|].
  wp_step. unfold drop_client at 1. wp_step. eapply wp_mono; [apply IH|]. intros r s' (-> & Hv & Ho & Hj & Hc). by split_and!.
Qed.

(** C25. A broadcast sends the frame to every subscribed client, once for each
    time that the client subscribed; the clients that are open afterwards stay
    subscribed as often as they were, the others are dropped altogether, and
    nothing else changes. *)
Theorem broadcast_delivers ty payload (s : IpcServer S) :
  wp (broadcast ty payload) (fun r s' =>
    r = Ok tt /\ ip_service s' = ip_service s /\ ip_jobs s' = ip_jobs s
    /\ sent_to (frame_for ty payload s) (ip_clients s) (ip_objs s) (ip_objs s')
    /\ ip_clients s' = List.filter (fun c => negb (is_closed c s')) (ip_clients s)) s.
Proof.
  unfold broadcast. wp_step. wp_step. wp_step. eapply wp_mono; [apply wp_broadcast_to|].
  intros r s1 (-> & Hv & Hc & Hj & Hs). eapply wp_mono; [apply wp_drop_clients|].
  intros r s' (-> & Hv' & Ho' & Hj' & Hc'). split_and!; try congruence.
  rewrite Hc', Hc. cbn [app]. rewrite remove_each. apply filter_ext. intros c. unfold is_closed. by rewrite Ho'.
Qed.

(** ** What the snapshot hides *)

(** One device with an id is enough to leave out all of them, and one outgoing
    transfer to leave out every transfer. *)
Lemma snapshot_without_devices (s : S) :
  Exists (fun d => dd_device_id d <> []) (svc_discovered_devices s) ->
  exists d, state_snapshot s = JObj d /\ dget d "devices" = Some (JArr []).
Proof.
  intros H. eexists. split; [done|]. cbn [dget mkdict map fst snd].
  assert (exists e, mapM_res snapshot_device (svc_discovered_devices s) = Err e) as [e ->]; [|done].
  induction H as [d l Hd|d l _ [e IH]]; cbn [mapM_res].
  - unfold snapshot_device. rewrite bool_decide_eq_false_2 by done. by eexists.
  - destruct (snapshot_device d) as [j|]; [|by eexists]. cbn [mbind res_bind]. rewrite IH. by eexists.
Qed.
Lemma snapshot_without_transfers (s : S) :
  svc_outgoing s <> [] -> exists d, state_snapshot s = JObj d /\ dget d "active_transfers" = Some (JArr []).
Proof. intros H. eexists. split; [done|]. cbn [dget mkdict map fst snd]. by destruct (svc_outgoing s). Qed.
End server_laws.
