(* ===== verification/UiClient.v ===== *)
(** * The user interface's end of the socket: [ui/ipc_client.py], and the
    forwarding of [ui/app.py]

    The client keeps a connection to the daemon, hands the messages it reads to
    the callbacks of the window, and turns the actions of the user into commands.
    The last part is the way of a command from the window to the service, through
    the socket and (in the in-process mode) without it. *)
From S2P Require Import Prelude PyStr Sha256 Json Protocol Wire Payloads Transfer Fs Incoming Outgoing Session Bridge Config Db.
From S2P Require Import Identity Discovery Peers Service Sending Handshake Ipc.

(** ** Connection and callbacks *)

Definition CONNECT_MAX_RETRIES : Z := 10.

(** The events a callback can be registered for. *)
Definition ui_events : list string :=
  ["state_snapshot"; "device_update"; "session_update"; "transfer_request"; "transfer_progress"; "transfer_complete";
   "pairing_request"; "clipboard_incoming"; "history_result"; "trusted_devices"; "connected"; "disconnected"]%string.

(** The methods of the application that are registered as callbacks. *)
Inductive ui_callback :=
  | CbConnected | CbDisconnected | CbStateSnapshot | CbDeviceUpdate | CbSessionUpdate | CbTransferRequest
  | CbTransferProgress | CbTransferComplete | CbPairingRequest | CbClipboardIncoming | CbHistoryResult | CbTrustedDevices.

(** [uc_idle] are the calls handed to the main loop, oldest first: a callback
    and its argument. *)
Record UiClient := {
  uc_closing : bool; uc_connected : bool; uc_writer : bool; uc_lost : bool;
  uc_out : list bytes; uc_callbacks : list (string * ui_callback); uc_idle : list (ui_callback * option json); uc_now : Z
}.
Definition uc_set_conn (connected : bool) (c : UiClient) : UiClient :=
  {| uc_closing := uc_closing c; uc_connected := connected; uc_writer := connected; uc_lost := false; uc_out := uc_out c;
     uc_callbacks := uc_callbacks c; uc_idle := uc_idle c; uc_now := uc_now c |}.
Definition uc_call (cb : ui_callback) (arg : option json) (c : UiClient) : UiClient :=
  {| uc_closing := uc_closing c; uc_connected := uc_connected c; uc_writer := uc_writer c; uc_lost := uc_lost c; uc_out := uc_out c;
     uc_callbacks := uc_callbacks c; uc_idle := uc_idle c ++ [(cb, arg)]; uc_now := uc_now c |}.
Definition uc_write (f : bytes) (c : UiClient) : UiClient :=
  {| uc_closing := uc_closing c; uc_connected := uc_connected c; uc_writer := uc_writer c; uc_lost := uc_lost c;
     uc_out := if uc_lost c then uc_out c else uc_out c ++ [f];
     uc_callbacks := uc_callbacks c; uc_idle := uc_idle c; uc_now := uc_now c |}.
Definition uc_register (event : string) (cb : ui_callback) (c : UiClient) : UiClient :=
  {| uc_closing := uc_closing c; uc_connected := uc_connected c; uc_writer := uc_writer c; uc_lost := uc_lost c; uc_out := uc_out c;
     uc_callbacks := aset event cb (uc_callbacks c); uc_idle := uc_idle c; uc_now := uc_now c |}.

Definition uc_set_closing (closing : bool) (c : UiClient) : UiClient :=
  {| uc_closing := closing; uc_connected := uc_connected c; uc_writer := uc_writer c; uc_lost := uc_lost c; uc_out := uc_out c;
     uc_callbacks := uc_callbacks c; uc_idle := uc_idle c; uc_now := uc_now c |}.
(** A new client; [stop] (the loop of the client ends with it), and the part of
    [start] on the state when no thread runs. *)
Definition new_ui_client (now : Z) : UiClient :=
  {| uc_closing := false; uc_connected := false; uc_writer := false; uc_lost := false; uc_out := []; uc_callbacks := [];
     uc_idle := []; uc_now := now |}.
Definition ui_stop : M UiClient unit := modify (uc_set_closing true).
Definition ui_start : M UiClient unit := modify (uc_set_closing false).
(** [client.on(event, callback)] *)
Definition ui_on (event : string) (cb : ui_callback) : M UiClient unit :=
  if bool_decide (event ∈ ui_events) then modify (uc_register event cb) else raise ValueError.
Definition ui_fire (event : string) (arg : option json) : M UiClient unit :=
  modify (fun c => match aget event (uc_callbacks c) with Some cb => uc_call cb arg c | None => c end).

(** The event a message of the daemon stands for. *)
Definition dispatch_map : list (string * string) :=
  [("IPC_STATE_SNAPSHOT", "state_snapshot"); ("IPC_DEVICE_UPDATE", "device_update"); ("IPC_SESSION_UPDATE", "session_update");
   ("IPC_TRANSFER_REQUEST", "transfer_request"); ("IPC_TRANSFER_PROGRESS", "transfer_progress");
   ("IPC_TRANSFER_COMPLETE", "transfer_complete"); ("IPC_PAIRING_REQUEST", "pairing_request");
   ("IPC_CLIPBOARD_INCOMING", "clipboard_incoming"); ("IPC_HISTORY_RESULT", "history_result");
   ("IPC_TRUSTED_DEVICES_RESULT", "trusted_devices")]%string.
Definition event_of (msg_type : json) : option string :=
  snd <$> find (fun e => eq_str msg_type (u e.1)) dispatch_map.

Definition ui_dispatch (msg : json) : M UiClient unit :=
  msg ← lift (as_dict msg);
  let msg_type := dget_or msg "type" (JStr []) in
  let payload := dget_or msg "payload" (JObj []) in
  lift (as_key msg_type);;
  c ← get;
  match event_of msg_type ≫= fun e => aget e (uc_callbacks c) with
  | Some cb => modify (uc_call cb (Some payload))
  | None => if eq_str msg_type (u "IPC_ERROR") then lift (item_or payload "message" (JStr []));; mret tt else mret tt
  end.

Section client.
Context `{HR : PyRepr}.

Definition send_raw (msg_type : string) (payload : json) : M UiClient unit :=
  c ← get;
  if negb (uc_writer c) then mret tt
  else swallow (f ← lift (encode_ipc_frame (uc_now c) (JStr (u msg_type)) payload);
                modify (uc_write f);;
                lift (raise_if (uc_lost c) OSError)).

(** ** [_connect_and_run] *)

Inductive ui_phase :=
  | UConnecting (retries : Z)   (** about to try, or asleep between two tries *)
  | UReading                    (** in [_read_loop] *)
  | UStopped.

(** A try to connect that succeeds or fails. *)
Definition connect_attempt (retries : Z) (ok : bool) : M UiClient ui_phase :=
  c ← get;
  if uc_closing c then mret UStopped
  else if (ok : bool) then
    modify (uc_set_conn true);;
    ui_fire "connected" None;;
    send_raw "IPC_SUBSCRIBE" (JObj []);;
    mret UReading
  else
    let retries := retries + 1 in
    if retries >=? CONNECT_MAX_RETRIES then ui_fire "disconnected" None;; mret UStopped
    else mret (UConnecting retries).

(** The read loop is over. *)
Definition ui_disconnected : M UiClient ui_phase :=
  modify (uc_set_conn false);;
  ui_fire "disconnected" None;;
  c ← get; mret (if uc_closing c then UStopped else UConnecting 0).
(** One turn of the read loop on what the daemon sends. *)
Definition read_turn (stream : bytes) : M UiClient (ui_phase * bytes) :=
  c ← get;
  if uc_closing c then p ← ui_disconnected; mret (p, stream)
  else
    x ← try_except (x ← lift (read_ipc_frame stream);
                    match x with
                    | None => mret None
                    | Some (msg, rest) => ui_dispatch msg;; mret (Some rest)
                    end) (fun _ => true) (fun _ => mret None);
    match x with
    | None => p ← ui_disconnected; mret (p, stream)
    | Some rest => mret (UReading, rest)
    end.

(** ** Commands *)

(** The command methods of the client, which those of the application call. *)
Inductive ui_command :=
  | UAcceptTransfer (remote_addr transfer_id : pystr) | URejectTransfer (remote_addr transfer_id : pystr)
  | UCancelTransfer (transfer_id : pystr)
  | UAcceptBatch (remote_addr batch_id : pystr) | URejectBatch (remote_addr batch_id : pystr)
  | UAcceptPairing (remote_addr : pystr) | URejectPairing (remote_addr : pystr)
  | USendFile (remote_addr file_path : pystr) | USendBatch (remote_addr : pystr) (paths : list pystr) (batch_name : pystr)
  | UConnectPeer (device_id : pystr)
  | UGetHistory (limit : Z) | UGetTrustedDevices | URemoveTrustedDevice (public_key_b64 : pystr)
  | USetClipboardSync (enabled : bool) | USendClipboardText (text : pystr)
  | UDiscardResume (transfer_id : pystr) | URequestResume (remote_addr transfer_id : pystr).

Definition command_message (c : ui_command) : string * jdict :=
  match c with
  | UAcceptTransfer a t => ("IPC_ACCEPT_TRANSFER", mkdict [("remote_addr", JStr a); ("transfer_id", JStr t)])
  | URejectTransfer a t => ("IPC_REJECT_TRANSFER", mkdict [("remote_addr", JStr a); ("transfer_id", JStr t)])
  | UCancelTransfer t => ("IPC_CANCEL_TRANSFER", mkdict [("transfer_id", JStr t)])
  | UAcceptBatch a b => ("IPC_ACCEPT_BATCH", mkdict [("remote_addr", JStr a); ("batch_id", JStr b)])
  | URejectBatch a b => ("IPC_REJECT_BATCH", mkdict [("remote_addr", JStr a); ("batch_id", JStr b)])
  | UAcceptPairing a => ("IPC_ACCEPT_PAIRING", mkdict [("remote_addr", JStr a)])
  | URejectPairing a => ("IPC_REJECT_PAIRING", mkdict [("remote_addr", JStr a)])
  | USendFile a f => ("IPC_SEND_FILE", mkdict [("remote_addr", JStr a); ("file_path", JStr f)])
  | USendBatch a l n => ("IPC_SEND_BATCH", mkdict [("remote_addr", JStr a); ("paths", JArr (map JStr l)); ("batch_name", JStr n)])
  | UConnectPeer d => ("IPC_CONNECT_PEER", mkdict [("device_id", JStr d)])
  | UGetHistory n => ("IPC_GET_HISTORY", mkdict [("limit", JInt n)])
  | UGetTrustedDevices => ("IPC_GET_TRUSTED_DEVICES", [])
  | URemoveTrustedDevice k => ("IPC_REMOVE_TRUSTED_DEVICE", mkdict [("public_key_b64", JStr k)])
  | USetClipboardSync b => ("IPC_SET_CLIPBOARD_SYNC", mkdict [("enabled", JBool b)])
  | USendClipboardText t => ("IPC_CLIPBOARD_SEND", mkdict [("text", JStr t)])
  | UDiscardResume t => ("IPC_DISCARD_RESUME", mkdict [("transfer_id", JStr t)])
  | URequestResume a t => ("IPC_REQUEST_RESUME", mkdict [("remote_addr", JStr a); ("transfer_id", JStr t)])
  end%string.
(** A command method, on the running loop of the client. *)
Definition ui_send (c : ui_command) : M UiClient unit :=
  let '(ty, payload) := command_message c in send_raw ty (JObj payload).

(** ** The connection and the events *)

(** The outcomes of successive tries to connect. *)
Fixpoint connect_tries (oks : list bool) (retries : Z) : M UiClient ui_phase :=
  match oks with
  | [] => mret (UConnecting retries)
  | ok :: oks =>
      ph ← connect_attempt retries ok;
      match ph with UConnecting retries => connect_tries oks retries | _ => mret ph end
  end.

(** Without a daemon the client stops after ten tries, and tells the window
    once; up to then it just tries again. *)
Theorem client_gives_up n (c : UiClient) :
  uc_closing c = false ->
  connect_tries (repeat false n) 0 c =
    if Z.of_nat n <? CONNECT_MAX_RETRIES then (Ok (UConnecting (Z.of_nat n)), c)
    else (Ok UStopped, (ui_fire "disconnected" None c).2).
Proof.
  intros Hc. assert (forall n k, 0 <= k < CONNECT_MAX_RETRIES -> connect_tries (repeat false n) k c =
    if k + Z.of_nat n <? CONNECT_MAX_RETRIES then (Ok (UConnecting (k + Z.of_nat n)), c)
    else (Ok UStopped, (ui_fire "disconnected" None c).2)) as H; [|by apply (H n 0)].
  clear n. induction n as [|n IH]; intros k Hk; cbn [repeat connect_tries].
  { replace (k + Z.of_nat 0) with k by lia. by rewrite (proj2 (Z.ltb_lt k _)) by lia. }
  unfold connect_attempt, mbind at 1, M_bind at 1. unfold mbind at 1, M_bind at 1, get at 1. rewrite Hc.
  destruct (Z.geb_spec (k + 1) CONNECT_MAX_RETRIES).
  - rewrite (proj2 (Z.ltb_ge (k + Z.of_nat (S n)) _)) by lia. done.
  - unfold mret, M_ret. rewrite IH by lia. by replace (k + 1 + Z.of_nat n) with (k + Z.of_nat (S n)) by lia.
Qed.

(** C26. An event of the daemon reaches the window: the frame of a message with a
    registered callback, read by an open client, ends as one call of it on the
    main loop with the payload that was sent. *)
Theorem event_reaches_window now ty event cb payload f rest (c : UiClient) :
  json_ok (ipc_message now (JStr (u ty)) payload) = true -> encode_ipc_frame now (JStr (u ty)) payload = Ok f ->
  zlen f <= 6 + IPC_MAX_FRAME ->
  event_of (JStr (u ty)) = Some event -> aget event (uc_callbacks c) = Some cb -> uc_closing c = false ->
  read_turn (f ++ rest) c = (Ok (UReading, rest), uc_call cb (Some payload) c).
Proof.
  intros Hok Hf Hl He Hcb Hc. unfold read_turn, mbind at 1, M_bind at 1, get at 1. rewrite Hc.
  unfold try_except at 1, lift at 1, mbind, M_bind. rewrite (read_encode now (JStr (u ty)) payload f rest) by done.
  unfold ui_dispatch, ipc_message, mbind, M_bind, lift, get. cbn [as_dict]. change (dget_or _ "type" _) with (JStr (u ty)).
  change (dget_or _ "payload" _) with payload. cbn [as_key]. rewrite He. cbn [mbind option_bind]. unfold mbind, option_bind. by rewrite Hcb.
Qed.
End client.

(** ** From the window to the service *)

Section commands.
Context `{HC : Crypto} `{HR : PyRepr} `{HH : Host} `{HI : IpcHost} {S : Type} `{HS : UiService S}.

(** What a command asks of the service, in the daemon and for the client [cid]. *)
Definition perform (cid : nat) (c : ui_command) : M (IpcServer S) unit :=
  match c with
  | UAcceptTransfer a t => on_service (svc_accept_transfer (JStr a) (JStr t))
  | URejectTransfer a t => on_service (svc_reject_transfer (JStr a) (JStr t))
  | UCancelTransfer t => on_service (svc_cancel_transfer (JStr t) (JStr (u "USER_CANCELLED")));; mret tt
  | UAcceptBatch a b => on_service (svc_accept_batch (JStr a) (JStr b))
  | URejectBatch a b => on_service (svc_reject_batch (JStr a) (JStr b))
  | UAcceptPairing a => on_service (svc_accept_pairing (JStr a))
  | URejectPairing a => on_service (svc_reject_pairing (JStr a))
  | USendFile a f => schedule (JSendFile (JStr a) (ih_path f))
  | USendBatch a l n => schedule (JSendBatch (JStr a) (map ih_path l) (JStr n))
  | UConnectPeer d =>
      s ← get;
      match find (fun x => bool_decide (d = dd_device_id x)) (svc_discovered_devices (ip_service s)) with
      | Some target => schedule (JConnect target)
      | None => send_error cid (u "Device " ++ d ++ u " not found")
      end
  | UGetHistory n =>
      s ← get;
      match svc_list_transfers (JInt n) (ip_service s) with
      | Ok records => client_send cid "IPC_HISTORY_RESULT"
                        (JObj (mkdict [("records", JArr (map (fun r => JObj (record_to_dict r)) records))]%string))
      | Err e => send_error cid (h_exn_text e)
      end
  | UGetTrustedDevices => s ← get; client_send cid "IPC_TRUSTED_DEVICES_RESULT" (devices_payload (svc_list_devices (ip_service s)))
  | URemoveTrustedDevice k =>
      on_service (svc_remove_device (JStr k));;
      s ← get; schedule (JBroadcast "IPC_TRUSTED_DEVICES_RESULT" (devices_payload (svc_list_devices (ip_service s))))
  | USetClipboardSync _ => mret tt
  | USendClipboardText t => clipboard_send (JStr t)
  | UDiscardResume t => on_service (svc_discard (JStr t))
  | URequestResume a t => schedule (JResume (JStr a) (JStr t))
  end.
(** An exception of the service becomes an error message to the client. *)
Definition answered (cid : nat) (m : M (IpcServer S) unit) : M (IpcServer S) unit :=
  try_except m (fun _ => true) (fun e =>
    send_error cid (match e with KeyError => u "Missing field: " ++ h_exn_text KeyError | _ => h_exn_text e end)).

Lemma mapM_to_path l : mapM_res to_path (map JStr l) = Ok (map ih_path l).
Proof. induction l as [|x l IH]; [done|]. cbn [map mapM_res to_path mbind res_bind]. by rewrite IH. Qed.

(** The dispatch of the daemon and the messages of the client agree. *)
Lemma command_perform cid c s :
  command cid (JStr (u (command_message c).1)) (JObj (command_message c).2) s = perform cid c s.
Proof.
  destruct c; try reflexivity.
  transitivity ((l ← lift (mapM_res to_path (map JStr paths)); schedule (JSendBatch (JStr remote_addr) l (JStr batch_name))) s); [done|].
  by rewrite mapM_to_path.
Qed.

(** C21. What the user does reaches the service: the frame that the client writes
    for a command is read by the daemon as one message, and handling that message
    for a subscribed client is performing the command, with its exceptions turned
    into error messages. *)
Theorem ui_command_reaches_service cid c now f rest (s : IpcServer S) :
  cid ∈ ip_clients s -> json_ok (JObj (command_message c).2) = true ->
  encode_ipc_frame now (JStr (u (command_message c).1)) (JObj (command_message c).2) = Ok f ->
  0 <= now < 2 ^ 63 -> zlen f <= 6 + IPC_MAX_FRAME ->
  exists msg, read_ipc_frame (f ++ rest) = Ok (Some (msg, rest)) /\ handle_message cid msg s = answered cid (perform cid c) s.
Proof.
  intros Hc Hok Hf Hn Hl. set (ty := JStr (u (command_message c).1)) in *. set (payload := JObj (command_message c).2) in *.
  assert (json_ok (ipc_message now ty payload) = true) as Hm.
  { unfold ipc_message. cbn [json_ok map fst snd mkdict forallb]. apply andb_true_iff. split; [by vm_compute|].
    assert (forallb is_scalar (u (command_message c).1) = true) as Hs by (by destruct c). unfold ty. cbn [json_ok].
    rewrite Hok, Hs. pose proof (length_dec_pos now 63 Hn ltac:(lia)). replace (Z.abs now) with now by lia.
    replace (zlen (dec_pos now) <=? INT_MAX_STR_DIGITS) with true by (unfold INT_MAX_STR_DIGITS; lia). by vm_compute. }
  exists (ipc_message now ty payload). split; [by apply (read_encode now ty payload f rest)|].
  unfold handle_message, ipc_message. cbn [as_dict]. unfold lift at 1, mbind at 1, M_bind at 1, get at 1, mbind at 1, M_bind at 1.
  change (dget_or _ "type" _) with ty. change (dget_or _ "payload" _) with payload.
  assert (eq_str ty (u "IPC_SUBSCRIBE") = false) as -> by (by destruct c).
  rewrite bool_decide_eq_true_2 by done. cbn [negb]. unfold dispatch_command, answered, try_except.
  unfold ty, payload. by rewrite command_perform.
Qed.
End commands.
