(* ===== verification/App.v ===== *)
(** * The application: [FerryApplication] of [ui/app.py]

    What the application does with the events of the daemon (calls of the methods
    of its window) and with the actions of the user, which go to the service
    through the client of the socket or, in the in-process mode, directly. *)
From S2P Require Import Prelude PyStr Sha256 Json Protocol Wire Payloads Transfer Fs Incoming Outgoing Session Bridge Config Db.
From S2P Require Import Identity Discovery Peers Service Sending Handshake Ipc UiClient.

(** The calls of methods of the window. *)
Inductive window_call :=
  | WDaemonStatus (connected : bool)
  | WStateSnapshot (devices sessions active_transfers config identity_prefix : json)
  | WDevices (devices : json)
  | WSession (payload : json)
  | WTransferRequest (remote_addr transfer_id file_name file_size : json)
  | WTransferProgress (transfer_id bytes_done total_bytes : json)
  | WTransferComplete (transfer_id success file_name direction : json)
  | WPairing (remote_addr device_name sas_code : json)
  | WHistory (records : json)
  | WTrustedDevices (devices : json).

Section app.
Context `{HC : Crypto} `{HR : PyRepr} `{HH : Host} `{HI : IpcHost} {S : Type} `{HS : UiService S}.

(** [ap_service] is the service of the in-process mode, with the coroutines that
    were handed to its loop. *)
Record FerryApplication := {
  ap_in_process : bool; ap_window : bool; ap_service : option (S * list job); ap_ipc : UiClient;
  ap_daemon_config : json; ap_identity_prefix : json; ap_discovered : json; ap_trusted : json;
  ap_calls : list window_call
}.
Definition ap_set_service (x : S * list job) (a : FerryApplication) : FerryApplication :=
  {| ap_in_process := ap_in_process a; ap_window := ap_window a; ap_service := Some x; ap_ipc := ap_ipc a;
     ap_daemon_config := ap_daemon_config a; ap_identity_prefix := ap_identity_prefix a; ap_discovered := ap_discovered a;
     ap_trusted := ap_trusted a; ap_calls := ap_calls a |}.
Definition ap_set_ipc (x : UiClient) (a : FerryApplication) : FerryApplication :=
  {| ap_in_process := ap_in_process a; ap_window := ap_window a; ap_service := ap_service a; ap_ipc := x;
     ap_daemon_config := ap_daemon_config a; ap_identity_prefix := ap_identity_prefix a; ap_discovered := ap_discovered a;
     ap_trusted := ap_trusted a; ap_calls := ap_calls a |}.
Definition ap_set_daemon (config prefix : json) (a : FerryApplication) : FerryApplication :=
  {| ap_in_process := ap_in_process a; ap_window := ap_window a; ap_service := ap_service a; ap_ipc := ap_ipc a;
     ap_daemon_config := config; ap_identity_prefix := prefix; ap_discovered := ap_discovered a;
     ap_trusted := ap_trusted a; ap_calls := ap_calls a |}.
Definition ap_set_lists (discovered trusted : json) (a : FerryApplication) : FerryApplication :=
  {| ap_in_process := ap_in_process a; ap_window := ap_window a; ap_service := ap_service a; ap_ipc := ap_ipc a;
     ap_daemon_config := ap_daemon_config a; ap_identity_prefix := ap_identity_prefix a; ap_discovered := discovered;
     ap_trusted := trusted; ap_calls := ap_calls a |}.
(** A method of the window, if there is one. *)
Definition in_window (w : window_call) : M FerryApplication unit :=
  modify (fun a => if ap_window a then
    {| ap_in_process := ap_in_process a; ap_window := ap_window a; ap_service := ap_service a; ap_ipc := ap_ipc a;
       ap_daemon_config := ap_daemon_config a; ap_identity_prefix := ap_identity_prefix a; ap_discovered := ap_discovered a;
       ap_trusted := ap_trusted a; ap_calls := ap_calls a ++ [w] |} else a).
Definition on_ipc {A} (m : M UiClient A) : M FerryApplication A := fun a =>
  let '(r, c) := m (ap_ipc a) in (r, ap_set_ipc c a).

(** ** Events *)

(** The registrations of [_start_ipc_client]. *)
Definition registrations : list (string * ui_callback) :=
  [("connected", CbConnected); ("disconnected", CbDisconnected); ("state_snapshot", CbStateSnapshot);
   ("device_update", CbDeviceUpdate); ("session_update", CbSessionUpdate); ("transfer_request", CbTransferRequest);
   ("transfer_progress", CbTransferProgress); ("transfer_complete", CbTransferComplete);
   ("pairing_request", CbPairingRequest); ("history_result", CbHistoryResult); ("trusted_devices", CbTrustedDevices)]%string.
Definition start_ipc_client : M FerryApplication unit :=
  iterM (fun r : string * ui_callback => on_ipc (ui_on r.1 r.2)) registrations.

Definition on_snapshot (p : jdict) : M FerryApplication unit :=
  let config := dget_or p "config" (JObj []) in
  let prefix := dget_or p "identity_key_prefix" (JStr []) in
  modify (ap_set_daemon config prefix);;
  in_window (WStateSnapshot (dget_or p "devices" (JArr [])) (dget_or p "sessions" (JArr []))
                            (dget_or p "active_transfers" (JArr [])) config prefix).
Definition on_device_update (p : jdict) : M FerryApplication unit :=
  let devices := dget_or p "devices" (JArr []) in
  modify (fun a => ap_set_lists devices (ap_trusted a) a);; in_window (WDevices devices).
Definition on_trusted_devices_result (p : jdict) : M FerryApplication unit :=
  let devices := dget_or p "devices" (JArr []) in
  modify (fun a => ap_set_lists (ap_discovered a) devices a);; in_window (WTrustedDevices devices).

(** A callback on the main loop.  The one for the clipboard is registered nowhere,
    and its method of the window does not exist. *)
Definition run_callback (cb : ui_callback) (payload : json) : M FerryApplication unit :=
  let text := JStr [] in
  match cb with
  | CbConnected => in_window (WDaemonStatus true)
  | CbDisconnected => in_window (WDaemonStatus false)
  | CbSessionUpdate => in_window (WSession payload)
  | CbStateSnapshot => p ← lift (as_dict payload); on_snapshot p
  | CbDeviceUpdate => p ← lift (as_dict payload); on_device_update p
  | CbTransferRequest =>
      p ← lift (as_dict payload);
      in_window (WTransferRequest (dget_or p "remote_addr" text) (dget_or p "transfer_id" text) (dget_or p "file_name" text)
                                  (dget_or p "file_size" (JInt 0)))
  | CbTransferProgress =>
      p ← lift (as_dict payload);
      in_window (WTransferProgress (dget_or p "transfer_id" text) (dget_or p "bytes_done" (JInt 0)) (dget_or p "total_bytes" (JInt 0)))
  | CbTransferComplete =>
      p ← lift (as_dict payload);
      in_window (WTransferComplete (dget_or p "transfer_id" text) (dget_or p "success" (JBool false)) (dget_or p "file_name" text)
                                   (dget_or p "direction" text))
  | CbPairingRequest =>
      p ← lift (as_dict payload);
      in_window (WPairing (dget_or p "remote_addr" text) (dget_or p "device_name" text) (dget_or p "sas_code" text))
  | CbClipboardIncoming =>
      lift (as_dict payload);;
      a ← get; if ap_window a then raise AttributeError else mret tt
  | CbHistoryResult => p ← lift (as_dict payload); in_window (WHistory (dget_or p "records" (JArr [])))
  | CbTrustedDevices => p ← lift (as_dict payload); on_trusted_devices_result p
  end.

(** ** Actions of the user *)

(** In process.  A coroutine that ends without long waits is run, the others
    are handed to the loop; an exception stays in the future. *)
Definition in_svc {A} (m : M S A) : M (S * list job) unit := fun x => (Ok tt, ((m x.1).2, x.2)).
Definition in_loop (j : job) : M (S * list job) unit := modify (fun x => (x.1, x.2 ++ [j])).
Definition in_process (c : ui_command) : M (S * list job) unit :=
  match c with
  | UAcceptTransfer a t => in_svc (svc_accept_transfer (JStr a) (JStr t))
  | URejectTransfer a t => in_svc (svc_reject_transfer (JStr a) (JStr t))
  | UCancelTransfer t => in_svc (svc_cancel_transfer (JStr t) (JStr (u "USER_CANCELLED")))
  | UAcceptBatch a b => in_svc (svc_accept_batch (JStr a) (JStr b))
  | URejectBatch a b => in_svc (svc_reject_batch (JStr a) (JStr b))
  | UAcceptPairing a => in_svc (svc_accept_pairing (JStr a))
  | URejectPairing a => in_svc (svc_reject_pairing (JStr a))
  | USendFile a f => in_loop (JSendFile (JStr a) (ih_path f))
  | USendBatch a l n => in_loop (JSendBatch (JStr a) (map ih_path l) (JStr n))
  | UConnectPeer d =>
      x ← get;
      match find (fun y => bool_decide (dd_device_id y = d)) (svc_discovered_devices x.1) with
      | Some target => in_loop (JConnect target)
      | None => mret tt
      end
  (** [db.get_recent_transfers] and [db.get_trusted_devices] do not exist: the
      exception is caught *)
  | UGetHistory _ | UGetTrustedDevices => mret tt
  | URemoveTrustedDevice k => in_svc (svc_remove_device (JStr k))
  | USetClipboardSync _ => mret tt     (** the service has no [clipboard_sync] *)
  | USendClipboardText t =>
      x ← get;
      iterM (fun e : pystr * (nat * PeerSession) =>
        if bool_decide (s_state (p_session e.2.2) = ESTABLISHED)
        then in_loop (JClipboard e.2.1 (mkdict [("text", JStr t); ("ts", JInt (svc_now x.1))]%string))
        else mret tt) (svc_sessions x.1)
  | UDiscardResume t => in_svc (svc_discard (JStr t))
  | URequestResume a t => in_loop (JResume (JStr a) (JStr t))
  end.

(** Three of the methods want the window too. *)
Definition needs_window (c : ui_command) : bool :=
  match c with UGetHistory _ | UGetTrustedDevices | URemoveTrustedDevice _ => true | _ => false end.
(** A method of the application for an action of the user, while the loop of the
    client runs. *)
Definition app_command (c : ui_command) : M FerryApplication unit :=
  a ← get;
  match ap_service a with
  | Some x =>
      if ap_in_process a && (negb (needs_window c) || ap_window a)
      then modify (ap_set_service (in_process c x).2)
      else on_ipc (ui_send c)
  | None => on_ipc (ui_send c)
  end.

(** ** The two modes *)

(** The same service, and the same coroutines on its loop. *)
Definition agrees (s : IpcServer S) (x : S * list job) : Prop := ip_service s = x.1 /\ ip_jobs s = x.2.

Lemma answered_agrees cid (m : M (IpcServer S) unit) s x : agrees (m s).2 x -> agrees (answered cid m s).2 x.
Proof. unfold answered, try_except. by destruct (m s) as [[[]|e] s']. Qed.
Lemma agrees_service {A} (m : M S A) s : agrees (on_service m s).2 (in_svc m (ip_service s, ip_jobs s)).2.
Proof. unfold on_service, in_svc. cbn. by destruct (m (ip_service s)). Qed.
Lemma agrees_clipboard t s :
  agrees (clipboard_send (JStr t) s).2 (in_process (USendClipboardText t) (ip_service s, ip_jobs s)).2.
Proof.
  unfold clipboard_send, in_process, mbind, M_bind, get. cbn [fst].
  set (now := svc_now (ip_service s)). set (l := svc_sessions (ip_service s)). clearbody now l.
  assert (forall s' x, agrees s' x ->
    agrees (iterM (fun e : pystr * (nat * PeerSession) =>
      if bool_decide (s_state (p_session e.2.2) = ESTABLISHED)
      then schedule (JClipboard e.2.1 (mkdict [("text", JStr t); ("ts", JInt now)]%string)) else mret tt) l s').2
    (iterM (fun e : pystr * (nat * PeerSession) =>
      if bool_decide (s_state (p_session e.2.2) = ESTABLISHED)
      then in_loop (JClipboard e.2.1 (mkdict [("text", JStr t); ("ts", JInt now)]%string)) else mret tt) l x).2) as H; [|by apply H].
  induction l as [|e l IH]; intros s' x Hx; [done|]. cbn [iterM]. unfold mbind, M_bind. case_bool_decide; [|by apply IH].
  unfold schedule at 1, in_loop at 1, modify. apply IH. destruct Hx as [H1 H2]. split; cbn; [done|]. by rewrite H2.
Qed.

(** C22. The in-process mode and the socket mode do the same: for every action of
    the user the service ends in the same state, and the same coroutines are
    scheduled, except that unpairing in process does not announce the new list. *)
Theorem modes_agree cid c (s : IpcServer S) :
  let s' := (answered cid (perform cid c) s).2 in
  let x' := (in_process c (ip_service s, ip_jobs s)).2 in
  ip_service s' = x'.1
  /\ match c with
     | URemoveTrustedDevice _ => ip_jobs s' = x'.2 \/ exists p, ip_jobs s' = x'.2 ++ [JBroadcast "IPC_TRUSTED_DEVICES_RESULT" p]
     | _ => ip_jobs s' = x'.2
     end.
Proof.
  assert (forall x', agrees (perform cid c s).2 x' -> agrees (answered cid (perform cid c) s).2 x') as Ha by (intros; by apply answered_agrees).
  cbv zeta. destruct c; try (apply Ha; apply agrees_service).
  - apply Ha. unfold perform, mbind, M_bind. pose proof (agrees_service (svc_cancel_transfer (JStr transfer_id) (JStr (u "USER_CANCELLED"))) s) as H.
    by destruct (on_service _ s) as [[]].
  - done.
  - done.
  - apply Ha. unfold perform, in_process, mbind, M_bind, get. cbn [fst].
    assert (forall l, find (fun y => bool_decide (device_id = dd_device_id y)) l = find (fun y => bool_decide (dd_device_id y = device_id)) l) as ->.
    { induction l as [|y l IH]; [done|]. cbn [find]. rewrite IH. by rewrite (bool_decide_ext (device_id = dd_device_id y) (dd_device_id y = device_id)) by naive_solver. }
    by destruct (find _ _).
  - apply Ha. unfold perform, mbind, M_bind, get. by destruct (svc_list_transfers _ _).
  - done.
  - unfold perform, in_process, answered, try_except, mbind, M_bind, on_service, in_svc. cbn [fst snd].
    destruct (svc_remove_device (JStr public_key_b64) (ip_service s)) as [[[]|e] x1]; cbn; split; try done; [right; by eexists|by left].
  - done.
  - apply Ha, agrees_clipboard.
  - done.
Qed.
End app.
Arguments FerryApplication S : clear implicits.
