(* ===== verification/Window.v ===== *)
(** * The window: [FerryMainWindow] of [ui/window.py]

    What the window keeps (sessions, rows, dialogs, file choosers, the calls
    queued for the main loop) and what it does with the calls of the application
    and with the clicks of the user, which end as commands.  Widgets are records
    of what they show; their looks are left out.  The toolkit delivers events in
    any order, except that queued calls run first in, first out. *)
From Stdlib Require Import SpecFloat.
From S2P Require Import Prelude PyStr Sha256 Json Protocol Wire Payloads Transfer Fs Incoming Outgoing Session Bridge Config Db.
From S2P Require Import Identity Discovery Peers Service Sending Handshake Ipc UiClient App.

(** ** Texts and numbers *)

(** What the window takes from the toolkit and the library: [str.capitalize],
    [GLib.markup_escape_text], and the response that a dialog gives when the
    program closes it, if it gives one. *)
Class Toolkit := {
  tk_capitalize : pystr -> pystr;
  tk_markup_escape : pystr -> pystr;
  tk_close_response : option pystr
}.

Definition ELLIPSIS : Z := 0x2026.
Definition BULLET : Z := 0x2022.
Definition CHECK : Z := 0x2713.
Definition CROSS : Z := 0x2717.
Definition DOWN : pystr := [0x2193].
Definition UP : pystr := [0x2191].

(** The binary numbers that are compared by value. *)
Inductive number := NFinite (m e : Z) | NInfinite (negative : bool).
Definition number_of (j : json) : option number :=
  match j with
  | JInt z => Some (NFinite z 0)
  | JBool b => Some (NFinite (if b then 1 else 0) 0)
  | JFloat (S754_zero _) => Some (NFinite 0 0)
  | JFloat (S754_infinity s) => Some (NInfinite s)
  | JFloat (S754_finite s m e) => Some (NFinite (if s then Zneg m else Zpos m) e)
  | _ => None
  end.
Definition number_eq (x y : number) : bool :=
  match x, y with
  | NFinite m e, NFinite n f => m * 2 ^ (e - Z.min e f) =? n * 2 ^ (f - Z.min e f)
  | NInfinite s, NInfinite t => eqb s t
  | _, _ => false
  end.

(** [a == b] *)
Fixpoint py_eq (a b : json) : bool :=
  match a, b with
  | JNull, JNull => true
  | JStr s, JStr t => bool_decide (s = t)
  | JArr l, JArr k =>
      (fix go l k := match l, k with
                     | [], [] => true
                     | x :: l, y :: k => py_eq x y && go l k
                     | _, _ => false
                     end) l k
  | JObj d, JObj e =>
      (length d =? length e)%nat
      && (fix go d := match d with
                      | [] => true
                      | (k, x) :: d => match aget k e with Some y => py_eq x y | None => false end && go d
                      end) d
  | _, _ => match number_of a, number_of b with Some x, Some y => number_eq x y | _, _ => false end
  end.

(** An argument that is declared [str] or [int]: the daemon sends nothing else
    there (see [notice_understood] below). *)
Definition text_of (j : json) : res pystr := match j with JStr s => Ok s | _ => Err TypeError end.
Definition integer_of (j : json) : res Z := match j with JInt z => Ok z | _ => Err TypeError end.
(** A value handed to a property of the toolkit that is a text. *)
Definition gtk_text (j : json) : res pystr :=
  match j with JStr s => if forallb is_scalar s then Ok s else Err UnicodeError | _ => Err TypeError end.

Definition has {A} (x : option A) : bool := match x with Some _ => true | None => false end.

(** [n / d] on integers: the nearest [float] *)
Definition sf_of_Z (z : Z) : spec_float :=
  match z with Z0 => S754_zero false | Zpos m => S754_finite false m 0 | Zneg m => S754_finite true m 0 end.
Definition is_infinite (f : spec_float) : bool := match f with S754_infinity _ => true | _ => false end.
Definition true_div (n d : Z) : res spec_float :=
  let q := SFdiv 53 1024 (sf_of_Z n) (sf_of_Z d) in if is_infinite q then Err OverflowError else Ok q.
Definition float_of_int (z : Z) : res spec_float :=
  let f := binary_normalize 53 1024 z 0 false in if is_infinite f then Err OverflowError else Ok f.

(** [n / d] to the nearest integer, ties to even. *)
Definition round_half_even (n d : Z) : Z :=
  let q := n / d in
  let r := 2 * (n mod d) in
  if r <? d then q else if d <? r then q + 1 else if Z.even q then q else q + 1.
(** [f"{x:.<p>f}"] *)
Definition fixed_point (p : Z) (f : spec_float) : pystr :=
  let body := fun n : Z =>
    let digits := dec_pos (n mod 10 ^ p) in
    dec_pos (n / 10 ^ p) ++ (if p =? 0 then [] else u "." ++ repeat 48 (Z.to_nat (p - zlen digits)) ++ digits) in
  let signed := fun (s : bool) t => if s then u "-" ++ t else t in
  match f with
  | S754_zero s => signed s (body 0)
  | S754_infinity s => signed s (u "inf")
  | S754_nan => u "nan"
  | S754_finite s m e =>
      signed s (body (if 0 <=? e then Zpos m * 2 ^ e * 10 ^ p else round_half_even (Zpos m * 10 ^ p) (2 ^ (- e))))
  end.

Definition sf_one : spec_float := binary_normalize 53 1024 1 0 false.
Definition sf_1024 : spec_float := binary_normalize 53 1024 1024 0 false.
Definition sf_100 : spec_float := binary_normalize 53 1024 100 0 false.

(** [_format_size] *)
Fixpoint size_in (units : list string) (f : spec_float) : pystr :=
  match units with
  | [] => fixed_point 1 f ++ u " TB"
  | unit :: units => if SFltb f sf_1024 then fixed_point 1 f ++ u " " ++ u unit else size_in units (SFdiv 53 1024 f sf_1024)
  end.
Definition format_size (size_bytes : Z) : res pystr :=
  f ← float_of_int size_bytes; Ok (size_in ["B"; "KB"; "MB"; "GB"]%string f).
Example format_size_examples :
  map (fun n => format_size n) [0; 1023; 1536; 1048576; 5 * 2 ^ 30; 2 ^ 60]
  = map (fun t => Ok (u t)) ["0.0 B"; "1023.0 B"; "1.5 KB"; "1.0 MB"; "5.0 GB"; "1048576.0 TB"]%string.
Proof. vm_compute. reflexivity. Qed.

(** ** The state *)

(** A row of a trusted or connected device: whether it has the badge, the session
    its buttons send to, and the key its bin button removes. *)
Record trusted_row := {
  tr_title : pystr; tr_subtitle : pystr; tr_connected : bool; tr_remote : option pystr; tr_unpair : option json
}.
Record device_row := { dr_title : pystr; dr_subtitle : pystr; dr_mobile : bool }.
(** [hr_resume] is the transfer of its button. *)
Record history_row := { hr_title : pystr; hr_subtitle : pystr; hr_mark : Z; hr_resume : option json }.
(** A row of an active transfer with its progress bar, its label and its button;
    the placeholder row has none. *)
Record transfer_row := {
  xr_title : pystr; xr_subtitle : pystr; xr_fraction : spec_float; xr_label : pystr;
  xr_visible : bool; xr_sensitive : bool; xr_transfer : option pystr
}.
(** A dialog by what its response does. *)
Inductive dialog_kind :=
  | DPairing (remote_addr : pystr)
  | DTransfer (remote_addr transfer_id file_name : pystr) (file_size : Z)
  | DMessage.
Record dialog := { dl_kind : dialog_kind; dl_heading : pystr; dl_body : pystr; dl_open : bool }.
Inductive chooser := ChooseFile | ChooseFiles | ChooseFolder.

(** A call handed to the main loop. *)
Inductive idle_call :=
  | IDevices (devices : json) | IShowDevices (devices : json)
  | ITrusted (devices : json) | IHistory (records : json)
  | IAskTrusted | IAskHistory | IDiagnostics
  | ISession (remote_addr state : json)
  | IRequest (remote_addr transfer_id file_name file_size : json)
  | IPairing (remote_addr device_name sas_code : json).

(** What is shown besides transfers and dialogs: the device lists, the history,
    the sensitivity of the three send buttons, and the two rows of the
    diagnostics. *)
Record Views := {
  vw_trusted : list trusted_row; vw_devices : list device_row; vw_history : list history_row;
  vw_sensitive : bool * bool * bool; vw_identity : pystr; vw_peer : pystr
}.
(** Row objects by identity; the rows shown; the entries of
    [_active_transfer_rows]; the rows that a timer will remove. *)
Record Panel := { pn_objs : list transfer_row; pn_rows : list nat; pn_active : list (pystr * (nat * Z)); pn_timers : list nat }.
(** Dialog objects by identity; [_pairing_dialogs]; open file choosers with the
    session they are for. *)
Record Dialogs := { dg_objs : list dialog; dg_pairing : list (pystr * nat); dg_choosers : list (chooser * pystr) }.
(** [w_app_prefix] is [_daemon_identity_prefix] of the application, [w_draws]
    counts fresh uuids, [w_commands] are the calls of methods of the
    application. *)
Record Window := {
  w_sessions : list (pystr * jdict); w_pending_path : option pystr; w_views : Views; w_panel : Panel; w_dialogs : Dialogs;
  w_idle : list idle_call; w_commands : list ui_command; w_app_prefix : json; w_draws : nat
}.

Definition set_ipc_sessions (x : list (pystr * jdict)) (w : Window) : Window :=
  {| w_sessions := x; w_pending_path := w_pending_path w; w_views := w_views w; w_panel := w_panel w; w_dialogs := w_dialogs w;
     w_idle := w_idle w; w_commands := w_commands w; w_app_prefix := w_app_prefix w; w_draws := w_draws w |}.
Definition set_pending (x : option pystr) (w : Window) : Window :=
  {| w_sessions := w_sessions w; w_pending_path := x; w_views := w_views w; w_panel := w_panel w; w_dialogs := w_dialogs w;
     w_idle := w_idle w; w_commands := w_commands w; w_app_prefix := w_app_prefix w; w_draws := w_draws w |}.
Definition set_views (x : Views) (w : Window) : Window :=
  {| w_sessions := w_sessions w; w_pending_path := w_pending_path w; w_views := x; w_panel := w_panel w; w_dialogs := w_dialogs w;
     w_idle := w_idle w; w_commands := w_commands w; w_app_prefix := w_app_prefix w; w_draws := w_draws w |}.
Definition set_panel (x : Panel) (w : Window) : Window :=
  {| w_sessions := w_sessions w; w_pending_path := w_pending_path w; w_views := w_views w; w_panel := x; w_dialogs := w_dialogs w;
     w_idle := w_idle w; w_commands := w_commands w; w_app_prefix := w_app_prefix w; w_draws := w_draws w |}.
Definition set_dialogs (x : Dialogs) (w : Window) : Window :=
  {| w_sessions := w_sessions w; w_pending_path := w_pending_path w; w_views := w_views w; w_panel := w_panel w; w_dialogs := x;
     w_idle := w_idle w; w_commands := w_commands w; w_app_prefix := w_app_prefix w; w_draws := w_draws w |}.
Definition set_idle (x : list idle_call) (w : Window) : Window :=
  {| w_sessions := w_sessions w; w_pending_path := w_pending_path w; w_views := w_views w; w_panel := w_panel w; w_dialogs := w_dialogs w;
     w_idle := x; w_commands := w_commands w; w_app_prefix := w_app_prefix w; w_draws := w_draws w |}.
Definition set_calls (x : list ui_command) (w : Window) : Window :=
  {| w_sessions := w_sessions w; w_pending_path := w_pending_path w; w_views := w_views w; w_panel := w_panel w; w_dialogs := w_dialogs w;
     w_idle := w_idle w; w_commands := x; w_app_prefix := w_app_prefix w; w_draws := w_draws w |}.
Definition set_prefix (x : json) (w : Window) : Window :=
  {| w_sessions := w_sessions w; w_pending_path := w_pending_path w; w_views := w_views w; w_panel := w_panel w; w_dialogs := w_dialogs w;
     w_idle := w_idle w; w_commands := w_commands w; w_app_prefix := x; w_draws := w_draws w |}.
Definition set_draws (x : nat) (w : Window) : Window :=
  {| w_sessions := w_sessions w; w_pending_path := w_pending_path w; w_views := w_views w; w_panel := w_panel w; w_dialogs := w_dialogs w;
     w_idle := w_idle w; w_commands := w_commands w; w_app_prefix := w_app_prefix w; w_draws := x |}.

Definition set_trusted_rows (l : list trusted_row) (v : Views) : Views :=
  {| vw_trusted := l; vw_devices := vw_devices v; vw_history := vw_history v; vw_sensitive := vw_sensitive v;
     vw_identity := vw_identity v; vw_peer := vw_peer v |}.
Definition set_device_rows (l : list device_row) (v : Views) : Views :=
  {| vw_trusted := vw_trusted v; vw_devices := l; vw_history := vw_history v; vw_sensitive := vw_sensitive v;
     vw_identity := vw_identity v; vw_peer := vw_peer v |}.
Definition set_history_rows (l : list history_row) (v : Views) : Views :=
  {| vw_trusted := vw_trusted v; vw_devices := vw_devices v; vw_history := l; vw_sensitive := vw_sensitive v;
     vw_identity := vw_identity v; vw_peer := vw_peer v |}.
Definition set_sensitive (x : bool * bool * bool) (v : Views) : Views :=
  {| vw_trusted := vw_trusted v; vw_devices := vw_devices v; vw_history := vw_history v; vw_sensitive := x;
     vw_identity := vw_identity v; vw_peer := vw_peer v |}.
Definition set_diagnostics (identity peer : pystr) (v : Views) : Views :=
  {| vw_trusted := vw_trusted v; vw_devices := vw_devices v; vw_history := vw_history v; vw_sensitive := vw_sensitive v;
     vw_identity := identity; vw_peer := peer |}.

Definition in_views (f : Views -> Views) : M Window unit := modify (fun w => set_views (f (w_views w)) w).
Definition in_panel (f : Panel -> Panel) : M Window unit := modify (fun w => set_panel (f (w_panel w)) w).
Definition in_dialogs (f : Dialogs -> Dialogs) : M Window unit := modify (fun w => set_dialogs (f (w_dialogs w)) w).
(** [GLib.idle_add] *)
Definition idle_add (c : idle_call) : M Window unit := modify (fun w => set_idle (w_idle w ++ [c]) w).
(** A call of a method of the application. *)
Definition ask (c : ui_command) : M Window unit := modify (fun w => set_calls (w_commands w ++ [c]) w).

Definition no_devices : device_row :=
  {| dr_title := u "No Raven Devices Discovered"; dr_subtitle := u "Ensure Raven is open on your Android phone on the same Wi-Fi";
     dr_mobile := false |}.
Definition no_trusted : trusted_row :=
  {| tr_title := u "No trusted devices"; tr_subtitle := []; tr_connected := false; tr_remote := None; tr_unpair := None |}.
Definition no_history : history_row :=
  {| hr_title := u "No transfer history"; hr_subtitle := []; hr_mark := 0; hr_resume := None |}.
Definition NO_TRANSFERS : pystr := u "No active transfers".
Definition no_transfers : transfer_row :=
  {| xr_title := NO_TRANSFERS; xr_subtitle := []; xr_fraction := S754_zero false; xr_label := [];
     xr_visible := false; xr_sensitive := false; xr_transfer := None |}.

(** [__init__]; before the first message of the daemon [_ipc_sessions] does not
    exist, and is read as empty. *)
Definition new_window : Window :=
  {| w_sessions := []; w_pending_path := None;
     w_views := {| vw_trusted := []; vw_devices := [no_devices]; vw_history := []; vw_sensitive := (false, false, false);
                   vw_identity := [0x2014]; vw_peer := u "Not connected" |};
     w_panel := {| pn_objs := [no_transfers]; pn_rows := [0%nat]; pn_active := []; pn_timers := [] |};
     w_dialogs := {| dg_objs := []; dg_pairing := []; dg_choosers := [] |};
     w_idle := [IAskTrusted; IAskHistory; IDiagnostics]; w_commands := []; w_app_prefix := JStr []; w_draws := 0 |}.

(** ** Sessions *)

Definition ESTABLISHED_NAME : pystr := u "ESTABLISHED".
(** [ps.get("state") == "ESTABLISHED"] *)
Definition is_established (ps : jdict) : bool := eq_str (dget_or ps "state" JNull) ESTABLISHED_NAME.
(** The items of [_ipc_sessions] that are established. *)
Definition established (w : Window) : list (pystr * jdict) :=
  List.filter (fun e : pystr * jdict => is_established e.2) (w_sessions w).
Definition set_all_sensitive (b : bool) : M Window unit := in_views (set_sensitive (b, b, b)).
Definition on_peers_updated : M Window unit :=
  w ← get; set_all_sensitive (negb (bool_decide (established w = []))).

Definition check_pending_send : M Window unit :=
  w ← get;
  match w_pending_path w, established w with
  | Some file_path, (remote_addr, _) :: _ =>
      if bool_decide (file_path = []) then mret tt
      else modify (set_pending None);; ask (USendFile remote_addr file_path)
  | _, _ => mret tt
  end.
Definition handle_pending_send (file_path : pystr) : M Window unit :=
  modify (set_pending (Some file_path));; check_pending_send.

(** ** Trusted devices *)

Section window.
Context `{HR : PyRepr} `{HH : Host} `{HI : IpcHost} `{HT : Toolkit}.

(** A device to show: its id, its name, its key, and whether it is stored. *)
Definition display_item : Type := json * json * json * bool.

(** [x in s] for a set: a value that is no key raises. *)
Definition in_set (x : json) (s : list json) : res bool := as_key x;; Ok (existsb (py_eq x) s).
(** [known_dev_ids], then the items of the stored devices *)
Definition known_ids (devices : list json) : res (list json) :=
  l ← mapM_res (fun d => match d with
    | JObj d => let id := dget_or d "device_id" JNull in
                if py_bool id then as_key id;; Ok [id] else Ok []
    | _ => Ok []
    end) devices;
  Ok (concat l).
Definition stored_item (d : json) : res display_item :=
  d ← as_dict d;
  Ok (dget_or d "device_id" JNull, dget_or d "device_name" JNull, dget_or d "identity_public_key_b64" JNull, true).
(** [a or b] *)
Definition py_or (a b : json) : json := if py_bool a then a else b.
(** The items of the established sessions of devices that are not known. *)
Fixpoint session_items (l : list (pystr * jdict)) (known : list json) : res (list display_item) :=
  match l with
  | [] => Ok []
  | (addr, ps) :: l =>
      let dev_id := py_or (dget_or ps "remote_device_id" JNull) (JStr addr) in
      b ← in_set dev_id known;
      if (b : bool) then session_items l known
      else
        rest ← session_items l (known ++ [dev_id]);
        Ok ((dev_id, py_or (dget_or ps "remote_device_name" JNull) (JStr (u "Android")),
             py_or (dget_or ps "remote_static_pub_b64" JNull) (JStr []), false) :: rest)
  end.

(** The session is one of the device. *)
Definition matches (dev_id pubkey : json) (e : pystr * jdict) : bool :=
  py_eq (dget_or e.2 "remote_device_id" JNull) dev_id
  || py_eq (JStr e.1) dev_id
  || (py_bool pubkey && py_eq (dget_or e.2 "remote_static_pub_b64" JNull) pubkey).
Definition make_trusted_row (est : list (pystr * jdict)) (it : display_item) : res trusted_row :=
  let '(dev_id, dev_name, pubkey, in_db) := it in
  title ← gtk_text (py_or dev_name (JStr (u "Unknown")));
  id ← text_of (py_or dev_id (JStr []));
  subtitle ← gtk_text (JStr (take 24 id ++ [ELLIPSIS]));
  let connected := existsb (matches dev_id pubkey) est in
  Ok {| tr_title := title; tr_subtitle := subtitle; tr_connected := connected;
        tr_remote := if connected then fst <$> find (matches dev_id pubkey) est else None;
        tr_unpair := if (in_db : bool) then Some pubkey else None |}.

Definition update_trusted_devices_from_db (devices : json) : M Window unit :=
  in_views (set_trusted_rows []);;
  w ← get;
  let est := established w in
  in_views (fun v => set_sensitive (negb (bool_decide (est = [])), (vw_sensitive v).1.2, (vw_sensitive v).2) v);;
  check_pending_send;;
  l ← lift (py_list devices);
  known ← lift (known_ids l);
  items ← lift (mapM_res stored_item l);
  more ← lift (session_items est known);
  match items ++ more with
  | [] => in_views (fun v => set_trusted_rows (vw_trusted v ++ [no_trusted]) v)
  | all_display_items =>
      iterM (fun it => row ← lift (make_trusted_row est it);
                       in_views (fun v => set_trusted_rows (vw_trusted v ++ [row]) v)) all_display_items
  end.
Definition update_trusted_devices : M Window unit := ask UGetTrustedDevices.

(** ** Discovered devices *)

(** [addresses[0] if addresses else "Unknown Address"] *)
Definition first_address (addresses : json) : res json :=
  if py_bool addresses then
    match addresses with
    | JArr (a :: _) => Ok a
    | JStr (c :: _) => Ok (JStr [c])
    | JObj _ => Err KeyError
    | _ => Err TypeError
    end
  else Ok (JStr (u "Unknown Address")).
(** [x.capitalize()] *)
Definition capitalize (j : json) : res pystr := match j with JStr s => Ok (tk_capitalize s) | _ => Err AttributeError end.
Definition make_device_row (dev : json) : res device_row :=
  dev ← as_dict dev;
  title ← gtk_text (dget_or dev "device_name" (JStr (u "Unknown")));
  addr ← first_address (dget_or dev "addresses" (JArr []));
  addr ← py_str addr;
  port ← py_str (dget_or dev "port" (JInt 0));
  os ← capitalize (dget_or dev "os_name" (JStr (u "unknown")));
  version ← py_str (dget_or dev "protocol_version" (JInt 1));
  subtitle ← gtk_text (JStr (addr ++ u ":" ++ port ++ u " " ++ [BULLET] ++ u " OS: " ++ os ++ u " " ++ [BULLET] ++ u " Protocol v" ++ version));
  Ok {| dr_title := title; dr_subtitle := subtitle; dr_mobile := eq_str (dget_or dev "device_type" (JStr (u "desktop"))) (u "mobile") |}.
(** [update_discovered_devices] queues [_update]. *)
Definition update_discovered_devices (devices : json) : M Window unit := idle_add (IShowDevices devices).
Definition show_discovered_devices (devices : json) : M Window unit :=
  in_views (set_device_rows []);;
  if py_bool devices then
    l ← lift (py_list devices);
    iterM (fun dev => row ← lift (make_device_row dev);
                      in_views (fun v => set_device_rows (vw_devices v ++ [row]) v)) l
  else in_views (set_device_rows [no_devices]).

(** ** Active transfers *)

(** A new row object. *)
Definition new_transfer_row (r : transfer_row) : M Window nat :=
  w ← get;
  in_panel (fun p => {| pn_objs := pn_objs p ++ [r]; pn_rows := pn_rows p; pn_active := pn_active p; pn_timers := pn_timers p |});;
  mret (length (pn_objs (w_panel w))).
Definition set_rows (l : list nat) : M Window unit :=
  in_panel (fun p => {| pn_objs := pn_objs p; pn_rows := l; pn_active := pn_active p; pn_timers := pn_timers p |}).
Definition set_active (l : list (pystr * (nat * Z))) : M Window unit :=
  in_panel (fun p => {| pn_objs := pn_objs p; pn_rows := pn_rows p; pn_active := l; pn_timers := pn_timers p |}).
Definition set_timers (l : list nat) : M Window unit :=
  in_panel (fun p => {| pn_objs := pn_objs p; pn_rows := pn_rows p; pn_active := pn_active p; pn_timers := l |}).
Definition change_row (k : nat) (f : transfer_row -> transfer_row) : M Window unit :=
  in_panel (fun p => {| pn_objs := alter f k (pn_objs p); pn_rows := pn_rows p; pn_active := pn_active p; pn_timers := pn_timers p |}).

Definition row_state (subtitle label : pystr) (fraction : option spec_float) (visible : bool) (r : transfer_row) : transfer_row :=
  {| xr_title := xr_title r; xr_subtitle := subtitle; xr_fraction := from_option id (xr_fraction r) fraction; xr_label := label;
     xr_visible := visible; xr_sensitive := xr_sensitive r; xr_transfer := xr_transfer r |}.
Definition row_insensitive (r : transfer_row) : transfer_row :=
  {| xr_title := xr_title r; xr_subtitle := xr_subtitle r; xr_fraction := xr_fraction r; xr_label := xr_label r;
     xr_visible := xr_visible r; xr_sensitive := false; xr_transfer := xr_transfer r |}.

Definition show_transfers_empty : M Window unit := set_rows [];; k ← new_transfer_row no_transfers; set_rows [k].

(** The shown rows are the placeholder. *)
Definition only_placeholder (p : Panel) : bool :=
  match pn_rows p with
  | [k] => match pn_objs p !! k with Some r => bool_decide (xr_title r = NO_TRANSFERS) | None => false end
  | _ => false
  end.
Definition add_transfer_row (transfer_id file_name : pystr) (total_bytes : Z) (direction : pystr) : M Window unit :=
  w ← get;
  (if only_placeholder (w_panel w) then set_rows [] else mret tt);;
  title ← lift (gtk_text (JStr (direction ++ u "  " ++ file_name)));
  k ← new_transfer_row {| xr_title := title; xr_subtitle := u "Waiting" ++ [ELLIPSIS]; xr_fraction := S754_zero false; xr_label := u "0 B";
                 xr_visible := true; xr_sensitive := true; xr_transfer := Some transfer_id |};
  w ← get;
  set_rows (pn_rows (w_panel w) ++ [k]);;
  set_active (aset transfer_id (k, total_bytes) (pn_active (w_panel w))).
(** [_on_cancel_clicked] of a row that is shown. *)
Definition on_cancel_clicked (k : nat) : M Window unit :=
  w ← get;
  match pn_objs (w_panel w) !! k with
  | Some r =>
      match xr_transfer r with
      | Some transfer_id =>
          if bool_decide (k ∈ pn_rows (w_panel w)) && xr_visible r && xr_sensitive r
          then change_row k row_insensitive;; ask (UCancelTransfer transfer_id)
          else mret tt
      | None => mret tt
      end
  | None => mret tt
  end.

(** The part of the file that is done: [total] may be 0. *)
Definition fraction_of (bytes_done total : Z) : res spec_float :=
  if 0 <? total then true_div bytes_done total else Ok (if total <=? bytes_done then sf_one else S754_zero false).
Definition update_transfer_progress (transfer_id : pystr) (bytes_done : Z) : M Window unit :=
  w ← get;
  match aget transfer_id (pn_active (w_panel w)) with
  | None => mret tt
  | Some (k, total) =>
      fraction ← lift (fraction_of bytes_done total);
      let shown := if SFltb sf_one fraction then sf_one else fraction in
      change_row k (fun r => row_state (xr_subtitle r) (xr_label r) (Some shown) (xr_visible r) r);;
      done ← lift (format_size bytes_done);
      size ← lift (format_size total);
      change_row k (fun r => row_state (fixed_point 0 (SFmul 53 1024 fraction sf_100) ++ u "%") (done ++ u " / " ++ size) None (xr_visible r) r)
  end.
Definition update_transfer_history : M Window unit := ask (UGetHistory 50).
(** The row of a transfer that is over goes after three seconds. *)
Definition remove_later (k : nat) : M Window unit := w ← get; set_timers (pn_timers (w_panel w) ++ [k]).
Definition handle_transfer_complete (transfer_id : pystr) (success : bool) : M Window unit :=
  w ← get;
  match aget transfer_id (pn_active (w_panel w)) with
  | Some (k, _) =>
      set_active (adel transfer_id (pn_active (w_panel w)));;
      change_row k (fun r =>
        if success then row_state (u "Completed") (u "Done " ++ [CHECK]) (Some sf_one) false r
        else row_state (u "Transfer failed or cancelled") (u "Failed " ++ [CROSS]) None false r);;
      remove_later k
  | None => mret tt
  end;;
  update_transfer_history.
(** [_remove_row], when its timer fires. *)
Definition remove_row (k : nat) : M Window unit :=
  w ← get;
  set_rows (remove_first k (pn_rows (w_panel w)));;
  w ← get;
  if bool_decide (pn_rows (w_panel w) = []) then show_transfers_empty else mret tt.
Definition on_timer (i : nat) : M Window unit :=
  w ← get;
  match pn_timers (w_panel w) !! i with
  | Some k => set_timers (delete i (pn_timers (w_panel w)));; remove_row k
  | None => mret tt
  end.
(** The rows of all active transfers, when any connection drops. *)
Definition clear_stuck : M Window unit :=
  w ← get;
  iterM (fun e : pystr * (nat * Z) =>
    w ← get;
    set_active (adel e.1 (pn_active (w_panel w)));;
    change_row e.2.1 (row_state (u "Connection lost") (u "Lost " ++ [CROSS]) None false);;
    remove_later e.2.1) (pn_active (w_panel w)).

(** ** Dialogs *)

Definition present (d : dialog) : M Window nat :=
  w ← get;
  in_dialogs (fun g => {| dg_objs := dg_objs g ++ [d]; dg_pairing := dg_pairing g; dg_choosers := dg_choosers g |});;
  mret (length (dg_objs (w_dialogs w))).
Definition set_pairing (l : list (pystr * nat)) : M Window unit :=
  in_dialogs (fun g => {| dg_objs := dg_objs g; dg_pairing := l; dg_choosers := dg_choosers g |}).
Definition shut (d : dialog) : dialog :=
  {| dl_kind := dl_kind d; dl_heading := dl_heading d; dl_body := dl_body d; dl_open := false |}.
Definition shut_dialog (k : nat) : M Window unit :=
  in_dialogs (fun g => {| dg_objs := alter shut k (dg_objs g); dg_pairing := dg_pairing g; dg_choosers := dg_choosers g |}).

(** [on_response] of the two kinds of dialogs that have one. *)
Definition on_response (d : dialog_kind) (response_id : pystr) : M Window unit :=
  let accept := bool_decide (response_id = u "accept") in
  match d with
  | DPairing addr =>
      w ← get;
      set_pairing (adel addr (dg_pairing (w_dialogs w)));;
      ask (if accept then UAcceptPairing addr else URejectPairing addr)
  | DTransfer addr tid name size =>
      if accept then add_transfer_row tid name size DOWN;; ask (UAcceptTransfer addr tid)
      else ask (URejectTransfer addr tid)
  | DMessage => mret tt
  end.
(** The response of the user: an open dialog closes with it. *)
Definition respond (k : nat) (response_id : pystr) : M Window unit :=
  w ← get;
  match dg_objs (w_dialogs w) !! k with
  | Some d => if dl_open d then shut_dialog k;; on_response (dl_kind d) response_id else mret tt
  | None => mret tt
  end.
(** [dlg.close()] *)
Definition close_dialog (k : nat) : M Window unit :=
  match tk_close_response with
  | Some r => respond k r
  | None => shut_dialog k
  end.

Definition show_error_toast (message : pystr) : M Window unit :=
  present {| dl_kind := DMessage; dl_heading := u "Error"; dl_body := message; dl_open := true |};; mret tt.

Definition NEWLINES : pystr := [10; 10].
Definition pairing_body (device_name sas_code : pystr) : pystr :=
  u "Verify that the following 6-digit code matches the one shown on " ++ device_name ++ u ":" ++ NEWLINES
  ++ u "<span size='xx-large' weight='bold'>" ++ sas_code ++ u "</span>".
Definition show_pairing_dialog (remote_addr device_name sas_code : json) : M Window unit :=
  addr ← lift (text_of remote_addr);
  w ← get;
  if has (aget addr (dg_pairing (w_dialogs w))) then mret tt
  else
    name ← lift (py_str device_name);
    code ← lift (py_str sas_code);
    heading ← lift (gtk_text (JStr (u "Pair with " ++ name ++ u "?")));
    body ← lift (gtk_text (JStr (pairing_body name code)));
    k ← present {| dl_kind := DPairing addr; dl_heading := heading; dl_body := body; dl_open := true |};
    set_pairing (aset addr k (dg_pairing (w_dialogs w))).

Definition transfer_body (device_name file_name size : pystr) : pystr :=
  device_name ++ u " wants to send you a file:" ++ NEWLINES ++ u "<b>" ++ tk_markup_escape file_name ++ u "</b> (" ++ size ++ u ")".
Definition handle_transfer_request (remote_addr transfer_id file_name file_size : json) : M Window unit :=
  addr ← lift (text_of remote_addr);
  w ← get;
  let ps := from_option id [] (aget addr (w_sessions w)) in
  device_name ← lift (py_str (dget_or ps "remote_device_name" (JStr (u "Unknown Device"))));
  tid ← lift (text_of transfer_id);
  name ← lift (text_of file_name);
  size ← lift (integer_of file_size);
  size_text ← lift (format_size size);
  body ← lift (gtk_text (JStr (transfer_body device_name name size_text)));
  present {| dl_kind := DTransfer addr tid name size; dl_heading := u "Incoming File Transfer"; dl_body := body; dl_open := true |};;
  mret tt.

(** ** States of sessions *)

(** [self._pairing_dialogs.pop(remote_addr, None)], and close it. *)
Definition drop_pairing (addr : pystr) : M Window unit :=
  w ← get;
  match aget addr (dg_pairing (w_dialogs w)) with
  | Some k => set_pairing (adel addr (dg_pairing (w_dialogs w)));; close_dialog k
  | None => mret tt
  end.
Definition handle_session_state (remote_addr state : json) : M Window unit :=
  addr ← lift (text_of remote_addr);
  (if eq_str state ESTABLISHED_NAME then
     update_trusted_devices;; drop_pairing addr;; set_all_sensitive true;; idle_add IDiagnostics
   else mret tt);;
  if existsb (fun n => eq_str state (u n)) ["FAILED"; "DISCONNECTED"; "CLOSING"]%string then
    update_trusted_devices;; drop_pairing addr;; on_peers_updated;; idle_add IDiagnostics;; clear_stuck;; update_transfer_history
  else mret tt.

(** ** History *)

Definition status_mark (status : json) : Z :=
  if eq_str status (u "COMPLETED") then CHECK
  else if eq_str status (u "FAILED") || eq_str status (u "CANCELLED") then CROSS else 0x23F8.
Definition make_history_row (rec : json) : res history_row :=
  rec ← as_dict rec;
  let direction := dget_or rec "direction" (JStr (u "OUTGOING")) in
  let status := dget_or rec "status" (JStr (u "UNKNOWN")) in
  let incoming := eq_str direction (u "INCOMING") in
  name ← py_str (dget_or rec "file_name" (JStr (u "Unknown")));
  title ← gtk_text (JStr ((if incoming then DOWN else UP) ++ u "  " ++ name));
  dir ← capitalize direction;
  file_size ← integer_of (dget_or rec "file_size" (JInt 0));
  size ← format_size file_size;
  st ← capitalize status;
  subtitle ← gtk_text (JStr (dir ++ u " " ++ [BULLET] ++ u " " ++ size ++ u " " ++ [BULLET] ++ u " " ++ st));
  let transfer_id := dget_or rec "transfer_id" (JStr []) in
  Ok {| hr_title := title; hr_subtitle := subtitle; hr_mark := status_mark status;
        hr_resume := if eq_str status (u "INTERRUPTED") && incoming then Some transfer_id else None |}.
Definition update_transfer_history_from_db (records : json) : M Window unit :=
  in_views (set_history_rows []);;
  if py_bool records then
    l ← lift (py_list records);
    iterM (fun rec => row ← lift (make_history_row rec);
                      in_views (fun v => set_history_rows (vw_history v ++ [row]) v)) l
  else in_views (set_history_rows [no_history]).
(** [_on_resume_clicked] of the row [i] of the history. *)
Definition on_resume_clicked (i : nat) : M Window unit :=
  w ← get;
  match vw_history (w_views w) !! i ≫= hr_resume with
  | Some tid =>
      match established w with
      | [] => show_error_toast (u "No active connection to peer to resume")
      | (remote_addr, _) :: _ => tid ← lift (text_of tid); ask (URequestResume remote_addr tid)
      end
  | None => mret tt
  end.

(** ** Diagnostics *)

Definition update_diagnostics : M Window unit :=
  w ← get;
  (if py_bool (w_app_prefix w)
   then t ← lift (gtk_text (w_app_prefix w)); in_views (fun v => set_diagnostics t (vw_peer v) v)
   else mret tt);;
  match established w with
  | (_, ps) :: _ =>
      name ← lift (py_str (dget_or ps "remote_device_name" (JStr (u "Unknown"))));
      addr ← lift (py_str (dget_or ps "remote_addr" (JStr (u "Unknown IP"))));
      t ← lift (gtk_text (JStr (name ++ u " - " ++ addr ++ u " (ESTABLISHED)")));
      in_views (fun v => set_diagnostics (vw_identity v) t v)
  | [] => in_views (fun v => set_diagnostics (vw_identity v) (u "Not connected") v)
  end.

(** ** Sending *)

(** [_launch_file_dialog] and the like, with the session the files are for. *)
Definition launch_dialog (c : chooser) (remote_addr : option pystr) : M Window unit :=
  match remote_addr with
  | Some (_ :: _ as addr) =>
      in_dialogs (fun g => {| dg_objs := dg_objs g; dg_pairing := dg_pairing g; dg_choosers := dg_choosers g ++ [(c, addr)] |})
  | _ => mret tt
  end.
(** A click on one of the three buttons of the window. *)
Definition on_send_clicked (c : chooser) : M Window unit :=
  w ← get;
  match established w with
  | [] => mret tt
  | (remote_addr, _) :: _ => launch_dialog c (Some remote_addr)
  end.
(** A click on a button of the row [i] of the trusted devices. *)
Definition on_row_send_clicked (c : chooser) (i : nat) : M Window unit :=
  w ← get;
  match vw_trusted (w_views w) !! i with
  | Some row => if tr_connected row then launch_dialog c (tr_remote row) else mret tt
  | None => mret tt
  end.
Definition on_unpair_clicked (i : nat) : M Window unit :=
  w ← get;
  match vw_trusted (w_views w) !! i ≫= tr_unpair with
  | Some pubkey => k ← lift (text_of pubkey); ask (URemoveTrustedDevice k)
  | None => mret tt
  end.

Definition draw_uuid4 : M Window pystr :=
  w ← get; modify (set_draws (Datatypes.S (w_draws w)));; mret (h_uuid4 (w_draws w)).
(** [f"{n} ..."] of the length of a list *)
Definition count_text {A} (l : list A) : pystr := dec_pos (zlen l).

(** The paths that a chooser gives: a file without one raises. *)
Definition chosen_paths (got : list (option pystr)) : res (list path) :=
  mapM_res (fun p : option pystr => match p with Some p => Ok (ih_path p) | None => Err TypeError end) got.
(** [files] are the sizes of the regular files there are. *)
Definition on_file_chosen (remote_addr : pystr) (paths : list path) (files : path -> option Z) : M Window unit :=
  match paths with
  | [] => mret tt
  | p :: _ =>
      match files p with
      | None => show_error_toast (u "Not a file: " ++ path_name p)
      | Some size =>
          transfer_id ← draw_uuid4;
          add_transfer_row transfer_id (path_name p) size UP;;
          ask (USendFile remote_addr (path_str p))
      end
  end.
Definition on_multiple_files_chosen (remote_addr : pystr) (paths : list path) (files : path -> option Z) : M Window unit :=
  let paths := List.filter (fun p => has (files p)) paths in
  if bool_decide (paths = []) then mret tt
  else ask (USendBatch remote_addr (map path_str paths) (count_text paths ++ u " files")).
Definition on_folder_chosen (remote_addr : pystr) (paths : list path) : M Window unit :=
  match paths with
  | [] => mret tt
  | p :: rest =>
      ask (USendBatch remote_addr (map path_str paths)
        (path_name p ++ if bool_decide (rest = []) then [] else u " and " ++ count_text rest ++ u " others"))
  end.
(** The answer of a chooser: [None] if it was dismissed. *)
Definition on_chosen (c : chooser) (remote_addr : pystr) (result : option (list (option pystr))) (files : path -> option Z) :
    M Window unit :=
  match result with
  | None => mret tt
  | Some got =>
      paths ← lift (chosen_paths got);
      match c with
      | ChooseFile => on_file_chosen remote_addr paths files
      | ChooseFiles => on_multiple_files_chosen remote_addr paths files
      | ChooseFolder => on_folder_chosen remote_addr paths
      end
  end.
Definition answer_chooser (i : nat) (result : option (list (option pystr))) (files : path -> option Z) : M Window unit :=
  w ← get;
  match dg_choosers (w_dialogs w) !! i with
  | Some (c, addr) =>
      in_dialogs (fun g => {| dg_objs := dg_objs g; dg_pairing := dg_pairing g; dg_choosers := delete i (dg_choosers g) |});;
      on_chosen c addr result files
  | None => mret tt
  end.

(** ** Calls of the application, and the main loop *)

(** [apply_state_snapshot], which is given no [trusted]; the application has
    stored the prefix before. *)
Definition apply_state_snapshot (devices sessions prefix : json) : M Window unit :=
  modify (set_prefix prefix);;
  let devices := py_or devices (JArr []) in
  let sessions := py_or sessions (JArr []) in
  l ← lift (py_list sessions);
  table ← lift (mapM_res (fun s => addr ← item s "remote_addr"; addr ← text_of addr; d ← as_dict s; Ok (addr, d)) l);
  modify (set_ipc_sessions (fold_left (fun t e => aset e.1 e.2 t) table []));;
  idle_add (IDevices devices);;
  idle_add (ITrusted (JArr []));;
  iterM (fun e : pystr * jdict => idle_add (ISession (JStr e.1) (dget_or e.2 "state" (JStr (u "DISCONNECTED"))))) table.

Definition handle_session_state_ipc (payload : json) : M Window unit :=
  payload ← lift (as_dict payload);
  let remote_addr := dget_or payload "remote_addr" (JStr []) in
  let state_name := dget_or payload "state" (JStr []) in
  addr ← lift (text_of remote_addr);
  (if eq_str state_name (u "DISCONNECTED")
   then modify (fun w => set_ipc_sessions (adel addr (w_sessions w)) w)
   else modify (fun w =>
     let entry := from_option id (mkdict [("remote_addr", remote_addr)]%string) (aget addr (w_sessions w)) in
     set_ipc_sessions (aset addr (fold_left (fun d kv => aset kv.1 kv.2 d) payload entry) (w_sessions w)) w));;
  idle_add (ISession remote_addr state_name).

(** A method of the window that the application calls. *)
Definition window_method (c : window_call) : M Window unit :=
  match c with
  | WDaemonStatus _ => mret tt
  | WStateSnapshot devices sessions _ _ prefix => apply_state_snapshot devices sessions prefix
  | WDevices devices => idle_add (IDevices devices)
  | WSession payload => handle_session_state_ipc payload
  | WTransferRequest addr tid name size => idle_add (IRequest addr tid name size)
  | WTransferProgress tid done _ =>
      tid ← lift (text_of tid); done ← lift (integer_of done); update_transfer_progress tid done
  | WTransferComplete tid success _ _ => tid ← lift (text_of tid); handle_transfer_complete tid (py_bool success)
  | WPairing addr name sas => idle_add (IPairing addr name sas)
  | WHistory records => idle_add (IHistory records)
  | WTrustedDevices devices => idle_add (ITrusted devices)
  end.

Definition run_idle (c : idle_call) : M Window unit :=
  match c with
  | IDevices devices => update_discovered_devices devices
  | IShowDevices devices => show_discovered_devices devices
  | ITrusted devices => update_trusted_devices_from_db devices
  | IHistory records => update_transfer_history_from_db records
  | IAskTrusted => update_trusted_devices
  | IAskHistory => update_transfer_history
  | IDiagnostics => update_diagnostics
  | ISession addr state => handle_session_state addr state
  | IRequest addr tid name size => handle_transfer_request addr tid name size
  | IPairing addr name sas => show_pairing_dialog addr name sas
  end.

Inductive window_event :=
  | WCall (c : window_call)                         (** the application calls *)
  | WIdle                                           (** the main loop is idle *)
  | WTimer (i : nat)
  | WRespond (k : nat) (response_id : pystr)        (** the user answers a dialog *)
  | WCancel (k : nat) | WResume (i : nat) | WUnpair (i : nat)
  | WSend (c : chooser) | WRowSend (c : chooser) (i : nat)
  | WChosen (i : nat) (result : option (list (option pystr))) (files : path -> option Z)
  | WPendingSend (file_path : pystr).

Definition window_handler (e : window_event) : M Window unit :=
  match e with
  | WCall c => window_method c
  | WIdle =>
      w ← get;
      match w_idle w with
      | c :: l => modify (set_idle l);; run_idle c
      | [] => mret tt
      end
  | WTimer i => on_timer i
  | WRespond k r => respond k r
  | WCancel k => on_cancel_clicked k
  | WResume i => on_resume_clicked i
  | WUnpair i => on_unpair_clicked i
  | WSend c => on_send_clicked c
  | WRowSend c i => on_row_send_clicked c i
  | WChosen i result files => answer_chooser i result files
  | WPendingSend p => handle_pending_send p
  end.
(** An exception of a handler is printed by the toolkit. *)
Definition window_step (w : Window) (e : window_event) : Window := (window_handler e w).2.
Definition window_run (es : list window_event) (w : Window) : Window := fold_left window_step es w.

(** ** Accepting is the user's *)

Definition harmless (c : ui_command) : Prop :=
  match c with UAcceptPairing _ | UAcceptTransfer _ _ => False | _ => True end.

(** What a dialog shows was asked for by a call in [H]. *)
Definition asked_for (H : window_call -> Prop) (d : dialog) : Prop :=
  match dl_kind d with
  | DPairing addr =>
      exists n c name code, H (WPairing (JStr addr) n c) /\ py_str n = Ok name /\ py_str c = Ok code
      /\ dl_body d = pairing_body name code
  | DTransfer addr tid name size =>
      H (WTransferRequest (JStr addr) (JStr tid) (JStr name) (JInt size))
      /\ exists device t, format_size size = Ok t /\ dl_body d = transfer_body device name t
  | DMessage => True
  end.
Definition queued_by (H : window_call -> Prop) (c : idle_call) : Prop :=
  match c with
  | IRequest addr tid name size => H (WTransferRequest addr tid name size)
  | IPairing addr name sas => H (WPairing addr name sas)
  | _ => True
  end.
(** The queue and the dialogs come from the calls in [H], and the commands since
    [base] satisfy [P]. *)
Record told (H : window_call -> Prop) (P : ui_command -> Prop) (base : list ui_command) (w : Window) : Prop := {
  td_idle : Forall (queued_by H) (w_idle w);
  td_dialogs : Forall (asked_for H) (dg_objs (w_dialogs w));
  td_commands : exists l, w_commands w = base ++ l /\ Forall P l
}.

Section told.
Context (H : window_call -> Prop) (P : ui_command -> Prop) (base : list ui_command).
Hypothesis Hcalm : forall c, harmless c -> P c.
Hypothesis Hclose : tk_close_response <> Some (u "accept").
Notation ok := (stable (told H P base)).

Lemma ok_get : ok get.
Proof. by intros w Hw. Qed.
(** Changes of anything but the queue, the dialogs and the commands. *)
Lemma ok_modify f :
  (forall w, w_idle (f w) = w_idle w /\ dg_objs (w_dialogs (f w)) = dg_objs (w_dialogs w) /\ w_commands (f w) = w_commands w) ->
  ok (modify f).
Proof.
  intros Hf w [Hi Hd Hc]. apply wp_modify. destruct (Hf w) as (E1 & E2 & E3). split; rewrite ?E1, ?E2, ?E3; done.
Qed.
Lemma ok_ask c : P c -> ok (ask c).
Proof.
  intros Hp w [Hi Hd (l & E & Hl)]. apply wp_modify. split; [done..|]. exists (l ++ [c]). cbn. rewrite E, app_assoc. split; [done|].
  apply Forall_app. split; [done|by apply Forall_singleton].
Qed.
Lemma ok_idle_add c : queued_by H c -> ok (idle_add c).
Proof.
  intros Hp w [Hi Hd Hc]. apply wp_modify. split; [|done..]. cbn. apply Forall_app. split; [done|by apply Forall_singleton].
Qed.
Lemma ok_present d : asked_for H d -> ok (present d).
Proof.
  intros Hp w [Hi Hd Hc]. unfold present. do 2 wp_step. apply wp_bind, wp_modify, wp_ret. split; [done| |done].
  cbn. apply Forall_app. split; [done|by apply Forall_singleton].
Qed.
Lemma ok_shut k : ok (shut_dialog k).
Proof.
  intros w [Hi Hd Hc]. apply wp_modify. split; [done| |done]. cbn. apply Forall_lookup. intros i d.
  destruct (decide (i = k)) as [->|Hn].
  - rewrite list_lookup_alter_eq. intros (d' & Hd' & ->)%fmap_Some. rewrite Forall_lookup in Hd. exact (Hd k d' Hd').
  - rewrite list_lookup_alter_ne by done. rewrite Forall_lookup in Hd. apply Hd.
Qed.
Lemma ok_iterM {A} (f : A -> M Window unit) l : (forall x, x ∈ l -> ok (f x)) -> ok (iterM f l).
Proof.
  induction l as [|x l IH]; intros Hf; cbn [iterM]; [apply stable_ret|].
  apply stable_bind; [apply Hf; left|]. intros _. apply IH. intros y Hy. apply Hf. by right.
Qed.
Lemma ok_in_views f : ok (in_views f). Proof. by apply ok_modify. Qed.
Lemma ok_in_panel f : ok (in_panel f). Proof. by apply ok_modify. Qed.
Lemma ok_set_pairing l : ok (set_pairing l). Proof. by apply ok_modify. Qed.
Lemma ok_choosers f : (forall g, dg_objs (f g) = dg_objs g) -> ok (in_dialogs f).
Proof. intros Hf. apply ok_modify. intros w. cbn. by rewrite Hf. Qed.

(** One step through a computation that keeps [told]. *)
Ltac ok_step :=
  lazymatch goal with
  | |- stable _ (lift _ ≫= _) => apply stable_bind_lift; intros ? ?
  | |- stable _ (_ ≫= _) => apply stable_bind; [|intros ?]
  | |- stable _ get => apply ok_get
  | |- stable _ (mret _) => apply stable_ret
  | |- stable _ (lift _) => apply stable_lift
  | |- stable _ (iterM _ _) => apply ok_iterM; intros ? _
  | |- stable _ (in_views _) => apply ok_in_views
  | |- stable _ (in_panel _) => apply ok_in_panel
  | |- stable _ (set_pairing _) => apply ok_set_pairing
  | |- stable _ (in_dialogs _) => by apply ok_choosers
  | |- stable _ (modify _) => by apply ok_modify
  | |- stable _ (idle_add _) => apply ok_idle_add; try done
  | |- stable _ (ask _) => apply ok_ask; auto
  | |- stable _ (shut_dialog _) => apply ok_shut
  | |- stable _ (match ?x with _ => _ end) => destruct x eqn:?
  end.
Ltac ok_steps := repeat ok_step; auto.

Lemma ok_add_transfer_row tid name total dir : ok (add_transfer_row tid name total dir).
Proof. unfold add_transfer_row, new_transfer_row, set_rows, set_active. ok_steps. Qed.
Lemma ok_check_pending : ok check_pending_send.
Proof. unfold check_pending_send. ok_steps. by apply Hcalm. Qed.
Lemma ok_clear_stuck : ok clear_stuck.
Proof. unfold clear_stuck, set_active, change_row, remove_later, set_timers. ok_steps. Qed.
Lemma ok_toast message : ok (show_error_toast message).
Proof. unfold show_error_toast. ok_steps. by apply ok_present. Qed.

(** Answering a dialog: only [accept] is more than harmless. *)
Definition accept_of (d : dialog_kind) : option ui_command :=
  match d with
  | DPairing addr => Some (UAcceptPairing addr)
  | DTransfer addr tid _ _ => Some (UAcceptTransfer addr tid)
  | DMessage => None
  end.
Lemma ok_on_response d r : (r = u "accept" -> forall c, accept_of d = Some c -> P c) -> ok (on_response d r).
Proof.
  intros Hr. unfold on_response. destruct d as [addr|addr tid name size|]; [| |apply stable_ret].
  - repeat ok_step. case_bool_decide; [by eapply Hr|by apply Hcalm].
  - case_bool_decide; repeat ok_step; [apply ok_add_transfer_row|by apply Hcalm].
Qed.
Lemma ok_close k : ok (close_dialog k).
Proof.
  unfold close_dialog, respond. destruct tk_close_response as [r|] eqn:E; [|apply ok_shut].
  repeat ok_step. apply ok_on_response. intros ->. by destruct Hclose.
Qed.
Lemma ok_session_state addr state : ok (handle_session_state addr state).
Proof.
  assert (forall a, ok (drop_pairing a)) as Hp by (intros a; unfold drop_pairing; ok_steps; apply ok_close).
  assert (ok update_trusted_devices) as Ht by (by apply ok_ask, Hcalm).
  assert (ok update_transfer_history) as Hh by (by apply ok_ask, Hcalm).
  unfold handle_session_state, on_peers_updated, set_all_sensitive. ok_steps. apply ok_clear_stuck.
Qed.
Lemma ok_transfer_request addr tid name size :
  H (WTransferRequest addr tid name size) -> ok (handle_transfer_request addr tid name size).
Proof.
  intros Hc. unfold handle_transfer_request. cbv zeta. repeat ok_step.
  apply ok_present. unfold asked_for. cbn [dl_kind dl_body].
  destruct addr, tid, name, size; cbn [text_of integer_of] in *; simplify_eq. split; [done|].
  match goal with E : gtk_text _ = Ok _ |- _ => revert E end. cbn [gtk_text]. case_match; [|done]. intros [= <-]. eauto.
Qed.
Lemma ok_pairing addr name sas : H (WPairing addr name sas) -> ok (show_pairing_dialog addr name sas).
Proof.
  intros Hc. unfold show_pairing_dialog. repeat ok_step.
  apply ok_present. unfold asked_for. cbn [dl_kind dl_body]. destruct addr; cbn [text_of] in *; simplify_eq.
  match goal with E : gtk_text (JStr (pairing_body _ _)) = Ok _ |- _ => revert E end. cbn [gtk_text]. case_match; [|done].
  intros [= <-]. eauto 10.
Qed.
Lemma ok_trusted devices : ok (update_trusted_devices_from_db devices).
Proof. unfold update_trusted_devices_from_db. repeat ok_step. apply ok_check_pending. Qed.
Lemma ok_history records : ok (update_transfer_history_from_db records).
Proof. unfold update_transfer_history_from_db. ok_steps. Qed.
Lemma ok_run_idle c : queued_by H c -> ok (run_idle c).
Proof.
  destruct c; cbn [run_idle queued_by]; intros Hc.
  - unfold update_discovered_devices. ok_steps.
  - unfold show_discovered_devices. ok_steps.
  - apply ok_trusted.
  - apply ok_history.
  - by apply ok_ask, Hcalm.
  - by apply ok_ask, Hcalm.
  - unfold update_diagnostics. ok_steps.
  - apply ok_session_state.
  - by apply ok_transfer_request.
  - by apply ok_pairing.
Qed.
Lemma ok_window_method c : H c -> ok (window_method c).
Proof.
  intros Hc. destruct c; cbn [window_method]; try by ok_steps.
  - unfold apply_state_snapshot. ok_steps.
  - unfold handle_session_state_ipc. ok_steps.
  - unfold update_transfer_progress, change_row. ok_steps.
  - unfold handle_transfer_complete, update_transfer_history, set_active, change_row, remove_later, set_timers. ok_steps.
    by apply Hcalm.
Qed.
Lemma ok_on_chosen c addr result files : ok (on_chosen c addr result files).
Proof.
  unfold on_chosen, on_file_chosen, on_multiple_files_chosen, on_folder_chosen, draw_uuid4. cbv zeta. ok_steps; try (by apply ok_toast || by apply Hcalm || by apply ok_add_transfer_row).
Qed.
Lemma ok_on_timer i : ok (on_timer i).
Proof. unfold on_timer, remove_row, show_transfers_empty, new_transfer_row, set_timers, set_rows. ok_steps. Qed.

Lemma ok_event e :
  (forall c, e = WCall c -> H c) -> (forall k r, e <> WRespond k r) -> ok (window_handler e).
Proof.
  intros Hc Hr. destruct e; cbn [window_handler].
  - by apply ok_window_method, Hc.
  - intros w Hw. do 2 wp_step. pose proof Hw as [Hi Hd Hcm]. destruct (w_idle w) as [|c l] eqn:E; [by wp_step|].
    inversion_clear Hi. wp_step. wp_step. apply ok_run_idle; [done|]. by split.
  - apply ok_on_timer.
  - by destruct (Hr k response_id).
  - unfold on_cancel_clicked, change_row. ok_steps. by apply Hcalm.
  - unfold on_resume_clicked. ok_steps; by apply ok_toast || by apply Hcalm.
  - unfold on_unpair_clicked. ok_steps. by apply Hcalm.
  - unfold on_send_clicked, launch_dialog. ok_steps.
  - unfold on_row_send_clicked, launch_dialog. ok_steps.
  - unfold answer_chooser. ok_steps. apply ok_on_chosen.
  - unfold handle_pending_send. ok_steps. apply ok_check_pending.
Qed.
(** The handler of an event, when [H] has its call and [P] what its answer asks. *)
Lemma ok_window_handler e w :
  (forall c, e = WCall c -> H c) ->
  (forall k d c, e = WRespond k (u "accept") -> dg_objs (w_dialogs w) !! k = Some d -> dl_open d = true ->
                 accept_of (dl_kind d) = Some c -> P c) ->
  told H P base w -> told H P base (window_step w e).
Proof.
  intros Hc Hr Hw. unfold window_step. change (wp (window_handler e) (fun _ w' => told H P base w') w).
  destruct e; try by apply ok_event.
  cbn [window_handler]. unfold respond. do 2 wp_step. destruct (dg_objs _ !! k) as [d|] eqn:Ek; [|by wp_step].
  destruct (dl_open d) eqn:Eo; [|by wp_step]. revert w Hw Hr Ek. intros w Hw Hr Ek.
  revert Hw. apply (stable_bind (told H P base)); [apply ok_shut|]. intros _.
  apply ok_on_response. intros -> c Hd. by eapply (Hr k d c).
Qed.
End told.

Lemma told_mono H H' P P' base w :
  (forall c, H c -> H' c) -> (forall c, P c -> P' c) -> told H P base w -> told H' P' base w.
Proof.
  intros HH' HP [Hi Hd (l & E & Hl)]. split.
  - eapply Forall_impl; [exact Hi|]. intros [] Hc; cbn in *; auto.
  - eapply Forall_impl; [exact Hd|]. intros d. unfold asked_for. destruct (dl_kind d); [|naive_solver|done].
    intros (n & c & name & code & Hc & Hrest). eauto 10.
  - exists l. split; [done|]. by eapply Forall_impl.
Qed.
Lemma window_run_snoc es e w : window_run (es ++ [e]) w = window_step (window_run es w) e.
Proof. unfold window_run. by rewrite fold_left_app. Qed.

(** The answer [cmd] was given during [es]. *)
Definition answered_in (es : list window_event) (cmd : ui_command) : Prop :=
  exists es1 k es2 d, es = es1 ++ WRespond k (u "accept") :: es2
  /\ dg_objs (w_dialogs (window_run es1 new_window)) !! k = Some d /\ dl_open d = true
  /\ accept_of (dl_kind d) = Some cmd /\ asked_for (fun c => WCall c ∈ es1) d.
Lemma told_run es :
  tk_close_response <> Some (u "accept") ->
  told (fun c => WCall c ∈ es) (fun c => harmless c \/ answered_in es c) [] (window_run es new_window).
Proof.
  intros Hclose. induction es as [|e es IH] using rev_ind.
  { split; [by repeat constructor|constructor|by exists []]. }
  rewrite window_run_snoc. apply ok_window_handler; [auto|done|..].
  - intros c ->. set_solver.
  - intros k d c -> Hk Ho Hc. right. exists es, k, [], d. split; [done|]. split; [done|]. split; [done|]. split; [done|].
    pose proof (td_dialogs _ _ _ _ IH) as Hd. rewrite Forall_lookup in Hd. by eapply Hd.
  - eapply told_mono; [..|exact IH].
    + set_solver.
    + intros c [Hc|(es1 & k & es2 & d & -> & Hrest)]; [by left|right]. exists es1, k, (es2 ++ [e]), d.
      rewrite <-app_assoc. by split.
Qed.

(** C27. Whatever the daemon sends and however events interleave, the window
    accepts a pairing or a transfer only because the user answered [accept] to an
    open dialog for it; that dialog was asked for by the daemon for the same peer
    (and the same transfer), and shows the verification code, respectively the
    escaped name and the size of the file, that came with the request. *)
Theorem accepting_is_the_users es cmd :
  tk_close_response <> Some (u "accept") ->
  (match cmd with UAcceptPairing _ | UAcceptTransfer _ _ => True | _ => False end) ->
  cmd ∈ w_commands (window_run es new_window) ->
  exists es1 k es2 d, es = es1 ++ WRespond k (u "accept") :: es2
  /\ dg_objs (w_dialogs (window_run es1 new_window)) !! k = Some d /\ dl_open d = true
  /\ match dl_kind d, cmd with
     | DPairing addr, UAcceptPairing addr' =>
         addr = addr' /\ exists n c name code, WCall (WPairing (JStr addr) n c) ∈ es1 /\ py_str n = Ok name /\ py_str c = Ok code
         /\ dl_body d = pairing_body name code
     | DTransfer addr tid name size, UAcceptTransfer addr' tid' =>
         addr = addr' /\ tid = tid' /\ WCall (WTransferRequest (JStr addr) (JStr tid) (JStr name) (JInt size)) ∈ es1
         /\ exists device t, format_size size = Ok t /\ dl_body d = transfer_body device name t
     | _, _ => False
     end.
Proof.
  intros Hclose Hcmd Hin. destruct (told_run es Hclose) as [_ _ (l & E & Hl)]. rewrite E in Hin. cbn in Hin.
  rewrite Forall_forall in Hl. destruct (Hl _ Hin) as [Hc|(es1 & k & es2 & d & He & Hk & Ho & Ha & Hask)]; [by destruct cmd|].
  exists es1, k, es2, d. split; [done|]. split; [done|]. split; [done|]. unfold asked_for in Hask.
  destruct (dl_kind d); cbn in Ha; simplify_eq; naive_solver.
Qed.

(** ** The list of trusted devices *)

Lemma mapM_res_elem {A B} (f : A -> res B) l ys x : mapM_res f l = Ok ys -> x ∈ l -> exists y, f x = Ok y /\ y ∈ ys.
Proof.
  revert ys. induction l as [|a l IH]; cbn [mapM_res]; intros ys E Hx; [by apply not_elem_of_nil in Hx|]. res_inv.
  apply elem_of_cons in Hx as [->|Hx]; [eexists; split; [done|left]|].
  edestruct IH as (y & Hy & Hin); [done..|]. exists y. split; [done|by right].
Qed.
Lemma mapM_res_elem_inv {A B} (f : A -> res B) l ys y : mapM_res f l = Ok ys -> y ∈ ys -> exists x, f x = Ok y /\ x ∈ l.
Proof.
  revert ys. induction l as [|a l IH]; cbn [mapM_res]; intros ys E Hy; res_inv; [by apply not_elem_of_nil in Hy|].
  apply elem_of_cons in Hy as [->|Hy]; [exists a; split; [done|left]|].
  edestruct IH as (x' & Hx & Hin); [done..|]. exists x'. split; [done|by right].
Qed.

Definition item_id (it : display_item) : json := it.1.1.1.
Definition device_id_of (e : pystr * jdict) : json := py_or (dget_or e.2 "remote_device_id" JNull) (JStr e.1).

(** Every known id is the id of an item. *)
Lemma known_ids_stored l known items y :
  known_ids l = Ok known -> mapM_res stored_item l = Ok items -> y ∈ known -> y ∈ map item_id items.
Proof.
  unfold known_ids. intros Hk Hi Hy. res_inv. apply list_elem_of_In, in_concat in Hy as (ids & Hids & Hy).
  apply list_elem_of_In in Hids, Hy. edestruct @mapM_res_elem_inv as (d & Hd & Hl); [exact H|exact Hids|].
  destruct d as [| | | | | |d]; try (injection Hd as <-; by apply not_elem_of_nil in Hy).
  edestruct @mapM_res_elem as (it & Hit & Hin); [exact Hi|exact Hl|]. cbn in Hit. injection Hit as <-.
  case_match; res_inv; [|by apply not_elem_of_nil in Hy]. apply list_elem_of_singleton in Hy as ->.
  apply list_elem_of_fmap. by eexists (_, _, _, true).
Qed.
(** Every session has an item, its own or one of a known device. *)
Lemma session_items_cover est : forall known items e,
  session_items est known = Ok items -> e ∈ est ->
  exists y, y ∈ known ++ map item_id items /\ (py_eq (device_id_of e) y = true \/ y = device_id_of e).
Proof.
  induction est as [|[addr ps] est IH]; intros known items e E He; [by apply not_elem_of_nil in He|].
  cbn [session_items] in E. change (py_or _ (JStr addr)) with (device_id_of (addr, ps)) in E. set (id := device_id_of (addr, ps)) in *.
  unfold in_set in E. res_inv. apply elem_of_cons in He as [->|He].
  - match goal with E : (if ?b then _ else _) = Ok _ |- _ => destruct b eqn:Eb end.
    + apply existsb_exists in Eb as (y & Hy & Heq). apply list_elem_of_In in Hy. exists y. split; [|by left]. set_solver.
    + res_inv. exists id. split; [|by right]. set_solver.
  - match goal with E : (if ?b then _ else _) = Ok _ |- _ => destruct b eqn:Eb end.
    + by eapply IH.
    + res_inv. edestruct IH as (y & Hy & Hd); [done|exact He|]. exists y. split; [|done]. set_solver.
Qed.

(** The loop that adds the rows. *)
Lemma add_rows {A} (f : A -> res trusted_row) l : forall w w',
  iterM (fun it => row ← lift (f it); in_views (fun v => set_trusted_rows (vw_trusted v ++ [row]) v)) l w = (Ok tt, w') ->
  exists rows, mapM_res f l = Ok rows /\ vw_trusted (w_views w') = vw_trusted (w_views w) ++ rows.
Proof.
  induction l as [|x l IH]; intros w w' E; cbn [iterM mapM_res] in *.
  { injection E as <-. exists []. by rewrite app_nil_r. }
  apply mbind_inv in E as (a & w1 & E1 & E). apply mbind_inv in E1 as (row & w2 & E2 & E1).
  unfold lift in E2. injection E2 as Ef <-. rewrite Ef. injection E1 as <- <-. apply IH in E as (rows & Hr & Ev).
  exists (row :: rows). cbn [mbind res_bind]. rewrite Hr. split; [done|]. rewrite Ev. cbn. by rewrite <-app_assoc.
Qed.
Lemma check_pending_views w : (check_pending_send w).1 = Ok tt /\ w_views (check_pending_send w).2 = w_views w
  /\ w_sessions (check_pending_send w).2 = w_sessions w.
Proof.
  unfold check_pending_send, mbind, M_bind, get. destruct (w_pending_path w) as [p|]; [|done].
  destruct (established w) as [|[a ps] l]; [done|]. by case_bool_decide.
Qed.
(** The rows, when nothing raises. *)
Lemma trusted_rows_of devices w w' :
  update_trusted_devices_from_db devices w = (Ok tt, w') ->
  exists l known items more rows, py_list devices = Ok l /\ known_ids l = Ok known /\ mapM_res stored_item l = Ok items
  /\ session_items (established w) known = Ok more /\ mapM_res (make_trusted_row (established w)) (items ++ more) = Ok rows
  /\ vw_trusted (w_views w') = if bool_decide (items ++ more = []) then [no_trusted] else rows.
Proof.
  intros E. unfold update_trusted_devices_from_db in E. apply mbind_inv in E as ([] & w1 & E1 & E). injection E1 as <-.
  apply mbind_inv in E as (w0 & w1' & E1 & E). injection E1 as <- <-.
  change (established _) with (established w) in E. apply mbind_inv in E as ([] & w2 & E1 & E). injection E1 as <-.
  apply mbind_inv in E as ([] & w3 & E1 & E).
  match type of E1 with check_pending_send ?x = _ => pose proof (check_pending_views x) as (_ & Hv & _) end.
  rewrite E1 in Hv. cbn in Hv.
  apply mbind_inv in E as (l & w4 & E2 & E). injection E2 as El <-.
  apply mbind_inv in E as (known & w5 & E2 & E). injection E2 as Ek <-.
  apply mbind_inv in E as (items & w6 & E2 & E). injection E2 as Ei <-.
  apply mbind_inv in E as (more & w7 & E2 & E). injection E2 as Em <-.
  exists l, known, items, more. destruct (items ++ more) as [|it rest] eqn:Eall.
  - exists []. repeat split; [done..|]. injection E as <-. cbn. by rewrite Hv.
  - apply add_rows in E as (rows & Hr & Ev). exists rows. repeat split; [done..|]. rewrite Ev, Hv. done.
Qed.

Lemma py_eq_str s : py_eq (JStr s) (JStr s) = true.
Proof. cbn. by apply bool_decide_eq_true. Qed.
(** A row for an id of the device of a session is connected. *)
Lemma matches_id y name key db est e row :
  make_trusted_row est (y, name, key, db) = Ok row -> py_eq (device_id_of e) y = true \/ y = device_id_of e ->
  matches y key e = true.
Proof.
  intros Hrow Hy. unfold make_trusted_row in Hrow. res_inv. unfold matches. unfold device_id_of, py_or in *.
  destruct (py_bool (dget_or e.2 "remote_device_id" JNull)) eqn:Eb; destruct Hy as [Hy| ->].
  - by rewrite Hy.
  - rewrite Eb in *. destruct (dget_or e.2 "remote_device_id" JNull) as [| | | |s| |]; try discriminate. by rewrite py_eq_str.
  - by rewrite Hy, orb_true_r.
  - by rewrite py_eq_str, orb_true_r.
Qed.
Lemma make_trusted_row_spec est id name key db row :
  make_trusted_row est (id, name, key, db) = Ok row ->
  tr_connected row = existsb (matches id key) est /\ tr_unpair row = (if (db : bool) then Some key else None)
  /\ (tr_connected row = true -> exists a ps, tr_remote row = Some a /\ (a, ps) ∈ est).
Proof.
  unfold make_trusted_row. intros E. res_inv. cbn. split; [done|]. split; [done|]. intros Hc. rewrite Hc.
  destruct (find (matches id key) est) as [[a ps]|] eqn:Ef.
  - apply find_some in Ef as [Ha _]. exists a, ps. split; [done|]. by apply list_elem_of_In.
  - apply existsb_exists in Hc as (e & He & Hm). by rewrite (find_none _ _ Ef _ He) in Hm.
Qed.

(** C29. The list of devices is right when it is built: each established session is
    shown, in a row of its device that has the badge; the buttons of a row with
    the badge send to a session that is established; and each stored device has a
    row that can unpair it. *)
Theorem established_shown devices w w' :
  update_trusted_devices_from_db devices w = (Ok tt, w') ->
  (forall e, e ∈ established w -> exists row id name key db,
     row ∈ vw_trusted (w_views w') /\ tr_connected row = true
     /\ make_trusted_row (established w) (id, name, key, db) = Ok row /\ matches id key e = true)
  /\ (forall row, row ∈ vw_trusted (w_views w') -> tr_connected row = true ->
      exists a ps, tr_remote row = Some a /\ (a, ps) ∈ established w)
  /\ (forall l d, devices = JArr l -> JObj d ∈ l -> exists row,
      row ∈ vw_trusted (w_views w') /\ tr_unpair row = Some (dget_or d "identity_public_key_b64" JNull)).
Proof.
  intros E. apply trusted_rows_of in E as (l & known & items & more & rows & El & Ek & Ei & Em & Er & ->).
  split; [|split].
  - intros e He. destruct (session_items_cover _ _ _ _ Em He) as (y & Hy & Hd).
    assert (y ∈ map item_id (items ++ more)) as (it & -> & Hit)%list_elem_of_fmap.
    { rewrite map_app. apply elem_of_app in Hy as [Hy|Hy]; apply elem_of_app; [left|by right]. by eapply known_ids_stored. }
    rewrite bool_decide_eq_false_2 by (intros E0; by rewrite E0 in Hit; apply not_elem_of_nil in Hit).
    destruct (mapM_res_elem _ _ _ _ Er Hit) as (row & Hrow & Hin). destruct it as [[[id name] key] db].
    pose proof (matches_id _ _ _ _ _ e _ Hrow Hd) as Hm. exists row, id, name, key, db. split; [done|]. split; [|done].
    rewrite (proj1 (make_trusted_row_spec _ _ _ _ _ _ Hrow)). apply existsb_exists. exists e. by rewrite <-list_elem_of_In.
  - intros row Hin Hc. case_bool_decide; [by apply list_elem_of_singleton in Hin as ->|].
    destruct (mapM_res_elem_inv _ _ _ _ Er Hin) as ([[[id name] key] db] & Hrow & _).
    by apply (make_trusted_row_spec _ _ _ _ _ _ Hrow).
  - intros l' d -> Hd. injection El as <-. destruct (mapM_res_elem _ _ _ _ Ei Hd) as (it & Hit & Hin).
    assert (it ∈ items ++ more) as Hin' by set_solver.
    rewrite bool_decide_eq_false_2 by (intros E0; by rewrite E0 in Hin'; apply not_elem_of_nil in Hin').
    destruct (mapM_res_elem _ _ _ _ Er Hin') as (row & Hrow & Hr). exists row. split; [done|].
    cbn in Hit. injection Hit as <-. by apply (make_trusted_row_spec _ _ _ _ _ _ Hrow).
Qed.
End window.

(** ** The window follows the daemon *)

Section follow.
Context `{HC : Crypto} `{HR : PyRepr} `{HH : Host} `{HI : IpcHost} `{HT : Toolkit} {S : Type} `{HS : UiService S}.

(** The calls of the window for a message with the callback [cb]. *)
Definition fresh_app : FerryApplication S :=
  {| ap_in_process := false; ap_window := true; ap_service := None; ap_ipc := new_ui_client 0; ap_daemon_config := JNull;
     ap_identity_prefix := JNull; ap_discovered := JNull; ap_trusted := JNull; ap_calls := [] |}.
Definition shows (cb : ui_callback) (payload : json) : list window_call := ap_calls (run_callback cb payload fresh_app).2.

(** What the window is called with for a notice of the service. *)
Definition notice_call (n : notice) (payload : json) : window_call :=
  match n with
  | NSession _ _ => WSession payload
  | NRequest addr tid name size => WTransferRequest (JStr addr) (JStr tid) (JStr name) (JInt size)
  | NProgress tid done total => WTransferProgress (JStr tid) (JInt done) (JInt total)
  | NComplete tid ok name dir => WTransferComplete (JStr tid) (JBool ok) (JStr name) (JStr dir)
  | NPairing addr name sas => WPairing (JStr addr) name (JStr sas)
  end.
(** Each notice is broadcast as a message for which the application registered a
    callback, and that callback is one call of the window with the same values. *)
Lemma notice_understood n (s : IpcServer S) :
  exists ty p event cb, ip_jobs (on_notice n s).2 = ip_jobs s ++ [JBroadcast ty p]
  /\ event_of (JStr (u ty)) = Some event /\ aget event registrations = Some cb /\ shows cb p = [notice_call n p].
Proof. destruct n; repeat eexists. Qed.

(** *** Only two calls change the table of sessions *)

Section table.
Context (t : list (pystr * jdict)).
Notation same := (stable (fun w => w_sessions w = t)).

Lemma same_modify f : (forall w, w_sessions (f w) = w_sessions w) -> same (modify f).
Proof. intros Hf w <-. apply wp_modify, Hf. Qed.
Lemma same_iterM {A} (f : A -> M Window unit) l : (forall x, same (f x)) -> same (iterM f l).
Proof. intros Hf. induction l as [|x l IH]; cbn [iterM]; [apply stable_ret|]. apply stable_bind; [done|by intros _]. Qed.

Ltac same_step :=
  lazymatch goal with
  | |- stable _ (lift _ ≫= _) => apply stable_bind_lift; intros ? ?
  | |- stable _ (_ ≫= _) => apply stable_bind; [|intros ?]
  | |- stable _ get => by intros ? ?
  | |- stable _ (mret _) => apply stable_ret
  | |- stable _ (lift _) => apply stable_lift
  | |- stable _ (iterM _ _) => apply same_iterM; intros ?
  | |- stable _ (modify _) => by apply same_modify
  | |- stable _ (match ?x with _ => _ end) => destruct x eqn:?
  end.
Ltac same := unfold new_transfer_row, set_rows, set_active, set_timers, change_row, shut_dialog, set_pairing, in_views, in_panel, in_dialogs, idle_add, ask;
  repeat same_step; auto.

Lemma same_add_row tid name total dir : same (add_transfer_row tid name total dir).
Proof. unfold add_transfer_row. same. Qed.
Lemma same_pending : same check_pending_send.
Proof. unfold check_pending_send. same. Qed.
Lemma same_toast message : same (show_error_toast message).
Proof. unfold show_error_toast, present. same. Qed.
Lemma same_respond k r : same (respond k r).
Proof. unfold respond, on_response. same; apply same_add_row. Qed.
Lemma same_session_state addr state : same (handle_session_state addr state).
Proof.
  assert (forall a, same (drop_pairing a)) as Hp.
  { intros a. unfold drop_pairing, close_dialog. same. apply same_respond. }
  unfold handle_session_state, clear_stuck, remove_later, update_trusted_devices, update_transfer_history, on_peers_updated,
    set_all_sensitive. same.
Qed.
Lemma same_run_idle c : same (run_idle c).
Proof.
  destruct c; cbn [run_idle];
    unfold update_discovered_devices, show_discovered_devices, update_trusted_devices_from_db, update_transfer_history_from_db,
      update_trusted_devices, update_transfer_history, update_diagnostics, handle_transfer_request, show_pairing_dialog, present;
    cbv zeta; same; first [apply same_pending|apply same_session_state].
Qed.
Definition sets_sessions (e : window_event) : bool :=
  match e with WCall (WSession _) | WCall (WStateSnapshot _ _ _ _ _) => true | _ => false end.
Lemma same_handler e : sets_sessions e = false -> same (window_handler e).
Proof.
  intros He. destruct e as [c| | | | | | | | | |]; cbn [window_handler].
  - destruct c; try discriminate; cbn [window_method]; unfold update_transfer_progress, handle_transfer_complete, remove_later,
      update_transfer_history; same.
  - same. apply same_run_idle.
  - unfold on_timer, remove_row, show_transfers_empty. same.
  - apply same_respond.
  - unfold on_cancel_clicked. same.
  - unfold on_resume_clicked. same. apply same_toast.
  - unfold on_unpair_clicked. same.
  - unfold on_send_clicked, launch_dialog. same.
  - unfold on_row_send_clicked, launch_dialog. same.
  - unfold answer_chooser, on_chosen, on_file_chosen, on_multiple_files_chosen, on_folder_chosen, draw_uuid4. cbv zeta. same; first [apply same_toast|apply same_add_row].
  - unfold handle_pending_send. same. apply same_pending.
Qed.
End table.

(** *** What the daemon told *)

(** A snapshot of a service, a notice that a session changed, or anything else
    that happens to the window. *)
Inductive feed :=
  | FSnapshot (s : S)
  | FNotice (s : IpcServer S) (remote_addr : pystr) (state : SessionState)
  | FOther (e : window_event).
Definition feed_events (f : feed) : list window_event :=
  match f with
  | FSnapshot s => map WCall (shows CbStateSnapshot (state_snapshot s))
  | FNotice s addr st => map WCall (shows CbSessionUpdate (session_payload s addr st))
  | FOther e => [e]
  end.
(** The states of the sessions, by address, in the order in which they became
    known. *)
Definition told_state (t : list (pystr * SessionState)) (f : feed) : list (pystr * SessionState) :=
  match f with
  | FSnapshot s => fold_left (fun t (e : pystr * (nat * PeerSession)) => aset e.1 (s_state (p_session e.2.2)) t) (svc_sessions s) []
  | FNotice _ addr st => if bool_decide (st = DISCONNECTED) then adel addr t else aset addr st t
  | FOther _ => t
  end.
Definition state_json (st : SessionState) : json := JStr (u (session_state_name st)).

(** An entry of the window for an entry of the daemon. *)
Definition agrees_on (x : pystr * SessionState) (e : pystr * jdict) : Prop := x.1 = e.1 /\ dget e.2 "state" = Some (state_json x.2).
Notation follows := (Forall2 agrees_on).

Lemma follows_aset t ss a st ps : follows t ss -> dget ps "state" = Some (state_json st) -> follows (aset a st t) (aset a ps ss).
Proof.
  intros H Hp. induction H as [|[b st'] [b' ps'] t ss [Hb Hs] H IH]; cbn [aset]; [by repeat constructor|].
  cbn in Hb. subst b'. destruct (decide (a = b)); constructor; done.
Qed.
Lemma follows_adel t ss a : follows t ss -> follows (adel a t) (adel a ss).
Proof.
  intros H. induction H as [|[b st'] [b' ps'] t ss [Hb Hs] H IH]; cbn [adel]; [constructor|].
  cbn in Hb. subst b'. destruct (decide (a = b)); [done|]. by constructor.
Qed.
Lemma is_established_state ps st : dget ps "state" = Some (state_json st) -> is_established ps = bool_decide (st = ESTABLISHED).
Proof. intros H. unfold is_established, dget_or. rewrite H. by destruct st. Qed.
Lemma follows_established t ss :
  follows t ss ->
  (List.filter (fun e : pystr * jdict => is_established e.2) ss).*1
  = (List.filter (fun x : pystr * SessionState => bool_decide (x.2 = ESTABLISHED)) t).*1.
Proof.
  intros H. induction H as [|[b st] [b' ps] t ss [Hb Hs] H IH]; [done|]. cbn in Hb, Hs. subst b'. cbn [List.filter snd].
  rewrite (is_established_state _ _ Hs). case_bool_decide; cbn; [by f_equal|done].
Qed.

Lemma snapshot_call s : exists devices active config prefix,
  shows CbStateSnapshot (state_snapshot s)
  = [WStateSnapshot devices (JArr (map snapshot_session (svc_sessions s))) active config prefix].
Proof. by repeat eexists. Qed.
Definition snapshot_entry (e : pystr * (nat * PeerSession)) : pystr * jdict :=
  (e.1, match snapshot_session e with JObj d => d | _ => [] end).
Lemma snapshot_table l :
  mapM_res (fun s => addr ← item s "remote_addr"; addr ← text_of addr; d ← as_dict s; Ok (addr, d)) (map snapshot_session l)
  = Ok (map snapshot_entry l).
Proof. induction l as [|e l IH]; [done|]. cbn [map mapM_res]. rewrite IH. done. Qed.
Lemma follows_snapshot s w c :
  shows CbStateSnapshot (state_snapshot s) = [c] -> follows (told_state [] (FSnapshot s)) (w_sessions (window_step w (WCall c))).
Proof.
  destruct (snapshot_call s) as (devices & active & config & prefix & ->). intros [= <-].
  set (T := told_state _ _). change (wp (apply_state_snapshot devices (JArr (map snapshot_session (svc_sessions s))) prefix)
    (fun _ w' => follows T (w_sessions w')) w). unfold apply_state_snapshot. cbv zeta.
  assert (forall l, py_list (py_or (JArr (map snapshot_session l)) (JArr [])) = Ok (map snapshot_session l)) as -> by (by intros []).
  do 4 wp_step. rewrite snapshot_table. unfold idle_add. do 8 wp_step.
  match goal with |- wp (iterM ?f ?l) _ ?w0 => set (w1 := w0); eapply wp_mono;
    [exact (same_iterM (w_sessions w1) f l (fun x => same_modify _ _ (fun _ => eq_refl)) w1 eq_refl)|] end.
  intros r w' ->. subst w1 T. cbn [w_sessions set_idle set_ipc_sessions told_state]. generalize (svc_sessions s). clear.
  assert (follows [] []) as H by constructor. revert H. generalize (@nil (pystr * SessionState)) (@nil (pystr * jdict)).
  intros t ss H l. revert t ss H. induction l as [|e l IH]; intros t ss H; [done|]. cbn [map fold_left]. apply IH.
  apply follows_aset; [done|]. by vm_compute.
Qed.

Lemma session_fields s a st : exists payload, session_payload s a st = JObj payload
  /\ dget_or payload "remote_addr" (JStr []) = JStr a /\ dget_or payload "state" (JStr []) = state_json st
  /\ forall entry, dget (fold_left (fun d kv => aset kv.1 kv.2 d) payload entry) "state" = Some (state_json st).
Proof.
  unfold session_payload. destruct (aget a (svc_sessions (ip_service s))) as [[k p]|]; eexists; (split; [reflexivity|]);
    (split; [reflexivity|]); (split; [reflexivity|]); intros entry; cbn [mkdict app map fold_left fst snd]; unfold dget;
    repeat (rewrite aget_aset_ne by done); by rewrite aget_aset_eq.
Qed.
Lemma follows_notice s a st t w :
  follows t (w_sessions w) ->
  follows (told_state t (FNotice s a st)) (w_sessions (window_step w (WCall (WSession (session_payload s a st))))).
Proof.
  intros H. destruct (session_fields s a st) as (payload & Ep & Ea & Es & Ef). rewrite Ep. set (T := told_state _ _).
  change (wp (handle_session_state_ipc (JObj payload)) (fun _ w' => follows T (w_sessions w')) w).
  unfold handle_session_state_ipc. do 2 wp_step. cbn [as_dict]. cbv zeta. rewrite Ea, Es.
  do 2 wp_step. cbn [text_of].
  assert (eq_str (state_json st) (u "DISCONNECTED") = bool_decide (st = DISCONNECTED)) as -> by (by destruct st).
  subst T. cbn [told_state]. case_bool_decide; unfold idle_add; do 3 wp_step; cbn [w_sessions set_idle set_ipc_sessions].
  - by apply follows_adel.
  - by apply follows_aset.
Qed.
Lemma follows_step t w f :
  (match f with FOther e => sets_sessions e = false | _ => True end) -> follows t (w_sessions w) ->
  follows (told_state t f) (w_sessions (window_run (feed_events f) w)).
Proof.
  intros Hf H. destruct f as [s|s a st|e]; cbn [feed_events].
  - destruct (snapshot_call s) as (devices & active & config & prefix & E). pose proof (follows_snapshot s w _ E) as Hs.
    rewrite E. exact Hs.
  - by apply follows_notice.
  - change (wp (window_handler e) (fun _ w' => follows t (w_sessions w')) w).
    eapply wp_mono; [by apply (same_handler (w_sessions w))|]. by intros _ w' ->.
Qed.

(** C28. The window's picture of the sessions is the daemon's: after any snapshots
    and notices of session changes, with any other calls, idle work, timers and
    clicks between them, the window holds for each address the state that the
    daemon told last, and the sessions it takes for established, to which all its
    actions go, are exactly those the daemon told to be so, in the same order. *)
Theorem window_follows_daemon fs :
  Forall (fun f => match f with FOther e => sets_sessions e = false | _ => True end) fs ->
  let w := window_run (concat (map feed_events fs)) new_window in
  let told := fold_left told_state fs [] in
  (forall addr, (aget addr (w_sessions w) ≫= fun ps => dget ps "state") = state_json <$> aget addr told)
  /\ (established w).*1 = (List.filter (fun x : pystr * SessionState => bool_decide (x.2 = ESTABLISHED)) told).*1.
Proof.
  intros Hfs. cbv zeta.
  assert (forall fs t w, Forall (fun f => match f with FOther e => sets_sessions e = false | _ => True end) fs ->
    follows t (w_sessions w) -> follows (fold_left told_state fs t) (w_sessions (window_run (concat (map feed_events fs)) w))) as H.
  { clear. induction fs as [|f fs IH]; intros t w Hfs H; [done|]. inversion_clear Hfs. cbn [map concat fold_left].
    unfold window_run. rewrite fold_left_app. apply IH; [done|]. by apply follows_step. }
  specialize (H fs [] new_window Hfs (List.Forall2_nil _)). split; [|by apply follows_established].
  intros addr. induction H as [|[b st] [b' ps] t ss [Hb Hs] H IH]; [done|]. cbn in Hb, Hs. subst b'. cbn [aget].
  by destruct (decide (addr = b)).
Qed.
End follow.

(** ** The rows of active transfers *)

Record panel_ok (p : Panel) : Prop := {
  po_rows : NoDup (pn_rows p);
  po_keys : NoDup (pn_active p).*1;
  po_old : Forall (fun k => (k < length (pn_objs p))%nat) (pn_rows p ++ pn_timers p);
  po_title : forall k r, pn_objs p !! k = Some r -> xr_transfer r <> None -> xr_title r <> NO_TRANSFERS;
  po_active : forall tid k total, aget tid (pn_active p) = Some (k, total) ->
    k ∈ pn_rows p /\ k ∉ pn_timers p /\ exists r, pn_objs p !! k = Some r /\ xr_transfer r = Some tid /\ xr_visible r = true
}.

Section panel.
Context `{HR : PyRepr} `{HH : Host} `{HI : IpcHost} `{HT : Toolkit}.
Notation ok := (stable (fun w => panel_ok (w_panel w))).

Lemma new_panel_ok : panel_ok (w_panel new_window).
Proof.
  split; cbn.
  - apply NoDup_singleton.
  - constructor.
  - repeat constructor.
  - by intros [|k] r [= <-].
  - done.
Qed.
(** No transfer is active when no row is shown, or only the placeholder. *)
Lemma no_active p : panel_ok p -> pn_rows p = [] \/ only_placeholder p = true -> pn_active p = [].
Proof.
  intros Hp Hr. destruct (pn_active p) as [|[tid [k total]] l] eqn:E; [done|exfalso].
  destruct (po_active p Hp tid k total) as (Hk & _ & r & Hr1 & Ht & _); [rewrite E; cbn; by rewrite decide_True|].
  destruct Hr as [Hr|Hr]; [rewrite Hr in Hk; by apply not_elem_of_nil in Hk|]. unfold only_placeholder in Hr.
  destruct (pn_rows p) as [|k' [|]]; [done| |done]. apply list_elem_of_singleton in Hk as <-. rewrite Hr1 in Hr.
  apply bool_decide_eq_true in Hr. by apply (po_title p Hp k r Hr1); [rewrite Ht|].
Qed.
Lemma remove_first_elem k x l : x <> k -> x ∈ l -> x ∈ remove_first k l.
Proof. intros Hn. induction l as [|y l IH]; cbn; [done|]. destruct (Nat.eqb_spec y k); set_solver. Qed.
Lemma remove_first_sub k l : remove_first k l `sublist_of` l.
Proof. induction l as [|y l IH]; cbn; [done|]. destruct (Nat.eqb_spec y k); [by apply sublist_cons|by apply sublist_skip]. Qed.

(** Rows that are not the active ones may go, and a new one may come. *)
Lemma panel_rows p rows :
  panel_ok p -> NoDup rows -> Forall (fun k => (k < length (pn_objs p))%nat) rows ->
  (forall tid k total, aget tid (pn_active p) = Some (k, total) -> k ∈ rows) ->
  panel_ok {| pn_objs := pn_objs p; pn_rows := rows; pn_active := pn_active p; pn_timers := pn_timers p |}.
Proof.
  intros [Hr Hk Ho Ht Ha] Hn Hf Hin. split; cbn; [done|done| |done|].
  - apply Forall_app in Ho as [_ Ho]. by apply Forall_app.
  - intros tid k total E. destruct (Ha tid k total E) as (_ & Hti & Hx). split; [by eapply Hin|done].
Qed.
Lemma panel_object p r :
  panel_ok p -> (xr_transfer r <> None -> xr_title r <> NO_TRANSFERS) ->
  panel_ok {| pn_objs := pn_objs p ++ [r]; pn_rows := pn_rows p; pn_active := pn_active p; pn_timers := pn_timers p |}.
Proof.
  intros [Hr Hk Ho Ht Ha] Hx. split; cbn; [done|done| | |].
  - eapply Forall_impl; [exact Ho|]. intros k. rewrite length_app. cbn. lia.
  - intros k r' [[_ ?]|[-> <-]]%lookup_snoc_Some; [|done]. by eapply Ht.
  - intros tid k total E. destruct (Ha tid k total E) as (H1 & H2 & r' & H3 & H4). split; [done|]. split; [done|].
    exists r'. split; [|done]. by apply lookup_app_l_Some.
Qed.

(** What a change of a row keeps: its title and its transfer. *)
Definition keeps_row (f : transfer_row -> transfer_row) : Prop :=
  forall r, xr_title (f r) = xr_title r /\ xr_transfer (f r) = xr_transfer r.
Lemma alter_row f k (objs : list transfer_row) i r :
  keeps_row f -> alter f k objs !! i = Some r ->
  exists r0, objs !! i = Some r0 /\ xr_title r = xr_title r0 /\ xr_transfer r = xr_transfer r0.
Proof.
  intros Hf. destruct (decide (i = k)) as [->|Hn].
  - rewrite list_lookup_alter_eq. intros (r0 & E & ->)%fmap_Some. exists r0. by destruct (Hf r0).
  - rewrite list_lookup_alter_ne by done. eauto.
Qed.
Lemma panel_change p f k :
  panel_ok p -> keeps_row f -> (forall r, xr_visible (f r) = xr_visible r) ->
  panel_ok {| pn_objs := alter f k (pn_objs p); pn_rows := pn_rows p; pn_active := pn_active p; pn_timers := pn_timers p |}.
Proof.
  intros [Hr Hk Ho Ht Ha] Hf Hv. split; cbn; [done|done| | |].
  - by rewrite length_alter.
  - intros i r E Hx. destruct (alter_row _ _ _ _ _ Hf E) as (r0 & E0 & -> & Et). apply (Ht _ _ E0). by rewrite <-Et.
  - intros tid i total E. destruct (Ha tid i total E) as (H1 & H2 & r & H3 & H4 & H5). split; [done|]. split; [done|].
    destruct (decide (i = k)) as [->|Hn].
    + exists (f r). rewrite list_lookup_alter_eq, H3. split; [done|]. destruct (Hf r) as [_ ->]. by rewrite Hv.
    + exists r. by rewrite list_lookup_alter_ne.
Qed.
(** A transfer is over: its row waits for its timer. *)
Lemma panel_finish p f tid k total :
  panel_ok p -> keeps_row f -> aget tid (pn_active p) = Some (k, total) ->
  panel_ok {| pn_objs := alter f k (pn_objs p); pn_rows := pn_rows p; pn_active := adel tid (pn_active p);
              pn_timers := pn_timers p ++ [k] |}.
Proof.
  intros [Hr Hk Ho Ht Ha] Hf E. destruct (Ha _ _ _ E) as (Hk1 & _ & rk & Erk & Etk & _). split; cbn; [done|by apply NoDup_adel| | |].
  - rewrite length_alter, app_assoc. apply Forall_app. split; [done|]. apply Forall_singleton. by eapply lookup_lt_Some.
  - intros i r Ei Hx. destruct (alter_row _ _ _ _ _ Hf Ei) as (r0 & E0 & -> & Et). apply (Ht _ _ E0). by rewrite <-Et.
  - intros tid' i total' E'. assert (tid' <> tid) as Hn by (intros ->; by rewrite aget_adel_eq in E').
    rewrite aget_adel_ne in E' by done. destruct (Ha _ _ _ E') as (H1 & H2 & r & H3 & H4 & H5).
    assert (i <> k) as Hik by (intros ->; rewrite H3 in Erk; simplify_eq). split; [done|]. split; [set_solver|].
    exists r. by rewrite list_lookup_alter_ne.
Qed.
(** A new active row. *)
Lemma panel_add p r tid total :
  panel_ok p -> xr_transfer r = Some tid -> xr_visible r = true -> xr_title r <> NO_TRANSFERS ->
  panel_ok {| pn_objs := pn_objs p ++ [r]; pn_rows := pn_rows p ++ [length (pn_objs p)];
              pn_active := aset tid (length (pn_objs p), total) (pn_active p); pn_timers := pn_timers p |}.
Proof.
  intros Hp Ht Hv Hx. pose proof (panel_object p r Hp (fun _ => Hx)) as [Hr Hk Ho Hti Ha]. cbn in *.
  pose proof (po_old p Hp) as Ho'. apply Forall_app in Ho' as [Ho1 Ho2]. rewrite Forall_forall in Ho1, Ho2.
  split; cbn; [|by apply NoDup_aset| |done|].
  - apply NoDup_app. split; [done|]. split; [|apply NoDup_singleton]. intros k Hin ->%list_elem_of_singleton. specialize (Ho1 _ Hin). lia.
  - apply Forall_app in Ho as [? ?]. rewrite <-app_assoc. apply Forall_app. split; [done|]. apply Forall_app.
    split; [|done]. apply Forall_singleton. rewrite length_app. cbn. lia.
  - intros tid' k total' E. destruct (decide (tid' = tid)) as [->|Hn].
    + rewrite aget_aset_eq in E. injection E as <- _. split; [set_solver|]. split; [intros Hin; specialize (Ho2 _ Hin); lia|].
      exists r. split; [|done]. by rewrite lookup_app_r, Nat.sub_diag by lia.
    + rewrite aget_aset_ne in E by done. destruct (Ha _ _ _ E) as (H1 & H2 & H3). split; [set_solver|done].
Qed.

Lemma rows_modify f : (forall w, panel_ok (w_panel w) -> panel_ok (w_panel (f w))) -> ok (modify f).
Proof. intros Hf w Hw. by apply wp_modify, Hf. Qed.
Lemma keeps_row_state subtitle label fraction visible : keeps_row (row_state subtitle label fraction visible).
Proof. done. Qed.

Lemma rows_add tid name total dir : dir = DOWN \/ dir = UP -> ok (add_transfer_row tid name total dir).
Proof.
  intros Hdir w Hw. unfold add_transfer_row. do 2 wp_step. wp_step.
  eapply (wp_mono _ (fun r w1 => r = Ok tt /\ panel_ok (w_panel w1))).
  { destruct (only_placeholder (w_panel w)) eqn:Eo; [|by wp_step]. unfold set_rows, in_panel. wp_step. split; [done|].
    apply panel_rows; [done|constructor|constructor|]. intros tid' k total'. by rewrite (no_active _ Hw (or_intror Eo)). }
  intros r w1 [-> H1]. do 2 wp_step. destruct (gtk_text _) as [title|e] eqn:Et; [|done].
  assert (title <> NO_TRANSFERS) as Hti.
  { revert Et. unfold gtk_text. case_match; [|done]. intros [= <-]. by destruct Hdir as [-> | ->]. }
  unfold new_transfer_row, in_panel. do 4 wp_step. wp_step. wp_step. do 2 wp_step. unfold set_rows, set_active, in_panel. do 3 wp_step.
  by apply (panel_add (w_panel w1)).
Qed.

Lemma rows_iterM {A} (f : A -> M Window unit) l : (forall x, ok (f x)) -> ok (iterM f l).
Proof. intros Hf. induction l as [|x l IH]; cbn [iterM]; [apply stable_ret|]. apply stable_bind; [done|by intros _]. Qed.
Lemma rows_change f k : keeps_row f -> (forall r, xr_visible (f r) = xr_visible r) -> ok (change_row k f).
Proof. intros Hf Hv. apply rows_modify. intros w Hw. by apply panel_change. Qed.
Lemma rows_progress tid n : ok (update_transfer_progress tid n).
Proof.
  unfold update_transfer_progress. apply stable_bind; [by intros ? ?|]. intros w. destruct (aget tid _) as [[k total]|]; [|apply stable_ret].
  apply stable_bind_lift. intros fr _. cbv zeta. apply stable_bind; [by apply rows_change|]. intros _.
  apply stable_bind_lift. intros dn _. apply stable_bind_lift. intros sz _. by apply rows_change.
Qed.

(** Ending one active transfer. *)
Lemma rows_finish f tid k total w (Q : res unit -> Window -> Prop) :
  keeps_row f -> aget tid (pn_active (w_panel w)) = Some (k, total) -> panel_ok (w_panel w) ->
  (forall w', panel_ok (w_panel w') -> pn_active (w_panel w') = adel tid (pn_active (w_panel w)) -> Q (Ok tt) w') ->
  wp (set_active (adel tid (pn_active (w_panel w)));; change_row k f;; remove_later k) Q w.
Proof.
  intros Hf E Hw HQ. unfold set_active, change_row, remove_later, set_timers, in_panel. do 7 wp_step.
  apply HQ; cbn; [by eapply panel_finish|done].
Qed.
Lemma rows_complete tid success : ok (handle_transfer_complete tid success).
Proof.
  intros w Hw. unfold handle_transfer_complete, update_transfer_history, ask. do 3 wp_step.
  destruct (aget tid _) as [[k total]|] eqn:E; [|by do 2 wp_step].
  eapply rows_finish; [by destruct success|done|done|]. intros w' H' _. by wp_step.
Qed.
Lemma rows_stuck : ok clear_stuck.
Proof.
  intros w Hw. unfold clear_stuck. do 2 wp_step.
  assert (forall l, NoDup l.*1 -> forall w, panel_ok (w_panel w) ->
    (forall e, e ∈ l -> aget e.1 (pn_active (w_panel w)) = Some e.2) ->
    wp (iterM (fun e : pystr * (nat * Z) => w ← get; set_active (adel e.1 (pn_active (w_panel w)));;
      change_row e.2.1 (row_state (u "Connection lost") (u "Lost " ++ [CROSS]) None false);; remove_later e.2.1) l)
      (fun _ w' => panel_ok (w_panel w')) w) as H.
  { clear. induction l as [|[tid [k total]] l IH]; intros Hnd w Hw Hin; cbn [iterM]; [by wp_step|].
    cbn in Hnd. apply NoDup_cons in Hnd as [Hn Hnd].
    wp_step. wp_step. wp_step. cbn [fst snd]. pose proof (Hin _ (list_elem_of_here _ _)) as E. cbn in E.
    eapply rows_finish; [done|exact E|done|]. intros w' H' Ea. apply IH; [done|done|].
    intros e He. rewrite Ea. rewrite aget_adel_ne; [apply Hin; by right|]. intros <-. apply Hn, list_elem_of_fmap. eauto. }
  pose proof (po_keys _ Hw). apply H; [done|done|]. intros [tid x] He. by apply aget_In.
Qed.

(** A timer fires: its row goes. *)
Lemma panel_timer p i k :
  panel_ok p -> pn_timers p !! i = Some k ->
  panel_ok {| pn_objs := pn_objs p; pn_rows := remove_first k (pn_rows p); pn_active := pn_active p;
              pn_timers := delete i (pn_timers p) |}.
Proof.
  intros [Hr Hk Ho Ht Ha] Ek. split; cbn; [|done| |done|].
  - eapply sublist_NoDup; [apply Hr|apply remove_first_sub].
  - rewrite Forall_forall in *. intros x Hx. apply Ho, elem_of_app. apply elem_of_app in Hx as [Hx|Hx].
    + left. by eapply elem_of_sublist; [|apply remove_first_sub].
    + right. by eapply list_elem_of_delete_inv.
  - intros tid k' total E. destruct (Ha _ _ _ E) as (Hin & Hn & ?). split; [|split; [|done]].
    + apply remove_first_elem; [|done]. intros ->. by apply Hn, list_elem_of_lookup_2 with i.
    + contradict Hn. by eapply list_elem_of_delete_inv.
Qed.
Lemma panel_placeholder p :
  panel_ok p -> pn_rows p = [] ->
  panel_ok {| pn_objs := pn_objs p ++ [no_transfers]; pn_rows := [length (pn_objs p)]; pn_active := pn_active p;
              pn_timers := pn_timers p |}.
Proof.
  intros Hp Er. assert (panel_ok {| pn_objs := pn_objs p ++ [no_transfers]; pn_rows := pn_rows p; pn_active := pn_active p;
    pn_timers := pn_timers p |}) as H1 by (by apply panel_object).
  refine (panel_rows _ _ H1 _ _ _); cbn; [apply NoDup_singleton| |].
  - apply Forall_singleton. rewrite length_app. cbn. lia.
  - intros tid k total. by rewrite (no_active _ Hp (or_introl Er)).
Qed.
Lemma rows_timer i : ok (on_timer i).
Proof.
  intros w Hw. unfold on_timer. do 2 wp_step. destruct (pn_timers (w_panel w) !! i) as [k|] eqn:Ek; [|by wp_step].
  pose proof (panel_timer _ _ _ Hw Ek) as H1. unfold set_timers, remove_row, set_rows, in_panel. do 8 wp_step.
  cbn [w_panel set_panel pn_objs pn_rows pn_active pn_timers]. case_bool_decide as Er; [|by wp_step].
  unfold show_transfers_empty, set_rows, new_transfer_row, in_panel. do 9 wp_step. cbn. pose proof (panel_placeholder _ H1 Er) as H2. exact H2.
Qed.

Ltac rows_step :=
  lazymatch goal with
  | |- stable _ (lift _ ≫= _) => apply stable_bind_lift; intros ? ?
  | |- stable _ (_ ≫= _) => apply stable_bind; [|intros ?]
  | |- stable _ get => by intros ? ?
  | |- stable _ (mret _) => apply stable_ret
  | |- stable _ (lift _) => apply stable_lift
  | |- stable _ (iterM _ _) => apply rows_iterM; intros ?
  | |- stable _ (change_row _ _) => by apply rows_change
  | |- stable _ (add_transfer_row _ _ _ _) => apply rows_add; auto
  | |- stable _ (update_transfer_progress _ _) => apply rows_progress
  | |- stable _ (handle_transfer_complete _ _) => apply rows_complete
  | |- stable _ clear_stuck => apply rows_stuck
  | |- stable _ (modify _) => by apply rows_modify
  | |- stable _ (match ?x with _ => _ end) => destruct x eqn:?
  end.
Ltac rows := unfold present, shut_dialog, set_pairing, in_views, in_dialogs, idle_add, ask; repeat rows_step; auto.

Lemma rows_respond k r : ok (respond k r).
Proof. unfold respond, on_response. rows. Qed.
Lemma rows_pending : ok check_pending_send.
Proof. unfold check_pending_send. rows. Qed.
Lemma rows_run_idle c : ok (run_idle c).
Proof.
  assert (forall a, ok (drop_pairing a)) as Hp.
  { intros a. unfold drop_pairing, close_dialog. rows. apply rows_respond. }
  destruct c; cbn [run_idle];
    unfold update_discovered_devices, show_discovered_devices, update_trusted_devices_from_db, update_transfer_history_from_db,
      update_trusted_devices, update_transfer_history, update_diagnostics, handle_transfer_request, show_pairing_dialog,
      handle_session_state, update_trusted_devices, update_transfer_history, on_peers_updated, set_all_sensitive;
    cbv zeta; rows; apply rows_pending.
Qed.
Lemma rows_handler e : ok (window_handler e).
Proof.
  destruct e; cbn [window_handler].
  - destruct c; cbn [window_method]; unfold apply_state_snapshot, handle_session_state_ipc; cbv zeta; rows.
  - rows. apply rows_run_idle.
  - apply rows_timer.
  - apply rows_respond.
  - unfold on_cancel_clicked. rows.
  - unfold on_resume_clicked, show_error_toast. rows.
  - unfold on_unpair_clicked. rows.
  - unfold on_send_clicked, launch_dialog. rows.
  - unfold on_row_send_clicked, launch_dialog. rows.
  - unfold answer_chooser, on_chosen, on_file_chosen, on_multiple_files_chosen, on_folder_chosen, draw_uuid4, show_error_toast.
    cbv zeta. rows.
  - unfold handle_pending_send. rows. apply rows_pending.
Qed.

(** ** When the entry of an active transfer goes *)

(** The transfer [tid] has its entry still, or one of a newer row. *)
Definition entry_held (tid : pystr) (e : nat * Z) (n0 : nat) (w : Window) : Prop :=
  (n0 <= length (pn_objs (w_panel w)))%nat
  /\ exists k total, aget tid (pn_active (w_panel w)) = Some (k, total) /\ ((k, total) = e \/ (n0 <= k)%nat).
Notation holds m := (forall tid e n0, stable (entry_held tid e n0) m).

Lemma hold_modify f :
  (forall w, length (pn_objs (w_panel w)) <= length (pn_objs (w_panel (f w))) /\ pn_active (w_panel (f w)) = pn_active (w_panel w))%nat ->
  holds (modify f).
Proof. intros Hf tid e n0 w [Hl He]. apply wp_modify. destruct (Hf w) as [H1 H2]. split; [lia|by rewrite H2]. Qed.
Lemma hold_iterM {A} (f : A -> M Window unit) l : (forall x, holds (f x)) -> holds (iterM f l).
Proof. intros Hf. induction l as [|x l IH]; intros tid e n0; cbn [iterM]; [apply stable_ret|]. apply stable_bind; [apply Hf|intros _; apply IH]. Qed.
Lemma hold_set_active tid' k total tid e n0 l w :
  l = pn_active (w_panel w) -> (n0 <= k)%nat -> entry_held tid e n0 w ->
  wp (set_active (aset tid' (k, total) l)) (fun _ => entry_held tid e n0) w.
Proof.
  intros -> Hk [Hl (k1 & t1 & E & H1)]. unfold set_active, in_panel. apply wp_modify. split; [done|].
  cbn. destruct (decide (tid = tid')) as [->|Hne].
  - exists k, total. rewrite aget_aset_eq. auto.
  - exists k1, t1. by rewrite aget_aset_ne.
Qed.
Ltac hold_step :=
  lazymatch goal with
  | |- stable _ (lift _ ≫= _) => apply stable_bind_lift; intros ? ?
  | |- stable _ (_ ≫= _) => apply stable_bind; [|intros ?]
  | |- stable _ get => by intros ? ?
  | |- stable _ (mret _) => apply stable_ret
  | |- stable _ (lift _) => apply stable_lift
  | |- stable _ (iterM _ _) => apply hold_iterM; intros ? ? ? ?
  | |- stable _ (modify _) => apply hold_modify; intros []; cbn; rewrite ?length_alter, ?length_app; (split; [lia|done])
  | |- stable _ (match ?x with _ => _ end) => destruct x eqn:?
  end.
Ltac holding :=
  intros; unfold present, shut_dialog, set_pairing, in_views, in_dialogs, idle_add, ask, change_row, set_rows, set_timers, remove_later,
    new_transfer_row, show_transfers_empty, in_panel; cbv zeta; repeat hold_step; auto.
Lemma hold_add tid' name total dir : holds (add_transfer_row tid' name total dir).
Proof.
  unfold add_transfer_row. intros tid e n0. apply stable_bind; [holding|intros w]. apply stable_bind; [holding|intros _].
  apply stable_bind_lift. intros title _. intros w1 H1. unfold new_transfer_row, in_panel. do 4 wp_step. wp_step. wp_step. do 2 wp_step.
  unfold set_rows, in_panel. do 2 wp_step. apply hold_set_active; [done|apply H1|].
  destruct H1 as [Hl He]. split; [cbn; rewrite length_app; lia|done].
Qed.
Ltac held := repeat first [progress holding | apply hold_add].
Lemma hold_respond k r : holds (respond k r).
Proof. unfold respond, on_response. held. Qed.
Lemma hold_pending : holds check_pending_send.
Proof. unfold check_pending_send. held. Qed.
Lemma hold_drop_pairing addr : holds (drop_pairing addr).
Proof. unfold drop_pairing, close_dialog. holding; apply hold_respond. Qed.
Lemma hold_progress tid n : holds (update_transfer_progress tid n).
Proof. unfold update_transfer_progress. held. Qed.

(** The daemon reports that the transfer is over. *)
Definition reports_end (tid : pystr) (e : window_event) : Prop :=
  exists t success a b, e = WCall (WTransferComplete t success a b) /\ text_of t = Ok tid.
(** The window handles the end of some session. *)
Definition handles_disconnect (e : window_event) (w : Window) : Prop :=
  exists addr state l, e = WIdle /\ w_idle w = ISession addr state :: l
  /\ existsb (fun n => eq_str state (u n)) ["FAILED"; "DISCONNECTED"; "CLOSING"]%string = true.

Lemma decide_end tid e : reports_end tid e \/ ~ reports_end tid e.
Proof.
  destruct e as [[]| | | | | | | | | |]; try (by right; intros (? & ? & ? & ? & ? & _)).
  destruct (decide (text_of transfer_id = Ok tid)) as [E|E]; [left; by repeat eexists|right; by intros (? & ? & ? & ? & [= -> _ _ _] & ?)].
Qed.
Lemma decide_disconnect e w : handles_disconnect e w \/ ~ handles_disconnect e w.
Proof.
  destruct e; try (by right; intros (? & ? & ? & ? & _)). destruct (w_idle w) as [|[| | | | | | |addr state| |] l] eqn:El;
    try (by right; intros (? & ? & ? & _ & ? & _); congruence).
  destruct (existsb (fun n => eq_str state (u n)) ["FAILED"; "DISCONNECTED"; "CLOSING"]%string) eqn:E; [left; by repeat eexists|].
  right. intros (a & st & l' & _ & El' & E'). rewrite El in El'. injection El' as <- <- <-. by rewrite E in E'.
Qed.
Lemma hold_run_idle c :
  (forall addr state, c = ISession addr state ->
     existsb (fun n => eq_str state (u n)) ["FAILED"; "DISCONNECTED"; "CLOSING"]%string = false) ->
  holds (run_idle c).
Proof.
  intros Hc. destruct c as [| | | | | | |addr state| |]; cbn [run_idle];
    try (unfold update_discovered_devices, show_discovered_devices, update_trusted_devices_from_db, update_transfer_history_from_db,
      update_trusted_devices, update_transfer_history, update_diagnostics, handle_transfer_request, show_pairing_dialog,
      on_peers_updated, set_all_sensitive; held; apply hold_pending).
  unfold handle_session_state. rewrite (Hc addr state eq_refl).
  unfold update_trusted_devices, set_all_sensitive. held; apply hold_drop_pairing || apply hold_pending.
Qed.
Lemma hold_complete tid' success tid e n0 : tid' <> tid -> stable (entry_held tid e n0) (handle_transfer_complete tid' success).
Proof.
  intros Hne. assert (holds update_transfer_history) as Hh by (unfold update_transfer_history; holding).
  intros w Hw. unfold handle_transfer_complete. do 3 wp_step. destruct (aget tid' _) as [[k total]|] eqn:E'; [|wp_step; by apply Hh].
  unfold set_active, change_row, remove_later, set_timers, in_panel. do 7 wp_step. apply Hh.
  destruct Hw as [Hl (k1 & t1 & E & H1)]. split; [cbn; by rewrite length_alter|]. exists k1, t1. cbn. by rewrite aget_adel_ne.
Qed.
Lemma hold_handler ev w tid e :
  aget tid (pn_active (w_panel w)) = Some e -> ~ reports_end tid ev -> ~ handles_disconnect ev w ->
  entry_held tid e (length (pn_objs (w_panel w))) (window_step w ev).
Proof.
  intros E Hr Hd. set (n0 := length (pn_objs (w_panel w))).
  assert (entry_held tid e n0 w) as Hw by (split; [done|destruct e as [k total]; eauto]).
  cut (wp (window_handler ev) (fun _ => entry_held tid e n0) w); [done|].
  destruct ev as [c| |i|k r|k|i|i|c|c i|i r files|p]; cbn [window_handler].
  - destruct c; cbn [window_method]; try (apply (fun H : holds _ => H tid e n0 w Hw);
      unfold apply_state_snapshot, handle_session_state_ipc; cbv zeta; held; apply hold_progress).
    wp_step. wp_step. destruct (text_of transfer_id) as [tid'|] eqn:Et; [|done]. apply hold_complete; [|done].
    intros ->. apply Hr. by repeat eexists.
  - do 2 wp_step. destruct (w_idle w) as [|c l] eqn:Ei; [by wp_step|]. wp_step. wp_step.
    apply hold_run_idle; [|by destruct w]. intros addr state ->. apply not_true_iff_false. intros Ht. apply Hd. by exists addr, state, l.
  - apply (fun H : holds (on_timer i) => H tid e n0 w Hw). unfold on_timer, remove_row. held.
  - by apply hold_respond.
  - apply (fun H : holds (on_cancel_clicked k) => H tid e n0 w Hw). unfold on_cancel_clicked. held.
  - apply (fun H : holds (on_resume_clicked i) => H tid e n0 w Hw). unfold on_resume_clicked, show_error_toast. held.
  - apply (fun H : holds (on_unpair_clicked i) => H tid e n0 w Hw). unfold on_unpair_clicked. held.
  - apply (fun H : holds (on_send_clicked c) => H tid e n0 w Hw). unfold on_send_clicked, launch_dialog. held.
  - apply (fun H : holds (on_row_send_clicked c i) => H tid e n0 w Hw). unfold on_row_send_clicked, launch_dialog. held.
  - apply (fun H : holds (answer_chooser i r files) => H tid e n0 w Hw).
    unfold answer_chooser, on_chosen, on_file_chosen, on_multiple_files_chosen, on_folder_chosen, draw_uuid4, show_error_toast. held.
  - apply (fun H : holds (handle_pending_send p) => H tid e n0 w Hw). unfold handle_pending_send. held; apply hold_pending.
Qed.

(** C30. Each active transfer keeps its own row: after any events, the entry of an
    active transfer is a row that is shown and that no timer will remove, whose
    visible button cancels that transfer and no other; rows are shown once, and
    the placeholder stands only when nothing is active.  The entry stays at the
    next event, unless this is the daemon's report that this transfer is over, or
    the end of some session is handled (which drops the entries of all transfers);
    or the same transfer gets a newer row. *)
Theorem active_rows_ok es tid k total :
  let w := window_run es new_window in let p := w_panel w in
  aget tid (pn_active p) = Some (k, total) ->
  (k ∈ pn_rows p /\ NoDup (pn_rows p) /\ k ∉ pn_timers p)
  /\ (exists r, pn_objs p !! k = Some r /\ xr_transfer r = Some tid /\ xr_visible r = true)
  /\ (forall tid' total', aget tid' (pn_active p) = Some (k, total') -> tid' = tid)
  /\ only_placeholder p = false
  /\ (forall ev, reports_end tid ev \/ handles_disconnect ev w
      \/ exists k' total', aget tid (pn_active (w_panel (window_step w ev))) = Some (k', total')
         /\ ((k', total') = (k, total) \/ pn_objs p !! k' = None)).
Proof.
  assert (panel_ok (w_panel (window_run es new_window))) as Hp.
  { induction es as [|e es IH] using rev_ind; [apply new_panel_ok|]. rewrite window_run_snoc. by apply (rows_handler e). }
  cbv zeta. intros E. destruct (po_active _ Hp _ _ _ E) as (Hk & Hn & r & Hr & Ht & Hv).
  split; [by pose proof (po_rows _ Hp)|]. split; [by exists r|]. split.
  - intros tid' total' E'. destruct (po_active _ Hp _ _ _ E') as (_ & _ & r' & Hr' & Ht' & _). simplify_eq. congruence.
  - split; [destruct (only_placeholder _) eqn:Eo; [|done]; by rewrite (no_active _ Hp (or_intror Eo)) in E|].
    intros ev. destruct (decide_end tid ev) as [?|Hre]; [by left|]. destruct (decide_disconnect ev (window_run es new_window)) as [?|Hd]; [by right; left|].
    right; right. destruct (hold_handler ev _ tid _ E Hre Hd) as [_ (k' & total' & E' & H')]. exists k', total'. split; [done|].
    destruct H' as [?|?]; [by left|right; by apply lookup_ge_None_2].
Qed.
End panel.

(** ** After a snapshot *)

Section after_snapshot.
Context `{HR : PyRepr} `{HH : Host} `{HI : IpcHost} `{HT : Toolkit}.

(** A snapshot without sessions empties the list of trusted devices, and nothing
    asks for it again: the request of [__init__] may have been made before the
    connection, when requests are dropped. *)
Lemma snapshot_hides_trusted devices active config prefix (w : Window) :
  w_idle w = [] -> w_pending_path w = None ->
  let w' := window_run [WCall (WStateSnapshot devices (JArr []) active config prefix); WIdle; WIdle] w in
  vw_trusted (w_views w') = [no_trusted] /\ w_commands w' = w_commands w
  /\ w_idle w' = [IShowDevices (py_or devices (JArr []))].
Proof. intros Hi Hp. destruct w as [se pe vi pn di id co pr dr]. cbn in Hi, Hp. by subst id pe. Qed.
End after_snapshot.
