(* ===== verification/Notifier.v ===== *)
(** * Desktop notifications: [core/notifications.py]

    The notifications of the service itself (those mirrored from the phone are in
    [Bridge]).  A notification is handed to the main loop of the application that
    the manager was given; without one it is only logged.  Whether the calls of
    Gio succeed is an argument. *)
From Stdlib Require Import SpecFloat.
From S2P Require Import Prelude PyStr Json Protocol Payloads Transfer Peers Window.

(** ** Division of integers

    [n / d] is a number for moderate [n] and [d]: no [OverflowError]. *)

Lemma digits2_le p : forall k, Zpos p < 2 ^ k -> Zpos (digits2_pos p) <= k.
Proof.
  assert (forall q, Zpos (digits2_pos q) - 1 <= Z.log2 (Zpos q)) as H.
  { induction q as [q IH|q IH|]; cbn [digits2_pos]; [| |done].
    - rewrite Pos2Z.inj_succ, (Pos2Z.inj_xI q), Z.log2_succ_double by lia. lia.
    - rewrite Pos2Z.inj_succ, (Pos2Z.inj_xO q), Z.log2_double by lia. lia. }
  intros k Hk. specialize (H p). assert (Z.log2 (Zpos p) < k) by (apply Z.log2_lt_pow2; lia). lia.
Qed.
Lemma Zdigits2_le m k : 0 <= k -> 0 <= m < 2 ^ k -> Zdigits2 m <= k.
Proof. intros Hk [H0 H]. destruct m as [|p|p]; cbn [Zdigits2]; [done|by apply digits2_le|lia]. Qed.

Lemma shr_1_le mrs : 0 <= shr_m mrs -> 0 <= shr_m (shr_1 mrs) <= shr_m mrs.
Proof. destruct mrs as [[|[p|p|]|p] r s]; cbn; lia. Qed.
Lemma shr_le mrs e n : 0 <= shr_m mrs -> 0 <= shr_m (shr mrs e n).1 <= shr_m mrs /\ (shr mrs e n).2 = Z.max e (e + n).
Proof.
  intros H. destruct n as [|p|p]; cbn [shr fst snd]; [split; lia| |split; lia]. split; [|lia].
  assert (forall A (f : A -> A) (P : A -> Prop), (forall x, P x -> P (f x)) -> forall q x, P x -> P (SpecFloat.iter_pos f q x)) as Hiter.
  { intros A f P Hf q. induction q as [q IH|q IH|]; intros x Hx; cbn [SpecFloat.iter_pos]; auto. }
  apply (Hiter _ shr_1 (fun x => 0 <= shr_m x <= shr_m mrs)); [|lia]. intros x Hx. pose proof (shr_1_le x ltac:(lia)). lia.
Qed.
Lemma shr_fexp_le m e l k :
  0 <= k -> 0 <= m < 2 ^ k ->
  0 <= shr_m (shr_fexp 53 1024 m e l).1 <= m /\ (shr_fexp 53 1024 m e l).2 <= Z.max e (Z.max (k + e - 53) (-1074)).
Proof.
  intros Hk Hm. unfold shr_fexp. assert (shr_m (shr_record_of_loc m l) = m) as E by (by destruct l as [|[]]).
  destruct (shr_le (shr_record_of_loc m l) e (fexp 53 1024 (Zdigits2 m + e) - e)) as [H1 H2]; [rewrite E; lia|]. rewrite E in H1. split; [done|].
  rewrite H2. pose proof (Zdigits2_le m k Hk Hm). unfold fexp. change (emin 53 1024) with (-1074). lia.
Qed.
Lemma round_finite s m e l k :
  0 <= k -> 0 <= m < 2 ^ k -> e <= 0 -> k <= 400 -> is_infinite (binary_round_aux 53 1024 s m e l) = false.
Proof.
  intros Hk Hm He Hk4. unfold binary_round_aux. pose proof (shr_fexp_le m e l k Hk Hm) as [H1 H2].
  destruct (shr_fexp 53 1024 m e l) as [r1 e1]. cbn [fst snd] in *. set (m1 := round_nearest_even _ _).
  assert (0 <= m1 < 2 ^ (k + 1)) as Hm1.
  { assert (0 <= m1 <= m + 1) as H by (unfold m1, round_nearest_even; case_match; [lia|case_match; [case_match; lia|lia|lia]]).
    rewrite Z.pow_add_r by lia. lia. }
  pose proof (shr_fexp_le m1 e1 loc_Exact (k + 1) ltac:(lia) Hm1) as [H3 H4].
  destruct (shr_fexp 53 1024 m1 e1 loc_Exact) as [r2 e2]. cbn [fst snd] in *.
  destruct (shr_m r2); [done| |done]. replace (e2 <=? 1024 - 53) with true by lia. done.
Qed.
Lemma true_div_total n d : 0 <= n < 2 ^ 64 -> 0 < d < 2 ^ 64 -> exists f, true_div n d = Ok f.
Proof.
  intros Hn Hd. unfold true_div. destruct n as [|m1|]; [destruct d; try lia; by eexists| |lia]. destruct d as [|m2|]; try lia.
  cbn [sf_of_Z SFdiv xorb]. unfold SFdiv_core_binary. set (s := 0 - 0 - _). set (e := Z.min _ _) in *.
  assert (- 130 <= e <= 0) as He.
  { unfold e, fexp. change (emin 53 1024) with (-1074). pose proof (digits2_le m2 64). cbn [Zdigits2]. lia. }
  set (m' := match s with Z0 => Zpos m1 | Zpos _ => Z.shiftl (Zpos m1) s | Zneg _ => 0 end).
  assert (0 <= m' < 2 ^ 194) as Hm'.
  { assert (0 <= s <= 130) by lia. unfold m'. destruct s as [|p|p]; [lia| |lia]. rewrite Z.shiftl_mul_pow2 by lia.
    pose proof (Z.pow_le_mono_r 2 (Zpos p) 130 ltac:(lia) ltac:(lia)). change (2 ^ 194) with (2 ^ 64 * 2 ^ 130). nia. }
  pose proof (Z_div_mod m' (Zpos m2) ltac:(lia)) as Hdm. destruct (Z.div_eucl m' (Zpos m2)) as [q r].
  rewrite (round_finite _ q e _ 194); [by eexists|lia|nia|lia|lia].
Qed.

(** ** Sizes *)

(** [_format_size] *)
Definition desktop_size (size_bytes : Z) : res pystr :=
  if size_bytes <? 1024 then t ← str_of_int size_bytes; Ok (t ++ u " B")
  else if size_bytes <? 1024 ^ 2 then q ← true_div size_bytes 1024; Ok (fixed_point 1 q ++ u " KB")
  else if size_bytes <? 1024 ^ 3 then q ← true_div size_bytes (1024 ^ 2); Ok (fixed_point 1 q ++ u " MB")
  else q ← true_div size_bytes (1024 ^ 3); Ok (fixed_point 2 q ++ u " GB").
Example desktop_size_examples :
  map desktop_size [0; 1023; 1024; 1536; 1048575; 1048576; 5 * 2 ^ 30; 10 * 2 ^ 30]
  = map (fun t => Ok (u t)) ["0 B"; "1023 B"; "1.0 KB"; "1.5 KB"; "1024.0 KB"; "1.0 MB"; "5.00 GB"; "10.00 GB"]%string.
Proof. vm_compute. reflexivity. Qed.

Lemma str_of_int_small z : 0 <= z < 2 ^ 64 -> str_of_int z = Ok (dec_pos z).
Proof.
  intros Hz. unfold str_of_int. rewrite Z.abs_eq by lia. pose proof (length_dec_pos z 64 ltac:(lia) ltac:(lia)).
  replace (_ >? _) with false by (unfold INT_MAX_STR_DIGITS; lia). by replace (z <? 0) with false by lia.
Qed.
Lemma desktop_size_total z : 0 <= z <= TEN_GIB -> exists t, desktop_size z = Ok t.
Proof.
  unfold TEN_GIB. intros Hz. unfold desktop_size. rewrite str_of_int_small by lia.
  destruct (true_div_total z 1024) as [f1 ->]; [lia|lia|]. destruct (true_div_total z (1024 ^ 2)) as [f2 ->]; [lia|lia|].
  destruct (true_div_total z (1024 ^ 3)) as [f3 ->]; [lia|lia|].
  destruct (z <? 1024), (z <? 1024 ^ 2), (z <? 1024 ^ 3); by eexists.
Qed.

(** ** The manager *)

Record desktop_notice := { dn_title : pystr; dn_body : pystr }.
(** [nm_idle] are the callbacks that wait for the main loop, [nm_shown] what the
    application was asked to show. *)
Record NotificationManager := {
  nm_gio : bool; nm_app : bool; nm_idle : list desktop_notice; nm_shown : list desktop_notice
}.
(** [NotificationManager(app)], where [gio] tells whether the import succeeds. *)
Definition new_notifications (gio app : bool) : NotificationManager :=
  {| nm_gio := gio; nm_app := app; nm_idle := []; nm_shown := [] |}.
Definition nm_set (idle shown : list desktop_notice) (n : NotificationManager) : NotificationManager :=
  {| nm_gio := nm_gio n; nm_app := nm_app n; nm_idle := idle; nm_shown := shown |}.

(** [_send] *)
Definition desktop_send (title body : pystr) : M NotificationManager unit :=
  modify (fun n => if nm_gio n && nm_app n then nm_set (nm_idle n ++ [{| dn_title := title; dn_body := body |}]) (nm_shown n) n else n).
(** [_do_send] on the main loop; an exception of Gio is caught. *)
Definition do_send (ok : bool) : M NotificationManager unit :=
  modify (fun n => match nm_idle n with
                   | [] => n
                   | x :: idle => nm_set idle (if ok then nm_shown n ++ [x] else nm_shown n) n
                   end).

Section methods.
Context `{HR : PyRepr}.

Definition quoted (t : pystr) : pystr := [34] ++ t ++ [34].
Definition DASH : Z := 8212.
Definition TO_ANSWER : pystr := u " " ++ [DASH] ++ u " open Raven to accept or reject.".
(** ["..." + value] *)
Definition concat_text (t : string) (value : json) : res pystr :=
  match value with JStr s => Ok (u t ++ s) | _ => Err TypeError end.

Definition incoming_transfer_request (device_name : json) (file_name : pystr) (file_size : Z) : M NotificationManager unit :=
  size ← lift (desktop_size file_size);
  title ← lift (concat_text "Incoming file from " device_name);
  desktop_send title (quoted file_name ++ u " (" ++ size ++ u ")" ++ TO_ANSWER).
Definition desktop_complete (file_name : pystr) (success : bool) (direction : pystr) : M NotificationManager unit :=
  let incoming := bool_decide (direction = u "INCOMING") in
  if success then
    desktop_send (u "Transfer complete") (quoted file_name ++ u " " ++ u (if incoming then "received" else "sent") ++ u " successfully.")
  else desktop_send (u "Transfer failed") (u "Could not " ++ u (if incoming then "receive" else "send") ++ u " " ++ quoted file_name ++ u ".").
Definition desktop_cancelled (file_name : pystr) : M NotificationManager unit :=
  desktop_send (u "Transfer cancelled") (quoted file_name ++ u " transfer was cancelled.").
Definition desktop_established (device_name : json) : M NotificationManager unit :=
  name ← lift (py_str device_name);
  desktop_send (u "Raven connected") (u "Secure session established with " ++ name ++ u ".").
Definition desktop_pairing (device_name : json) (sas : pystr) : M NotificationManager unit :=
  title ← lift (concat_text "Pairing request from " device_name);
  desktop_send title (u "Verify code: " ++ sas ++ TO_ANSWER).
Definition desktop_clipboard (device_name : json) : M NotificationManager unit :=
  name ← lift (py_str device_name);
  desktop_send (u "Clipboard updated") (u "Clipboard synced from " ++ name ++ u ".").

(** The calls that the manager gets. *)
Inductive desktop_call :=
  | DRequest (device_name : json) (file_name : pystr) (file_size : Z)
  | DComplete (file_name : pystr) (success : bool) (direction : pystr)
  | DCancelled (file_name : pystr)
  | DEstablished (device_name : json)
  | DPairing (device_name : json) (sas : pystr)
  | DClipboard (device_name : json)
  | DIdle (ok : bool).
Definition desktop_run (c : desktop_call) : M NotificationManager unit :=
  match c with
  | DRequest d f n => incoming_transfer_request d f n
  | DComplete f s d => desktop_complete f s d
  | DCancelled f => desktop_cancelled f
  | DEstablished d => desktop_established d
  | DPairing d s => desktop_pairing d s
  | DClipboard d => desktop_clipboard d
  | DIdle ok => do_send ok
  end.
Definition desktop_after (calls : list desktop_call) (n : NotificationManager) : NotificationManager :=
  fold_left (fun n c => (desktop_run c n).2) calls n.

(** A transfer request is announced whatever its size: for metadata that was
    accepted from a peer, the notification has the name of the device, of the file
    and its size as a text, and it is queued for the main loop if there is one and
    the manager has an application; nothing can fail but the concatenation with a
    device name that is no text, and then nothing is queued. *)
Theorem request_notified now payload m device_name n :
  metadata_from_dict now payload = Ok m ->
  let r := incoming_transfer_request device_name (m_file_name m) (m_file_size m) n in
  r.1 = match device_name with JStr _ => Ok tt | _ => Err TypeError end
  /\ match device_name with
     | JStr name =>
         exists size, desktop_size (m_file_size m) = Ok size
         /\ r.2 = if nm_gio n && nm_app n
                  then nm_set (nm_idle n ++ [{| dn_title := u "Incoming file from " ++ name;
                                                dn_body := quoted (m_file_name m) ++ u " (" ++ size ++ u ")" ++ TO_ANSWER |}]) (nm_shown n) n
                  else n
     | _ => r.2 = n
     end.
Proof.
  intros Hm. destruct (desktop_size_total (m_file_size m)) as [size Hs]; [by eapply wf_size, from_dict_wf|].
  cbv zeta. unfold incoming_transfer_request, mbind, M_bind, lift. rewrite Hs. destruct device_name; cbn; eauto.
Qed.

(** A manager without an application -- the one of the daemon -- shows nothing. *)
Lemma daemon_shows_nothing calls gio : desktop_after calls (new_notifications gio false) = new_notifications gio false.
Proof.
  unfold desktop_after. induction calls as [|c calls IH] using rev_ind; [done|]. rewrite fold_left_app, IH. cbn [fold_left].
  assert (forall t b, (desktop_send t b (new_notifications gio false)).2 = new_notifications gio false) as Hs.
  { intros t b. cbn. by rewrite andb_false_r. }
  destruct c; cbn [desktop_run]; unfold incoming_transfer_request, desktop_complete, desktop_cancelled, desktop_established,
    desktop_pairing, desktop_clipboard, mbind, M_bind, lift; repeat (case_match; try apply Hs; try done); first [done | apply Hs].
Qed.
End methods.
