(* ===== verification/Launch.v ===== *)
(** * Starting: [__main__.py] and the start-up of [ui/app.py]

    The modes of the command line, the activation of the application with the
    start of its backend (the client of the socket and the daemon, or a service
    in process), the files handed over for sending, and the listeners of the
    in-process mode.  The arguments are parsed by [argparse]; GTK's part (style
    sheet, the window itself) is left out. *)
From S2P Require Import Prelude PyStr Sha256 Json Protocol Wire Payloads Transfer Fs Incoming Outgoing Session Bridge Config Db.
From S2P Require Import Identity Discovery Peers Service Sending Handshake Ipc UiClient App Window Notifier.

(** ** The command line *)

Record arguments := {
  g_service : bool; g_in_process : bool; g_test_mode : bool; g_send : option (list pystr); g_unknown : list pystr
}.
(** What [main] comes to: the daemon, an exit code, or the application with the
    in-process switch, the files to send and the arguments for GTK. *)
Inductive started :=
  | RunService
  | Exit (code : Z)
  | RunApplication (in_process : bool) (pending : option (list pystr)) (argv : list pystr).

Definition IN_PROCESS_ON : pystr := u "1".
(** [main], where [env] is the variable [FERRY_IN_PROCESS], [argv0] the name of
    the program and [resolve] is [str(Path(p).resolve())]. *)
Definition main (resolve : pystr -> res pystr) (env : option pystr) (argv0 : pystr) (args : arguments) : res started :=
  if g_service args then Ok (if g_test_mode args then Exit 0 else RunService)
  else
    let env := if g_in_process args then Some IN_PROCESS_ON else env in
    let in_process := bool_decide (default (u "0") env = IN_PROCESS_ON) in
    if g_test_mode args then Ok (Exit 0)
    else
      let argv := argv0 :: g_unknown args in
      match g_send args with
      | None | Some [] => Ok (RunApplication in_process None argv)
      | Some files => paths ← mapM resolve files; Ok (RunApplication in_process (Some paths) argv)
      end.

(** ** The application *)

(** The calls that wait for the main loop: of the window, and [_queue_send]. *)
Inductive start_call :=
  | QPendingSend (path : pystr)
  | QQueueSend (paths : list pystr)
  | QDevices (devices : list DiscoveredDevice)
  | QSession (remote_addr : pystr) (state : SessionState)
  | QRequest (remote_addr transfer_id file_name : pystr) (file_size : Z)
  | QProgress (transfer_id : pystr) (bytes_done total_bytes : Z)
  | QComplete (transfer_id : pystr) (success : bool) (file_name direction : pystr).

Section launch.
Context `{HC : Crypto} `{HR : PyRepr} `{HH : Host} `{HI : IpcHost} {S : Type} `{HS : UiService S}.

(** [la_daemons] counts the processes that were launched, [la_windows] the
    windows that were made, [la_services] and [la_threads] the services and their
    threads in this process; [la_notifier] is the manager of the last one. *)
Record Launcher := {
  la_app : FerryApplication S; la_pending : option (list pystr); la_idle : list start_call;
  la_daemons : nat; la_windows : nat; la_presented : nat; la_notifier : option NotificationManager;
  la_services : nat; la_threads : nat
}.
Definition la_set_app (a : FerryApplication S) (l : Launcher) : Launcher :=
  {| la_app := a; la_pending := la_pending l; la_idle := la_idle l; la_daemons := la_daemons l; la_windows := la_windows l;
     la_presented := la_presented l; la_notifier := la_notifier l;
     la_services := la_services l; la_threads := la_threads l |}.
Definition la_set_pending (p : option (list pystr)) (l : Launcher) : Launcher :=
  {| la_app := la_app l; la_pending := p; la_idle := la_idle l; la_daemons := la_daemons l; la_windows := la_windows l;
     la_presented := la_presented l; la_notifier := la_notifier l;
     la_services := la_services l; la_threads := la_threads l |}.
Definition la_set_idle (q : list start_call) (l : Launcher) : Launcher :=
  {| la_app := la_app l; la_pending := la_pending l; la_idle := q; la_daemons := la_daemons l; la_windows := la_windows l;
     la_presented := la_presented l; la_notifier := la_notifier l;
     la_services := la_services l; la_threads := la_threads l |}.
Definition la_set_made (daemons windows presented : nat) (l : Launcher) : Launcher :=
  {| la_app := la_app l; la_pending := la_pending l; la_idle := la_idle l; la_daemons := daemons; la_windows := windows;
     la_presented := presented; la_notifier := la_notifier l;
     la_services := la_services l; la_threads := la_threads l |}.
Definition la_set_started (n : option NotificationManager) (services threads : nat) (l : Launcher) : Launcher :=
  {| la_app := la_app l; la_pending := la_pending l; la_idle := la_idle l; la_daemons := la_daemons l; la_windows := la_windows l;
     la_presented := la_presented l; la_notifier := n; la_services := services; la_threads := threads |}.

(** [FerryApplication()], with the files of [--send]. *)
Definition new_application (now : Z) (in_process : bool) : FerryApplication S :=
  {| ap_in_process := in_process; ap_window := false; ap_service := None; ap_ipc := new_ui_client now;
     ap_daemon_config := JObj []; ap_identity_prefix := JStr []; ap_discovered := JArr []; ap_trusted := JArr []; ap_calls := [] |}.
Definition new_launcher (now : Z) (in_process : bool) (pending : option (list pystr)) : Launcher :=
  {| la_app := new_application now in_process; la_pending := pending; la_idle := []; la_daemons := 0; la_windows := 0;
     la_presented := 0; la_notifier := None; la_services := 0; la_threads := 0 |}.

Definition on_app {A} (m : M (FerryApplication S) A) : M Launcher A := fun l =>
  let '(r, a) := m (la_app l) in (r, la_set_app a l).
Definition queue (c : start_call) : M Launcher unit := modify (fun l => la_set_idle (la_idle l ++ [c]) l).
Definition ap_open (a : FerryApplication S) : FerryApplication S :=
  {| ap_in_process := ap_in_process a; ap_window := true; ap_service := ap_service a; ap_ipc := ap_ipc a;
     ap_daemon_config := ap_daemon_config a; ap_identity_prefix := ap_identity_prefix a; ap_discovered := ap_discovered a;
     ap_trusted := ap_trusted a; ap_calls := ap_calls a |}.

(** [_launch_daemon], where [popen] tells whether the process can be started; an
    exception is logged. *)
Definition launch_daemon (popen : bool) : M Launcher unit :=
  modify (fun l => if popen then la_set_made (Datatypes.S (la_daemons l)) (la_windows l) (la_presented l) l else l).
(** [_start_ipc_client]: [found] tells whether the path of the socket exists. *)
Definition start_socket_client (found popen : bool) : M Launcher unit :=
  on_app start_ipc_client;;
  (if found then mret tt else launch_daemon popen);;
  on_app (on_ipc ui_start).
(** [_start_in_process_service]: [made] is the outcome of [FerryService()], which
    reads the configuration, opens the database and loads the identity, and may
    raise; [gio] tells whether notifications can be shown. *)
Definition start_in_process_service (gio : bool) (made : res S) : M Launcher unit :=
  service ← lift made;
  on_app (modify (ap_set_service (service, [])));;
  modify (fun l => la_set_started (Some (new_notifications gio true)) (Datatypes.S (la_services l)) (la_threads l) l);;
  modify (fun l => la_set_started (la_notifier l) (la_services l) (Datatypes.S (la_threads l)) l).
Definition start_backend (found popen gio : bool) (made : res S) : M Launcher unit :=
  l ← get;
  if ap_in_process (la_app l) then start_in_process_service gio made else start_socket_client found popen.

(** The callback of [--send]: the window has no method for several files. *)
Definition pending_callback (paths : list pystr) : M Launcher unit :=
  l ← get;
  if ap_window (la_app l) then
    match paths with [p] => queue (QPendingSend p) | _ => raise AttributeError end
  else mret tt.
Definition do_activate (found popen gio : bool) (made : res S) : M Launcher unit :=
  l ← get;
  (if ap_window (la_app l) then mret tt
   else
     on_app (modify ap_open);;
     modify (fun l => la_set_made (la_daemons l) (Datatypes.S (la_windows l)) (la_presented l) l);;
     start_backend found popen gio made);;
  modify (fun l => la_set_made (la_daemons l) (la_windows l) (Datatypes.S (la_presented l)) l);;
  l ← get;
  match la_pending l with
  | Some paths => modify (la_set_pending None);; pending_callback paths
  | None => mret tt
  end.
(** [files] are the paths of the files, where they have one. *)
Definition do_open (found popen gio : bool) (made : res S) (files : list (option pystr)) : M Launcher unit :=
  do_activate found popen gio made;;
  l ← get;
  if bool_decide (files = []) || negb (ap_window (la_app l)) then mret tt
  else
    let paths := List.filter (fun p => negb (bool_decide (p = []))) (omap (fun f => f) files) in
    if bool_decide (paths = []) then mret tt else queue (QQueueSend paths).

(** [_queue_send] on the main loop: the call of the window that it makes. *)
Definition queue_send (paths : list pystr) : M Launcher (option pystr) :=
  l ← get;
  if ap_window (la_app l) then
    match paths with [p] => mret (Some p) | _ => raise AttributeError end
  else mret None.

(** ** The listeners of the in-process mode *)

Definition in_window_later (c : start_call) : M Launcher unit :=
  l ← get; if ap_window (la_app l) then queue c else mret tt.
Definition on_devices_legacy (devices : list DiscoveredDevice) : M Launcher unit := in_window_later (QDevices devices).
(** A call of a listener of the service.  Nobody listens to pairing requests:
    the service announces them to the local interface only. *)
Definition on_notice_legacy (n : notice) : M Launcher unit :=
  match n with
  | NSession addr state => in_window_later (QSession addr state)
  | NRequest addr tid name size => in_window_later (QRequest addr tid name size)
  | NProgress tid done total => in_window_later (QProgress tid done total)
  | NComplete tid success name direction => in_window_later (QComplete tid success name direction)
  | NPairing _ _ _ => mret tt
  end.

(** ** Everything that happens to it *)

Inductive start_event :=
  | SActivate (found popen gio : bool) (made : res S)
  | SOpen (found popen gio : bool) (made : res S) (files : list (option pystr))
  | SNotice (n : notice)
  | SDevices (devices : list DiscoveredDevice)
  | SCallback (cb : ui_callback) (payload : json)         (** an event of the daemon *)
  | SCommand (c : ui_command)                              (** an action of the user *)
  | SMain.                                                 (** the main loop runs its next call *)
Definition run_start (e : start_event) (l : Launcher) : Launcher :=
  match e with
  | SActivate f p g m => (do_activate f p g m l).2
  | SOpen f p g m files => (do_open f p g m files l).2
  | SNotice n => (on_notice_legacy n l).2
  | SDevices ds => (on_devices_legacy ds l).2
  | SCallback cb payload => (on_app (run_callback cb payload) l).2
  | SCommand c => (on_app (app_command c) l).2
  | SMain => la_set_idle (drop 1 (la_idle l)) l
  end.
Definition launcher_after (now : Z) (in_process : bool) (pending : option (list pystr)) (es : list start_event) : Launcher :=
  fold_left (fun l e => run_start e l) es (new_launcher now in_process pending).

(** ** What was started *)

(** The first activation, with what it found. *)
Definition activation (e : start_event) : option (bool * bool * bool * res S) :=
  match e with SActivate f p g m | SOpen f p g m _ => Some (f, p, g, m) | _ => None end.
Definition first_activation (es : list start_event) : option (bool * bool * bool * res S) := hd_error (omap activation es).

(** What the application is made of. *)
Definition app_shape (a : FerryApplication S) : bool * bool * bool * list (string * ui_callback) :=
  (ap_in_process a, ap_window a, has (ap_service a), uc_callbacks (ap_ipc a)).
Definition shape (l : Launcher) :=
  (app_shape (la_app l), la_daemons l, la_windows l, la_notifier l, la_services l, la_threads l).

Definition is_made (made : res S) : bool := match made with Ok _ => true | Err _ => false end.
Definition shape_of (in_process : bool) (first : option (bool * bool * bool * res S)) :=
  match first with
  | None => (in_process, false, false, [], 0%nat, 0%nat, None, 0%nat, 0%nat)
  | Some (found, popen, gio, made) =>
      let started := in_process && is_made made in
      let n := if started then 1%nat else 0%nat in
      (in_process, true, started, if in_process then [] else registrations,
       if negb in_process && negb found && popen then 1%nat else 0%nat, 1%nat,
       if started then Some (new_notifications gio true) else None, n, n)
  end.

Lemma shape_callback X cb payload : stable (fun a => app_shape a = X) (run_callback cb payload).
Proof.
  assert (forall w, stable (fun a => app_shape a = X) (in_window w)) as Hw.
  { intros w a Ha. apply wp_modify. rewrite <-Ha. by destruct a as [? [] ? ? ? ? ? ? ?]. }
  assert (forall f, (forall a, app_shape (f a) = app_shape a) -> stable (fun a : FerryApplication S => app_shape a = X) (modify f)) as Hm.
  { intros f Hf a Ha. apply wp_modify. by rewrite Hf. }
  destruct cb; cbn [run_callback]; repeat first
    [ apply Hw | by apply Hm | apply stable_ret | apply stable_raise | apply stable_lift
    | apply stable_bind; [|intros ?] | progress unfold on_snapshot, on_device_update, on_trusted_devices_result | case_match ].
Qed.
Lemma shape_command X c : stable (fun a => app_shape a = X) (app_command c).
Proof.
  assert (forall m : M UiClient unit, (forall u, uc_callbacks (m u).2 = uc_callbacks u) -> stable (fun a => app_shape a = X) (on_ipc m)) as Hi.
  { intros m Hm a Ha. unfold wp, on_ipc. specialize (Hm (ap_ipc a)). destruct (m (ap_ipc a)) as [r u']. rewrite <-Ha. cbn in *.
    unfold app_shape. cbn. by rewrite Hm. }
  assert (forall c u, uc_callbacks (ui_send c u).2 = uc_callbacks u) as Hs.
  { intros c' x. unfold ui_send. destruct (command_message c') as [ty payload]. unfold send_raw, swallow, try_except, mbind, M_bind, get, mret, M_ret.
    destruct (negb (uc_writer x)); [done|]. unfold lift, modify. destruct (encode_ipc_frame _ _ _); [|done]. by destruct (uc_lost x). }
  intros a Ha. unfold app_command. do 2 wp_step. destruct (ap_service a) as [x|] eqn:Es; [|by apply Hi].
  destruct (_ && _); [|by apply Hi]. apply wp_modify. rewrite <-Ha. unfold app_shape. cbn. by rewrite Es.
Qed.

Lemma start_ipc_shape a : uc_callbacks (ap_ipc a) = [] ->
  exists a', start_ipc_client a = (Ok tt, a') /\ app_shape a' = (ap_in_process a, ap_window a, has (ap_service a), registrations).
Proof.
  destruct a as [ip w sv [cl co wr lo out cbs idle now] dc pre ds ts calls]. cbn. intros ->. eexists. split; reflexivity.
Qed.

Lemma shape_backend in_process l f p g m :
  shape l = (in_process, true, false, [], 0%nat, 1%nat, None, 0%nat, 0%nat) ->
  wp (start_backend f p g m) (fun _ l' => shape l' = shape_of in_process (Some (f, p, g, m))) l.
Proof.
  intros H. unfold shape, app_shape in H. injection H as H1 H2 H3 H4 H5 H6 H7 H8 H9. unfold start_backend. do 2 wp_step. rewrite H1.
  destruct l as [a pe q d w pr nt sv th]. cbn in *. subst d w nt sv th. destruct in_process.
  - unfold wp, start_in_process_service, on_app, mbind, M_bind, modify, lift, shape, app_shape. destruct m; cbn; by rewrite H1, H2, ?H3, H4.
  - unfold start_socket_client. unfold wp, on_app, mbind, M_bind. cbn [la_app]. destruct (start_ipc_shape a H4) as (a' & -> & Ha'). cbn.
    rewrite H1, H2, H3 in Ha'. assert (app_shape (ap_set_ipc (uc_set_closing false (ap_ipc a')) a') = app_shape a') as E by done.
    destruct f, p; unfold shape; cbn; by rewrite E, Ha'.
Qed.
Lemma shape_aside (f : Launcher -> Launcher) X :
  (forall l, shape (f l) = shape l) -> stable (fun l => shape l = X) (modify f).
Proof. intros Hf l Hl. apply wp_modify. by rewrite Hf. Qed.
Lemma shape_queue c X : stable (fun l => shape l = X) (queue c).
Proof. by apply shape_aside. Qed.
Lemma shape_pending paths X : stable (fun l => shape l = X) (pending_callback paths).
Proof.
  intros l Hl. unfold pending_callback. do 2 wp_step. case_match; [|done]. destruct paths as [|p [|]]; [done|by apply shape_queue|done].
Qed.

Definition or_first {A} (x y : option A) : option A := match x with Some _ => x | None => y end.
Lemma shape_activate in_process first l f p g m :
  shape l = shape_of in_process first ->
  wp (do_activate f p g m) (fun _ l' => shape l' = shape_of in_process (or_first first (Some (f, p, g, m)))) l.
Proof.
  intros Hl. unfold do_activate. do 2 wp_step.
  set (rest := fun _ : unit => mbind (M := M Launcher) _ _).
  assert (forall X l, shape l = X -> wp (rest tt) (fun _ l' => shape l' = X) l) as Hrest.
  { intros X l1 Hl1. unfold rest. wp_step. apply wp_modify. wp_step. wp_step.
    set (l2 := la_set_made _ _ _ l1). assert (shape l2 = X) as H2 by done. destruct (la_pending l2); [|done].
    wp_step. apply wp_modify. by apply shape_pending. }
  assert (ap_window (la_app l) = bool_decide (is_Some first)) as Hw.
  { unfold shape, app_shape in Hl. destruct first as [[[[? ?] ?] ?]|]; by injection Hl as _ Hw. }
  rewrite Hw. destruct first as [[[[f0 p0] g0] m0]|]; cbn [bool_decide or_first].
  - apply wp_bind. rewrite bool_decide_eq_true_2 by done. apply wp_ret. by apply Hrest.
  - apply wp_bind. eapply (wp_mono _ (fun _ l' => shape l' = shape_of in_process (Some (f, p, g, m)))).
    + rewrite bool_decide_eq_false_2 by (by intros []). set (l1 := la_set_app (ap_open (la_app l)) l).
      change (wp (start_backend f p g m) (fun _ l' => shape l' = shape_of in_process (Some (f, p, g, m)))
        (la_set_made (la_daemons l1) (Datatypes.S (la_windows l1)) (la_presented l1) l1)). apply shape_backend. unfold shape, app_shape in Hl |- *. cbn in *.
      injection Hl as E1 E2 E3 E4 E5 E6 E7 E8 E9. by rewrite E1, E3, E4, E5, E6, E7, E8, E9.
    + intros [[]|e] l' H; [by apply Hrest|done].
Qed.
Lemma run_start_shape in_process first l e :
  shape l = shape_of in_process first -> shape (run_start e l) = shape_of in_process (or_first first (activation e)).
Proof.
  intros Hl. assert (or_first first None = first) as Hnone by (by destruct first).
  assert (forall c, shape (in_window_later c l).2 = shape l) as Hq.
  { intros c. unfold in_window_later, mbind, M_bind, get. by destruct (ap_window (la_app l)). }
  assert (forall (m : M (FerryApplication S) unit), stable (fun a => app_shape a = app_shape (la_app l)) m -> shape (on_app m l).2 = shape l) as Happ.
  { intros m Hm. specialize (Hm (la_app l) eq_refl). unfold wp, on_app in *. destruct (m (la_app l)) as [r a]. unfold shape. cbn in *. by rewrite Hm. }
  destruct e as [f p g m|f p g m files|n|ds|cb payload|c|]; cbn [run_start activation]; rewrite ?Hnone.
  - pose proof (shape_activate in_process first l f p g m Hl) as H. unfold wp in H. by destruct (do_activate f p g m l).
  - pose proof (shape_activate in_process first l f p g m Hl) as H. unfold wp, do_open, mbind, M_bind in *.
    destruct (do_activate f p g m l) as [[[]|er] l1]; [|done]. unfold get. destruct (_ || _); [done|]. by destruct (bool_decide _).
  - destruct n; cbn [on_notice_legacy]; [by rewrite Hq..|done].
  - unfold on_devices_legacy. by rewrite Hq.
  - by rewrite Happ by apply shape_callback.
  - by rewrite Happ by apply shape_command.
  - done.
Qed.

Lemma launcher_shape now in_process pending es :
  shape (launcher_after now in_process pending es) = shape_of in_process (first_activation es).
Proof.
  unfold launcher_after, first_activation. induction es as [|e es IH] using rev_ind; [done|].
  rewrite fold_left_app. cbn [fold_left]. rewrite (run_start_shape _ _ _ _ IH), omap_app. cbn.
  destruct (omap activation es); [|done]. by destruct (activation e).
Qed.

(** C31. The application starts one backend, once: whatever activations, files to
    open, events of the daemon, calls of listeners and actions of the user come,
    in whatever order, nothing is started before the first activation, and after
    it there is one window; in the socket mode all eleven events of the daemon
    have their callback, there is no service in this process, and a daemon was
    launched if and only if the first activation found no socket and the process
    could be started -- later ones launch nothing, whatever they find.  In process
    there is no daemon and no callback; if [FerryService()] could be made at the
    first activation there is one service, with one thread and its notifications,
    and if it raised there is none and no later activation tries again. *)
Theorem started_once now in_process pending es :
  let l := launcher_after now in_process pending es in
  match first_activation es with
  | None => ap_window (la_app l) = false /\ la_windows l = 0%nat /\ la_daemons l = 0%nat /\ la_services l = 0%nat /\ la_threads l = 0%nat
            /\ ap_service (la_app l) = None /\ uc_callbacks (ap_ipc (la_app l)) = []
  | Some (found, popen, gio, made) =>
      ap_window (la_app l) = true /\ la_windows l = 1%nat
      /\ if in_process then
           la_daemons l = 0%nat /\ uc_callbacks (ap_ipc (la_app l)) = []
           /\ match made with
              | Ok _ => la_services l = 1%nat /\ la_threads l = 1%nat /\ is_Some (ap_service (la_app l))
                        /\ la_notifier l = Some (new_notifications gio true)
              | Err _ => la_services l = 0%nat /\ la_threads l = 0%nat /\ ap_service (la_app l) = None /\ la_notifier l = None
              end
         else
           la_daemons l = (if found then 0 else if popen then 1 else 0)%nat /\ la_services l = 0%nat /\ la_threads l = 0%nat
           /\ ap_service (la_app l) = None /\ la_notifier l = None /\ uc_callbacks (ap_ipc (la_app l)) = registrations
  end.
Proof.
  pose proof (launcher_shape now in_process pending es) as H. cbv zeta. set (l := launcher_after _ _ _ _) in *. clearbody l.
  assert (forall o : option (S * list job), has o = true -> is_Some o) as Ht by (intros []; [by eexists|done]).
  assert (forall o : option (S * list job), has o = false -> o = None) as Hf by (by intros []).
  unfold shape, app_shape, shape_of in H. destruct (first_activation es) as [[[[found popen] gio] made]|].
  - destruct in_process, found, popen, made; injection H as H1 H2 H3 H4 H5 H6 H7 H8 H9; split_and!; auto.
  - injection H as H1 H2 H3 H4 H5 H6 H7 H8 H9; split_and!; auto.
Qed.
End launch.
