(* ===== verification/Kernel.v ===== *)
(** * What the handlers of the service leave alone

    The kernel of the service's state (session states, keys, the session table
    and the trusted devices), the rules to show that a computation keeps it, and
    that every handler but the pairing ones does. *)
From S2P Require Import Prelude PyStr Sha256 Json Protocol Payloads Transfer Fs Incoming Outgoing Session Bridge Db.
From S2P Require Import Identity Peers Service Sending Handshake.

(** ** What most handlers leave alone *)

(** What a session holds of the two identities. *)
Definition hands (fs : FerrySession) : bool * option HandshakeData * option HandshakeData :=
  (s_is_initiator fs, s_local_hs fs, s_remote_hs fs).
(** A session as the pairing protocol sees it. *)
Definition outline (p : PeerSession) : SessionState * phase * pystr * (option pystr * (bool * option HandshakeData * option HandshakeData)) :=
  (s_state (p_session p), p_phase p, p_addr p, (p_static_b64 p, hands (p_session p))).
Definition kernel (s : Service) := (map outline (v_peers s), v_sessions s, db_devices (v_db s)).

(** [m] changes no session state, no session table, no trusted device. *)
Definition keeps {A} (m : M Service A) : Prop := forall k, stable (fun s => kernel s = k) m.

Lemma map_alter {A B} (g : A -> B) f i l : (forall x, g (f x) = g x) -> map g (alter f i l) = map g l.
Proof.
  intros H. revert i; induction l as [|x l IH]; intros [|i]; cbn; try done; [by rewrite H|]. f_equal. apply IH.
Qed.

Lemma wp_peer {A} pid (k : PeerSession -> M Service A) (Q : res A -> Service -> Prop) s :
  wp (k (peer_at pid s)) Q s -> wp (peer pid ≫= k) Q s.
Proof. done. Qed.

Section keeps_rules.
Lemma keeps_bind {A B} (m : M Service A) (f : A -> M Service B) : keeps m -> (forall a, keeps (f a)) -> keeps (m ≫= f).
Proof. intros Hm Hf k. apply stable_bind; [apply Hm|intros a; apply Hf]. Qed.
Lemma keeps_bind_lift {A B} (r : res A) (f : A -> M Service B) : (forall a, r = Ok a -> keeps (f a)) -> keeps (lift r ≫= f).
Proof. intros Hf k. apply stable_bind_lift. intros a Ha. by apply Hf. Qed.
Lemma keeps_get {B} (f : Service -> M Service B) :
  (forall s k, kernel s = k -> wp (f s) (fun _ s' => kernel s' = k) s) -> keeps (get ≫= f).
Proof. intros Hf k s Hs. wp_step. wp_step. by apply Hf. Qed.
Lemma keeps_get_any {B} (f : Service -> M Service B) : (forall s, keeps (f s)) -> keeps (get ≫= f).
Proof. intros Hf. apply keeps_get. intros s k Hs. by apply Hf. Qed.
Lemma keeps_ret {A} (a : A) : keeps (mret a).
Proof. intros k. apply stable_ret. Qed.
Lemma keeps_raise {A} e : keeps (raise (A := A) e).
Proof. intros k. apply stable_raise. Qed.
Lemma keeps_lift {A} (r : res A) : keeps (lift r).
Proof. intros k. apply stable_lift. Qed.
Lemma keeps_try {A} (m : M Service A) p h : keeps m -> (forall e, keeps (h e)) -> keeps (try_except m p h).
Proof. intros Hm Hh k. apply stable_try; [apply Hm|intros e; apply Hh]. Qed.
Lemma keeps_swallow m : keeps m -> keeps (swallow m).
Proof. intros Hm k. apply stable_swallow, Hm. Qed.
Lemma keeps_modify f : (forall s, kernel (f s) = kernel s) -> keeps (modify f).
Proof. intros Hf k s Hs. wp_step. by rewrite Hf. Qed.
Lemma keeps_upd_peer pid f : (forall p, outline (f p) = outline p) -> keeps (upd_peer pid f).
Proof. intros Hf. apply keeps_modify. intros []. unfold kernel. cbn. by rewrite map_alter. Qed.
Lemma keeps_peer pid : keeps (peer pid).
Proof. apply keeps_get_any. intros s. apply keeps_ret. Qed.
Lemma keeps_incoming_object oid : keeps (incoming_object oid).
Proof. apply keeps_get_any. intros s. destruct (_ !! oid); [apply keeps_ret|apply keeps_raise]. Qed.
Lemma keeps_draw_fresh : keeps draw_fresh.
Proof. by intros k []. Qed.
Lemma keeps_new_object t : keeps (new_object t).
Proof. by intros k []. Qed.
Lemma keeps_new_batch id b : keeps (new_batch id b).
Proof. by intros k []. Qed.
Lemma keeps_fs_call {A} (m : M world A) : keeps (fs_call m).
Proof. intros k [] Hk. unfold wp, fs_call. cbn. by destruct (m v_world). Qed.
Lemma keeps_on_incoming {A} oid (m : M st A) : keeps (on_incoming oid m).
Proof.
  intros k [] Hk. unfold wp, on_incoming. cbn. destruct (v_xfers !! oid) as [t|]; [|done].
  by destruct (m (t, v_world)) as [r [t' w']].
Qed.
Lemma keeps_on_session {A} pid (m : M FerrySession A) :
  (forall fs, s_state (m fs).2 = s_state fs /\ hands (m fs).2 = hands fs) -> keeps (on_session pid m).
Proof.
  intros Hm k s Hs. unfold wp, on_session. specialize (Hm (p_session (peer_at pid s))).
  destruct (m _) as [r fs'] eqn:E. cbn [fst snd] in *. rewrite <-Hs. destruct s. unfold kernel. cbn. do 2 f_equal.
  unfold peer_at in *. cbn in *. clear E Hs. revert pid Hm. induction v_peers as [|p l IH]; intros [|i] Hm; cbn in *; try done.
  - unfold outline. cbn. by destruct Hm as [-> ->].
  - f_equal. by apply IH.
Qed.
Lemma keeps_iterM {A} (f : A -> M Service unit) l : (forall x, keeps (f x)) -> keeps (iterM f l).
Proof. intros Hf. induction l as [|x l IH]; cbn; [apply keeps_ret|]. apply keeps_bind; [apply Hf|intros _; apply IH]. Qed.
Lemma keeps_notify n : keeps (notify n).
Proof. by apply keeps_modify; intros []. Qed.
End keeps_rules.

Create HintDb keeps.
#[export] Hint Resolve keeps_ret keeps_raise keeps_lift keeps_peer keeps_incoming_object keeps_draw_fresh keeps_new_object keeps_new_batch
  keeps_fs_call keeps_on_incoming keeps_notify : keeps.

Ltac keep1 :=
  match goal with
  | |- forall _, _ => intros ?
  | |- keeps (get ≫= _) => apply keeps_get_any
  | |- keeps (lift _ ≫= _) => apply keeps_bind_lift
  | |- keeps (_ ≫= _) => apply keeps_bind
  | |- keeps (try_except _ _ _) => apply keeps_try
  | |- keeps (swallow _) => apply keeps_swallow
  | |- keeps (iterM _ _) => apply keeps_iterM
  | |- keeps (modify _) => apply keeps_modify; solve [intros []; done]
  | |- keeps (upd_peer _ _) => apply keeps_upd_peer; solve [intros []; done]
  | |- keeps (match _ with _ => _ end) => case_match
  | |- keeps (let _ := _ in _) => cbv zeta
  | |- keeps _ => solve [auto 2 with keeps]
  end.
Ltac keep := repeat keep1.

Section keepers.
Context `{HC : Crypto} `{HR : PyRepr} `{HH : Host}.

Lemma encrypt_frame_state p s : s_state (encrypt_frame p s).2 = s_state s /\ hands (encrypt_frame p s).2 = hands s.
Proof.
  unfold encrypt_frame, mbind, M_bind, get, put, lift, raise, mret, M_ret. cbn.
  by repeat (case_match; simplify_eq/=).
Qed.
Lemma decrypt_frame_state f s : s_state (decrypt_frame f s).2 = s_state s /\ hands (decrypt_frame f s).2 = hands s.
Proof.
  unfold decrypt_frame, mbind, M_bind, get, put, lift, raise, mret, M_ret. cbn.
  by repeat (case_match; simplify_eq/=).
Qed.

Lemma keeps_write_drain pid data : keeps (write_drain pid data).
Proof.
  unfold write_drain. apply keeps_bind; [|keep]. apply keeps_upd_peer. intros p. unfold p_write. by case_match.
Qed.
Lemma keeps_make_envelope mt payload : keeps (make_envelope mt payload).
Proof. unfold make_envelope. keep. Qed.
Lemma keeps_encrypt pid p : keeps (on_session pid (encrypt_frame p)).
Proof. apply keeps_on_session. intros s. apply encrypt_frame_state. Qed.
Lemma keeps_decrypt pid f : keeps (on_session pid (decrypt_frame f)).
Proof. apply keeps_on_session. intros s. apply decrypt_frame_state. Qed.
#[local] Hint Resolve keeps_write_drain keeps_make_envelope keeps_encrypt keeps_decrypt : keeps.
Lemma keeps_send_encrypted pid mt payload : keeps (send_encrypted pid mt payload).
Proof. unfold send_encrypted. keep. Qed.
Lemma keeps_send_plain pid mt payload : keeps (send_plain pid mt payload).
Proof. unfold send_plain. keep. Qed.
Lemma keeps_signal_transfer pid tid v : keeps (signal_transfer pid tid v).
Proof. unfold signal_transfer. apply keeps_bind; [keep|]. intros k. apply keeps_upd_peer. intros p. by repeat case_match. Qed.
Lemma keeps_signal_result pid tid v : keeps (signal_result pid tid v).
Proof. unfold signal_result. apply keeps_bind; [keep|]. intros k. apply keeps_upd_peer. intros p. by repeat case_match. Qed.
Lemma keeps_pop_timeout tid : keeps (pop_timeout tid).
Proof. apply keeps_modify. intros []. cbn. by case_match. Qed.
#[local] Hint Resolve keeps_send_encrypted keeps_send_plain keeps_signal_transfer keeps_signal_result keeps_pop_timeout : keeps.

(** Storing a history makes no difference to the devices. *)
Lemma add_transfer_devices r d d' : add_transfer r d = Ok d' -> db_devices d' = db_devices d.
Proof. intros H. apply bind_Ok in H as (? & _ & [= <-]). done. Qed.
Lemma delete_interrupted_devices id d d' : delete_interrupted_transfer id d = Ok d' -> db_devices d' = db_devices d.
Proof. intros H. apply bind_Ok in H as (? & _ & [= <-]). done. Qed.

Lemma wp_set_db d s k : db_devices d = db_devices (v_db s) -> kernel s = k -> kernel (set_db d s) = k.
Proof. destruct s. unfold kernel. cbn. by intros ->. Qed.

Lemma keeps_record tid dev name size dir status started sha : keeps (record_transfer_once tid dev name size dir status started sha).
Proof.
  apply keeps_get. intros s k Hs. case_bool_decide; [by wp_step|]. wp_step. repeat wp_step.
  destruct (db_text dev); [|done]. repeat wp_step. destruct (add_transfer _ _) as [d|] eqn:E; [|done]. repeat wp_step.
  apply add_transfer_devices in E. destruct s. unfold kernel in *. cbn in *. by rewrite E.
Qed.
#[local] Hint Resolve keeps_record : keeps.

Lemma keeps_cancel_incoming_for_peer pid : keeps (cancel_incoming_transfer_for_peer pid).
Proof. unfold cancel_incoming_transfer_for_peer, record_incoming, pop_incoming, pop_incoming_peer, pop_last_chunk. keep. Qed.
Lemma keeps_cancel_outgoing_for_peer pid : keeps (cancel_outgoing_transfer_for_peer pid).
Proof. unfold cancel_outgoing_transfer_for_peer, cancel_send. keep. Qed.
Lemma keeps_cancel_incoming tid : keeps (cancel_incoming_transfer tid).
Proof. unfold cancel_incoming_transfer, pop_incoming, pop_incoming_peer, pop_last_chunk. keep. Qed.
Lemma keeps_on_chunk p : keeps (on_chunk_received p).
Proof. unfold on_chunk_received, add_batch_bytes, upd_batch, record_incoming, pop_incoming, pop_incoming_peer, pop_last_chunk. keep. Qed.
Lemma keeps_on_request pid d : keeps (on_transfer_request pid d).
Proof. unfold on_transfer_request, track. keep. Qed.
Lemma keeps_timeout task : keeps (acceptance_timeout task).
Proof. unfold acceptance_timeout, pop_incoming, pop_incoming_peer. keep. Qed.
Lemma keeps_on_complete pid tid : keeps (on_transfer_complete pid tid).
Proof. unfold on_transfer_complete, batch_item_done, upd_batch, record_incoming, pop_batch, pop_incoming, pop_incoming_peer, pop_last_chunk. keep. Qed.
Lemma keeps_on_cancel pid tid : keeps (on_transfer_cancel pid tid).
Proof. unfold on_transfer_cancel, record_incoming, cancel_send, pop_incoming, pop_incoming_peer, pop_last_chunk. keep. Qed.
Lemma keeps_on_batch_request pid d : keeps (on_batch_request pid d).
Proof. unfold on_batch_request. keep. Qed.
Lemma keeps_on_batch_complete j : keeps (on_batch_complete j).
Proof. unfold on_batch_complete, pop_batch. keep. Qed.
Lemma keeps_on_batch_cancel j : keeps (on_batch_cancel j).
Proof. unfold on_batch_cancel, pop_batch. keep. Qed.
Lemma keeps_on_resume_request pid d : keeps (on_transfer_resume_request pid d).
Proof. unfold on_transfer_resume_request, track. keep. Qed.
Lemma keeps_accept_transfer a t : keeps (accept_transfer a t).
Proof. unfold accept_transfer, accept_batch, upd_batch. keep. Qed.
Lemma keeps_reject_transfer a t : keeps (reject_transfer a t).
Proof. unfold reject_transfer, reject_batch, pop_incoming, pop_batch. keep. Qed.
Lemma keeps_cancel_transfer t r : keeps (cancel_transfer t r).
Proof. unfold cancel_transfer, record_incoming, cancel_send, pop_batch, pop_incoming, pop_incoming_peer, pop_last_chunk. keep. Qed.
Lemma keeps_accept_batch a b : keeps (accept_batch a b).
Proof. unfold accept_batch, upd_batch. keep. Qed.
Lemma keeps_reject_batch a b : keeps (reject_batch a b).
Proof. unfold reject_batch, pop_batch. keep. Qed.
Lemma keeps_start : keeps prepare_files.
Proof. unfold prepare_files, clean_staging, clean_file. keep. Qed.
Lemma keeps_stall : keeps stall_turn.
Proof. unfold stall_turn. keep. Qed.
Lemma keeps_resume_begin a t : keeps (request_resume_begin a t).
Proof.
  unfold request_resume_begin, track, wait_response_begin. keep.
Qed.
Lemma keeps_resume_end p t o k r : keeps (request_resume_end p t o k r).
Proof. unfold request_resume_end, wait_response_end, pop_incoming, pop_incoming_peer. keep. Qed.
Lemma keeps_discard t : keeps (discard_interrupted_transfer t).
Proof.
  unfold discard_interrupted_transfer, pop_incoming, pop_incoming_peer. do 5 (apply keeps_bind; [keep|intros ?]).
  apply keeps_swallow, keeps_bind; [keep|]. intros [id|]; [|keep]. apply keeps_get. intros s k Hs. repeat wp_step.
  destruct (delete_interrupted_transfer _ _) as [d|] eqn:E; [|done].
  repeat wp_step. apply delete_interrupted_devices in E. by apply wp_set_db.
Qed.
Lemma keeps_on_post j : keeps (on_notification_post j).
Proof. unfold on_notification_post, upd_bridge. keep. Qed.
Lemma keeps_on_remove j : keeps (on_notification_remove j).
Proof. unfold on_notification_remove, upd_bridge. keep. Qed.
#[local] Hint Resolve keeps_cancel_incoming keeps_on_chunk keeps_on_request keeps_on_complete keeps_on_cancel keeps_on_batch_request
  keeps_on_batch_complete keeps_on_batch_cancel keeps_on_resume_request : keeps.
Lemma keeps_handle_message pid e : keeps (handle_transfer_message pid e).
Proof. unfold handle_transfer_message. keep. Qed.

(** The sending tasks. *)
Lemma keeps_on_outgoing {A} oid (m : M ost A) : keeps (on_outgoing oid m).
Proof.
  intros k [] Hk. unfold wp, on_outgoing. cbn. destruct (v_sends !! oid) as [t|]; [|done].
  by destruct (m (t, v_world)) as [r [t' w']].
Qed.
Lemma keeps_new_send t : keeps (new_send t).
Proof. by intros k []. Qed.
Lemma keeps_report k status sha ok : keeps (report k status sha ok).
Proof. unfold report. keep. Qed.
Lemma keeps_guarded tid m : keeps m -> keeps (guarded tid m).
Proof. intros Hm. unfold guarded, pop_outgoing. repeat first [keep1 | exact Hm]. Qed.
Lemma keeps_send_begin i a p t b r : keeps (send_file_begin i a p t b r).
Proof.
  unfold send_file_begin, wait_response_begin. repeat first [keep1 | apply keeps_guarded | apply keeps_on_outgoing | apply keeps_new_send].
Qed.
Lemma keeps_send_streamed k : keeps (send_file_streamed k).
Proof. unfold send_file_streamed, is_cancelled, cancel_notice, wait_result_begin. repeat first [keep1 | apply keeps_report]. Qed.
Lemma keeps_send_step k b : keeps (send_step k b).
Proof.
  unfold send_step. apply keeps_guarded. destruct (k_phase k).
  - unfold send_file_response, wait_response_end, cancelled_flag. repeat first [keep1 | apply keeps_report].
  - unfold send_file_next, is_cancelled, cancel_notice.
    repeat first [keep1 | apply keeps_report | apply keeps_send_streamed | apply keeps_on_outgoing
                 | apply keeps_upd_peer; solve [intros q; unfold p_write; by case_match]].
  - unfold send_file_drained, add_batch_bytes, upd_batch. keep.
  - unfold send_file_result, wait_result_end. repeat first [keep1 | apply keeps_report].
Qed.
Lemma keeps_batch_loop i files : forall t n, keeps (send_batch_loop i t n files).
Proof.
  assert (forall t, keeps (send_batch_done t)) as Hd by (intros t; unfold send_batch_done, pop_batch; keep).
  induction files as [|[a r] files IH]; intros t n; cbn [send_batch_loop]; [apply Hd|].
  unfold count_item, upd_batch. repeat first [keep1 | apply Hd | apply IH | apply keeps_send_begin].
Qed.
Lemma keeps_send_batch i a l n : keeps (send_batch_begin i a l n).
Proof. unfold send_batch_begin, wait_response_begin. keep. Qed.
Lemma keeps_batch_step i t b : keeps (batch_step i t b).
Proof.
  unfold batch_step, wait_response_end, count_item, upd_batch, pop_batch.
  repeat first [keep1 | apply keeps_batch_loop | apply keeps_send_step].
Qed.
End keepers.
#[export] Hint Resolve keeps_write_drain keeps_make_envelope keeps_encrypt keeps_decrypt keeps_send_encrypted keeps_send_plain
  keeps_signal_transfer keeps_signal_result keeps_pop_timeout keeps_record keeps_cancel_incoming_for_peer
  keeps_cancel_outgoing_for_peer keeps_on_chunk keeps_handle_message keeps_accept_transfer keeps_reject_transfer
  keeps_cancel_transfer keeps_accept_batch keeps_reject_batch keeps_start keeps_stall keeps_resume_begin keeps_resume_end keeps_send_begin keeps_send_step keeps_send_batch keeps_batch_step keeps_discard keeps_timeout keeps_on_post keeps_on_remove : keeps.
