(* ===== verification/WellFormed.v ===== *)
(** * The representation of the tables is adequate

    A service keeps dictionaries of objects, which the model has as association
    lists of positions.  After any sequence of events every key occurs once and
    every position is that of an object, so a lookup in the model is the lookup of
    the dictionary, and a default for a missing object is never used. *)
From S2P Require Import Prelude PyStr Sha256 Json Protocol Payloads Transfer Fs Incoming Outgoing Session Bridge Db.
From S2P Require Import Identity Peers Service Sending Handshake.

(** ** Tables *)

(** A table with distinct keys and values in [P]. *)
Definition table {K V} (P : V -> Prop) (d : list (K * V)) : Prop := NoDup d.*1 /\ Forall (fun e => P e.2) d.

Section table.
Context {K V : Type} `{EqDecision K} (P : V -> Prop).
Implicit Types d : list (K * V).

Lemma table_nil : table P ([] : list (K * V)).
Proof. by repeat constructor. Qed.
Lemma table_aset k v d : P v -> table P d -> table P (aset k v d).
Proof.
  intros Hv [Hn Hf]. split; [by apply NoDup_aset|]. clear Hn. induction Hf as [|[k' v'] d H Hf IH]; cbn; [by repeat constructor|].
  case_decide; by constructor.
Qed.
Lemma table_adel k d : table P d -> table P (adel k d).
Proof.
  intros [Hn Hf]. split; [by apply NoDup_adel|]. clear Hn. induction Hf as [|[k' v'] d H Hf IH]; cbn; [done|]. case_decide; [done|by constructor].
Qed.
Lemma table_aget k v d : table P d -> aget k d = Some v -> P v.
Proof. intros [_ Hf] H%aget_elem_of. rewrite Forall_forall in Hf. by apply (Hf (k, v)). Qed.
Lemma table_app k v d : P v -> k ∉ d.*1 -> table P d -> table P (d ++ [(k, v)]).
Proof. intros Hv Hk Hd. rewrite <-aset_fresh by done. by apply table_aset. Qed.
Lemma Forall_adel (Q : K * V -> Prop) k d : Forall Q d -> Forall Q (adel k d).
Proof. induction 1 as [|[k' v'] d H Hf IH]; cbn; [done|]. case_decide; [done|by constructor]. Qed.
End table.
Lemma table_mono {K V} (P Q : V -> Prop) (d : list (K * V)) : (forall v, P v -> Q v) -> table P d -> table Q d.
Proof. intros H [Hn Hf]. split; [done|]. eapply Forall_impl; [exact Hf|]. cbn. auto. Qed.
#[export] Hint Resolve table_nil table_aset table_adel Forall_adel : ferry.

(** ** The invariant *)

Record wf (s : Service) : Prop := {
  wf_sessions : table (fun pid => pid < length (v_peers s))%nat (v_sessions s);
  wf_incoming : table (fun oid => oid < length (v_xfers s))%nat (v_incoming s);
  wf_incoming_peers : table (fun pid => pid < length (v_peers s))%nat (v_incoming_peers s);
  wf_outgoing : table (fun x => x.1 < length (v_peers s) /\ x.2 < length (v_sends s))%nat (v_outgoing s);
  wf_batches : table (fun i => i < length (v_batch_objs s))%nat (v_batches s);
  wf_timeouts : table (fun task => task < v_fresh s)%nat (v_timeouts s);
  wf_tasks : table (fun x => x.1.2 < length (v_peers s))%nat (v_tasks s) /\ Forall (fun e => e.1 < v_fresh s)%nat (v_tasks s);
  wf_last_chunk : table (fun _ => True) (v_last_chunk s);
  wf_recorded : NoDup (v_recorded s)
}.

(** At least so many objects. *)
Record sizes := { z_peers : nat; z_xfers : nat; z_sends : nat; z_fresh : nat }.
Definition at_least (z : sizes) (s : Service) : Prop :=
  (z_peers z <= length (v_peers s) /\ z_xfers z <= length (v_xfers s) /\ z_sends z <= length (v_sends s) /\ z_fresh z <= v_fresh s)%nat.
Definition size (s : Service) : sizes :=
  {| z_peers := length (v_peers s); z_xfers := length (v_xfers s); z_sends := length (v_sends s); z_fresh := v_fresh s |}.
Definition ok (z : sizes) (s : Service) : Prop := wf s /\ at_least z s.
(** The method keeps the invariant, and loses no object. *)
Definition sound {A} (z : sizes) (m : M Service A) : Prop := stable (ok z) m.

Lemma at_least_size s : at_least (size s) s.
Proof. unfold at_least. cbn. lia. Qed.

Section rules.
Lemma sound_get {B} z (f : Service -> M Service B) :
  (forall s, wf s -> at_least z s -> sound (size s) (f s)) -> sound z (get ≫= f).
Proof.
  intros Hf s [Hw Hz]. wp_step. wp_step. eapply wp_mono; [apply (Hf s); [done..|split; [done|apply at_least_size]]|].
  intros r s' [? H]. split; [done|]. unfold at_least in *. cbn in *. lia.
Qed.
(** A change of the state that keeps the tables and the numbers of objects. *)
Lemma sound_modify z f : (forall s, ok z s -> ok z (f s)) -> sound z (modify f).
Proof. intros H s Hs. wp_step. by apply H. Qed.
Lemma sound_peer z pid : sound z (peer pid).
Proof. intros s Hs. done. Qed.
Lemma sound_upd_peer z pid f : sound z (upd_peer pid f).
Proof.
  apply sound_modify. intros [] [[] Hz]. cbn in *. split; [|unfold at_least in *; cbn in *; by rewrite length_alter].
  constructor; cbn; by rewrite ?length_alter.
Qed.
Lemma sound_on_session {A} z pid (m : M FerrySession A) : sound z (on_session pid m).
Proof.
  intros s Hs. unfold wp, on_session. destruct (m _) as [r fs']. apply (sound_upd_peer z pid (p_set_session fs') s Hs).
Qed.
Lemma sound_fs_call {A} z (m : M world A) : sound z (fs_call m).
Proof. intros [] [[] Hz]. unfold wp, fs_call. cbn. destruct (m v_world). split; [by constructor|done]. Qed.
Lemma sound_on_incoming {A} z oid (m : M st A) : sound z (on_incoming oid m).
Proof.
  intros [] [[] Hz]. unfold wp, on_incoming. cbn in *. destruct (v_xfers !! oid) as [t|]; [|by split].
  destruct (m (t, v_world)) as [r [t' w']]. cbn. split; [constructor; cbn; by rewrite ?length_insert|].
  unfold at_least in *. cbn in *. by rewrite length_insert.
Qed.
Lemma sound_on_outgoing {A} z oid (m : M ost A) : sound z (on_outgoing oid m).
Proof.
  intros [] [[] Hz]. unfold wp, on_outgoing. cbn in *. destruct (v_sends !! oid) as [t|]; [|by split].
  destruct (m (t, v_world)) as [r [t' w']]. cbn. split; [constructor; cbn; by rewrite ?length_insert|].
  unfold at_least in *. cbn in *. by rewrite length_insert.
Qed.
Lemma sound_incoming_object z oid : sound z (incoming_object oid).
Proof. apply sound_get. intros s _ _. destruct (_ !! oid); [apply stable_ret|apply stable_raise]. Qed.

Lemma ok_smaller z z' s :
  (z_peers z <= z_peers z' /\ z_xfers z <= z_xfers z' /\ z_sends z <= z_sends z' /\ z_fresh z <= z_fresh z')%nat -> ok z' s -> ok z s.
Proof. intros Hz [Hw Hs]. split; [done|]. unfold at_least in *. lia. Qed.
Lemma sound_new_object {B} z t (f : nat -> M Service B) :
  (forall oid, sound {| z_peers := z_peers z; z_xfers := S oid; z_sends := z_sends z; z_fresh := z_fresh z |} (f oid)) ->
  sound z (new_object t ≫= f).
Proof.
  intros Hf s [[] Hz]. wp_step. unfold wp at 1, new_object. cbn. eapply wp_mono; [apply Hf|].
  - destruct s. cbn in *. split; [constructor; cbn; try done|unfold at_least in *; cbn in *; rewrite length_app; cbn; lia].
    eapply table_mono; [|done]. cbn. intros v. rewrite length_app. lia.
  - intros r s' H. eapply ok_smaller; [|exact H]. unfold at_least in *. cbn. lia.
Qed.
Lemma sound_new_send {B} z t (f : nat -> M Service B) :
  (forall oid, sound {| z_peers := z_peers z; z_xfers := z_xfers z; z_sends := S oid; z_fresh := z_fresh z |} (f oid)) ->
  sound z (new_send t ≫= f).
Proof.
  intros Hf s [[] Hz]. wp_step. unfold wp at 1, new_send. cbn. eapply wp_mono; [apply Hf|].
  - destruct s. cbn in *. split; [constructor; cbn; try done|unfold at_least in *; cbn in *; rewrite length_app; cbn; lia].
    eapply table_mono; [|done]. cbn. intros v. rewrite length_app. lia.
  - intros r s' H. eapply ok_smaller; [|exact H]. unfold at_least in *. cbn. lia.
Qed.
Lemma sound_draw_fresh z : sound z draw_fresh.
Proof.
  intros [] [[] Hz]. unfold wp. cbn in *. destruct wf_tasks0 as [Ht Hk]. split; [constructor; cbn; try done|unfold at_least in *; cbn in *; lia].
  - eapply table_mono; [|done]. cbn. lia.
  - split; [done|]. eapply Forall_impl; [exact Hk|]. cbn. lia.
Qed.
Lemma sound_new_batch z id b : sound z (new_batch id b).
Proof.
  intros [] [[] Hz]. unfold wp. cbn in *. split; [constructor; cbn; try done|done]. apply table_aset; [rewrite length_app; cbn; lia|].
  eapply table_mono; [|done]. cbn. intros v. rewrite length_app. lia.
Qed.
Lemma sound_upd_batch z i f : sound z (upd_batch i f).
Proof. apply sound_modify. intros [] [[] Hz]. split; [|done]. constructor; cbn; by rewrite ?length_alter. Qed.

Lemma sound_pop_timeout z tid : sound z (pop_timeout tid).
Proof.
  apply sound_modify. intros s [[] Hz]. destruct (aget tid (v_timeouts s)) as [task|]; [|by split]. destruct s. cbn in *. destruct wf_tasks0 as [Ht Hk].
  split; [constructor; cbn; auto with ferry|done].
Qed.
Lemma sound_pop_last_chunk z tid : sound z (pop_last_chunk tid).
Proof. apply sound_modify. intros [] [[] Hz]. cbn in *. split; [constructor; cbn; auto with ferry|done]. Qed.
Lemma sound_pop_incoming z tid : sound z (pop_incoming tid).
Proof. apply sound_modify. intros [] [[] Hz]. cbn in *. split; [constructor; cbn; auto with ferry|done]. Qed.
Lemma sound_pop_incoming_peer z tid : sound z (pop_incoming_peer tid).
Proof. apply sound_modify. intros [] [[] Hz]. cbn in *. split; [constructor; cbn; auto with ferry|done]. Qed.
Lemma sound_pop_outgoing z tid : sound z (pop_outgoing tid).
Proof. apply sound_modify. intros [] [[] Hz]. cbn in *. split; [constructor; cbn; auto with ferry|done]. Qed.
Lemma sound_pop_batch z tid : sound z (pop_batch tid).
Proof. apply sound_modify. intros [] [[] Hz]. cbn in *. split; [constructor; cbn; auto with ferry|done]. Qed.
Lemma sound_track z tid oid pid : (oid < z_xfers z)%nat -> (pid < z_peers z)%nat -> sound z (track tid oid pid).
Proof.
  intros Ho Hp. apply sound_modify. intros [] [[] Hz]. cbn in *. unfold at_least in *. cbn in *.
  split; [constructor; cbn; try done; apply table_aset; (lia || done)|done].
Qed.
Lemma sound_notify z n : sound z (notify n).
Proof. apply sound_modify. intros [] [[] Hz]. split; [by constructor|done]. Qed.
End rules.

(** The rules of [stable], for this invariant. *)
Section stable_rules.
Context (z : sizes).
Lemma sound_ret {A} (a : A) : sound z (mret a).
Proof. apply stable_ret. Qed.
Lemma sound_raise {A} e : sound z (raise (A := A) e).
Proof. apply stable_raise. Qed.
Lemma sound_lift {A} (r : res A) : sound z (lift r).
Proof. apply stable_lift. Qed.
Lemma sound_bind {A B} (m : M Service A) (f : A -> M Service B) : sound z m -> (forall a, sound z (f a)) -> sound z (m ≫= f).
Proof. apply stable_bind. Qed.
Lemma sound_bind_lift {A B} (r : res A) (f : A -> M Service B) : (forall a, r = Ok a -> sound z (f a)) -> sound z (lift r ≫= f).
Proof. apply stable_bind_lift. Qed.
Lemma sound_try {A} (m : M Service A) p h : sound z m -> (forall e, sound z (h e)) -> sound z (try_except m p h).
Proof. apply stable_try. Qed.
Lemma sound_swallow m : sound z m -> sound z (swallow m).
Proof. apply stable_swallow. Qed.
Lemma sound_iterM {A} (f : A -> M Service unit) l : (forall x, sound z (f x)) -> sound z (iterM f l).
Proof. intros Hf. induction l as [|x l IH]; cbn [iterM]; [apply sound_ret|]. by apply sound_bind. Qed.
End stable_rules.

Create HintDb sound.
#[export] Hint Resolve sound_ret sound_raise sound_lift : sound.
#[export] Hint Resolve sound_peer sound_upd_peer sound_on_session sound_fs_call sound_on_incoming sound_on_outgoing sound_incoming_object
  sound_draw_fresh sound_new_batch sound_upd_batch sound_pop_timeout sound_pop_last_chunk sound_pop_incoming sound_pop_incoming_peer
  sound_pop_outgoing sound_pop_batch sound_notify : sound.

(** A change of a part of the state that the invariant does not speak of, or a
    deletion from a table. *)
Ltac plain_modify := apply sound_modify; intros [] [[] ?]; cbn in *; split; [constructor; cbn in *; rewrite ?length_alter; auto with ferry; fail|unfold at_least in *; cbn in *; rewrite ?length_alter; done].
Ltac sound1 :=
  match goal with
  | |- forall _, _ => intros ?
  | |- sound _ (get ≫= _) => apply sound_get; intros ? ? ?
  | |- sound _ (new_object _ ≫= _) => apply sound_new_object
  | |- sound _ (new_send _ ≫= _) => apply sound_new_send
  | |- sound _ (lift _ ≫= _) => apply sound_bind_lift
  | |- sound _ (_ ≫= _) => apply sound_bind
  | |- sound _ (try_except _ _ _) => apply sound_try
  | |- sound _ (swallow _) => apply sound_swallow
  | |- sound _ (iterM _ _) => apply sound_iterM
  | |- sound _ (match _ with _ => _ end) => case_match
  | |- sound _ (let _ := _ in _) => cbv zeta
  | |- sound _ (modify _) => plain_modify
  | |- sound _ _ => solve [auto 2 with sound]
  end.
Ltac sounds := repeat sound1.

Section handlers.
Context `{HC : Crypto} `{HR : PyRepr} `{HH : Host}.

Lemma sound_write_drain z pid data : sound z (write_drain pid data).
Proof. unfold write_drain. sounds. Qed.
Lemma sound_make_envelope z mt payload : sound z (make_envelope mt payload).
Proof. unfold make_envelope. sounds. Qed.
#[local] Hint Resolve sound_write_drain sound_make_envelope : sound.
Lemma sound_send_encrypted z pid mt payload : sound z (send_encrypted pid mt payload).
Proof. unfold send_encrypted. sounds. Qed.
Lemma sound_send_plain z pid mt payload : sound z (send_plain pid mt payload).
Proof. unfold send_plain. sounds. Qed.
Lemma sound_signal_transfer z pid tid v : sound z (signal_transfer pid tid v).
Proof. unfold signal_transfer. sounds. Qed.
Lemma sound_signal_result z pid tid v : sound z (signal_result pid tid v).
Proof. unfold signal_result. sounds. Qed.
Lemma sound_record z tid dev name size dir status started sha : sound z (record_transfer_once tid dev name size dir status started sha).
Proof.
  intros s [[] Hz]. unfold wp, record_transfer_once, swallow, try_except, get, lift, modify, mbind, M_bind. case_bool_decide; [by split|].
  destruct (db_text dev); [|by split]. destruct (add_transfer _ _); [|by split]. destruct s. cbn in *. split; [|done].
  constructor; cbn; try done. by constructor.
Qed.
#[local] Hint Resolve sound_send_encrypted sound_send_plain sound_signal_transfer sound_signal_result sound_record : sound.
Lemma sound_cancel_incoming_for_peer z pid : sound z (cancel_incoming_transfer_for_peer pid).
Proof. unfold cancel_incoming_transfer_for_peer, record_incoming. sounds. Qed.
Lemma sound_cancel_outgoing_for_peer z pid : sound z (cancel_outgoing_transfer_for_peer pid).
Proof. unfold cancel_outgoing_transfer_for_peer, cancel_send. sounds. Qed.
Lemma sound_cancel_incoming z tid : sound z (cancel_incoming_transfer tid).
Proof. unfold cancel_incoming_transfer. sounds. Qed.
Lemma sound_on_chunk z p : sound z (on_chunk_received p).
Proof. unfold on_chunk_received, add_batch_bytes, record_incoming. sounds. Qed.

(** A handler may enter its own session and a new transfer into the tables. *)
Lemma sound_start_task z tid pid meta (Hp : (pid < z_peers z)%nat) :
  sound z (task ← draw_fresh;
           modify (fun s => set_timeouts (aset tid task (v_timeouts s)) (set_tasks (v_tasks s ++ [(task, (tid, pid, meta))]) s))).
Proof.
  intros [] [[] Hz]. unfold wp, mbind, M_bind, draw_fresh, modify. cbn in *. destruct wf_tasks0 as [Ht Hk]. unfold at_least in Hz. cbn in Hz. split; [|unfold at_least; cbn; lia].
  constructor; cbn; try done; [|split].
  - apply table_aset; [lia|]. eapply table_mono; [|done]. cbn. lia.
  - apply table_app; [cbn; lia| |done]. intros (e & -> & He)%list_elem_of_fmap. rewrite Forall_forall in Hk. apply Hk in He. lia.
  - apply Forall_app. split; [eapply Forall_impl; [exact Hk|]; cbn; lia|]. repeat constructor.
Qed.
Ltac exists_now := unfold at_least in *; cbn in *; lia.
Ltac sounds_with := repeat first [apply sound_track; by exists_now | apply sound_start_task; by exists_now | sound1].
Lemma sound_on_request z pid d : (pid < z_peers z)%nat -> sound z (on_transfer_request pid d).
Proof. intros Hp. unfold on_transfer_request. sounds_with. Qed.
Lemma sound_timeout z task : sound z (acceptance_timeout task).
Proof.
  assert (forall s, ok z s -> ok z (set_tasks (adel task (v_tasks s)) s)) as Ht.
  { intros [] [[] Hz]. cbn in *. destruct wf_tasks0. split; [constructor; cbn; auto with ferry|done]. }
  intros s Hs. unfold acceptance_timeout. wp_step. wp_step. destruct (aget task (v_tasks s)) as [[[tid pid] meta]|]; [|by wp_step].
  wp_step. wp_step. revert Hs. intros Hs%Ht. revert Hs. generalize (set_tasks (adel task (v_tasks s)) s). generalize (aget tid (v_incoming s)).
  intros [oid|] s1 Hs; [|by wp_step]. revert s1 Hs. change (sound z (pop_incoming tid;; pop_incoming_peer tid;;
    modify (fun s => set_timeouts (adel tid (v_timeouts s)) s);; on_incoming oid cancel;;
    swallow (send_encrypted pid TRANSFER_REJECT (tid_reason (JStr tid) "TIMEOUT_EXPIRED"));; p ← peer pid;
    record_transfer_once tid (or_addr (p_device_id p) p) (m_file_name meta) (m_file_size meta) INCOMING_ (u "REJECTED") (m_created_at meta) [];;
    notify (NComplete tid false (m_file_name meta) INCOMING_))). sounds.
Qed.
Lemma sound_on_complete z pid tid : sound z (on_transfer_complete pid tid).
Proof. unfold on_transfer_complete, batch_item_done, record_incoming. sounds. Qed.
Lemma sound_on_cancel z pid tid : sound z (on_transfer_cancel pid tid).
Proof. unfold on_transfer_cancel, record_incoming, cancel_send. sounds. Qed.
Lemma sound_on_batch_request z pid d : sound z (on_batch_request pid d).
Proof. unfold on_batch_request. sounds. Qed.
Lemma sound_on_batch_complete z j : sound z (on_batch_complete j).
Proof. unfold on_batch_complete. sounds. Qed.
Lemma sound_on_batch_cancel z j : sound z (on_batch_cancel j).
Proof. unfold on_batch_cancel. sounds. Qed.
Lemma sound_on_resume_request z pid d : (pid < z_peers z)%nat -> sound z (on_transfer_resume_request pid d).
Proof. intros Hp. unfold on_transfer_resume_request. sounds_with. Qed.
Lemma sound_accept_batch z a t : sound z (accept_batch a t).
Proof. unfold accept_batch. sounds. Qed.
Lemma sound_reject_batch z a t : sound z (reject_batch a t).
Proof. unfold reject_batch. sounds. Qed.
#[local] Hint Resolve sound_accept_batch sound_reject_batch : sound.
Lemma sound_accept_transfer z a t : sound z (accept_transfer a t).
Proof. unfold accept_transfer. sounds. Qed.
Lemma sound_reject_transfer z a t : sound z (reject_transfer a t).
Proof. unfold reject_transfer. sounds. Qed.
Lemma sound_cancel_transfer z t r : sound z (cancel_transfer t r).
Proof. unfold cancel_transfer, record_incoming, cancel_send. sounds. Qed.
Lemma sound_discard z t : sound z (discard_interrupted_transfer t).
Proof. unfold discard_interrupted_transfer. sounds. Qed.
Lemma sound_forget z k : sound z (remove_trusted_device k).
Proof. unfold remove_trusted_device. sounds. Qed.
Lemma sound_stall z : sound z stall_turn.
Proof. unfold stall_turn. sounds. Qed.
Lemma sound_start z : sound z prepare_files.
Proof. unfold prepare_files, clean_staging, clean_file. sounds. Qed.
Lemma sound_resume_end z p t o k r : sound z (request_resume_end p t o k r).
Proof. unfold request_resume_end, wait_response_end. sounds. Qed.
Lemma sound_resume_begin z a t : sound z (request_resume_begin a t).
Proof.
  unfold request_resume_begin, wait_response_begin. apply sound_get. intros s Hw Hz.
  destruct (aget a (v_sessions s)) as [pid|] eqn:E; [|sounds]. apply (table_aget _ _ _ _ (wf_sessions _ Hw)) in E. sounds_with.
Qed.

(** ** The session and its task *)

Lemma sound_bridge z f : sound z (upd_bridge f).
Proof. unfold upd_bridge. sounds. Qed.
#[local] Hint Resolve sound_bridge sound_on_chunk sound_cancel_incoming sound_on_complete sound_on_cancel sound_on_batch_request
  sound_on_batch_complete sound_on_batch_cancel sound_cancel_incoming_for_peer sound_cancel_outgoing_for_peer : sound.
Lemma sound_handle_message z pid e : (pid < z_peers z)%nat -> sound z (handle_transfer_message pid e).
Proof.
  intros Hp. unfold handle_transfer_message. repeat first [apply sound_on_request; exact Hp | apply sound_on_resume_request; exact Hp | sound1].
Qed.
Lemma sound_persist z pid : sound z (persist_trust pid).
Proof. unfold persist_trust. sounds. Qed.
Lemma sound_disconnect z pid : sound z (disconnect_session pid).
Proof. unfold disconnect_session, notify_session_change. sounds. Qed.
#[local] Hint Resolve sound_persist sound_disconnect : sound.
Lemma sound_accept_pairing z a : sound z (accept_pairing a).
Proof. unfold accept_pairing, notify_session_change. sounds. Qed.
Lemma sound_reject_pairing z a : sound z (reject_pairing a).
Proof. unfold reject_pairing. sounds. Qed.
Lemma sound_session_turn z pid f : (pid < z_peers z)%nat -> sound z (session_turn pid f).
Proof.
  intros Hp. unfold session_turn, on_pair_decision, notify_session_change, on_notification_post, on_notification_remove.
  repeat first [apply sound_handle_message; by exists_now | sound1].
Qed.
Lemma sound_finally z pid : sound z (handshake_finally pid).
Proof. unfold handshake_finally, notify_session_change. sounds. Qed.
Lemma sound_session_over z pid : sound z (session_over pid).
Proof. unfold session_over, loop_finally, handshake_failed, handshake_finally, notify_session_change. sounds. Qed.
Lemma sound_session_frame z pid f : (pid < z_peers z)%nat -> sound z (session_frame pid f).
Proof. intros Hp. unfold session_frame. repeat first [apply sound_session_turn; exact Hp | apply sound_session_over | sound1]. Qed.

(** ** The sending tasks *)

Lemma sound_add_outgoing z tid pid oid : (pid < z_peers z)%nat -> (oid < z_sends z)%nat ->
  sound z (modify (fun s => set_outgoing (aset tid (pid, oid) (v_outgoing s)) s)).
Proof.
  intros Hp Ho. apply sound_modify. intros [] [[] Hz]. unfold at_least in *. cbn in *.
  split; [constructor; cbn; try done; apply table_aset; [cbn; lia|done]|done].
Qed.
Lemma sound_guarded z tid m : sound z m -> sound z (guarded tid m).
Proof. intros Hm. unfold guarded. repeat first [exact Hm | sound1]. Qed.
Lemma sound_report z k status sha b : sound z (report k status sha b).
Proof. unfold report. sounds. Qed.
#[local] Hint Resolve sound_report : sound.
Lemma sound_send_begin z i a p t b r : sound z (send_file_begin i a p t b r).
Proof.
  unfold send_file_begin, wait_response_begin. apply sound_get. intros s Hw Hz.
  destruct (aget a (v_sessions s)) as [pid|] eqn:E; [|sounds]. apply (table_aget _ _ _ _ (wf_sessions _ Hw)) in E.
  repeat first [apply sound_add_outgoing; by exists_now | match goal with |- sound _ (guarded _ _) => apply sound_guarded end | sound1].
Qed.
Lemma sound_send_streamed z k : sound z (send_file_streamed k).
Proof. unfold send_file_streamed, is_cancelled, cancel_notice, wait_result_begin. sounds. Qed.
#[local] Hint Resolve sound_send_streamed sound_send_begin : sound.
Lemma sound_send_step z k b : sound z (send_step k b).
Proof.
  unfold send_step, send_file_response, send_file_next, send_file_drained, send_file_result, wait_response_end, wait_result_end,
    is_cancelled, cancelled_flag, cancel_notice, add_batch_bytes. apply sound_guarded. sounds.
Qed.
#[local] Hint Resolve sound_send_step : sound.
Lemma sound_batch_loop i files z : forall t n, sound z (send_batch_loop i t n files).
Proof.
  assert (forall z t, sound z (send_batch_done t)) as Hd by (intros z' t; unfold send_batch_done; sounds).
  revert z. induction files as [|[a r] files IH]; intros z t n; cbn [send_batch_loop]; [apply Hd|].
  unfold count_item. repeat first [apply Hd | apply IH | sound1].
Qed.
Lemma sound_send_batch z i a l n : sound z (send_batch_begin i a l n).
Proof. unfold send_batch_begin, wait_response_begin. sounds. Qed.
Lemma sound_batch_step z i t b : sound z (batch_step i t b).
Proof. unfold batch_step, wait_response_end, count_item. repeat first [apply sound_batch_loop | sound1]. Qed.

Context `{HE : Ed25519}.
(** ** The handshake *)

Lemma sound_add_session z pid : (pid < z_peers z)%nat ->
  forall addr, sound z (modify (fun s => set_sessions (aset addr pid (v_sessions s)) s)).
Proof.
  intros Hp addr. apply sound_modify. intros [] [[] Hz]. unfold at_least in *. cbn in *.
  split; [constructor; cbn; try done; apply table_aset; [lia|done]|done].
Qed.
Lemma sound_expect z mt stream : sound z (expect mt stream).
Proof. unfold expect. sounds. Qed.
Lemma sound_device_by_key z j : sound z (device_by_key j).
Proof. unfold device_by_key. sounds. Qed.
#[local] Hint Resolve sound_expect sound_device_by_key : sound.
Lemma sound_handshake z i d n pid init fresh nonce stream :
  (pid < z_peers z)%nat -> sound z (run_handshake i d n pid init fresh nonce stream).
Proof.
  intros Hp. unfold run_handshake, handshake_body, exchange_init, accept_remote, exchange_auth, enrol, handshake_failed, handshake_finally,
    notify_session_change.
  repeat first [apply sound_add_session; by exists_now | sound1].
Qed.

(** ** Every event *)

Definition new_service (world : world) (d : db) (bridge : Bridge) (now clock : Z) : Service :=
  mkService [] [] [] [] [] [] [] [] [] [] [] [] d world bridge [] now clock 0 [].
Lemma wf_new world d bridge now clock : wf (new_service world d bridge now clock).
Proof. constructor; repeat constructor. Qed.

Context (identity : IdentityManager) (device_id device_name : pystr).
Lemma wf_event e s : wf s -> wf (run_event identity device_id device_name e s).
Proof.
  intros Hw. assert (forall A (m : M Service A), sound (size s) m -> wf (m s).2) as Hm.
  { intros A m Hm. apply (Hm s). split; [done|apply at_least_size]. }
  assert (forall x pid, in_phase x pid s = true -> (pid < z_peers (size s))%nat) as Hp.
  { intros x pid. unfold in_phase. destruct (v_peers s !! pid) eqn:E; [|done]. intros _. by apply lookup_lt_Some in E. }
  destruct e; cbn [run_event]; try case_match; try done; try (apply Hm; auto 2 with sound; fail); try apply Hm.
  - by destruct s, Hw; constructor.
  - destruct s, Hw. cbn in *. constructor; cbn; try done; try (eapply table_mono; [|done]); cbn; intros *; rewrite length_app; try lia.
    destruct wf_tasks0 as [Ht Hk]. split; [eapply table_mono; [|exact Ht]; cbn; intros *; lia|done].
  - apply sound_handshake; eauto.
  - apply sound_session_frame; eauto.
  - apply sound_session_over.
  - apply sound_session_over.
  - case_match; [|done]. apply Hm, sound_finally.
  - apply sound_accept_pairing.
  - apply sound_reject_pairing.
  - apply sound_accept_transfer.
  - apply sound_reject_transfer.
  - apply sound_cancel_transfer.
  - apply sound_discard.
  - apply sound_resume_begin.
  - apply sound_resume_end.
  - apply sound_send_batch.
  - apply sound_batch_step.
  - apply sound_timeout.
  - apply sound_start.
  - apply sound_stall.
  - apply sound_forget.
Qed.

(** After any events whatever every table has one entry for a key, no transfer was recorded twice, and every
    entry refers to objects that exist: no lookup of a session, of a transfer in
    either direction or of a batch meets a dangling reference. *)
Theorem tables_well_formed world d bridge now clock es :
  let s := fold_left (fun s e => run_event identity device_id device_name e s) es (new_service world d bridge now clock) in
  wf s
  /\ (forall addr pid, aget addr (v_sessions s) = Some pid -> is_Some (v_peers s !! pid))
  /\ (forall tid oid, aget tid (v_incoming s) = Some oid -> is_Some (v_xfers s !! oid))
  /\ (forall tid pid oid, aget tid (v_outgoing s) = Some (pid, oid) -> is_Some (v_peers s !! pid) /\ is_Some (v_sends s !! oid))
  /\ (forall id i, aget id (v_batches s) = Some i -> is_Some (v_batch_objs s !! i)).
Proof.
  assert (forall s, wf s -> wf (fold_left (fun s e => run_event identity device_id device_name e s) es s)) as H.
  { induction es as [|e es IH]; intros s Hs; [done|]. by apply IH, wf_event. }
  intros s. assert (wf s) as Hw by apply H, wf_new. split; [done|]. clearbody s. split_and!.
  - intros addr pid E. apply lookup_lt_is_Some. by apply (table_aget _ _ _ _ (wf_sessions _ Hw)) in E.
  - intros tid oid E. apply lookup_lt_is_Some. by apply (table_aget _ _ _ _ (wf_incoming _ Hw)) in E.
  - intros tid pid oid E. apply (table_aget _ _ _ _ (wf_outgoing _ Hw)) in E as [??]. split; by apply lookup_lt_is_Some.
  - intros id i E. apply lookup_lt_is_Some. by apply (table_aget _ _ _ _ (wf_batches _ Hw)) in E.
Qed.
End handlers.
