(* ===== verification/Pairing.v ===== *)
(** * Who may move a session: the trust and pairing properties of the service *)
From S2P Require Import Prelude PyStr Sha256 Json Protocol Payloads Transfer Fs Incoming Outgoing Session Bridge Db.
From S2P Require Import Identity Peers Service Sending Handshake Kernel.

(** ** Where a session may go *)

Definition sess (q : nat) (s : Service) : SessionState := s_state (p_session (peer_at q s)).
Definition papers (q : nat) (s : Service) : option pystr * (bool * option HandshakeData * option HandshakeData) :=
  (p_static_b64 (peer_at q s), hands (p_session (peer_at q s))).
Definition static_of (q : nat) (s : Service) : option pystr := (papers q s).1.
(** The database knows a device with this key. *)
Definition trusts (key : pystr) (s : Service) : Prop :=
  exists d, d ∈ db_devices (v_db s) /\ d_identity_public_key_b64 d = key.

(** From [s0] to [s] only the session of [pid] moved, and only to one of [T];
    keys and trusted devices are the same. *)
Definition within (T : list SessionState) (pid : nat) (s0 s : Service) : Prop :=
  (db_devices (v_db s) = db_devices (v_db s0) /\ length (v_peers s) = length (v_peers s0))
  /\ forall q, papers q s = papers q s0 /\ (sess q s = sess q s0 \/ q = pid /\ sess q s ∈ T).

Lemma within_refl T pid s : within T pid s s.
Proof. split; auto. Qed.

Lemma within_trans T1 T2 pid s0 s1 s2 :
  within T1 pid s0 s1 -> within T2 pid s1 s2 -> within (T1 ++ T2) pid s0 s2.
Proof.
  intros [D1 H1] [D2 H2]. split; [intuition congruence|]. intros q. destruct (H1 q) as [E1 S1], (H2 q) as [E2 S2].
  split; [congruence|]. rewrite elem_of_app. destruct S2 as [->|[]]; [destruct S1 as [|[]]|]; auto.
Qed.

Lemma kernel_peer s s' q : kernel s = kernel s' -> outline (peer_at q s) = outline (peer_at q s').
Proof.
  intros [= Hp _ _]. unfold peer_at.
  assert (outline <$> v_peers s !! q = outline <$> v_peers s' !! q) as E.
  { rewrite <-!list_lookup_fmap. assert (outline <$> v_peers s = outline <$> v_peers s') as -> by exact Hp. done. }
  destruct (v_peers s !! q), (v_peers s' !! q); cbn in *; congruence.
Qed.

Lemma kernel_within T pid s s' : kernel s' = kernel s -> within T pid s s'.
Proof.
  intros H. split; [split; [by injection H|]|].
  { pose proof (f_equal (fun k => length k.1.1) H) as Hl. cbn in Hl. by rewrite !length_map in Hl. }
  intros q. pose proof (kernel_peer _ _ q H) as Hq. unfold outline in Hq.
  pose proof (f_equal snd Hq) as Hk. pose proof (f_equal (fun x => x.1.1.1) Hq) as Hs. cbn in Hk, Hs. unfold papers, sess. rewrite Hk, Hs. auto.
Qed.

Lemma keeps_within {A} T pid s0 (m : M Service A) : keeps m -> stable (within T pid s0) m.
Proof.
  intros Hm s Hs. eapply wp_mono; [by apply (Hm (kernel s))|]. cbn. intros r s' Hk.
  apply (kernel_within T pid) in Hk. pose proof (within_trans _ _ _ _ _ _ Hs Hk) as [D H]. split; [done|].
  intros q. destruct (H q) as [? [?|[? Hin]]]; [auto|]. split; [done|]. right. split; [done|]. apply elem_of_app in Hin. tauto.
Qed.

Lemma wp_on_session {A} pid (m : M FerrySession A) (Q : res A -> Service -> Prop) s :
  wp m (fun r fs' => Q r (set_peers (alter (p_set_session fs') pid (v_peers s)) s)) (p_session (peer_at pid s)) ->
  wp (on_session pid m) Q s.
Proof. unfold wp, on_session. by destruct (m _). Qed.

Lemma peer_at_alter f pid q s :
  peer_at q (set_peers (alter f pid (v_peers s)) s)
  = if decide (q = pid /\ (q < length (v_peers s))%nat) then f (peer_at q s) else peer_at q s.
Proof.
  destruct s. unfold peer_at. cbn. case_decide as Hq.
  - destruct Hq as [-> Hl]. rewrite list_lookup_alter_eq. by destruct (lookup_lt_is_Some_2 _ _ Hl) as [p ->].
  - destruct (decide (q = pid)) as [->|Hne]; [|by rewrite list_lookup_alter_ne].
    rewrite list_lookup_alter_eq. rewrite (lookup_ge_None_2 _ _); [done|lia].
Qed.

Lemma within_transition T pid s0 X : X ∈ T -> stable (within T pid s0) (on_session pid (session_transition X)).
Proof.
  intros HX s [Hd Hs]. apply wp_on_session. unfold wp. rewrite session_transition_spec.
  destruct (bool_decide (sstep _ X)); cbn [fst snd]; (split; [destruct s; cbn in *; by rewrite length_alter|]); intros q; unfold papers, sess in *;
    rewrite peer_at_alter; (destruct (decide _) as [[-> _]|]; [|apply Hs]).
  - split; [apply Hs|]. right. done.
  - split; apply Hs.
Qed.

Lemma within_upd_peer T pid s0 q f :
  (forall p, p_session (f p) = p_session p) -> (forall p, p_static_b64 (f p) = p_static_b64 p) -> stable (within T pid s0) (upd_peer q f).
Proof.
  intros Hf Hk s [Hd Hs]. apply wp_modify. split; [destruct s; cbn in *; by rewrite length_alter|]. intros x. unfold papers, sess in *.
  rewrite peer_at_alter. destruct (decide _) as [[-> _]|]; [|apply Hs]. rewrite Hf, Hk. apply Hs.
Qed.

Lemma within_sessions T pid s0 f : stable (within T pid s0) (modify (fun s => set_sessions (f s) s)).
Proof. intros s H. apply wp_modify. by destruct s. Qed.

Lemma wp_within {A} T pid s (m : M Service A) : stable (within T pid s) m -> wp m (fun _ s' => within T pid s s') s.
Proof. intros H. apply H, within_refl. Qed.

Definition ended : list SessionState := [SFAILED; CLOSING; DISCONNECTED].

Ltac within1 :=
  match goal with
  | |- forall _, _ => intros ?
  | |- stable (within _ _ _) (peer _ ≫= _) => apply stable_bind; [apply keeps_within; auto with keeps|]
  | |- stable (within _ _ _) (_ ≫= _) => apply stable_bind
  | |- stable (within _ _ _) (try_except _ _ _) => apply stable_try
  | |- stable (within _ _ _) (swallow _) => apply stable_swallow
  | |- stable (within _ _ _) (on_session _ (session_transition _)) => apply within_transition; set_solver
  | |- stable (within _ _ _) (modify (fun s => set_sessions _ s)) => apply within_sessions
  | |- stable (within _ _ _) (match _ with _ => _ end) => case_match
  | |- stable (within _ _ _) (let _ := _ in _) => cbv zeta
  | |- stable (within _ _ _) (upd_peer _ _) => apply within_upd_peer; [done|done]
  | |- stable (within _ _ _) _ => apply keeps_within; auto 2 with keeps; fail
  end.
Ltac withins := repeat within1.

Section moves.
Context `{HC : Crypto} `{HR : PyRepr} `{HH : Host} `{HE : Ed25519}.

Lemma within_notify_session T pid s0 q : stable (within T pid s0) (notify_session_change q).
Proof. unfold notify_session_change. withins. Qed.

Lemma within_failed pid s0 : stable (within ended pid s0) (handshake_failed pid).
Proof. unfold handshake_failed. withins. Qed.
Lemma within_finally pid s0 : stable (within ended pid s0) (handshake_finally pid).
Proof. unfold handshake_finally, notify_session_change. withins. Qed.
Lemma within_over pid s0 : stable (within ended pid s0) (session_over pid).
Proof.
  unfold session_over, loop_finally. apply stable_bind; [|intros _; apply within_finally].
  apply stable_try; [|intros _; apply within_failed]. withins.
Qed.
Lemma within_reject addr s : wp (reject_pairing addr) (fun _ s' => exists pid, within ended pid s s') s.
Proof.
  unfold reject_pairing. wp_step. wp_step. destruct (aget addr (v_sessions s)) as [pid|].
  - eapply wp_mono; [apply (wp_within ended pid s)|by intros r s' H; exists pid].
    unfold disconnect_session, notify_session_change. withins.
  - wp_step. exists 0%nat. apply within_refl.
Qed.

(** ** Pairing *)

(** The peers of [s] and [s'] look the same. *)
Definition same_peers (s s' : Service) : Prop := length (v_peers s') = length (v_peers s) /\ forall q, papers q s' = papers q s /\ sess q s' = sess q s.

Lemma within_nil pid s s' : within [] pid s s' -> same_peers s s'.
Proof. intros [[_ L] W]. split; [done|]. intros q. destruct (W q) as [? [?|[_ Hn]]]; [done|set_solver]. Qed.
Lemma kernel_same_peers s s' : kernel s' = kernel s -> same_peers s s'.
Proof. intros K. by apply (within_nil 0%nat), kernel_within. Qed.

Definition trusted (pid : nat) (s : Service) : Prop := exists key, static_of pid s = Some key /\ trusts key s.

Lemma add_device_trusts d0 d s s' :
  add_or_update_device d (v_db s) = Ok d0 -> s' = set_db d0 s -> trusts (d_identity_public_key_b64 d) s'.
Proof.
  intros H ->. apply bind_Ok in H as (? & _ & [= <-]). unfold trusts. destruct s. cbn.
  destruct (existsb _ _) eqn:E.
  - apply existsb_exists in E as (row & Hin & Hrow). exists (update_device d row). split; [|done].
    apply list_elem_of_fmap. exists row. unfold device_is in *. rewrite Hrow. split; [done|]. by apply list_elem_of_In.
  - exists d. split; [|done]. apply elem_of_app. right. by apply list_elem_of_singleton.
Qed.

Lemma wp_persist_trust pid s :
  wp (persist_trust pid) (fun r s' => same_peers s s' /\ (r = Ok tt -> trusted pid s')) s.
Proof.
  unfold persist_trust, peer. repeat wp_step.
  set (id := if py_bool _ then _ else _).
  assert (keeps id) as Hid by (unfold id; keep). eapply wp_mono; [by apply (Hid (kernel s))|].
  intros r s1 S1%kernel_same_peers.
  destruct r as [idv|]; [|by split]. repeat wp_step. destruct (if py_bool _ then _ else _) as [name|]; [|by split].
  destruct (p_static_b64 (peer_at pid s)) as [key|] eqn:Ek; [|by wp_step; split]. repeat wp_step.
  destruct (add_or_update_device _ _) as [d|] eqn:Ed; [|by split]. apply wp_modify.
  assert (same_peers s (set_db d s1)) as S2 by (destruct s1; apply S1). split; [done|]. intros _.
  exists key. split; [unfold static_of; rewrite (proj1 (proj2 S2 pid)); exact Ek|].
  pose proof (add_device_trusts _ _ s _ Ed eq_refl) as (row & Hin & Hrow). exists row. split; [|done]. by destruct s, s1.
Qed.

(** The two ways to complete a pairing, from the state before to the state after. *)
Definition completes (before : SessionState) (pid : nat) (s s' : Service) : Prop :=
  sess pid s = before /\ (forall q, papers q s' = papers q s) /\ (forall q, q <> pid -> sess q s' = sess q s)
  /\ (sess pid s' ∈ [before; PAIR_ACCEPTED] \/ sess pid s' = ESTABLISHED /\ trusted pid s').
Definition waits_for (after : SessionState) (pid : nat) (s s' : Service) : Prop :=
  sess pid s = PAIRING /\ within [after] pid s s'.

Lemma completes_kernel before pid s s1 s2 :
  completes before pid s s1 -> kernel s2 = kernel s1 -> completes before pid s s2.
Proof.
  intros (Hs & A & B & P) K. assert (db_devices (v_db s2) = db_devices (v_db s1)) as D by (by injection K).
  apply kernel_same_peers in K as [_ S].
  split; [done|]. split; [intros q; by rewrite (proj1 (S q))|]. split; [intros q Hq; rewrite (proj2 (S q)); auto|].
  rewrite (proj2 (S pid)). destruct P as [?|[E (key & Hk & row & Hin & Hrow)]]; [by left|]. right. split; [done|].
  exists key. split; [unfold static_of; by rewrite (proj1 (S pid))|]. exists row. by rewrite D.
Qed.

Definition complete_pairing (pid : nat) : M Service unit :=
  on_session pid (session_transition PAIR_ACCEPTED);; persist_trust pid;; on_session pid (session_transition ESTABLISHED).

Lemma completes_run before pid s :
  before ∈ [WAITING_FOR_LOCAL_DECISION; WAITING_FOR_REMOTE_DECISION] -> sess pid s = before ->
  wp (complete_pairing pid) (fun _ s' => completes before pid s s') s.
Proof.
  intros Hb Hs. unfold complete_pairing. wp_step.
  eapply wp_mono; [by apply wp_within, (within_transition [PAIR_ACCEPTED]); set_solver|].
  intros r s1 [D1 H1].
  assert (completes before pid s s1) as C1.
  { split; [done|]. split; [apply H1|]. split; [intros q Hq; by destruct (H1 q) as [_ [?|[]]]|].
    left. destruct (H1 pid) as [_ [->|[_ ?]]]; set_solver. }
  destruct r as [[]|]; [|done]. wp_step. eapply wp_mono; [apply wp_persist_trust|]. intros r s2 [[_ S2] T2].
  assert (completes before pid s s2) as C2.
  { destruct C1 as (_ & A1 & B1 & _). split; [done|]. split; [intros q; by rewrite (proj1 (S2 q))|].
    split; [intros q Hq; rewrite (proj2 (S2 q)); auto|]. left. rewrite (proj2 (S2 pid)).
    destruct (H1 pid) as [_ [->|[_ ?]]]; set_solver. }
  destruct r as [[]|]; [|done]. specialize (T2 eq_refl).
  eapply wp_mono; [by apply wp_within, (within_transition [ESTABLISHED]); set_solver|]. intros r s4 [[D4 _] H4].
  destruct C2 as (_ & A2 & B2 & P2). split; [done|]. split; [intros q; by rewrite (proj1 (H4 q))|].
  split; [intros q Hq; destruct (H4 q) as [_ [->|[]]]; [auto|done]|].
  assert (trusted pid s4) as T4.
  { destruct T2 as (key & Hk & row & Hin & Hrow). exists key. split; [unfold static_of; by rewrite (proj1 (H4 pid))|]. exists row. by rewrite D4. }
  destruct (H4 pid) as [_ [->|[_ ->%list_elem_of_singleton]]]; [|by right].
  destruct P2 as [?|[E _]]; [by left|]. right. by split.
Qed.

Lemma wp_reassoc3 {S A} (a b c : M S unit) (m : M S A) Q s :
  wp ((a;; b;; c);; m) Q s -> wp (a;; b;; c;; m) Q s.
Proof.
  unfold wp, mbind, M_bind. destruct (a s) as [[]s1]; [|done]. destruct (b s1) as [[]s2]; [|done].
  by destruct (c s2) as [[]s3].
Qed.

(** A step that keeps the kernel can follow. *)
Lemma completes_then before pid (m : M Service unit) s :
  before ∈ [WAITING_FOR_LOCAL_DECISION; WAITING_FOR_REMOTE_DECISION] -> sess pid s = before -> keeps m ->
  wp (complete_pairing pid;; m) (fun _ s' => completes before pid s s') s.
Proof.
  intros Hb Hs Hm. wp_step. eapply wp_mono; [by apply completes_run|]. intros [[]|] s1 C1; [|done].
  eapply wp_mono; [by apply (Hm (kernel s1))|]. intros r s2 K2. by eapply completes_kernel.
Qed.

Lemma wp_accept_pairing addr s :
  wp (accept_pairing addr) (fun _ s' => same_peers s s'
    \/ exists pid, aget addr (v_sessions s) = Some pid
        /\ (waits_for WAITING_FOR_REMOTE_DECISION pid s s' \/ completes WAITING_FOR_LOCAL_DECISION pid s s')) s.
Proof.
  unfold accept_pairing. wp_step. wp_step. destruct (aget addr (v_sessions s)) as [pid|] eqn:Ea; [|wp_step; by left].
  unfold peer. wp_step. wp_step. wp_step. wp_step. fold (peer pid).
  assert (forall d, keeps (notify_session_change pid;; send_encrypted pid PAIR_DECISION d)) as Htail
    by (intros; unfold notify_session_change; keep).
  destruct (s_state (p_session (peer_at pid s))) eqn:Es.
  4: { eapply wp_mono; [apply (wp_within [WAITING_FOR_REMOTE_DECISION] pid s); apply stable_bind;
         [apply within_transition; set_solver|intros _; apply keeps_within, Htail]|].
       intros r s' W. right. exists pid. split; [done|]. left. by split. }
  4: { fold (complete_pairing pid). eapply wp_mono; [apply (completes_then WAITING_FOR_LOCAL_DECISION); [set_solver|done|apply Htail]|].
       intros r s' C. right. exists pid. split; [done|]. by right. }
  all: (eapply wp_mono; [apply (keeps_within [] pid s); [apply keeps_bind; [apply keeps_ret|intros _; apply Htail]|apply within_refl]|]);
    intros r s' W; left; by apply (within_nil pid).
Qed.

(** The frame [f] from the peer [pid], decrypted with the keys of its session, is
    a PAIR_DECISION that accepts. *)
Definition says_accept (pid : nat) (f : bytes) (s : Service) : Prop :=
  exists plaintext fs text uid now env d,
    decrypt_frame f (p_session (peer_at pid s)) = (Ok plaintext, fs) /\ utf8_decode plaintext = Ok text
    /\ envelope_from_json uid now text = Ok env /\ mt_of (e_type env) = Some PAIR_DECISION
    /\ e_payload env = JObj d /\ eq_str (dget_or d "decision" JNull) (u "ACCEPT") = true.

Lemma same_kernel s s' : kernel s' = kernel s -> same_peers s s' /\ db_devices (v_db s') = db_devices (v_db s).
Proof.
  intros K. split; [by apply kernel_same_peers|]. by injection K.
Qed.

Lemma waits_left after pid s s1 s2 : kernel s1 = kernel s -> waits_for after pid s1 s2 -> waits_for after pid s s2.
Proof.
  intros K [Hs [D H]]. apply same_kernel in K as [[L S] D1]. split; [by rewrite <-(proj2 (S pid))|].
  split; [intuition congruence|]. intros q. rewrite <-(proj1 (S q)), <-(proj2 (S q)). apply H.
Qed.
Lemma completes_left before pid s s1 s2 : kernel s1 = kernel s -> completes before pid s1 s2 -> completes before pid s s2.
Proof.
  intros K (Hs & A & B & P). apply same_kernel in K as [[L S] D1]. split; [by rewrite <-(proj2 (S pid))|].
  split; [intros q; by rewrite <-(proj1 (S q))|]. split; [intros q Hq; rewrite <-(proj2 (S q)); auto|done].
Qed.

Definition decided (pid : nat) (s s' : Service) : Prop :=
  waits_for WAITING_FOR_LOCAL_DECISION pid s s' \/ completes WAITING_FOR_REMOTE_DECISION pid s s'.

Lemma wp_on_pair_decision pid j s :
  wp (on_pair_decision pid j) (fun _ s' => kernel s' = kernel s
    \/ (exists d, j = JObj d /\ eq_str (dget_or d "decision" JNull) (u "ACCEPT") = true) /\ decided pid s s') s.
Proof.
  unfold on_pair_decision. wp_step. wp_step. destruct j; cbn [as_dict]; try by left.
  destruct (eq_str _ (u "REJECT")) eqn:Er; [wp_step; by left|]. wp_step.
  destruct (eq_str _ (u "ACCEPT")) eqn:Ea; [|repeat wp_step; by left].
  assert (keeps (notify_session_change pid)) as Hn by (unfold notify_session_change; keep).
  unfold peer. do 4 wp_step.
  destruct (s_state (p_session (peer_at pid s))) eqn:Es.
  4: { eapply wp_mono; [apply (wp_within [WAITING_FOR_LOCAL_DECISION] pid s); apply stable_bind;
         [apply within_transition; set_solver|intros _; by apply keeps_within]|].
       intros r s' W. assert (decided pid s s') by (left; by split). destruct r as [[]|]; [wp_step|]; right; eauto. }
  5: { wp_step. eapply wp_mono with (P := fun r s' => completes WAITING_FOR_REMOTE_DECISION pid s s').
       { change (wp (on_session pid (session_transition PAIR_ACCEPTED);; persist_trust pid;;
           on_session pid (session_transition ESTABLISHED);; swallow (send_encrypted pid CAPABILITIES CAPS))
           (fun _ s' => completes WAITING_FOR_REMOTE_DECISION pid s s') s).
         apply wp_reassoc3. apply completes_then; [set_solver|done|]. keep. }
       intros r s1 C1. destruct r as [[]|]; [|right; split; [eauto|by right]].
       eapply wp_mono; [by apply (Hn (kernel s1))|]. cbn. intros r s2 K2.
       assert (decided pid s s2) by (right; by eapply completes_kernel). destruct r as [[]|]; [wp_step|]; right; eauto. }
  all: wp_step; wp_step; (eapply wp_mono; [by apply (Hn (kernel s))|]); cbn; intros r s' K;
    (destruct r as [[]|]; [wp_step|]); by left.
Qed.

Lemma on_session_result {A} pid (m : M FerrySession A) s : wp (on_session pid m) (fun r _ => r = (m (p_session (peer_at pid s))).1) s.
Proof. unfold wp, on_session. by destruct (m _). Qed.

Lemma wp_session_turn pid f s :
  wp (session_turn pid f) (fun _ s' => kernel s' = kernel s \/ says_accept pid f s /\ decided pid s s') s.
Proof.
  assert (forall A (m : M Service A) s1, kernel s1 = kernel s -> keeps m -> wp m (fun _ s' =>
    kernel s' = kernel s \/ says_accept pid f s /\ decided pid s s') s1) as Hk.
  { intros A m s1 K Hm. eapply wp_mono; [by apply (Hm (kernel s1))|]. cbn. intros r s2 K2. left. congruence. }
  unfold session_turn. wp_step.
  eapply wp_mono; [apply wp_and; [by apply (keeps_decrypt pid f (kernel s))|apply on_session_result]|].
  intros r s1 [K1 Hr]. cbv beta in K1. destruct r as [plaintext|e]; cbv iota; [|by left].
  destruct (decrypt_frame f (p_session (peer_at pid s))) as [rr fs] eqn:Ed. cbn [fst] in Hr. subst rr.
  destruct (is_chunk_frame plaintext); [apply Hk; [done|keep]|]. wp_step. wp_step.
  destruct (utf8_decode plaintext) as [text|] eqn:Et; [|by left]. wp_step.
  eapply wp_mono; [by apply (keeps_draw_fresh (kernel s1))|]. intros r s2 K2. cbv beta in K2. destruct r as [n|]; cbv iota; [|left; congruence].
  do 4 wp_step. destruct (envelope_from_json _ _ text) as [env|] eqn:Ee; [|left; congruence].
  assert (kernel s2 = kernel s) as Ks by congruence.
  destruct (mt_of (e_type env)) as [mt|] eqn:Em; [|apply Hk; [done|keep]].
  destruct mt; try (apply Hk; [done|keep]; fail); try (wp_step; by left).
  - (* PAIR_DECISION *)
    eapply wp_mono; [apply wp_on_pair_decision|]. cbn. intros r s3 [K3|[(d & Hj & Hd) H3]]; [left; congruence|].
    right. split; [exists plaintext, fs, text, (h_uuid4 n), (v_now s2), env, d; by split_and!|].
    destruct H3 as [?|?]; [left; by eapply waits_left|right; by eapply completes_left].
  - apply Hk; [done|]. keep. apply keeps_on_session. done.
Qed.
End moves.

(** ** The handshake *)

Definition before_auth (s0 : SessionState) : list SessionState := [s0; CONNECTING; HANDSHAKING; AUTHENTICATING].

(** While the task of [pid] shakes hands, nothing else moves. *)
Definition shaking (pid : nat) (s0 s : Service) : Prop :=
  length (v_peers s) = length (v_peers s0) /\ db_devices (v_db s) = db_devices (v_db s0)
  /\ (forall q, q <> pid -> papers q s = papers q s0 /\ sess q s = sess q s0)
  /\ sess pid s ∈ before_auth (sess pid s0).

Lemma shaking_kernel pid s0 s1 s2 : kernel s2 = kernel s1 -> shaking pid s0 s1 -> shaking pid s0 s2.
Proof.
  intros K (L & D & O & P). apply same_kernel in K as [[L2 S] D2]. split; [congruence|]. split; [congruence|]. split.
  - intros q Hq. destruct (S q) as [-> ->]. auto.
  - by rewrite (proj2 (S pid)).
Qed.

Lemma keeps_shaking {A} pid s0 (m : M Service A) : keeps m -> stable (shaking pid s0) m.
Proof.
  intros Hm s Hs. eapply wp_mono; [by apply (Hm (kernel s))|]. cbv beta. intros r s' K. by eapply shaking_kernel.
Qed.

Lemma papers_alter f pid q s :
  q <> pid -> papers q (set_peers (alter f pid (v_peers s)) s) = papers q s
              /\ sess q (set_peers (alter f pid (v_peers s)) s) = sess q s.
Proof. intros Hq. unfold papers, sess. rewrite peer_at_alter. rewrite decide_False by tauto. done. Qed.

Lemma shaking_on_session {A} pid s0 (m : M FerrySession A) :
  (forall fs, s_state (m fs).2 = s_state fs \/ s_state (m fs).2 ∈ [CONNECTING; HANDSHAKING; AUTHENTICATING]) ->
  stable (shaking pid s0) (on_session pid m).
Proof.
  intros Hm s (L & D & O & P). apply wp_on_session. unfold wp. split; [by destruct s; cbn in *; rewrite length_alter|].
  split; [by destruct s|]. split.
  - intros q Hq. destruct (papers_alter (p_set_session (m (p_session (peer_at pid s))).2) pid q s Hq) as [-> ->]. auto.
  - unfold sess in *. rewrite peer_at_alter. destruct (decide _) as [[_ _]|]; [|done]. cbn.
    destruct (Hm (p_session (peer_at pid s))) as [->|Hin]; [done|]. unfold before_auth. set_solver.
Qed.

Lemma shaking_transition pid s0 X :
  X ∈ [CONNECTING; HANDSHAKING; AUTHENTICATING] -> stable (shaking pid s0) (on_session pid (session_transition X)).
Proof.
  intros HX. apply shaking_on_session. intros fs. rewrite session_transition_spec.
  destruct (bool_decide (sstep (s_state fs) X)); cbn; auto.
Qed.

Section handshake_safety.
Context `{HC : Crypto} `{HR : PyRepr} `{HH : Host} `{HE : Ed25519}.
Context (identity : IdentityManager) (device_id device_name : pystr).

Lemma keeps_device_by_key j : keeps (device_by_key j).
Proof. unfold device_by_key. keep. Qed.
Lemma keeps_expect mt stream : keeps (expect mt stream).
Proof. unfold expect. keep. Qed.
#[local] Hint Resolve keeps_device_by_key keeps_expect : keeps.
Lemma keeps_exchange_init pid i hs stream : keeps (exchange_init identity device_id device_name pid i hs stream).
Proof. unfold exchange_init. keep. Qed.
Lemma keeps_exchange_auth pid i tr stream : keeps (exchange_auth identity pid i tr stream).
Proof. unfold exchange_auth. keep. Qed.

(** What the remote's payload put into the session. *)
Definition introduced (pid : nat) (b64 : pystr) (static : bytes) (s : Service) : Prop :=
  decode_public_key_b64 b64 = Ok static /\ static_of pid s = Some b64
  /\ exists hs, s_remote_hs (p_session (peer_at pid s)) = Some hs /\ static_pub_key hs = static.

Lemma wp_accept_remote pid s0 d s :
  shaking pid s0 s -> (pid < length (v_peers s0))%nat ->
  wp (accept_remote pid d) (fun r s' => shaking pid s0 s' /\ forall b64 static, r = Ok (b64, static) -> introduced pid b64 static s') s.
Proof.
  intros Hs Hp. unfold accept_remote. wp_step. wp_step. destruct (dget_or d "public_key" (JStr [])) as [| | | |b64| |]; try done.
  cbn [decode_key_json]. destruct (decode_public_key_b64 b64) as [static|] eqn:Ek; [|done]. wp_step. wp_step.
  destruct (decode_key_json _) as [eph|]; [|done]. wp_step. wp_step. destruct (decode_key_json _) as [nc|]; [|done].
  wp_step. wp_step. wp_step. apply wp_modify. set (s1 := set_peers _ s).
  assert (length (v_peers s1) = length (v_peers s)) as L1 by (subst s1; destruct s; cbn; by rewrite length_alter).
  destruct Hs as (L & D & O & P).
  assert (shaking pid s0 s1) as S1.
  { split; [congruence|]. split; [subst s1; by destruct s|]. split.
    - intros q Hq. subst s1. match goal with |- context [alter ?f _ _] => destruct (papers_alter f pid q s Hq) as [-> ->] end. auto.
    - unfold sess in *. subst s1. rewrite peer_at_alter. by destruct (decide _) as [[_ _]|]. }
  wp_step. set (hs := {| static_pub_key := static; ephemeral_pub_key := eph; nonce := nc |}).
  eapply wp_mono; [apply wp_and; [apply (shaking_on_session pid s0 (accept_remote_handshake hs)); [by left|done]|]|].
  { apply (wp_on_session pid _ (fun r s' => r = Ok tt /\ introduced pid b64 static s')). apply wp_modify.
    split; [done|]. split; [done|].
    assert (peer_at pid (set_peers (alter (p_set_session (with_hs (s_local_hs (p_session (peer_at pid s1))) (Some hs) (p_session (peer_at pid s1)))) pid (v_peers s1)) s1)
      = p_set_session (with_hs (s_local_hs (p_session (peer_at pid s1))) (Some hs) (p_session (peer_at pid s1))) (peer_at pid s1)) as E.
    { rewrite peer_at_alter. by rewrite decide_True by (split; [done|lia]). }
    unfold static_of, papers. rewrite E. cbn. split; [|by exists hs]. subst s1. rewrite peer_at_alter.
    by rewrite decide_True by (split; [done|lia]). }
  intros r s2 [S2 [-> I2]]. wp_step. split; [done|]. by intros ?? [= <- <-].
Qed.

(** The peer proved that it holds the key it showed. *)
Definition authenticated (pid : nat) (s : Service) : Prop :=
  exists b64 static transcript sig, introduced pid b64 static s
    /\ build_auth_transcript (p_session (peer_at pid s)) = Ok transcript
    /\ verify static transcript sig = true.

Lemma authenticated_papers pid s s' : papers pid s' = papers pid s -> authenticated pid s -> authenticated pid s'.
Proof.
  intros E (b64 & static & tr & sig & (Hk & Hs & hs & Hr & Hst) & Ht & Hv). exists b64, static, tr, sig.
  unfold introduced, static_of in *. rewrite E. unfold papers, hands in E. injection E as E1 E2 E3 E4.
  unfold build_auth_transcript in *. rewrite E2, E3, E4. by eauto 10.
Qed.

(** How the task admits a peer: what it depends on. *)
Definition enrolled (pid : nat) (s s' : Service) : Prop :=
  authenticated pid s' /\ (forall q, q <> pid -> papers q s' = papers q s /\ sess q s' = sess q s)
  /\ exists key, static_of pid s' = Some key
     /\ (sess pid s' = ESTABLISHED -> trusts key s) /\ (sess pid s' = PAIRING -> ~ trusts key s).

Lemma device_by_public_key_trusts key s r :
  get_device_by_public_key key (v_db s) = Ok r -> (is_Some r <-> trusts key s).
Proof.
  intros H. apply bind_Ok in H as (? & _ & [= <-]). split.
  - intros [d (Hk & Hd)%find_row_Some]. exists d. split; [done|]. unfold key_is in Hk. by apply bool_decide_eq_true in Hk.
  - intros (d & Hd & Hk). unfold find_row. destruct (List.filter _ _) as [|d' l] eqn:E; [|by eexists].
    exfalso. assert (In d (List.filter (key_is key) (db_devices (v_db s)))) as Hin; [|by rewrite E in Hin].
    apply filter_In. split; [by apply list_elem_of_In|]. by apply bool_decide_eq_true.
Qed.

(** What [enrol] did to a session: nothing but the one transition. *)
Lemma admitted_by X pid b64 s s1 s2 :
  authenticated pid s -> static_of pid s = Some b64 -> sess pid s ∉ [ESTABLISHED; PAIRING] ->
  (X = ESTABLISHED -> trusts b64 s) -> (X = PAIRING -> ~ trusts b64 s) ->
  same_peers s s1 -> within [X] pid s1 s2 ->
  length (v_peers s2) = length (v_peers s) /\ (sess pid s2 = sess pid s \/ sess pid s2 = X) /\ enrolled pid s s2.
Proof.
  intros Ha Hst Hn Hest Hpair [L1 S1] [[_ L2] W]. split; [congruence|].
  assert (papers pid s2 = papers pid s) as Ep by by rewrite (proj1 (W pid)), (proj1 (S1 pid)).
  split; [destruct (W pid) as [_ [->|[_ E%list_elem_of_singleton]]]; [left; apply S1|by right]|].
  split; [by apply (authenticated_papers pid s)|].
  split; [intros q Hq; destruct (W q) as [-> [->|[]]]; [apply S1|done]|]. exists b64.
  split; [unfold static_of; by rewrite Ep|].
  destruct (W pid) as [_ [E|[_ E%list_elem_of_singleton]]]; rewrite E; [|by split].
  rewrite (proj2 (S1 pid)). split; intros E'; exfalso; apply Hn; rewrite E'; set_solver.
Qed.

(** Exactly what a transition does to the session. *)
Lemma wp_transition_at pid X s :
  (pid < length (v_peers s))%nat ->
  wp (on_session pid (session_transition X)) (fun r s' =>
    if bool_decide (sstep (sess pid s) X) then r = Ok tt /\ sess pid s' = X else r = Err RuntimeError /\ sess pid s' = sess pid s) s.
Proof.
  intros Hp. apply wp_on_session. unfold wp. rewrite session_transition_spec. fold (sess pid s).
  destruct (bool_decide (sstep (sess pid s) X)); (split; [done|]); unfold sess; rewrite peer_at_alter; by rewrite decide_True.
Qed.

(** A transition that succeeds, and steps that keep the kernel. *)
Lemma wp_transition_then {A} pid X (m : M Service A) s :
  (pid < length (v_peers s))%nat -> stable (fun s => sess pid s = X) m ->
  wp (on_session pid (session_transition X);; m) (fun r s' => is_ok r = true -> sess pid s' = X) s.
Proof.
  intros Hp Hm. wp_step. eapply wp_mono; [by apply wp_transition_at|]. intros r s1.
  destruct (bool_decide _); intros [-> Hs]; [|done]. eapply wp_mono; [by apply Hm|]. done.
Qed.

Lemma keeps_sess {A} pid X (m : M Service A) : keeps m -> stable (fun s => sess pid s = X) m.
Proof.
  intros Hm s Hs. eapply wp_mono; [by apply (Hm (kernel s))|]. cbv beta. intros r s' K%kernel_same_peers.
  by rewrite (proj2 (proj2 K pid)).
Qed.

Lemma sess_sessions pid X f : stable (fun s => sess pid s = X) (modify (fun s => set_sessions (f s) s)).
Proof. intros s H. apply wp_modify. by destruct s. Qed.

(** [enrol] returns only after its transition. *)
Lemma wp_admit_ok pid b64 s :
  (pid < length (v_peers s))%nat -> wp (enrol pid b64) (fun r s' => is_ok r = true -> sess pid s' ∈ [ESTABLISHED; PAIRING]) s.
Proof.
  intros Hp. unfold enrol. do 4 wp_step. destruct (get_device_by_public_key b64 (v_db s)) as [existing|]; [|done].
  apply wp_peer. destruct existing as [old|].
  - do 2 wp_step. destruct (if py_bool (p_device_id _) then _ else _) as [id|]; [|done].
    do 2 wp_step. destruct (if py_bool (p_device_name _) then _ else _) as [name|]; [|done].
    do 2 wp_step. destruct (add_or_update_device _ _) as [d|]; [|done]. wp_step. wp_step.
    eapply wp_mono; [apply (wp_transition_then pid ESTABLISHED)|].
    + by destruct s.
    + apply stable_bind; [apply sess_sessions|intros _]. apply keeps_sess. keep.
    + cbv beta. intros r s' H Hr. rewrite (H Hr). set_solver.
  - eapply wp_mono; [apply (wp_transition_then pid PAIRING); [done|]|].
    + apply stable_bind; [apply sess_sessions|intros _]. apply keeps_sess. keep.
    + cbv beta. intros r s' H Hr. rewrite (H Hr). set_solver.
Qed.

Lemma wp_admit pid b64 s :
  authenticated pid s -> static_of pid s = Some b64 -> sess pid s ∉ [ESTABLISHED; PAIRING] ->
  wp (enrol pid b64) (fun _ s' => length (v_peers s') = length (v_peers s)
    /\ (sess pid s' = sess pid s \/ sess pid s' ∈ [ESTABLISHED; PAIRING]) /\ enrolled pid s s') s.
Proof.
  intros Ha Hst Hn.
  assert (length (v_peers s) = length (v_peers s)
    /\ (sess pid s = sess pid s \/ sess pid s ∈ [ESTABLISHED; PAIRING]) /\ enrolled pid s s) as Hs.
  { destruct (admitted_by PAIR_ACCEPTED pid b64 s s s) as (? & _ & ?); try done; [apply within_refl|]. auto. }
  assert (forall X s2, X ∈ [ESTABLISHED; PAIRING] -> length (v_peers s2) = length (v_peers s)
    /\ (sess pid s2 = sess pid s \/ sess pid s2 = X) /\ enrolled pid s s2 -> length (v_peers s2) = length (v_peers s)
    /\ (sess pid s2 = sess pid s \/ sess pid s2 ∈ [ESTABLISHED; PAIRING]) /\ enrolled pid s s2) as Hw.
  { intros X s2 HX (? & [?| ->] & ?); auto. }
  unfold enrol. do 4 wp_step. destruct (get_device_by_public_key b64 (v_db s)) as [existing|] eqn:Ed; [|done].
  apply device_by_public_key_trusts in Ed. apply wp_peer.
  destruct existing as [old|].
  - do 2 wp_step. destruct (if py_bool (p_device_id _) then _ else _) as [id|]; [|done].
    do 2 wp_step. destruct (if py_bool (p_device_name _) then _ else _) as [name|]; [|done].
    do 2 wp_step. destruct (add_or_update_device _ _) as [d|]; [|done]. wp_step. wp_step.
    eapply wp_mono; [apply (wp_within [ESTABLISHED] pid); withins|].
    intros r s' W. apply (Hw ESTABLISHED); [set_solver|]. apply (admitted_by ESTABLISHED pid b64 s (set_db d s) s'); try done; [intros _; by apply Ed|]. by destruct s.
  - eapply wp_mono; [apply (wp_within [PAIRING] pid s); withins|].
    intros r s' W. apply (Hw PAIRING); [set_solver|]. apply (admitted_by PAIRING pid b64 s s s'); try done. intros _ Ht%Ed. by destruct Ht.
Qed.

(** The transition that starts the task succeeds only from DISCONNECTED. *)
Lemma wp_connecting pid s :
  (pid < length (v_peers s))%nat ->
  wp (on_session pid (session_transition CONNECTING)) (fun r s' => shaking pid s s' /\ (r = Ok tt -> sess pid s' = CONNECTING)) s.
Proof.
  intros Hp. apply wp_and.
  - apply shaking_transition; [set_solver|]. split; [done|]. split; [done|]. split; [done|]. unfold before_auth. set_solver.
  - apply wp_on_session. unfold wp. rewrite session_transition_spec. destruct (bool_decide _); [|done]. intros _.
    unfold sess. rewrite peer_at_alter. by rewrite decide_True.
Qed.

(** The rest of the task, once it is connecting. *)
Definition shaken (pid : nat) (s : Service) {A} (r : res A) (s' : Service) : Prop :=
  (exists e, r = Err e) /\ shaking pid s s'
  \/ length (v_peers s') = length (v_peers s) /\ enrolled pid s s' /\ (is_ok r = true -> sess pid s' ∈ [ESTABLISHED; PAIRING])
     /\ sess pid s' ∈ [AUTHENTICATING; CONNECTING; HANDSHAKING; ESTABLISHED; PAIRING].

Lemma shaken_stable {A B} pid s (m : M Service A) (k : A -> M Service B) s1 :
  stable (shaking pid s) m -> shaking pid s s1 ->
  (forall a s2, m s1 = (Ok a, s2) -> shaking pid s s2 -> wp (k a) (shaken pid s) s2) ->
  wp (m ≫= k) (shaken pid s) s1.
Proof.
  intros Hm Hs Hk. wp_step. specialize (Hm s1 Hs). unfold wp in *. destruct (m s1) as [[a|e] s2]; cbn in *; [by eapply Hk|].
  left. eauto.
Qed.

Lemma shaking_admitted pid s s1 s2 : shaking pid s s1 -> enrolled pid s1 s2 -> enrolled pid s s2.
Proof.
  intros (L & D & O & P) (Ha & Ho & key & Hk & HE1 & HP1). split; [done|].
  split; [intros q Hq; destruct (Ho q Hq) as [-> ->]; by apply O|]. exists key. split; [done|].
  assert (trusts key s1 <-> trusts key s) as E by (unfold trusts; by rewrite D). by rewrite <-E.
Qed.

Lemma shaking_local_handshake pid s0 fresh nc key :
  stable (shaking pid s0) (on_session pid (build_local_handshake fresh nc key)).
Proof.
  apply shaking_on_session. intros fs. left. unfold build_local_handshake, mbind, M_bind, get, put, mret, M_ret. cbn.
  by case_bool_decide.
Qed.

Lemma derive_keys_state fs : s_state (derive_keys fs).2 = s_state fs /\ hands (derive_keys fs).2 = hands fs.
Proof.
  unfold derive_keys, mbind, M_bind, get, lift, modify, raise, mret, M_ret.
  by repeat (case_match; simplify_eq/=).
Qed.

(** A transition and the key derivation leave the papers alone. *)
Lemma papers_on_session {A} pid (m : M FerrySession A) s :
  (forall fs, hands (m fs).2 = hands fs) -> wp (on_session pid m) (fun _ s' => papers pid s' = papers pid s) s.
Proof.
  intros Hm. apply wp_on_session. unfold wp. unfold papers. rewrite peer_at_alter. destruct (decide _) as [[_ _]|]; [|done].
  cbn. by rewrite Hm.
Qed.

Lemma introduced_papers pid b64 static s s' : papers pid s' = papers pid s -> introduced pid b64 static s -> introduced pid b64 static s'.
Proof.
  intros E (Hk & Hs & hs & Hr & Hst). unfold introduced, static_of in *. rewrite E. unfold papers, hands in E. injection E as E1 E2 E3 E4.
  rewrite E4. eauto 10.
Qed.

Lemma wp_handshake_rest pid i fresh nc stream s :
  (pid < length (v_peers s))%nat -> sess pid s = CONNECTING ->
  wp (on_session pid (session_transition HANDSHAKING);;
      hs ← on_session pid (build_local_handshake fresh nc (id_public_key_bytes identity));
      '(remote, stream) ← exchange_init identity device_id device_name pid i hs stream;
      '(static_b64, static) ← accept_remote pid remote;
      on_session pid derive_keys;;
      on_session pid (session_transition AUTHENTICATING);;
      p ← peer pid;
      transcript ← lift (build_auth_transcript (p_session p));
      '(sig_b64, stream) ← exchange_auth identity pid i transcript stream;
      remote_sig ← lift (decode_key_json sig_b64);
      lift (raise_if (negb (verify static transcript remote_sig)) ValueError);;
      enrol pid static_b64;;
      upd_peer pid (p_set_phase Looping);;
      mret stream) (shaken pid s) s.
Proof.
  intros Hp Hc. assert (shaking pid s s) as S0 by (split_and!; try done; unfold before_auth; set_solver).
  apply shaken_stable; [apply shaking_transition; set_solver|done|intros [] s1 _ S1].
  apply shaken_stable; [apply shaking_local_handshake|done|intros hs s2 _ S2].
  apply shaken_stable; [apply keeps_shaking, keeps_exchange_init|done|intros [remote st1] s3 _ S3].
  wp_step. eapply wp_mono; [apply (wp_accept_remote pid s); [done|lia]|]. intros [[b64 static]|e] s4 [S4 I4]; [|left; eauto].
  specialize (I4 _ _ eq_refl).
  wp_step. eapply wp_mono; [apply wp_and; [by apply (shaking_on_session pid s derive_keys); [intros fs; left; apply derive_keys_state|]
    |apply papers_on_session; apply derive_keys_state]|]. cbv beta. intros [k|e] s5 [S5 P5]; [|left; eauto].
  wp_step. eapply wp_mono; [apply wp_and; [by apply (shaking_transition pid s AUTHENTICATING); [set_solver|]
    |apply papers_on_session; intros fs; rewrite session_transition_spec; by destruct (bool_decide _)]|].
  cbv beta. intros [[]|e] s6 [S6 P6]; [|left; eauto]. rewrite P5 in P6. apply (introduced_papers _ _ _ _ _ P6) in I4.
  apply wp_peer. do 2 wp_step. destruct (build_auth_transcript _) as [tr|] eqn:Et; [|left; eauto].
  apply shaken_stable; [apply keeps_shaking, keeps_exchange_auth|done|intros [sg st2] s7 Hr7 S7].
  assert (kernel s7 = kernel s6) as K7 by (by apply (wp_elim _ _ _ _ _ (keeps_exchange_auth pid i tr st1 (kernel s6) s6 eq_refl) Hr7)).
  apply kernel_same_peers in K7 as [L7 P7]. destruct (P7 pid) as [P7' _].
  do 2 wp_step. destruct (decode_key_json sg) as [sig|]; [|left; eauto].
  do 2 wp_step. destruct (verify static tr sig) eqn:Ev; cbn [negb raise_if]; [|left; eauto].
  wp_step. eapply wp_mono; [apply wp_and; [apply wp_admit|apply wp_admit_ok; destruct S7 as [-> _]; done]|].
  - exists b64, static, tr, sig. split; [by apply (introduced_papers _ _ _ _ _ P7')|]. split; [|done].
    unfold papers, hands in P7'. injection P7' as _ E1 E2 E3. rewrite <-Et. unfold build_auth_transcript. by rewrite E1, E2, E3.
  - apply (introduced_papers _ _ _ _ _ P7') in I4. apply I4.
  - destruct S7 as (_ & _ & _ & S7). rewrite Hc in S7. unfold before_auth in S7. intros Hn. revert S7 Hn. rewrite !elem_of_cons, !elem_of_nil. intuition congruence.
  - intros r s8 [(L8 & C8 & A8) K8].
    assert (sess pid s8 ∈ [AUTHENTICATING; CONNECTING; HANDSHAKING; ESTABLISHED; PAIRING]) as C.
    { destruct S7 as (_ & _ & _ & S7). rewrite Hc in S7. unfold before_auth in S7. revert C8 S7.
      rewrite !elem_of_cons, !elem_of_nil. intuition congruence. }
    assert (enrolled pid s s8) as A by (by eapply shaking_admitted).
    assert (length (v_peers s8) = length (v_peers s)) as L by (rewrite L8; apply S7).
    destruct r as [[]|e]; [|right; by split_and!]. specialize (K8 eq_refl). wp_step. apply wp_modify. wp_step. right.
    assert (forall q, papers q (set_peers (alter (p_set_phase Looping) pid (v_peers s8)) s8) = papers q s8
      /\ sess q (set_peers (alter (p_set_phase Looping) pid (v_peers s8)) s8) = sess q s8) as E.
    { intros q. unfold papers, sess. rewrite peer_at_alter. by destruct (decide _). }
    split; [destruct s8; cbn in *; by rewrite length_alter|]. rewrite (proj2 (E pid)). split; [|by split]. destruct A as (Aa & Ao & key & Hk & H1 & H2).
    split; [by apply (authenticated_papers pid s8); [apply E|]|].
    split; [intros q Hq; destruct (E q) as [-> ->]; by apply Ao|]. exists key.
    split; [unfold static_of; by rewrite (proj1 (E pid))|]. by rewrite (proj2 (E pid)).
Qed.

Lemma wp_handshake_body pid i fresh nc stream s :
  (pid < length (v_peers s))%nat ->
  wp (handshake_body identity device_id device_name pid i fresh nc stream) (shaken pid s) s.
Proof.
  intros Hp. unfold handshake_body. wp_step. eapply wp_mono; [by apply wp_connecting|].
  intros [[]|e] s1 [S1 C1]; [|left; eauto]. specialize (C1 eq_refl).
  eapply wp_mono; [apply wp_handshake_rest; [destruct S1 as [-> _]; done|done]|].
  intros r s2 [[He (L & D & O & P)]|(L & A & K)].
  - left. split; [done|]. destruct S1 as (L1 & D1 & O1 & P1). split; [congruence|]. split; [congruence|].
    split; [intros q Hq; destruct (O q Hq) as [-> ->]; by apply O1|]. rewrite C1 in P. unfold before_auth in *. set_solver.
  - right. destruct S1 as (L1 & S1). split; [congruence|]. split; [|done]. eapply shaking_admitted; [|done]. by split.
Qed.
End handshake_safety.

(** ** A task that fails *)

Section failure.
Context `{HC : Crypto} `{HR : PyRepr} `{HH : Host} `{HE : Ed25519}.
Context (identity : IdentityManager) (device_id device_name : pystr).

Lemma wp_both {A} pid s (m : M Service A) (Q : res A -> Service -> Prop) :
  stable (within ended pid s) m -> wp m Q s -> wp m (fun r s' => within ended pid s s' /\ Q r s') s.
Proof. intros H1 H2. apply wp_and; [by apply wp_within|done]. Qed.

(** The end of every task: the transport is closed and the session is over. *)
Lemma wp_finally_ends pid s :
  (pid < length (v_peers s))%nat ->
  wp (handshake_finally pid) (fun r s' => r = Ok tt /\ within ended pid s s'
    /\ p_phase (peer_at pid s') = Ended /\ (sess pid s' = sess pid s \/ sess pid s' ∈ ended)
    /\ (sess pid s ∈ [ESTABLISHED; DISCONNECTED; SFAILED] -> sess pid s' ∈ [DISCONNECTED; SFAILED])) s.
Proof.
  intros Hp.
  assert (wp (handshake_finally pid) (fun r s' => r = Ok tt /\ p_phase (peer_at pid s') = Ended
    /\ (sess pid s ∈ [ESTABLISHED; DISCONNECTED; SFAILED] -> sess pid s' ∈ [DISCONNECTED; SFAILED])) s) as H.
  { unfold handshake_finally. apply wp_peer. do 2 wp_step. wp_step. apply wp_modify.
    set (s1 := set_peers _ _).
    assert (sess pid s1 = sess pid s /\ length (v_peers s1) = length (v_peers s)) as [E1 L1].
    { subst s1. unfold sess. rewrite peer_at_alter. destruct (decide _); destruct s; cbn; by rewrite length_alter. }
    assert (forall s2, length (v_peers s2) = length (v_peers s) ->
      (sess pid s ∈ [ESTABLISHED; DISCONNECTED; SFAILED] -> sess pid s2 ∈ [DISCONNECTED; SFAILED]) ->
      wp (notify_session_change pid;; upd_peer pid (p_set_phase Ended)) (fun r s' => r = Ok tt /\ p_phase (peer_at pid s') = Ended
        /\ (sess pid s ∈ [ESTABLISHED; DISCONNECTED; SFAILED] -> sess pid s' ∈ [DISCONNECTED; SFAILED])) s2) as Hend.
    { intros s2 L2 H2. unfold notify_session_change. wp_step. apply wp_peer, wp_modify, wp_modify. split; [done|].
      unfold sess in *. rewrite peer_at_alter. rewrite decide_True by (split; [done|destruct s2; cbn in *; lia]).
      split; [done|]. by destruct s2. }
    wp_step. change (s_state (p_session (peer_at pid s))) with (sess pid s). case_bool_decide as Hin; cbn [negb].
    - wp_step. apply Hend; [done|]. intros _. by rewrite E1.
    - wp_step. wp_step. eapply wp_mono; [apply wp_and; [apply (wp_transition_at pid CLOSING); by rewrite L1|by apply (wp_within ended pid), within_transition; set_solver]|].
      rewrite E1. intros r s2 [H2 [[_ W2] _]]. rewrite L1 in W2.
      destruct (bool_decide (sstep (sess pid s) CLOSING)) eqn:Es; destruct H2 as [-> H2].
      + eapply wp_mono; [apply wp_and; [apply (wp_transition_at pid DISCONNECTED); by rewrite W2|by apply (wp_within ended pid), within_transition; set_solver]|].
        rewrite H2. cbn. intros r s3 [[-> H3] [[_ W3] _]]. apply Hend; [congruence|]. intros _. rewrite H3. set_solver.
      + apply Hend; [done|]. intros Hs. exfalso. revert Hin Es. unfold sstep.
        destruct (sess pid s); try done; try (intros Hin; exfalso; apply Hin; set_solver); set_solver. }
  apply (wp_both pid s) in H; [|apply within_finally]. eapply wp_mono; [exact H|]. intros r s' (W & -> & Hph & Hs).
  split_and!; try done. destruct W as [_ W]. destruct (W pid) as [_ [->|[_ ?]]]; auto.
Qed.

(** What [handshake_failed] leaves behind it. *)
Lemma wp_failed pid s :
  (pid < length (v_peers s))%nat -> sess pid s <> CLOSING ->
  wp (handshake_failed pid) (fun r s' => r = Ok tt /\ within ended pid s s' /\ sess pid s' ∈ [ESTABLISHED; DISCONNECTED; SFAILED]) s.
Proof.
  intros Hp Hc.
  assert (wp (handshake_failed pid) (fun r s' => r = Ok tt /\ sess pid s' ∈ [ESTABLISHED; DISCONNECTED; SFAILED]) s) as H.
  { assert (forall n x, sess pid (set_notices n x) = sess pid x) as Hnt by by intros n [].
    unfold handshake_failed. apply wp_peer. wp_step. fold (sess pid s). case_bool_decide as Hin; cbn [negb].
    - wp_step. apply wp_modify. split; [done|]. rewrite Hnt. revert Hin Hc. rewrite !elem_of_cons, !elem_of_nil. intuition congruence.
    - wp_step. eapply wp_mono; [by apply wp_transition_at|]. intros r s1 H1. apply wp_modify. split; [done|]. rewrite Hnt.
      destruct (bool_decide (sstep (sess pid s) SFAILED)) eqn:E; destruct H1 as [_ ->]; [set_solver|].
      exfalso. revert Hin Hc E. unfold sstep. destruct (sess pid s); try done; intros Hin; try (exfalso; apply Hin; set_solver). }
  apply (wp_both pid s) in H; [|apply within_failed]. eapply wp_mono; [exact H|]. intros r s' (W & -> & ?). by split_and!.
Qed.

Lemma wp_run_handshake pid i fresh nc stream s :
  (pid < length (v_peers s))%nat -> sess pid s = DISCONNECTED ->
  wp (run_handshake identity device_id device_name pid i fresh nc stream) (fun r s' =>
    r = Ok true /\ enrolled pid s s' /\ sess pid s' ∈ [ESTABLISHED; PAIRING]
    \/ r = Ok false /\ sess pid s' ∈ [DISCONNECTED; SFAILED] /\ p_phase (peer_at pid s') = Ended
       /\ (forall q, q <> pid -> papers q s' = papers q s /\ sess q s' = sess q s)) s.
Proof.
  intros Hp Hd. unfold run_handshake. wp_step. wp_step. wp_step.
  eapply wp_mono; [by apply wp_handshake_body|]. intros r s1 H1.
  assert (length (v_peers s1) = length (v_peers s) /\ (forall q, q <> pid -> papers q s1 = papers q s /\ sess q s1 = sess q s)) as [L1 O1].
  { destruct H1 as [[_ (L & _ & O & _)]|(L & (_ & O & _) & _)]; auto. }
  destruct r as [rest|e]; cbv iota.
  - wp_step. cbv iota. destruct H1 as [[[e He] _]|(_ & A & K & _)]; [done|]. repeat (wp_step; cbv iota). left. split; [done|]. split; [done|]. by apply K.
  - cbv iota. wp_step. eapply wp_mono; [apply wp_failed; [lia|]|].
    { destruct H1 as [[_ (_ & _ & _ & P)]|(_ & _ & _ & P)]; intros E; rewrite E, ?Hd in P; unfold before_auth in P; set_solver. }
    intros r s2 (-> & [[_ L2] W2] & E2). wp_step. cbv iota. wp_step.
    eapply wp_mono; [apply wp_finally_ends; lia|]. intros r s3 (-> & [_ W3] & Hph & _ & H3). wp_step. right.
    split; [done|]. split; [apply H3; revert E2; rewrite !elem_of_cons, !elem_of_nil; tauto|]. split; [done|].
    intros q Hq. destruct (W3 q) as [-> [->|[]]]; [|done]. destruct (W2 q) as [-> [->|[]]]; [|done]. by apply O1.
Qed.
End failure.

(** ** The theorems *)

Section pairing_properties.
Context `{HC : Crypto} `{HR : PyRepr} `{HH : Host} `{HE : Ed25519}.
Context (identity : IdentityManager) (device_id device_name : pystr).

Lemma wp_session_frame pid f s :
  wp (session_frame pid f) (fun _ s' => exists s1,
    (kernel s1 = kernel s \/ says_accept pid f s /\ decided pid s s1) /\ within ended pid s1 s') s.
Proof.
  unfold session_frame. wp_step. wp_step. eapply wp_mono; [apply wp_session_turn|]. intros r s1 H1.
  assert (wp (session_over pid) (fun _ s' => exists s1,
    (kernel s1 = kernel s \/ says_accept pid f s /\ decided pid s s1) /\ within ended pid s1 s') s1) as Ho.
  { eapply wp_mono; [apply wp_within, within_over|]. intros r' s2 W. by exists s1. }
  destruct r as [[]|e]; cbv iota; [wp_step; exists s1; auto using within_refl|exact Ho|]. wp_step. exact Ho.
Qed.

(** Why a session may be where it is after an event. *)
Definition legitimate (e : event) (pid : nat) (s s' : Service) : Prop :=
  match sess pid s' with
  | ESTABLISHED =>
      (exists fresh nc stream key, e = EvHandshake pid fresh nc stream /\ authenticated pid s'
        /\ static_of pid s' = Some key /\ trusts key s)
      \/ sess pid s = WAITING_FOR_LOCAL_DECISION /\ trusted pid s'
         /\ (exists addr, e = EvAcceptPairing addr /\ aget addr (v_sessions s) = Some pid)
      \/ sess pid s = WAITING_FOR_REMOTE_DECISION /\ trusted pid s' /\ (exists f, e = EvFrame pid f /\ says_accept pid f s)
  | WAITING_FOR_LOCAL_DECISION => sess pid s = PAIRING /\ exists f, e = EvFrame pid f /\ says_accept pid f s
  | WAITING_FOR_REMOTE_DECISION =>
      sess pid s = PAIRING /\ exists addr, e = EvAcceptPairing addr /\ aget addr (v_sessions s) = Some pid
  | PAIRING => (exists fresh nc stream, e = EvHandshake pid fresh nc stream) /\ authenticated pid s'
  | PAIR_ACCEPTED => sess pid s ∈ [WAITING_FOR_LOCAL_DECISION; WAITING_FOR_REMOTE_DECISION]
  | _ => True
  end.

Lemma legitimate_ended e pid s s' : sess pid s' ∈ ended -> legitimate e pid s s'.
Proof. unfold legitimate, ended. intros H. destruct (sess pid s'); try done; set_solver. Qed.

Lemma legitimate_within e pid q s s' : within ended q s s' -> sess pid s' = sess pid s \/ legitimate e pid s s'.
Proof. intros [_ W]. destruct (W pid) as [_ [?|[_ ?]]]; [by left|right; by apply legitimate_ended]. Qed.

(** An ended task after the move: the move itself decides. *)
Lemma legitimate_then e pid q s s1 s' :
  sess pid s1 = sess pid s \/ legitimate e pid s s1 -> within ended q s1 s' -> sess pid s' = sess pid s \/ legitimate e pid s s'.
Proof.
  intros H [[D _] W]. destruct (W pid) as [Ep [E|[_ ?]]]; [|right; by apply legitimate_ended]. rewrite E. destruct H as [?|H]; [by left|right].
  unfold legitimate, trusted, static_of, trusts in *. rewrite E, Ep, D.
  destruct (sess pid s1); try done.
  - destruct H as [? H]. split; [done|]. by apply (authenticated_papers pid s1).
  - destruct H as [(fr & nc & st & key & ? & H & ?)|H]; [left|by right]. exists fr, nc, st, key. split; [done|].
    split; [by apply (authenticated_papers pid s1)|done].
Qed.

Lemma legitimate_decided e f pid q s s1 :
  e = EvFrame q f -> says_accept q f s -> decided q s s1 -> sess pid s1 = sess pid s \/ legitimate e pid s s1.
Proof.
  intros -> Hsay [[Hs [_ W]]|(Hs & _ & Ho & P)].
  - destruct (W pid) as [_ [?|[-> E%list_elem_of_singleton]]]; [by left|]. right. unfold legitimate. rewrite E. eauto.
  - destruct (decide (pid = q)) as [->|]; [|left; by apply Ho].
    destruct P as [Hin|[E T]]; [|right; unfold legitimate; rewrite E; right; right; eauto].
    apply elem_of_cons in Hin as [E|E%list_elem_of_singleton]; [left; congruence|]. right. unfold legitimate. rewrite E, Hs. set_solver.
Qed.

Lemma legitimate_accepted e addr pid s s' :
  e = EvAcceptPairing addr ->
  same_peers s s' \/ (exists q, aget addr (v_sessions s) = Some q
    /\ (waits_for WAITING_FOR_REMOTE_DECISION q s s' \/ completes WAITING_FOR_LOCAL_DECISION q s s')) ->
  sess pid s' = sess pid s \/ legitimate e pid s s'.
Proof.
  intros -> [[_ S]|(q & Ha & [[Hs [_ W]]|(Hs & _ & Ho & P)])]; [left; apply S| |].
  - destruct (W pid) as [_ [?|[-> E%list_elem_of_singleton]]]; [by left|]. right. unfold legitimate. rewrite E. eauto.
  - destruct (decide (pid = q)) as [->|]; [|left; by apply Ho].
    destruct P as [Hin|[E T]]; [|right; unfold legitimate; rewrite E; right; left; eauto].
    apply elem_of_cons in Hin as [E|E%list_elem_of_singleton]; [left; congruence|]. right. unfold legitimate. rewrite E, Hs. set_solver.
Qed.

Lemma legitimate_handshake i fresh nc stream pid q s :
  (q < length (v_peers s))%nat ->
  wp (run_handshake identity device_id device_name q i fresh nc stream) (fun _ s' =>
    sess pid s' = sess pid s \/ legitimate (EvHandshake q fresh nc stream) pid s s') s.
Proof.
  intros Hq. unfold run_handshake. wp_step. wp_step. wp_step. eapply wp_mono; [by apply wp_handshake_body|]. intros r s1 H1.
  assert (sess pid s1 = sess pid s \/ sess pid s1 ∉ [ESTABLISHED; PAIRING; WAITING_FOR_LOCAL_DECISION; WAITING_FOR_REMOTE_DECISION; PAIR_ACCEPTED]
    \/ legitimate (EvHandshake q fresh nc stream) pid s s1) as Hl.
  { destruct (decide (pid = q)) as [->|Hne].
    - destruct H1 as [[_ (_ & _ & _ & P)]|(_ & (A & _ & key & Hk & HE1 & _) & _ & P)].
      + unfold before_auth in P. apply elem_of_cons in P as [?|P]; [by left|]. right. left. intros Hin. revert P Hin.
        rewrite !elem_of_cons, !elem_of_nil. intuition congruence.
      + right. unfold legitimate. destruct (sess q s1) eqn:E; try (right; done); try (left; set_solver).
        * right. eauto.
        * right. left. exists fresh, nc, stream, key. auto.
    - left. destruct H1 as [[_ (_ & _ & O & _)]|(_ & (_ & O & _) & _)]; by apply O. }
  assert (sess pid s1 = sess pid s \/ legitimate (EvHandshake q fresh nc stream) pid s s1) as Hl'.
  { destruct Hl as [?|[Hn|?]]; [by left| |by right]. right. unfold legitimate. destruct (sess pid s1); try done; exfalso; apply Hn; set_solver. }
  destruct r as [rest|e]; cbv iota.
  - repeat (wp_step; cbv iota). done.
  - wp_step. eapply wp_mono; [apply wp_within, (within_failed q)|]. intros r s2 W2.
    assert (sess pid s2 = sess pid s \/ legitimate (EvHandshake q fresh nc stream) pid s s2) as Hl2 by exact (legitimate_then _ _ _ _ _ _ Hl' W2).
    destruct r as [[]|e']; cbv iota; [|done]. wp_step. cbv iota. wp_step.
    eapply wp_mono; [apply wp_within, (within_finally q)|]. intros r s3 W3.
    assert (sess pid s3 = sess pid s \/ legitimate (EvHandshake q fresh nc stream) pid s s3) by exact (legitimate_then _ _ _ _ _ _ Hl2 W3).
    destruct r as [[]|]; cbv iota; [by wp_step|done].
Qed.

Lemma sess_new_peer pid i a s : sess pid (set_peers (v_peers s ++ [new_peer i a]) s) = sess pid s.
Proof.
  unfold sess, peer_at. destruct s. cbn. destruct (decide (pid < length v_peers)%nat) as [Hl|Hl].
  - by rewrite lookup_app_l.
  - rewrite lookup_app_r by lia. rewrite (lookup_ge_None_2 v_peers) by lia. by destruct (pid - length v_peers)%nat.
Qed.

Lemma event_legitimate e pid s :
  let s' := run_event identity device_id device_name e s in
  sess pid s' = sess pid s \/ legitimate e pid s s'.
Proof.
  assert (forall A (m : M Service A), keeps m -> sess pid (m s).2 = sess pid s \/ legitimate e pid s (m s).2) as Hkeep.
  { intros A m Hm. left. pose proof (Hm (kernel s) s eq_refl) as K%kernel_same_peers. apply K. }
  assert (forall q, in_phase Handshaking q s = true -> (q < length (v_peers s))%nat) as Hlt.
  { intros q. unfold in_phase. destruct (v_peers s !! q) eqn:E; [|done]. intros _. by eapply lookup_lt_Some. }
  cbn zeta. destruct e; cbn [run_event]; try (apply Hkeep; auto with keeps; fail).
  - left. by destruct s.
  - left. apply sess_new_peer.
  - destruct (in_phase Handshaking pid0 s) eqn:Ep; [|by left]. apply legitimate_handshake. auto.
  - destruct (in_phase Looping pid0 s); [|by left].
    destruct (wp_session_frame pid0 frame_data s) as (s1 & H1 & W). eapply legitimate_then; [|exact W].
    destruct H1 as [K|[Hsay Hd]]; [left; by apply kernel_same_peers in K as [_ S]; apply S|]. eapply legitimate_decided; [reflexivity|exact Hsay|exact Hd].
  - destruct (in_phase Looping pid0 s); [|by left]. eapply legitimate_within. apply (wp_within ended pid0 s), within_over.
  - destruct (in_phase Looping pid0 s); [eapply legitimate_within; apply (wp_within ended pid0 s), within_over|].
    destruct (in_phase Handshaking pid0 s); [|by left]. eapply legitimate_within. apply (wp_within ended pid0 s), within_finally.
  - apply Hkeep. by apply keeps_upd_peer; intros [].
  - eapply legitimate_accepted; [reflexivity|apply wp_accept_pairing].
  - destruct (within_reject addr s) as [q W]. eapply legitimate_within, W.
  - case_match; [apply Hkeep; auto with keeps|by left].
  - case_match; [apply Hkeep; auto with keeps|by left].
  - case_match; [apply Hkeep; auto with keeps|by left].
  - left. unfold remove_trusted_device, mbind, M_bind, get, lift. destruct (remove_device_by_public_key _ _); [by destruct s|done].
Qed.

End pairing_properties.
