(* ===== verification/Trust.v ===== *)
(** * Who is trusted

    The devices of the database are trusted: a new key gets there only when a
    pairing is completed.  With the moves of the sessions of [Pairing] this gives
    the two properties of trust. *)
From S2P Require Import Prelude PyStr Sha256 Json Protocol Payloads Transfer Fs Incoming Outgoing Session Bridge Db.
From S2P Require Import Identity Peers Service Sending Handshake Kernel Pairing.

(** The keys of [s] that [s0] did not trust are in [G]; the session [pid] has the
    key it had. *)
Definition gains (G : pystr -> Prop) (s0 s : Service) : Prop := forall key, trusts key s -> trusts key s0 \/ G key.
Definition granting (G : pystr -> Prop) (pid : nat) (k : option pystr) (s0 s : Service) : Prop :=
  gains G s0 s /\ static_of pid s = k.

Lemma gains_devices G s0 s s' : db_devices (v_db s') = db_devices (v_db s) -> gains G s0 s -> gains G s0 s'.
Proof. intros E H key. unfold trusts. rewrite E. apply H. Qed.
Lemma gains_refl G s : gains G s s.
Proof. by left. Qed.

Lemma add_device_gains d d0 s :
  add_or_update_device d (v_db s) = Ok d0 -> forall key, trusts key (set_db d0 s) -> trusts key s \/ key = d_identity_public_key_b64 d.
Proof.
  intros H key (row & Hin & Hk). apply bind_Ok in H as (? & _ & [= <-]). destruct s. cbn in *. destruct (existsb _ _).
  - apply list_elem_of_fmap in Hin as (old & -> & Hold). destruct (device_is _ old); [right; by rewrite <-Hk|left; by exists old].
  - apply elem_of_app in Hin as [Hx|Hx%list_elem_of_singleton]; [left; by exists row|right; by subst].
Qed.

Definition devices (s : Service) : list TrustedDevice := db_devices (v_db s).

(** ** What leaves the devices alone *)

Definition faithful {A} (m : M Service A) : Prop := forall G pid k s0, stable (granting G pid k s0) m.
Section rules.
Lemma faithful_bind {A B} (m : M Service A) (f : A -> M Service B) : faithful m -> (forall a, faithful (f a)) -> faithful (m ≫= f).
Proof. intros Hm Hf G pid k s0. apply stable_bind; [apply Hm|intros a; apply Hf]. Qed.
Lemma faithful_try {A} (m : M Service A) p h : faithful m -> (forall e, faithful (h e)) -> faithful (try_except m p h).
Proof. intros Hm Hh G pid k s0. apply stable_try; [apply Hm|intros e; apply Hh]. Qed.
Lemma faithful_swallow m : faithful m -> faithful (swallow m).
Proof. intros Hm G pid k s0. apply stable_swallow, Hm. Qed.
Lemma faithful_get {B} (f : Service -> M Service B) : (forall s, faithful (f s)) -> faithful (get ≫= f).
Proof. intros Hf G pid k s0 s Hs. wp_step. wp_step. by apply Hf. Qed.
Lemma faithful_keeps {A} (m : M Service A) : keeps m -> faithful m.
Proof.
  intros Hm G pid k s0 s [Hg Hk]. eapply wp_mono; [by apply (Hm (kernel s))|]. cbn. intros r s' [[_ S] D]%same_kernel. split.
  - by apply (gains_devices G s0 s).
  - unfold static_of. by rewrite (proj1 (S pid)).
Qed.
Lemma faithful_transition pid X : faithful (on_session pid (session_transition X)).
Proof.
  intros G q k s0 s [Hg Hk]. eapply wp_mono; [apply (within_transition [X] pid s X); [set_solver|apply within_refl]|].
  intros r s' [[D _] W]. split; [by apply (gains_devices G s0 s)|]. unfold static_of. by rewrite (proj1 (W q)).
Qed.
Lemma faithful_upd_peer q f :
  (forall p, p_session (f p) = p_session p) -> (forall p, p_static_b64 (f p) = p_static_b64 p) -> faithful (upd_peer q f).
Proof.
  intros Hf Hs G pid k s0 s [Hg Hk]. apply wp_modify. split; [apply (gains_devices G s0 s); [by destruct s|done]|].
  unfold static_of, papers in *. rewrite peer_at_alter. destruct (decide _) as [[-> _]|]; [|done]. cbn in *. by rewrite Hs.
Qed.
Lemma faithful_sessions f : faithful (modify (fun s => set_sessions (f s) s)).
Proof. intros G pid k s0 s [Hg Hk]. apply wp_modify. by destruct s. Qed.
End rules.

Ltac faithful1 :=
  match goal with
  | |- forall _, _ => intros ?
  | |- faithful (get ≫= _) => apply faithful_get
  | |- faithful (_ ≫= _) => apply faithful_bind
  | |- faithful (try_except _ _ _) => apply faithful_try
  | |- faithful (swallow _) => apply faithful_swallow
  | |- faithful (on_session _ (session_transition _)) => apply faithful_transition
  | |- faithful (upd_peer _ _) => apply faithful_upd_peer; done
  | |- faithful (modify (fun s => set_sessions _ s)) => apply faithful_sessions
  | |- faithful (match _ with _ => _ end) => case_match
  | |- faithful (let _ := _ in _) => cbv zeta
  | |- faithful _ => apply faithful_keeps; auto 2 with keeps; fail
  end.
Ltac faithfully := repeat faithful1.

Section trust.
Context `{HC : Crypto} `{HR : PyRepr} `{HH : Host} `{HE : Ed25519}.
Context (identity : IdentityManager) (device_id device_name : pystr).

Lemma faithful_notify pid : faithful (notify_session_change pid).
Proof. unfold notify_session_change. faithfully. Qed.
Lemma faithful_failed pid : faithful (handshake_failed pid).
Proof. unfold handshake_failed. faithfully. Qed.
Lemma faithful_finally pid : faithful (handshake_finally pid).
Proof. unfold handshake_finally, notify_session_change. faithfully. Qed.
Lemma faithful_over pid : faithful (session_over pid).
Proof.
  unfold session_over, loop_finally. apply faithful_bind; [|intros _; apply faithful_finally].
  apply faithful_try; [faithfully|intros _; apply faithful_failed].
Qed.
Lemma faithful_reject addr : faithful (reject_pairing addr).
Proof. unfold reject_pairing, disconnect_session, notify_session_change. faithfully. Qed.

(** ** Completing a pairing stores the key of its session, and no other *)

Lemma granting_persist (G : pystr -> Prop) pid k s0 :
  (forall key, k = Some key -> G key) -> stable (granting G pid k s0) (persist_trust pid).
Proof.
  intros HG s [Hg Hk]. unfold persist_trust, peer. repeat wp_step. set (id := if py_bool _ then _ else _).
  assert (keeps id) as Hid by (unfold id; keep). eapply wp_mono; [by apply (faithful_keeps _ Hid G pid k s0)|].
  intros [idv|] s1 [Hg1 Hk1]; [|done]. repeat wp_step. destruct (if py_bool _ then _ else _) as [name|]; [|done].
  destruct (p_static_b64 (peer_at pid s)) as [key|] eqn:Ek; [|by wp_step]. repeat wp_step.
  destruct (add_or_update_device _ _) as [d|] eqn:Ed; [|done]. apply wp_modify. split; [|by destruct s1].
  intros key' Ht. assert (trusts key' (set_db d s)) as [H| ->]%(add_device_gains _ _ s Ed) by (destruct s, s1; exact Ht).
  - by apply Hg.
  - right. apply HG. rewrite <-Hk. exact Ek.
Qed.

(** The event completes the pairing of [pid]: the local user accepts what the peer
    accepted, or the peer accepts what the local user accepted. *)
Definition completing (e : event) (pid : nat) (s : Service) : Prop :=
  sess pid s = WAITING_FOR_LOCAL_DECISION /\ (exists addr, e = EvAcceptPairing addr /\ aget addr (v_sessions s) = Some pid)
  \/ sess pid s = WAITING_FOR_REMOTE_DECISION /\ (exists f, e = EvFrame pid f /\ says_accept pid f s).
Definition granted (e : event) (s0 : Service) (key : pystr) : Prop := exists pid, static_of pid s0 = Some key /\ completing e pid s0.

Lemma granting_start e pid s : granting (granted e s) pid (static_of pid s) s s.
Proof. split; [apply gains_refl|done]. Qed.

Lemma accept_pairing_grants addr s : wp (accept_pairing addr) (fun _ s' => gains (granted (EvAcceptPairing addr) s) s s') s.
Proof.
  unfold accept_pairing. wp_step. wp_step. destruct (aget addr (v_sessions s)) as [pid|] eqn:Ea; [|wp_step; apply gains_refl].
  eapply (wp_mono _ (fun _ s' => granting (granted (EvAcceptPairing addr) s) pid (static_of pid s) s s')); [|by intros r s' [H _]].
  unfold peer. do 4 wp_step. fold (peer pid). pose proof (granting_start (EvAcceptPairing addr) pid s) as H0.
  destruct (s_state (p_session (peer_at pid s))) eqn:Es.
  5: { apply (stable_bind (granting (granted (EvAcceptPairing addr) s) pid (static_of pid s) s)); [|intros _|exact H0].
       - apply stable_bind; [apply faithful_transition|intros _]. apply stable_bind; [|intros _; apply faithful_transition].
         apply granting_persist. intros key Hk. exists pid. split; [done|]. left. eauto.
       - apply (faithful_bind (notify_session_change pid)); [apply faithful_notify|intros _; faithfully]. }
  all: revert H0; match goal with |- granting ?G ?p ?k ?x ?y -> wp ?m _ _ =>
    let H := fresh in assert (faithful m) as H by (repeat first [faithful1 | apply faithful_notify]); apply (H G p k x) end.
Qed.

Lemma pair_decision_grants G pid j s0 s :
  granting G pid (static_of pid s0) s0 s ->
  (forall d key, j = JObj d -> eq_str (dget_or d "decision" JNull) (u "ACCEPT") = true -> sess pid s = WAITING_FOR_REMOTE_DECISION ->
     static_of pid s0 = Some key -> G key) ->
  wp (on_pair_decision pid j) (fun _ s' => granting G pid (static_of pid s0) s0 s') s.
Proof.
  intros H0 HG. unfold on_pair_decision. wp_step. wp_step. destruct j; cbn [as_dict]; try done.
  destruct (eq_str _ (u "REJECT")) eqn:Er; [by wp_step|]. wp_step.
  eapply (wp_mono _ (fun _ s' => granting G pid (static_of pid s0) s0 s')); [|intros [[]|e] s1 H1; by repeat wp_step].
  destruct (eq_str _ (u "ACCEPT")) eqn:Ea; [|by wp_step]. unfold peer. do 4 wp_step. revert H0.
  destruct (s_state (p_session (peer_at pid s))) eqn:Es.
  6: { apply (stable_bind (granting G pid (static_of pid s0) s0)); [|intros _; apply faithful_notify].
       apply stable_bind; [apply faithful_transition|intros _]. apply stable_bind.
       - apply granting_persist. intros key Hk. by eapply HG.
       - intros _. apply (faithful_bind (on_session pid (session_transition ESTABLISHED))); faithfully. }
  all: match goal with |- granting ?G ?p ?k ?x ?y -> wp ?m _ _ =>
    let H := fresh in assert (faithful m) as H by (repeat first [faithful1 | apply faithful_notify]); apply (H G p k x) end.
Qed.

Lemma session_turn_grants pid f s : wp (session_turn pid f) (fun _ s' => gains (granted (EvFrame pid f) s) s s') s.
Proof.
  set (G := granted (EvFrame pid f) s). assert (granting G pid (static_of pid s) s s) as H0 by apply granting_start.
  eapply (wp_mono _ (fun _ s' => granting G pid (static_of pid s) s s')); [|by intros r s' [H _]].
  unfold session_turn. wp_step.
  eapply wp_mono; [apply wp_and; [by apply (keeps_decrypt pid f (kernel s))|apply on_session_result]|].
  intros r s1 [K1 Hr]. cbv beta in K1. assert (granting G pid (static_of pid s) s s1) as H1.
  { destruct (same_kernel _ _ K1) as [[_ S] D]. split; [apply (gains_devices G s s); [done|apply gains_refl]|]. unfold static_of. by rewrite (proj1 (S pid)). }
  destruct r as [plaintext|e]; cbv iota; [|done]. destruct (decrypt_frame f (p_session (peer_at pid s))) as [rr fs] eqn:Ed. cbn [fst] in Hr. subst rr.
  assert (forall A (m : M Service A) s1, keeps m -> granting G pid (static_of pid s) s s1 -> wp m (fun _ s' => granting G pid (static_of pid s) s s') s1) as Hk.
  { intros A m s2 Hm H2. by apply (faithful_keeps _ Hm G pid (static_of pid s) s). }
  destruct (is_chunk_frame plaintext); [by apply Hk; [keep|]|]. wp_step. wp_step.
  destruct (utf8_decode plaintext) as [text|] eqn:Et; [|done]. wp_step.
  eapply wp_mono; [apply wp_and; [by apply (keeps_draw_fresh (kernel s1))|by apply (Hk _ _ s1 keeps_draw_fresh)]|].
  intros r s2 [K2 H2]. cbv beta in K2. destruct r as [n|]; cbv iota; [|done].
  do 4 wp_step. destruct (envelope_from_json _ _ text) as [env|] eqn:Ee; [|done].
  assert (kernel s2 = kernel s) as Ks by congruence.
  destruct (mt_of (e_type env)) as [mt|] eqn:Em; [|by apply Hk; [keep|]].
  destruct mt; try (by apply Hk; [keep|]); try (by wp_step).
  - apply pair_decision_grants; [done|]. intros d key Hj Hd Hs Hkey. exists pid. split; [done|]. right.
    split; [by rewrite <-(proj2 (proj2 (kernel_same_peers _ _ Ks) pid))|]. exists f. split; [done|].
    exists plaintext, fs, text, (h_uuid4 n), (v_now s2), env, d. by split_and!.
  - apply Hk; [|done]. keep. by apply keeps_on_session.
Qed.

Lemma session_frame_grants pid f s : wp (session_frame pid f) (fun _ s' => gains (granted (EvFrame pid f) s) s s') s.
Proof.
  set (G := granted (EvFrame pid f) s). unfold session_frame. do 2 wp_step. eapply wp_mono; [apply session_turn_grants|]. fold G.
  assert (forall s1, gains G s s1 -> wp (session_over pid) (fun _ s' => gains G s s') s1) as Ho.
  { intros s1 H1. eapply wp_mono; [by apply (faithful_over pid G pid (static_of pid s1) s)|]. by intros r s2 [H2 _]. }
  intros [[|]|e] s1 H1; cbv iota; [by wp_step|by apply Ho|]. wp_step. by apply Ho.
Qed.

(** ** A handshake trusts nobody new, and a failed one changes no device *)

Definition same_devices (s0 s : Service) : Prop := devices s = devices s0.
Lemma shaking_devices pid s0 s : shaking pid s0 s -> same_devices s0 s.
Proof. by intros (_ & D & _). Qed.

(** What follows a transition that cannot fail. *)
Lemma transition_devices X pid (m : M Service unit) s0 s :
  (pid < length (v_peers s))%nat -> sess pid s = AUTHENTICATING -> X ∈ [ESTABLISHED; PAIRING] ->
  faithful m -> (forall s', wp m (fun r _ => is_ok r = true) s') -> gains (fun _ => False) s0 s ->
  wp (on_session pid (session_transition X);; m) (fun r s' => gains (fun _ => False) s0 s' /\ is_ok r = true) s.
Proof.
  intros Hp Hs HX Hm Hok Hg. wp_step.
  eapply wp_mono; [apply wp_and; [by apply wp_transition_at|by apply (faithful_transition pid X (fun _ => False) pid (static_of pid s) s0)]|].
  rewrite Hs, bool_decide_eq_true_2 by (unfold sstep; set_solver). intros r s1 [[-> _] [G1 K1]].
  apply wp_and; [|apply Hok]. eapply wp_mono; [by apply (Hm (fun _ => False) pid (static_of pid s) s0)|]. by intros r s2 [? _].
Qed.

(** [enrol] of an authenticated peer can fail only before it writes. *)
Lemma enrol_devices pid b64 s :
  (pid < length (v_peers s))%nat -> sess pid s = AUTHENTICATING ->
  wp (enrol pid b64) (fun r s' => gains (fun _ => False) s s' /\ (is_ok r = false -> same_devices s s')) s.
Proof.
  intros Hp Hs. assert (forall r s', gains (fun _ => False) s s' /\ is_ok (A := unit) r = true ->
    gains (fun _ => False) s s' /\ (is_ok r = false -> same_devices s s')) as Hend by (intros r s' [? ->]; done).
  assert (gains (fun _ => False) s s /\ same_devices s s) as [H0 _] by (split; [apply gains_refl|done]).
  unfold enrol. do 4 wp_step. destruct (get_device_by_public_key b64 (v_db s)) as [existing|] eqn:Ed; [|done].
  pose proof (device_by_public_key_trusts b64 s existing Ed) as Ht. apply wp_peer. destruct existing as [old|].
  - do 2 wp_step. destruct (if py_bool (p_device_id _) then _ else _) as [id|]; [|done].
    do 2 wp_step. destruct (if py_bool (p_device_name _) then _ else _) as [name|]; [|done].
    do 2 wp_step. destruct (add_or_update_device _ _) as [d|] eqn:Ea; [|done]. wp_step. wp_step.
    eapply wp_mono; [|apply Hend]. apply transition_devices; [by destruct s|by destruct s|set_solver|faithfully| |].
    + intros s'. wp_step. apply wp_modify. wp_step. apply wp_modify. apply wp_swallow. by apply (wp_mono _ (fun _ _ => True)).
    + intros key [?|Hk]%(add_device_gains _ _ s Ea); [by left|]. left. rewrite Hk. cbn.
      apply bind_Ok in Ed as (? & _ & [= Ef]). apply find_row_Some in Ef as [_ Hin]. by exists old.
  - eapply wp_mono; [|apply Hend]. apply transition_devices; [done|done|set_solver|faithfully| |done].
    intros s'. wp_step. apply wp_modify. wp_step. apply wp_modify. apply wp_peer. by apply wp_modify.
Qed.

(** The task up to the loop: what it may do to the devices of [s0]. *)
Definition admits {A} (s0 : Service) (r : res A) (s : Service) : Prop :=
  gains (fun _ => False) s0 s /\ (is_ok r = false -> same_devices s0 s).
Lemma same_admits {A} s0 s (r : res A) : same_devices s0 s -> admits s0 r s.
Proof. intros H. split; [|done]. by apply (gains_devices _ s0 s0 s H), gains_refl. Qed.
Lemma shaking_bind {A B} pid s0 (m : M Service A) (f : A -> M Service B) s :
  stable (shaking pid s0) m -> shaking pid s0 s -> (forall a s', shaking pid s0 s' -> wp (f a) (admits s0) s') -> wp (m ≫= f) (admits s0) s.
Proof.
  intros Hm Hs Hf. wp_step. eapply wp_mono; [by apply Hm|]. intros [a|e] s1 H1; [by apply Hf|]. by eapply same_admits, shaking_devices.
Qed.
Lemma stable_accept_remote pid s0 d : (pid < length (v_peers s0))%nat -> stable (shaking pid s0) (accept_remote pid d).
Proof. intros Hp s Hs. eapply wp_mono; [by apply (wp_accept_remote pid s0)|]. by intros r s' [? _]. Qed.

Lemma handshake_body_devices pid i fresh nc stream s :
  (pid < length (v_peers s))%nat -> wp (handshake_body identity device_id device_name pid i fresh nc stream) (admits s) s.
Proof.
  intros Hp. unfold handshake_body. assert (shaking pid s s) as S0 by (split_and!; try done; unfold before_auth; set_solver).
  apply (shaking_bind pid); [apply shaking_transition; set_solver|done|intros [] s1 S1].
  apply (shaking_bind pid); [apply shaking_transition; set_solver|done|intros [] s2 S2].
  apply (shaking_bind pid); [apply shaking_local_handshake|done|intros hs s3 S3].
  apply (shaking_bind pid); [apply keeps_shaking, keeps_exchange_init|done|intros [remote st1] s4 S4].
  apply (shaking_bind pid); [by apply stable_accept_remote|done|intros [b64 static] s5 S5].
  apply (shaking_bind pid); [apply shaking_on_session; intros fs; left; apply derive_keys_state|done|intros [] s6 S6].
  wp_step. eapply wp_mono; [apply wp_and; [by apply (shaking_transition pid s AUTHENTICATING); [set_solver|]|apply wp_transition_at; destruct S6 as [-> _]; done]|].
  intros [[]|e] s7 [S7 T7]; [|by eapply same_admits, shaking_devices]. destruct (bool_decide _); destruct T7 as [? T7]; [|done].
  assert (forall s', kernel s' = kernel s7 -> shaking pid s s' /\ sess pid s' = AUTHENTICATING) as HK.
  { intros s' K. split; [by eapply shaking_kernel|]. by rewrite (proj2 (proj2 (kernel_same_peers _ _ K) pid)). }
  apply wp_peer. do 2 wp_step. destruct (build_auth_transcript _) as [tr|]; [|by eapply same_admits, shaking_devices].
  wp_step. eapply wp_mono; [by apply (keeps_exchange_auth identity pid i tr st1 (kernel s7))|]. cbv beta.
  intros [[sg st2]|e] s8 [S8 T8]%HK; [|by eapply same_admits, shaking_devices]. do 2 wp_step.
  destruct (decode_key_json sg) as [sig|]; [|by eapply same_admits, shaking_devices]. do 2 wp_step.
  destruct (verify static tr sig); cbn [negb raise_if]; [|by eapply same_admits, shaking_devices].
  wp_step. eapply wp_mono; [apply enrol_devices; [destruct S8 as [-> _]; done|done]|].
  apply shaking_devices in S8 as D8. intros r s9 [G9 E9].
  assert (gains (fun _ => False) s s9) as G by (intros key [Ht|[]]%G9; left; unfold trusts, same_devices, devices in *; by rewrite <-D8).
  destruct r as [[]|e]; [wp_step; apply wp_modify; wp_step|]; (split; [|]); try done.
  - intros key Hk. apply G. by destruct s9.
  - intros _. unfold same_devices. by rewrite E9.
Qed.

Lemma run_handshake_devices pid i fresh nc stream s :
  (pid < length (v_peers s))%nat ->
  wp (run_handshake identity device_id device_name pid i fresh nc stream)
     (fun r s' => gains (fun _ => False) s s' /\ (r <> Ok true -> same_devices s s')) s.
Proof.
  intros Hp. unfold run_handshake. do 3 wp_step. eapply wp_mono; [by apply handshake_body_devices|].
  intros [rest|e] s1 [G1 D1]; cbv beta iota in *; [by repeat (wp_step; cbv iota)|]. specialize (D1 eq_refl).
  assert (forall (r : res bool) s2, devices s2 = devices s -> gains (fun _ => False) s s2 /\ (r <> Ok true -> same_devices s s2)) as Hend.
  { intros r s2 E. split; [|done]. by apply (gains_devices _ s s s2 E), gains_refl. }
  wp_step. eapply wp_mono; [apply (wp_within ended pid s1), within_failed|].
  intros [[]|e'] s2 [[E2 _] _]; [|apply Hend; unfold same_devices, devices in *; congruence].
  wp_step. cbv iota. wp_step. eapply wp_mono; [apply (wp_within ended pid s2), within_finally|].
  intros [[]|e'] s3 [[E3 _] _]; [wp_step|]; apply Hend; unfold same_devices, devices in *; congruence.
Qed.

(** ** Every event *)

Lemma event_trust e s : gains (granted e s) s (run_event identity device_id device_name e s).
Proof.
  assert (forall A (m : M Service A), faithful m -> gains (granted e s) s (m s).2) as Hf.
  { intros A m Hm. by apply (Hm (granted e s) 0%nat (static_of 0 s) s s), granting_start. }
  assert (forall A (m : M Service A), keeps m -> gains (granted e s) s (m s).2) as Hk by (intros; by apply Hf, faithful_keeps).
  destruct e; cbn [run_event]; try (apply Hk; auto with keeps; fail).
  - apply (gains_devices _ s s); [by destruct s|apply gains_refl].
  - apply (gains_devices _ s s); [by destruct s|apply gains_refl].
  - destruct (in_phase Handshaking pid s) eqn:Ep; [|apply gains_refl]. unfold in_phase in Ep.
    destruct (v_peers s !! pid) as [p|] eqn:E; [|done]. apply lookup_lt_Some in E.
    destruct (run_handshake_devices pid (is_initiator_of pid s) fresh local_nonce stream s E) as [H _]. intros key [?|[]]%H. by left.
  - destruct (in_phase Looping pid s); [|apply gains_refl]. apply session_frame_grants.
  - destruct (in_phase Looping pid s); [|apply gains_refl]. apply Hf, faithful_over.
  - destruct (in_phase Looping pid s); [apply Hf, faithful_over|].
    destruct (in_phase Handshaking pid s); [|apply gains_refl]. apply Hf, faithful_finally.
  - apply Hf. by apply faithful_upd_peer.
  - apply accept_pairing_grants.
  - apply Hf, faithful_reject.
  - case_match; [apply Hk; auto with keeps|apply gains_refl].
  - case_match; [apply Hk; auto with keeps|apply gains_refl].
  - case_match; [apply Hk; auto with keeps|apply gains_refl].
  - unfold remove_trusted_device, mbind, M_bind, get, lift. destruct (remove_device_by_public_key _ _) as [d|] eqn:Er; [|apply gains_refl].
    apply bind_Ok in Er as (? & _ & [= <-]). intros key' (row & Hin & Hr). left. exists row. split; [|done]. destruct s. cbn in *.
    apply list_elem_of_In, filter_In in Hin as [Hin _]. by apply list_elem_of_In.
Qed.

(** C1. Trust needs both sides.  Whatever happens to the service, in any state, a
    session becomes ESTABLISHED only through a handshake whose signature was
    verified under a key that the database already knew, or because the local
    user accepts a pairing the peer accepted, or because the peer accepts a
    pairing the local user accepted; the last two leave the peer's key in the
    database.  A key becomes trusted only by those last two, and it is the key of
    that session.  The state that records a decision of the peer is entered only
    on a frame of that peer, decrypted with its session's keys, which says ACCEPT;
    the one that records the user's, only on the user's own action; and PAIRING
    only by a handshake that authenticated the peer. *)
Theorem pairing_needs_both e s :
  let s' := run_event identity device_id device_name e s in
  (forall pid, sess pid s' = sess pid s \/ legitimate e pid s s')
  /\ (forall key, trusts key s' -> trusts key s \/ exists pid, static_of pid s = Some key /\ completing e pid s).
Proof. split; [intros pid; apply event_legitimate|apply event_trust]. Qed.

(** C2. A handshake either authenticates the peer or leaves nothing behind.  If
    the task enters the session loop, the peer signed the transcript of this very
    exchange (both static keys, both ephemeral keys, both nonces) under the key
    that the session stores for it; the session is ESTABLISHED only if the
    database knew that key, PAIRING only if not; and no key is trusted that was
    not before.  Otherwise, whatever octets the peer sent, the session ends
    DISCONNECTED or FAILED, its task is over, and the trusted devices are exactly
    the same.  No other session moves in either case. *)
Theorem handshake_authenticates pid i fresh nc stream s r s' :
  (pid < length (v_peers s))%nat -> sess pid s = DISCONNECTED ->
  run_handshake identity device_id device_name pid i fresh nc stream s = (r, s') ->
  (forall q, q <> pid -> papers q s' = papers q s /\ sess q s' = sess q s)
  /\ ((r = Ok true /\ authenticated pid s' /\ (forall key, trusts key s' -> trusts key s)
        /\ exists key, static_of pid s' = Some key
           /\ (sess pid s' = ESTABLISHED /\ trusts key s \/ sess pid s' = PAIRING /\ ~ trusts key s))
      \/ r = Ok false /\ sess pid s' ∈ [DISCONNECTED; SFAILED] /\ p_phase (peer_at pid s') = Ended /\ devices s' = devices s).
Proof.
  intros Hp Hd Hrun. pose proof (wp_elim _ _ _ _ _ (wp_run_handshake identity device_id device_name pid i fresh nc stream s Hp Hd) Hrun) as H.
  pose proof (wp_elim _ _ _ _ _ (run_handshake_devices pid i fresh nc stream s Hp) Hrun) as [G D].
  destruct H as [(-> & (A & O & key & Hk & HE1 & HP1) & Hin)|(-> & ? & ? & ?)].
  - split; [done|]. left. split; [done|]. split; [done|]. split; [by intros k [?|[]]%G|].
    exists key. split; [done|]. apply elem_of_cons in Hin as [E|E%list_elem_of_singleton]; [left; auto|right; auto].
  - split; [done|]. right. split; [done|]. split; [done|]. split; [done|]. by apply D.
Qed.
End trust.
