(* ===== verification/Registry.v ===== *)
(** * The session table holds running sessions

    [_active_sessions] maps an address to the session of that address whose task
    is in its loop.  The handshake enters a session just before the loop, the end
    of the task takes the address out, and nothing else touches the table. *)
From S2P Require Import Prelude PyStr Sha256 Json Protocol Payloads Transfer Fs Incoming Outgoing Session Bridge Db.
From S2P Require Import Identity Peers Service Sending Handshake Kernel WellFormed Pairing.

(** The entry [addr] of the table is the session [pid] of that address, and its
    task is in the loop; [busy] is a session whose task is about to enter it. *)
Definition runs_at (busy : option nat) (addr : pystr) (pid : nat) (s : Service) : Prop :=
  exists p, v_peers s !! pid = Some p /\ p_addr p = addr /\ (p_phase p = Looping \/ busy = Some pid).
Definition listed (busy : option nat) (s : Service) : Prop :=
  NoDup (v_sessions s).*1 /\ forall addr pid, aget addr (v_sessions s) = Some pid -> runs_at busy addr pid s.

(** What the table is about. *)
Definition seat_of (p : PeerSession) : phase * pystr := (p_phase p, p_addr p).
Definition register (s : Service) : list (phase * pystr) * list (pystr * nat) := (seat_of <$> v_peers s, v_sessions s).

Lemma register_at s s' pid :
  register s' = register s -> seat_of <$> v_peers s' !! pid = seat_of <$> v_peers s !! pid.
Proof. intros [= E _]. by rewrite <-!list_lookup_fmap, E. Qed.
Lemma register_listed busy s s' : register s' = register s -> listed busy s -> listed busy s'.
Proof.
  intros E [Hn H]. assert (v_sessions s' = v_sessions s) as Es by by injection E. unfold listed. rewrite Es. split; [done|].
  intros addr pid Ha. destruct (H addr pid Ha) as (p & Hp & Hr). pose proof (register_at s s' pid E) as Hs. rewrite Hp in Hs.
  destruct (v_peers s' !! pid) as [p'|] eqn:Ep; [|done]. injection Hs as Hph Had. exists p'. by rewrite Hph, Had.
Qed.

Lemma kernel_register s s' : kernel s' = kernel s -> register s' = register s.
Proof.
  intros [= Hp Hs _]. unfold register. rewrite Hs. f_equal.
  assert ((fun o => (o.1.1.2, o.1.2)) <$> (outline <$> v_peers s') = (fun o => (o.1.1.2, o.1.2)) <$> (outline <$> v_peers s)) as E by (f_equal; exact Hp).
  by rewrite <-!list_fmap_compose in E.
Qed.

(** ** Methods that leave phases, addresses and table alone *)

Definition seated {A} (m : M Service A) : Prop := forall k, stable (fun s => register s = k) m.

Section seated_rules.
Lemma stable_seated {A} (P : Service -> Prop) (m : M Service A) :
  seated m -> (forall s s', register s' = register s -> P s -> P s') -> stable P m.
Proof. intros Hm HP s Hs. eapply wp_mono; [by apply (Hm (register s))|]. intros r s' E. by apply (HP s). Qed.
Lemma seated_keeps {A} (m : M Service A) : keeps m -> seated m.
Proof. intros Hm k s <-. eapply wp_mono; [by apply (Hm (kernel s))|]. cbn. intros r s' Hk. by apply kernel_register. Qed.
Lemma seated_modify f : (forall s, register (f s) = register s) -> seated (modify f).
Proof. intros Hf k s <-. by apply wp_modify. Qed.
Lemma register_upd_peer pid f s : (forall p, seat_of (f p) = seat_of p) -> register (set_peers (alter f pid (v_peers s)) s) = register s.
Proof.
  intros Hf. unfold register. destruct s. cbn. f_equal. apply list_eq. intros q. rewrite !list_lookup_fmap.
  destruct (decide (q = pid)) as [->|]; [|by rewrite list_lookup_alter_ne]. rewrite list_lookup_alter_eq. destruct (v_peers !! pid); cbn; by rewrite ?Hf.
Qed.
Lemma seated_upd_peer pid f : (forall p, seat_of (f p) = seat_of p) -> seated (upd_peer pid f).
Proof. intros Hf. apply seated_modify. intros s. by apply register_upd_peer. Qed.
Lemma seated_on_session {A} pid (m : M FerrySession A) : seated (on_session pid m).
Proof.
  intros k s <-. unfold wp, on_session. destruct (m _) as [r fs']. by apply register_upd_peer.
Qed.
Lemma seated_bind {A B} (m : M Service A) (f : A -> M Service B) : seated m -> (forall a, seated (f a)) -> seated (m ≫= f).
Proof. intros Hm Hf k. apply stable_bind; [apply Hm|intros a; apply Hf]. Qed.
Lemma seated_try {A} (m : M Service A) p h : seated m -> (forall e, seated (h e)) -> seated (try_except m p h).
Proof. intros Hm Hh k. apply stable_try; [apply Hm|intros e; apply Hh]. Qed.
Lemma seated_swallow m : seated m -> seated (swallow m).
Proof. intros Hm k. apply stable_swallow, Hm. Qed.
Lemma seated_get {B} (f : Service -> M Service B) : (forall s, seated (f s)) -> seated (get ≫= f).
Proof. intros Hf k s Hs. wp_step. wp_step. by apply Hf. Qed.
End seated_rules.

Ltac seated1 :=
  match goal with
  | |- forall _, _ => intros ?
  | |- seated (get ≫= _) => apply seated_get
  | |- seated (_ ≫= _) => apply seated_bind
  | |- seated (try_except _ _ _) => apply seated_try
  | |- seated (swallow _) => apply seated_swallow
  | |- seated (on_session _ _) => apply seated_on_session
  | |- seated (upd_peer _ _) => apply seated_upd_peer; done
  | |- seated (modify _) => apply seated_modify; by intros []
  | |- seated (match _ with _ => _ end) => case_match
  | |- seated (let _ := _ in _) => cbv zeta
  | |- seated _ => apply seated_keeps; auto 2 with keeps; fail
  end.
Ltac seats := repeat seated1.

Section seated_methods.
Context `{HC : Crypto} `{HR : PyRepr} `{HH : Host} `{HE : Ed25519}.
Context (identity : IdentityManager) (device_id device_name : pystr).

Lemma seated_notify_session pid : seated (notify_session_change pid).
Proof. unfold notify_session_change. seats. Qed.
Lemma seated_persist pid : seated (persist_trust pid).
Proof. unfold persist_trust. seats. Qed.
Lemma seated_accept_pairing addr : seated (accept_pairing addr).
Proof. unfold accept_pairing. repeat first [seated1 | apply seated_persist | apply seated_notify_session]. Qed.
Lemma seated_reject_pairing addr : seated (reject_pairing addr).
Proof. unfold reject_pairing, disconnect_session. repeat first [seated1 | apply seated_notify_session]. Qed.
Lemma seated_turn pid f : seated (session_turn pid f).
Proof.
  unfold session_turn, on_pair_decision. repeat first [seated1 | apply seated_persist | apply seated_notify_session].
Qed.
Lemma seated_failed pid : seated (handshake_failed pid).
Proof. unfold handshake_failed. seats. Qed.
Lemma seated_loop_finally pid : seated (loop_finally pid).
Proof. unfold loop_finally. seats. Qed.

(** ** The handshake enters the session, the end of the task removes it *)

(** The session [pid] of the address [a] may be in the table. *)
Definition busy_at (pid : nat) (a : pystr) (s : Service) : Prop :=
  listed (Some pid) s /\ exists p, v_peers s !! pid = Some p /\ p_addr p = a.
(** It is not in the table, and the table is in order. *)
Definition gone (pid : nat) (s : Service) : Prop := listed None s /\ forall addr, aget addr (v_sessions s) <> Some pid.

Lemma register_busy pid a s s' : register s' = register s -> busy_at pid a s -> busy_at pid a s'.
Proof.
  intros E [H (p & Hp & Ha)]. split; [by apply (register_listed _ s)|]. pose proof (register_at s s' pid E) as Hs. rewrite Hp in Hs.
  destruct (v_peers s' !! pid) as [p'|]; [|done]. exists p'. injection Hs as _ Had. by rewrite Had.
Qed.
Lemma register_gone pid s s' : register s' = register s -> gone pid s -> gone pid s'.
Proof. intros E [H Hg]. split; [by apply (register_listed _ s)|]. injection E as _ ->. done. Qed.
Lemma busy_seated {A} pid a (m : M Service A) : seated m -> stable (busy_at pid a) m.
Proof. intros Hm. apply stable_seated; [done|]. intros s s'. apply register_busy. Qed.
Lemma gone_seated {A} pid (m : M Service A) : seated m -> stable (gone pid) m.
Proof. intros Hm. apply stable_seated; [done|]. intros s s'. apply register_gone. Qed.

Lemma listed_busy pid s : listed None s -> listed (Some pid) s.
Proof. intros [Hn H]. split; [done|]. intros addr q (p & Hp & Ha & [Hl|?])%H; [|done]. exists p. auto. Qed.
Lemma gone_set_phase pid x s : gone pid s -> gone pid (set_peers (alter (p_set_phase x) pid (v_peers s)) s).
Proof.
  intros [[Hn H] Hg]. unfold gone, listed, runs_at in *. destruct s; cbn in *. split_and!; try done.
  intros addr q Ha. destruct (H _ _ Ha) as (p & Hp & Hr). exists p. split; [|done]. rewrite list_lookup_alter_ne; [done|]. intros ->. by apply (Hg addr).
Qed.
Lemma busy_enters_loop pid a s : busy_at pid a s -> listed None (set_peers (alter (p_set_phase Looping) pid (v_peers s)) s).
Proof.
  intros [[Hn H] _]. unfold listed, runs_at in *. destruct s; cbn in *. split; [done|].
  intros addr q Ha. destruct (H _ _ Ha) as (p & Hp & Had & Hr). destruct (decide (q = pid)) as [->|Hne].
  - exists (p_set_phase Looping p). rewrite list_lookup_alter_eq, Hp. cbn. auto.
  - exists p. rewrite list_lookup_alter_ne by done. destruct Hr as [?|[= ->]]; [auto|done].
Qed.
Lemma busy_entered pid a s : busy_at pid a s -> busy_at pid a (set_sessions (aset a pid (v_sessions s)) s).
Proof.
  intros [[Hn H] (p & Hp & Ha)]. unfold busy_at, listed, runs_at in *. destruct s; cbn in *. split_and!; [by apply NoDup_aset| |eauto].
  intros addr q Hq. destruct (decide (addr = a)) as [->|Hne].
  - rewrite aget_aset_eq in Hq. injection Hq as <-. exists p. auto.
  - rewrite aget_aset_ne in Hq by done. auto.
Qed.
Lemma busy_removed pid a s : busy_at pid a s -> gone pid (set_sessions (adel a (v_sessions s)) s).
Proof.
  intros [[Hn H] (p & Hp & Ha)]. unfold gone, listed, runs_at in *. destruct s; cbn in *.
  assert (forall addr q, aget addr (adel a v_sessions) = Some q -> addr <> a /\ aget addr v_sessions = Some q) as Hd.
  { intros addr q Hq. destruct (decide (addr = a)) as [->|Hne]; [by rewrite aget_adel_eq in Hq|]. by rewrite aget_adel_ne in Hq. }
  assert (forall addr, aget addr (adel a v_sessions) <> Some pid) as Hno.
  { intros addr [Hne Hq]%Hd. destruct (H _ _ Hq) as (p' & Hp' & Had & _). congruence. }
  split_and!; [by apply NoDup_adel| |done]. intros addr q Hq. pose proof (Hno addr). destruct (Hd _ _ Hq) as [_ Hq'].
  destruct (H _ _ Hq') as (p' & Hp' & Had & [?|[= <-]]); [exists p'; auto|done].
Qed.

Lemma wp_finally_removes pid a s : busy_at pid a s -> wp (handshake_finally pid) (fun _ s' => gone pid s') s.
Proof.
  intros Hb. unfold handshake_finally. apply wp_peer.
  assert (p_addr (peer_at pid s) = a) as -> by (destruct Hb as [_ (p & Hp & <-)]; unfold peer_at; by rewrite Hp).
  wp_step. apply wp_modify. apply busy_removed in Hb. revert Hb. generalize (set_sessions (adel a (v_sessions s)) s). intros s1.
  repeat match goal with |- gone pid ?x -> wp ?m _ ?x => revert x; change (stable (gone pid) m) end.
  apply stable_bind; [apply gone_seated; seats|intros _].
  apply stable_bind; [apply gone_seated; seats|intros _]. apply stable_bind; [apply gone_seated, seated_notify_session|intros _].
  intros s2 H2. apply wp_modify. by apply gone_set_phase.
Qed.

(** The handler of the task's errors raises none itself. *)
Lemma wp_failed_ok pid s : wp (handshake_failed pid) (fun r _ => r = Ok tt) s.
Proof.
  unfold handshake_failed. apply wp_peer. wp_step.
  destruct (negb _); [|by wp_step; apply wp_modify]. wp_step. apply (wp_mono _ (fun _ _ => True)); [done|]. intros r s1 _. by apply wp_modify.
Qed.
Lemma wp_failed_busy pid a s : busy_at pid a s -> wp (handshake_failed pid) (fun r s' => r = Ok tt /\ busy_at pid a s') s.
Proof.
  intros Hb. apply wp_and; [apply wp_failed_ok|by apply busy_seated; [apply seated_failed|]].
Qed.
Lemma wp_over_removes pid a s : busy_at pid a s -> wp (session_over pid) (fun _ s' => listed None s') s.
Proof.
  intros Hb. unfold session_over. wp_step. wp_step.
  eapply wp_mono; [by apply (busy_seated pid a), Hb; apply seated_loop_finally|]. cbn.
  assert (forall s1, busy_at pid a s1 -> wp (handshake_finally pid) (fun _ s' => listed None s') s1) as Hf.
  { intros s1 H1. eapply wp_mono; [by apply (wp_finally_removes _ a)|]. by intros r s2 [? _]. }
  intros [[]|e] s1 H1; [by apply Hf|]. eapply wp_mono; [by apply wp_failed_busy|]. intros r s2 [-> H2]. by apply Hf.
Qed.

(** A method that ends with the session in its loop, or fails before. *)
Definition enters {A} (pid : nat) (a : pystr) (m : M Service A) : Prop := forall s, busy_at pid a s ->
  wp m (fun r s' => match r with Ok _ => listed None s' | Err _ => busy_at pid a s' end) s.
Lemma enters_bind {A B} pid a (m : M Service A) (f : A -> M Service B) :
  stable (busy_at pid a) m -> (forall x, enters pid a (f x)) -> enters pid a (m ≫= f).
Proof. intros Hm Hf s Hs. wp_step. eapply wp_mono; [by apply Hm|]. intros [x|e] s1 H1; [by apply Hf|done]. Qed.

Lemma busy_peer {B} pid a (f : PeerSession -> M Service B) :
  (forall p, p_addr p = a -> stable (busy_at pid a) (f p)) -> stable (busy_at pid a) (peer pid ≫= f).
Proof.
  intros Hf s Hs. apply wp_peer. apply Hf; [|done]. destruct Hs as [_ (p & Hp & <-)]. unfold peer_at. by rewrite Hp.
Qed.
Lemma busy_enter pid a : stable (busy_at pid a) (modify (fun s => set_sessions (aset a pid (v_sessions s)) s)).
Proof. intros s Hs. by apply wp_modify, busy_entered. Qed.

Lemma busy_bind {A B} pid a (m : M Service A) (f : A -> M Service B) :
  seated m -> (forall x, stable (busy_at pid a) (f x)) -> stable (busy_at pid a) (m ≫= f).
Proof. intros Hm Hf. apply stable_bind; [by apply busy_seated|done]. Qed.

Lemma busy_enrol pid a static_b64 : stable (busy_at pid a) (enrol pid static_b64).
Proof.
  unfold enrol. apply busy_bind; [by intros k s <-|intros s]. apply busy_bind; [seats|intros existing].
  apply busy_peer. intros p <-. destruct existing as [old|].
  - repeat (apply busy_bind; [solve [seats]|intros ?]). apply stable_bind; [apply busy_enter|intros _]. apply busy_seated. seats.
  - apply busy_bind; [seats|intros _]. apply stable_bind; [apply busy_enter|intros _]. apply busy_seated. seats.
Qed.

Lemma enters_handshake_body pid a i fresh nc stream :
  enters pid a (handshake_body identity device_id device_name pid i fresh nc stream).
Proof.
  unfold handshake_body, exchange_init, accept_remote, exchange_auth, expect, device_by_key.
  repeat (apply enters_bind; [first [apply busy_enrol | by apply busy_seated; repeat first [seated1 | apply seated_keeps; by keep]]
                             |intros ?; try match goal with x : (_ * _)%type |- _ => destruct x end]).
  intros s Hs. wp_step. apply wp_modify. wp_step. by apply (busy_enters_loop _ a).
Qed.

Lemma wp_handshake_listed pid a i fresh nc stream s : busy_at pid a s ->
  wp (run_handshake identity device_id device_name pid i fresh nc stream) (fun _ s' => listed None s') s.
Proof.
  intros Hb. unfold run_handshake. do 3 wp_step. eapply wp_mono; [by apply (enters_handshake_body pid a)|].
  intros [rest|e] s1 H1; cbv beta iota in *; [by repeat (wp_step; cbv iota)|]. wp_step. eapply wp_mono; [by apply wp_failed_busy|].
  intros r s2 [-> H2]. wp_step. cbv iota. wp_step. eapply wp_mono; [by apply (wp_finally_removes _ a)|]. intros [[]|e'] s3 [H3 _]; [by wp_step|done].
Qed.
Lemma wp_frame_listed pid a f s : busy_at pid a s -> listed None s -> wp (session_frame pid f) (fun _ s' => listed None s') s.
Proof.
  intros Hb Hl. unfold session_frame. do 2 wp_step.
  eapply wp_mono; [apply wp_and; [by apply (busy_seated pid a), Hb; apply seated_turn|by apply (stable_seated _ _ (seated_turn pid f) (register_listed None))]|].
  cbn. intros [[|]|e] s1 [H1 L1]; [by wp_step|by apply (wp_over_removes _ a)|]. wp_step. by apply (wp_over_removes _ a).
Qed.

Lemma busy_of pid p s : listed None s -> v_peers s !! pid = Some p -> busy_at pid (p_addr p) s.
Proof. intros Hl Hp. split; [by apply listed_busy|eauto]. Qed.
Lemma listed_connect i addr s : listed None s -> listed None (set_peers (v_peers s ++ [new_peer i addr]) s).
Proof.
  intros [Hn H]. unfold listed, runs_at in *. destruct s; cbn in *. split; [done|]. intros a pid (p & Hp & Hr)%H. exists p. split; [|done].
  by apply lookup_app_l_Some.
Qed.

(** ** Every event *)

Lemma seated_listed {A} (m : M Service A) s : seated m -> listed None s -> listed None (m s).2.
Proof. intros Hm Hs. by apply (stable_seated _ _ Hm (register_listed None)). Qed.
Lemma listed_event e s : listed None s -> listed None (run_event identity device_id device_name e s).
Proof.
  intros Hl. assert (forall A (m : M Service A), keeps m -> listed None (m s).2) as Hk.
  { intros A m Hm. by apply seated_listed; [apply seated_keeps|]. }
  assert (forall x q (m : M Service unit), (forall a, busy_at q a s -> wp m (fun _ s' => listed None s') s) ->
    listed None (if in_phase x q s then (m s).2 else s)) as Hq.
  { intros x q m Hm. unfold in_phase. destruct (v_peers s !! q) as [p|] eqn:Ep; [|done]. case_match; [|done]. by apply (Hm (p_addr p)), busy_of. }
  destruct e; cbn [run_event]; try (apply Hk; auto with keeps; fail).
  - by apply (register_listed None s); [by destruct s|].
  - by apply listed_connect.
  - unfold in_phase. destruct (v_peers s !! pid) as [p|] eqn:Ep; [|done]. case_match; [|done]. by apply (wp_handshake_listed pid (p_addr p)), busy_of.
  - apply Hq. intros a Ha. by apply (wp_frame_listed _ a).
  - apply Hq. intros a Ha. by apply (wp_over_removes _ a).
  - destruct (in_phase Looping pid s) eqn:El.
    + pose proof (Hq Looping pid (session_over pid)) as H. rewrite El in H. apply H. intros a Ha. by apply (wp_over_removes _ a).
    + apply Hq. intros a Ha. eapply wp_mono; [by apply (wp_finally_removes _ a)|]. by intros r s' [? _].
  - by apply seated_listed; [apply seated_upd_peer; intros []|].
  - by apply seated_listed; [apply seated_accept_pairing|].
  - by apply seated_listed; [apply seated_reject_pairing|].
  - case_match; [apply Hk; auto with keeps|done].
  - case_match; [apply Hk; auto with keeps|done].
  - case_match; [apply Hk; auto with keeps|done].
  - unfold remove_trusted_device, mbind, M_bind, get, lift. destruct (remove_device_by_public_key _ _); [by apply (register_listed None s); [by destruct s|]|done].
Qed.

(** C7. The session table holds running sessions.  After any events whatever it
    has one entry for an address and none twice for a session, and an entry is the
    session that was opened for that address, whose task is in the session loop:
    what the user accepts, sends to or disconnects by its address is never a
    session that has ended or whose peer has not been authenticated yet. *)
Theorem registered_sessions_run world d bridge now clock es :
  let s := fold_left (fun s e => run_event identity device_id device_name e s) es (new_service world d bridge now clock) in
  NoDup (v_sessions s).*1 /\ NoDup (v_sessions s).*2
  /\ Forall (fun e => in_phase Looping e.2 s = true /\ p_addr (peer_at e.2 s) = e.1) (v_sessions s).
Proof.
  intros s. assert (listed None s) as [Hn H].
  { subst s. assert (listed None (new_service world d bridge now clock)) as H0 by (split; [constructor|done]). revert H0.
    generalize (new_service world d bridge now clock). induction es as [|e es IH]; intros s Hs; [done|]. by apply IH, listed_event. }
  assert (Forall (fun e => in_phase Looping e.2 s = true /\ p_addr (peer_at e.2 s) = e.1) (v_sessions s)) as Hf.
  { apply Forall_forall. intros [addr pid] Hin. apply aget_In in Hin; [|done]. destruct (H _ _ Hin) as (p & Hp & Had & [Hl|?]); [|done].
    unfold in_phase, peer_at. cbn. by rewrite Hp, Hl. }
  split_and!; [done| |done]. rewrite Forall_forall in Hf. apply NoDup_fmap_2_strong; [|by eapply NoDup_fmap_1].
  intros [a1 p1] [a2 p2] [_ H1]%Hf [_ H2]%Hf E. cbn in *. congruence.
Qed.

(** ** Sessions that are not in their loop *)

Definition idle (pid : nat) (s : Service) : Prop := in_phase Looping pid s = false.
Lemma register_idle pid s s' : register s' = register s -> idle pid s -> idle pid s'.
Proof.
  intros E. apply (register_at s s' pid) in E. unfold idle, in_phase. destruct (v_peers s' !! pid), (v_peers s !! pid); try done. by injection E as ->.
Qed.
Lemma idle_seated {A} pid (m : M Service A) : seated m -> stable (idle pid) m.
Proof. intros Hm. apply stable_seated; [done|]. intros s s'. apply register_idle. Qed.
Lemma wp_finally_idle pid q s : idle q s \/ q = pid -> wp (handshake_finally pid) (fun r s' => r = Ok tt -> idle q s') s.
Proof.
  intros Hq. unfold handshake_finally. apply wp_peer. wp_step. apply wp_modify.
  assert (forall s1, idle q s1 \/ q = pid -> idle q (set_peers (alter (p_set_phase Ended) pid (v_peers s1)) s1)) as Hend.
  { intros s1 H1. unfold idle, in_phase in *. destruct s1; cbn in *. destruct (decide (q = pid)) as [->|Hne].
    - rewrite list_lookup_alter_eq. by destruct (v_peers !! pid).
    - rewrite list_lookup_alter_ne by done. by destruct H1. }
  assert (forall A (m : M Service A), seated m -> stable (fun s => idle q s \/ q = pid) m) as Hm.
  { intros A m Hm. apply stable_seated; [done|]. intros s1 s2 E [?|?]; [left; by apply (register_idle q s1)|by right]. }
  assert (idle q (set_sessions (adel (p_addr (peer_at pid s)) (v_sessions s)) s) \/ q = pid) as H1 by by destruct s. revert H1.
  generalize (set_sessions (adel (p_addr (peer_at pid s)) (v_sessions s)) s). intros s1 H1. wp_step.
  eapply wp_mono; [apply Hm, H1; seats|]. cbn. intros [[]|e] s2 H2; [|done]. wp_step. eapply wp_mono; [apply Hm, H2; seats|].
  cbn. intros [[]|e] s3 H3; [|done]. wp_step. eapply wp_mono; [apply Hm, H3; apply seated_notify_session|]. cbn.
  intros [[]|e] s4 H4; [|done]. apply wp_modify. intros _. by apply Hend.
Qed.
Lemma wp_over_idle pid q s :
  (pid < length (v_peers s))%nat -> idle q s \/ q = pid -> wp (session_over pid) (fun _ s' => idle q s') s.
Proof.
  intros Hp Hq. set (P s := (pid < length (v_peers s))%nat /\ (idle q s \/ q = pid)).
  assert (forall A (m : M Service A), seated m -> stable P m) as Hm.
  { intros A m Hm. apply stable_seated; [done|]. intros s1 s2 E [Hl H1]. split.
    - pose proof (f_equal (fun k => length k.1) E) as El. cbn in El. rewrite !length_fmap in El. lia.
    - destruct H1; [left; by apply (register_idle q s1)|by right]. }
  assert (forall s1, P s1 -> wp (handshake_finally pid) (fun _ s' => idle q s') s1) as Hf.
  { intros s1 [Hl H1]. eapply wp_mono; [apply wp_and; [by apply (wp_finally_ends pid s1)|by apply wp_finally_idle]|]. cbn.
    intros r s2 [[-> _] H2]. by apply H2. }
  unfold session_over. do 2 wp_step. eapply wp_mono; [apply (Hm _ (loop_finally pid)); [apply seated_loop_finally|by split]|]. cbn.
  intros [[]|e] s1 H1; [by apply Hf|]. eapply wp_mono; [apply wp_and; [apply wp_failed_ok|by apply (Hm _ _ (seated_failed pid))]|].
  intros r s2 [-> H2]. by apply Hf.
Qed.

(** No event but that of its own task lets a session into the loop. *)
Definition spontaneous (e : event) : Prop := match e with EvHandshake _ _ _ _ => False | _ => True end.

Lemma in_phase_lt x pid s : in_phase x pid s = true -> (pid < length (v_peers s))%nat.
Proof. unfold in_phase. destruct (v_peers s !! pid) eqn:E; [|done]. intros _. by eapply lookup_lt_Some. Qed.
Lemma wp_finally_idle_ok pid q s :
  (pid < length (v_peers s))%nat -> idle q s \/ q = pid -> wp (handshake_finally pid) (fun _ s' => idle q s') s.
Proof.
  intros Hl Hq. eapply wp_mono; [apply wp_and; [by apply (wp_finally_ends pid s)|by apply wp_finally_idle]|].
  intros r s2 [[-> _] H2]. by apply H2.
Qed.
Lemma wp_frame_idle pid f q s : (pid < length (v_peers s))%nat -> idle q s -> wp (session_frame pid f) (fun _ s' => idle q s') s.
Proof.
  intros Hl Hq. unfold session_frame. do 2 wp_step.
  assert (stable (fun s1 => (pid < length (v_peers s1))%nat /\ idle q s1) (session_turn pid f)) as Hm.
  { apply stable_seated; [apply seated_turn|]. intros s1 s2 E [H1 H2]. split; [|by apply (register_idle q s1)].
    pose proof (f_equal (fun k => length k.1) E) as El. cbn in El. rewrite !length_fmap in El. lia. }
  eapply wp_mono; [by apply Hm|]. cbn. intros [[|]|e] s1 [H1 H2]; [by wp_step| |wp_step]; apply wp_over_idle; auto.
Qed.

(** What a cancelled task does, and what a cancellation does to the others. *)
Lemma cancelled_idle pid q s : idle q s \/ q = pid -> idle q (run_event identity device_id device_name (EvCancelled pid) s).
Proof.
  intros Hq. cbn [run_event]. destruct (in_phase Looping pid s) eqn:El.
  - apply wp_over_idle; [by eapply in_phase_lt|done].
  - destruct (in_phase Handshaking pid s) eqn:Eh; [|by destruct Hq as [?| ->]].
    apply wp_finally_idle_ok; [by eapply in_phase_lt|done].
Qed.
Lemma idle_event e q s : spontaneous e -> idle q s -> idle q (run_event identity device_id device_name e s).
Proof.
  intros Hs Hq.
  assert (forall A (m : M Service A), seated m -> idle q (m s).2) as Hm by (intros A m Hm; by apply (idle_seated q m Hm)).
  assert (forall A (m : M Service A), keeps m -> idle q (m s).2) as Hk by (intros A m HA; by apply Hm, seated_keeps).
  assert (forall s', register s' = register s -> idle q s') as Hr by (intros s' E; by apply (register_idle q s)).
  destruct e; try done; try (by apply cancelled_idle; left); cbn [run_event]; try (apply Hk; auto with keeps; fail).
  - apply Hr. by destruct s.
  - unfold idle, in_phase in *. destruct s; cbn in *. destruct (decide (q < length v_peers)%nat) as [?|?].
    + by rewrite lookup_app_l.
    + rewrite lookup_app_r by lia. by destruct (q - length v_peers)%nat.
  - case_match; [|done]. apply (wp_frame_idle pid); [by eapply in_phase_lt|done].
  - case_match; [|done]. apply (wp_over_idle pid); [by eapply in_phase_lt|by left].
  - apply Hm, seated_upd_peer. by intros [].
  - apply Hm, seated_accept_pairing.
  - apply Hm, seated_reject_pairing.
  - case_match; [apply Hk; auto with keeps|done].
  - case_match; [apply Hk; auto with keeps|done].
  - case_match; [apply Hk; auto with keeps|done].
  - unfold remove_trusted_device, mbind, M_bind, get, lift. destruct (remove_device_by_public_key _ _); [apply Hr; by destruct s|done].
Qed.
End seated_methods.
