(* ===== verification/Daemon.v ===== *)
(** * The daemon: [FerryService] with its discovery and its local interface

    The lifecycle of the service, what it offers to the local interface (the
    instance of [UiService]), the coroutines that the interface schedules, and
    all of it as a transition system.  Whatever the local clients send, the
    tables of the service go only through the events of [Handshake]. *)
From S2P Require Import Prelude PyStr Sha256 Json Protocol Payloads Transfer Fs Incoming Outgoing Session Bridge Config Db.
From S2P Require Import Identity Discovery Peers Service Sending Handshake Ipc Kernel Pairing Trust Registry.

(** ** The service as a whole *)

(** Where the one call of [stop] is: waiting for the connections of the listener,
    for those of the local interface, or returned. *)
Inductive stop_phase := Serving | DrainPeers | DrainClients | Stopped.
#[export] Instance stop_phase_dec : EqDecision stop_phase.
Proof. solve_decision. Defined.

Record FerryService := {
  fs_core : Service;
  fs_config : FerryConfig;
  fs_discovery : DiscoveryManager;
  fs_public_key : pystr;           (** [identity.public_key_b64] *)
  fs_running : bool;               (** [_is_running] *)
  fs_server : bool;                (** [_server] is not [None] *)
  fs_ipc : bool;                   (** that of the local interface is not *)
  fs_stop : stop_phase;
  fs_cancelled : list nat          (** sessions whose task was cancelled and has not run since *)
}.
Definition set_core (x : Service) (f : FerryService) : FerryService :=
  {| fs_core := x; fs_config := fs_config f; fs_discovery := fs_discovery f; fs_public_key := fs_public_key f;
     fs_running := fs_running f; fs_server := fs_server f; fs_ipc := fs_ipc f; fs_stop := fs_stop f; fs_cancelled := fs_cancelled f |}.
Definition set_discovery (x : DiscoveryManager) (f : FerryService) : FerryService :=
  {| fs_core := fs_core f; fs_config := fs_config f; fs_discovery := x; fs_public_key := fs_public_key f;
     fs_running := fs_running f; fs_server := fs_server f; fs_ipc := fs_ipc f; fs_stop := fs_stop f; fs_cancelled := fs_cancelled f |}.
Definition set_running (running server ipc : bool) (f : FerryService) : FerryService :=
  {| fs_core := fs_core f; fs_config := fs_config f; fs_discovery := fs_discovery f; fs_public_key := fs_public_key f;
     fs_running := running; fs_server := server; fs_ipc := ipc; fs_stop := fs_stop f; fs_cancelled := fs_cancelled f |}.
Definition set_stop (x : stop_phase) (f : FerryService) : FerryService :=
  {| fs_core := fs_core f; fs_config := fs_config f; fs_discovery := fs_discovery f; fs_public_key := fs_public_key f;
     fs_running := fs_running f; fs_server := fs_server f; fs_ipc := fs_ipc f; fs_stop := x; fs_cancelled := fs_cancelled f |}.
Definition set_cancelled (x : list nat) (f : FerryService) : FerryService :=
  {| fs_core := fs_core f; fs_config := fs_config f; fs_discovery := fs_discovery f; fs_public_key := fs_public_key f;
     fs_running := fs_running f; fs_server := fs_server f; fs_ipc := fs_ipc f; fs_stop := fs_stop f; fs_cancelled := x |}.
Definition on_core {A} (m : M Service A) : M FerryService A := fun f =>
  let '(r, x) := m (fs_core f) in (r, set_core x f).

(** The listener of the local interface, among those of the discovery. *)
Definition ipc_listener : nat := 0.

Section daemon.
Context `{HC : Crypto} `{HR : PyRepr} `{HH : Host} `{HI : IpcHost}.

(** ** What the local interface calls *)

(** The arguments are values of the wire: a key of a table may be of any type. *)
Definition keyed (j : json) (found : pystr -> M Service unit) : M Service unit :=
  k ← lift (as_key j); match k with None => mret tt | Some k => found k end.

Definition accept_batch_of (remote_addr batch_id : json) : M Service unit :=
  keyed batch_id (fun id =>
    s ← get;
    if bool_decide (is_Some (aget id (v_batches s))) then keyed remote_addr (fun addr => accept_batch addr id) else mret tt).
Definition accept_transfer_of (remote_addr transfer_id : json) : M Service unit :=
  keyed transfer_id (fun tid =>
    s ← get;
    if bool_decide (is_Some (aget tid (v_incoming s)) \/ is_Some (aget tid (v_batches s)))
    then keyed remote_addr (fun addr => accept_transfer addr tid) else mret tt).
(** What is rejected leaves its table before the address is looked at. *)
Definition reject_batch_of (remote_addr batch_id : json) : M Service unit :=
  keyed batch_id (fun id =>
    match as_key remote_addr with
    | Ok (Some addr) => reject_batch addr id
    | r => s ← get;
           pop_batch id;;
           if bool_decide (is_Some (aget id (v_batches s))) then lift r;; mret tt else mret tt
    end).
Definition reject_transfer_of (remote_addr transfer_id : json) : M Service unit :=
  keyed transfer_id (fun tid =>
    match as_key remote_addr with
    | Ok (Some addr) => reject_transfer addr tid
    | r => s ← get;
           pop_incoming tid;;
           if bool_decide (is_Some (aget tid (v_incoming s))) then lift r;; mret tt
           else if bool_decide (is_Some (aget tid (v_batches s))) then pop_batch tid;; lift r;; mret tt
           else mret tt
    end).
Definition cancel_transfer_of (transfer_id reason : json) : M Service bool :=
  k ← lift (as_key transfer_id);
  match k with None => mret false | Some tid => cancel_transfer tid reason end.
(** A key is a base64 text of 43 characters, which no number equals. *)
Definition remove_device_of (public_key : json) : M Service unit :=
  k ← lift (db_key public_key);
  match k with None => mret tt | Some key => remove_trusted_device key end.

(** A table of ids of objects, with the objects. *)
Definition objects {A} (table : list (pystr * nat)) (l : list A) : list (pystr * A) :=
  omap (fun e : pystr * nat => pair e.1 <$> l !! e.2) table.

#[export] Instance ferry_service : UiService FerryService := {
  svc_accept_transfer a t := on_core (accept_transfer_of a t);
  svc_reject_transfer a t := on_core (reject_transfer_of a t);
  svc_cancel_transfer t r := on_core (cancel_transfer_of t r);
  svc_accept_batch a b := on_core (accept_batch_of a b);
  svc_reject_batch a b := on_core (reject_batch_of a b);
  svc_accept_pairing a := on_core (keyed a accept_pairing);
  svc_reject_pairing a := on_core (keyed a reject_pairing);
  svc_discard t := on_core (discard_interrupted_transfer t);
  svc_remove_device k := on_core (remove_device_of k);
  svc_list_transfers limit f := n ← ih_sql_limit limit; Ok (list_transfers n (v_db (fs_core f)));
  svc_list_devices f := list_devices (v_db (fs_core f));
  svc_discovered_devices f := get_devices (fs_discovery f);
  svc_sessions f := omap (fun e : pystr * nat => (fun p => (e.1, (e.2, p))) <$> v_peers (fs_core f) !! e.2) (v_sessions (fs_core f));
  svc_incoming f := objects (v_incoming (fs_core f)) (v_xfers (fs_core f));
  svc_outgoing f := objects (map (fun e : pystr * (nat * nat) => (e.1, e.2.2)) (v_outgoing (fs_core f))) (v_sends (fs_core f));
  svc_config := fs_config;
  svc_public_key := fs_public_key;
  svc_now f := v_now (fs_core f)
}.

(** [established_sessions] *)
Definition established_sessions (f : FerryService) : list (pystr * PeerSession) :=
  omap (fun e : pystr * (nat * PeerSession) =>
          if bool_decide (s_state (p_session e.2.2) = ESTABLISHED) then Some (e.1, e.2.2) else None) (svc_sessions f).
End daemon.

(** ** What is left of a crash *)

Section leftovers.
Context `{HH : Host}.

(** A part file that [start] leaves: its transfer can still be resumed, or the
    database cannot be asked. *)
Definition kept_part (s : Service) (p : path) : bool :=
  match get_interrupted_transfer (path_stem (path_name p)) (v_db s) with
  | Ok (Some info) => r_expire_at info >? v_now s
  | Ok None => false
  | Err _ => true
  end.
Definition is_file_in (w : world) (p : path) : Prop := exists c, w_fs w !! p = Some (NFile c).

Lemma wp_fs_call {A} (m : M world A) (Q : res A -> Service -> Prop) s :
  wp m (fun r w => Q r (set_world w s)) (v_world s) -> wp (fs_call m) Q s.
Proof. unfold wp, fs_call. by destruct (m _). Qed.

Definition cleaned_at (s : Service) (p : path) (s' : Service) : Prop :=
  exists w', s' = set_world w' s /\ same (v_world s) w'
  /\ (w_fs w' = w_fs (v_world s)
      \/ kept_part s p = false /\ is_file_in (v_world s) p /\ w_fs w' = delete p (w_fs (v_world s)))
  /\ (calm (v_world s) -> kept_part s p = false -> is_file_in (v_world s) p -> w_fs w' !! p = None).

Lemma wp_unlink_part p s : p <> [] -> kept_part s p = false -> wp (fs_call (unlink p)) (fun _ s' => cleaned_at s p s') s.
Proof.
  intros Hp Hk. apply wp_fs_call. apply wp_syscall.
  - intros e w' Hs Hf He. exists w'. split_and!; [done..|by left|]. intros Hc _ [c E].
    destruct He as [He|[? _]]; [|done]. by rewrite (fs_get_ne _ _ Hp), E in He.
  - intros [] w' Hs He. rewrite (fs_get_ne _ _ Hp) in He. destruct (w_fs (v_world s) !! p) as [[|c]|] eqn:E; try done.
    injection He as He. exists w'. split_and!; [done..|right|].
    + split_and!; [done| |by rewrite He]. by exists c.
    + intros _ _ _. rewrite <-He. apply lookup_delete_eq.
Qed.
Lemma wp_clean_file p s : p <> [] -> wp (swallow (clean_file p)) (fun r s' => r = Ok tt /\ cleaned_at s p s') s.
Proof.
  intros Hp. assert (kept_part s p = true -> cleaned_at s p s) as Hkeep.
  { intros Hk. exists (v_world s). rewrite Hk. split_and!; try done; [by destruct s|by left]. }
  unfold clean_file. wp_step. wp_step. wp_step. wp_step. wp_step. unfold kept_part in Hkeep. pose proof (wp_unlink_part p s Hp) as Hun.
  unfold kept_part in Hun. destruct (get_interrupted_transfer _ _) as [[info|]|e]; [|split; [done|by apply Hun]|split; [done|by apply Hkeep]].
  destruct (_ >? _); [wp_step; split; [done|by apply Hkeep]|]. eapply wp_mono; [by apply Hun|]. done.
Qed.

(** After some of the files in [l] were looked at. *)
Definition cleaned (s : Service) (l : list path) (s' : Service) : Prop :=
  exists w', s' = set_world w' s /\ same (v_world s) w'
  /\ (forall q, w_fs w' !! q = w_fs (v_world s) !! q
                \/ q ∈ l /\ kept_part s q = false /\ is_file_in (v_world s) q /\ w_fs w' !! q = None)
  /\ (calm (v_world s) -> forall q, q ∈ l -> kept_part s q = false -> is_file_in (v_world s) q -> w_fs w' !! q = None).

Lemma cleaned_nil s : cleaned s [] s.
Proof. exists (v_world s). split_and!; [by destruct s|done|by left|by intros _ q ?%elem_of_nil]. Qed.
Lemma cleaned_cons s p l s1 s2 : cleaned_at s p s1 -> cleaned s1 l s2 -> cleaned s (p :: l) s2.
Proof.
  intros (w1 & -> & S1 & F1 & C1) (w2 & -> & S2 & F2 & C2).
  assert (v_world (set_world w1 s) = w1) as Ew by by destruct s. rewrite Ew in *.
  assert (forall q, kept_part (set_world w1 s) q = kept_part s q) as Hk by by destruct s.
  assert (forall q, is_file_in w1 q -> is_file_in (v_world s) q) as Hfile.
  { intros q [c Hc]. exists c. destruct F1 as [<-|(_ & _ & E)]; [done|]. rewrite E in Hc. by apply lookup_delete_Some in Hc as [_ ?]. }
  assert (forall q, w_fs w1 !! q = None -> w_fs w2 !! q = None) as Hgone.
  { intros q Hq. destruct (F2 q) as [->|(_ & _ & _ & ?)]; done. }
  exists w2. split_and!; [by destruct s|by eapply same_trans| |].
  - intros q. destruct (F2 q) as [->|(Hq & Hkq & Hf & ?)]; [|right; rewrite Hk in Hkq; split_and!; auto; by apply list_elem_of_further].
    destruct F1 as [->|(Hkp & Hf & E)]; [by left|]. rewrite E. destruct (decide (p = q)) as [<-|Hne].
    + right. split_and!; try done; [by apply list_elem_of_here|apply lookup_delete_eq].
    + left. by apply lookup_delete_ne.
  - intros Hc q Hq Hkq Hf. destruct (decide (q = p)) as [->|Hne]; [by apply Hgone, C1|].
    apply elem_of_cons in Hq as [?|Hq]; [done|]. apply C2; [by apply S1|done|by rewrite Hk|].
    destruct Hf as [c Hf]. exists c. destruct F1 as [->|(_ & _ & ->)]; [done|]. by rewrite lookup_delete_ne.
Qed.
Lemma cleaned_world s w1 l s2 :
  same (v_world s) w1 -> w_fs w1 = w_fs (v_world s) -> cleaned (set_world w1 s) l s2 -> cleaned s l s2.
Proof.
  intros S1 F1 (w2 & -> & S2 & F2 & C2). assert (v_world (set_world w1 s) = w1) as Ew by by destruct s. rewrite Ew in *.
  assert (forall q, kept_part (set_world w1 s) q = kept_part s q) as Hk by by destruct s.
  assert (forall q, is_file_in w1 q <-> is_file_in (v_world s) q) as Hf by (intros q; unfold is_file_in; by rewrite F1).
  exists w2. split_and!; [by destruct s|by eapply same_trans| |].
  - intros q. rewrite <-F1, <-Hf, <-Hk. apply F2.
  - intros Hc q. rewrite <-Hf, <-Hk. by apply C2, S1.
Qed.
Lemma wp_clean_files l : forall s, Forall (fun p => p <> []) l ->
  wp (iterM (fun f => swallow (clean_file f)) l) (fun r s' => r = Ok tt /\ cleaned s l s') s.
Proof.
  induction l as [|p l IH]; intros s Hl; cbn [iterM]; [wp_step; split; [done|apply cleaned_nil]|]. inversion_clear Hl as [|? ? Hp Hl'].
  wp_step. eapply wp_mono; [by apply wp_clean_file|]. intros r s1 [-> H1]. eapply wp_mono; [by apply IH|].
  intros r s2 [-> H2]. split; [done|]. by eapply cleaned_cons.
Qed.

Lemma glob_part_spec w q : glob_part w = (Ok (List.filter in_staging (map_to_list (w_fs w)).*1), w)
  /\ (q ∈ List.filter in_staging (map_to_list (w_fs w)).*1 <-> in_staging q = true /\ is_Some (w_fs w !! q)).
Proof.
  split; [done|]. rewrite list_elem_of_In, filter_In, <-list_elem_of_In, list_elem_of_fmap. split.
  - intros [((?, n) & -> & Hin) Hp]. split; [done|]. apply elem_of_map_to_list in Hin. eauto.
  - intros [Hp [n Hn]]. split; [|done]. exists (q, n). split; [done|]. by apply elem_of_map_to_list.
Qed.
Lemma in_staging_nonempty q : in_staging q = true -> q <> [].
Proof. unfold in_staging. intros H. bool_prop. tauto. Qed.

Lemma last_dot_app a b i : last_dot b = Some i -> last_dot (a ++ b) = Some (length a + i)%nat.
Proof. intros H. induction a as [|c a IH]; [done|]. cbn. by rewrite IH. Qed.
(** The stem of the name of a part file is the id. *)
Lemma path_stem_part tid : tid <> [] -> path_stem (tid ++ PART) = tid.
Proof.
  intros H. unfold path_stem. rewrite (last_dot_app tid PART 0) by done. rewrite length_app, Nat.add_0_r. change (length PART) with 5%nat.
  destruct tid as [|c tid]; [done|]. rewrite (proj2 (Nat.ltb_lt 0 _)), (proj2 (Nat.ltb_lt (S _) _)) by (cbn; lia). cbn [andb].
  by apply take_app_length.
Qed.

(** How the cleaning ends. *)
Definition clean_post (s : Service) (r : res unit) (s' : Service) : Prop :=
  exists w', s' = set_world w' s
  /\ (forall q, w_fs w' !! q = w_fs (v_world s) !! q
                \/ in_staging q = true /\ kept_part s q = false /\ is_file_in (v_world s) q /\ w_fs w' !! q = None)
  /\ (forall tid info, tid <> [] -> get_interrupted_transfer tid (v_db s) = Ok (Some info) -> v_now s < r_expire_at info ->
        w_fs w' !! (staging_dir ++ [tid ++ PART]) = w_fs (v_world s) !! (staging_dir ++ [tid ++ PART]))
  /\ (calm (v_world s) -> is_Some (fs_get (w_fs (v_world s)) staging_dir) ->
        r = Ok tt /\ forall q, in_staging q = true -> kept_part s q = false -> is_file_in (v_world s) q -> w_fs w' !! q = None).

(** C18. Starting removes only what cannot be resumed: whatever calls fail, the
    cleaning changes nothing but the file system, and there it removes at most
    files in the staging directory that end in [.part] and whose transfer has no
    record, or an expired one; the part of a resumable transfer stays.  If no
    call fails, all of those files are gone. *)
Theorem start_keeps_resumable s : wp clean_staging (clean_post s) s.
Proof.
  unfold clean_staging. wp_step. apply wp_fs_call.
  assert (forall w', same (v_world s) w' -> w_fs w' = w_fs (v_world s) -> cleaned s [] (set_world w' s)) as Hnil.
  { intros w' Hs Hf. exists w'. split_and!; [by destruct s|done|intros q; left; by rewrite Hf|by intros _ q ?%elem_of_nil]. }
  assert (forall r l s', cleaned s l s' -> Forall (fun q => in_staging q = true) l ->
    (calm (v_world s) -> is_Some (fs_get (w_fs (v_world s)) staging_dir) ->
       r = Ok tt /\ forall q, in_staging q = true -> is_file_in (v_world s) q -> q ∈ l) ->
    clean_post s r s') as Hend; [|apply wp_exists].
  - intros r l s' (w' & -> & _ & F & C) Hl Hr. exists w'. split; [done|]. rewrite Forall_forall in Hl. split_and!.
    + intros q. destruct (F q) as [?|(?%Hl & ?)]; auto.
    + intros tid info Ht Hi Hlt. destruct (F (staging_dir ++ [tid ++ PART])) as [?|(_ & Hk & _)]; [done|].
      unfold kept_part in Hk. rewrite path_name_snoc, path_stem_part, Hi in Hk by done. lia.
    + intros Hc Hsd. destruct (Hr Hc Hsd) as [-> Hall]. split; [done|]. intros q Hq Hk Hf. apply C; auto.
  - intros w1 Hs Hf. destruct (bool_decide _) eqn:Eb; bool_prop.
    + wp_step. apply wp_fs_call. unfold wp. destruct (glob_part_spec (v_world (set_world w1 s)) []) as [-> _].
      assert (forall x, v_world (set_world x s) = x /\ forall y, set_world x (set_world y s) = set_world x s) as Hset by (intros; by destruct s).
      rewrite ?(proj1 (Hset _)), ?(proj2 (Hset _)).
      eapply wp_mono; [apply wp_clean_files, Forall_forall; intros q Hq; by apply in_staging_nonempty, (glob_part_spec w1 q)|].
      intros r s' [-> Hcl]. eapply Hend; [by apply (cleaned_world s w1)|apply Forall_forall; intros q Hq; by apply (glob_part_spec w1 q)|].
      intros _ _. split; [done|]. intros q Hq [c Hc]. apply (glob_part_spec w1 q). rewrite Hf. eauto.
    + wp_step. eapply Hend; [by apply Hnil|done|]. by intros _ ?.
  - intros w1 Hs Hf Hc. eapply Hend; [by apply Hnil|done|]. done.
Qed.
End leftovers.

(** ** Stalled transfers *)

(** The peers with [hit] set are closed. *)
Definition close_peers (hit : nat -> bool) (l : list PeerSession) : list PeerSession :=
  imap (fun pid p => if hit pid then p_close p else p) l.
Definition peer_of_any (s : Service) (tids : list pystr) (pid : nat) : bool :=
  existsb (fun tid => bool_decide (aget tid (v_incoming_peers s) = Some pid)) tids.

Lemma close_peers_one pid hit l : alter p_close pid (close_peers hit l) = close_peers (fun q => bool_decide (pid = q) || hit q) l.
Proof.
  apply list_eq. intros q. unfold close_peers. rewrite list_lookup_imap. destruct (decide (pid = q)) as [<-|Hne].
  - rewrite list_lookup_alter_eq, list_lookup_imap, bool_decide_eq_true_2 by done. destruct (l !! pid) as [p|]; [|done]. cbn. by destruct (hit pid).
  - rewrite list_lookup_alter_ne, list_lookup_imap by done. by rewrite bool_decide_eq_false_2 by done.
Qed.
Lemma close_peers_ext hit hit' l : (forall q, hit q = hit' q) -> close_peers hit l = close_peers hit' l.
Proof. intros H. apply imap_ext. intros q p _. by rewrite H. Qed.

(** The monitor closes exactly the connections of the peers with a stalled
    transfer, and does nothing else. *)
Theorem stall_closes s :
  stall_turn s = (Ok tt, set_peers (close_peers (peer_of_any s (stalled s)) (v_peers s)) s).
Proof.
  unfold stall_turn, get, mbind at 1, M_bind at 1. generalize (stalled s). intros l.
  set (closed hit := set_peers (close_peers hit (v_peers s)) s).
  assert (forall h h', (forall q, h q = h' q) -> (Ok tt, closed h) = (Ok tt, closed h')) as Hext.
  { intros h h' He. unfold closed. by rewrite (close_peers_ext h h'). }
  assert (forall hit, iterM (fun tid => s ← get; match aget tid (v_incoming_peers s) with
                                            | Some pid => upd_peer pid p_close | None => mret tt end) l (closed hit)
    = (Ok tt, closed (fun q => peer_of_any s l q || hit q))) as H.
  { induction l as [|tid l IH]; intros hit; cbn [iterM]; [done|].
    assert (v_incoming_peers (closed hit) = v_incoming_peers s) as Ei by (unfold closed; by destruct s).
    unfold mbind at 1, M_bind at 1. unfold mbind at 1, M_bind at 1, get at 1. rewrite Ei.
    destruct (aget tid (v_incoming_peers s)) as [pid|] eqn:E.
    - assert (upd_peer pid p_close (closed hit) = (Ok tt, closed (fun q => bool_decide (pid = q) || hit q))) as ->.
      { unfold upd_peer, modify, closed. rewrite <-close_peers_one. by destruct s. }
      rewrite IH. apply Hext. intros q. cbn [peer_of_any existsb]. rewrite E.
      rewrite (bool_decide_ext (Some pid = Some q) (pid = q)) by naive_solver. unfold peer_of_any. destruct (bool_decide _), (existsb _ _); done.
    - unfold mret, M_ret. rewrite IH. apply Hext. intros q. cbn [peer_of_any existsb]. by rewrite E. }
  replace s with (closed (fun _ => false)) at 1.
  - rewrite H. apply Hext. intros q. by rewrite orb_false_r.
  - unfold closed, close_peers. assert (forall l : list PeerSession, imap (fun _ p => p) l = l) as -> by (intros l0; apply list_eq; intros q; rewrite list_lookup_imap; by destruct (l0 !! q)).
    by destruct s.
Qed.

(** ** The lifecycle *)

Section lifecycle.
Context `{HC : Crypto} `{HE : Ed25519} `{HR : PyRepr} `{HH : Host} `{HI : IpcHost}.
(** This device, as the handshake tells it. *)
Context (identity : IdentityManager) (device_id device_name : pystr).

(** The daemon: the local interface around the service. *)
Abbreviation Daemon := (IpcServer FerryService).
Definition core (d : Daemon) : Service := fs_core (ip_service d).
Definition on_ferry {A} (m : M FerryService A) : M Daemon A := on_service m.
Definition on_daemon {A} (m : M Service A) : M Daemon A := on_service (on_core m).

(** The calls that the discovery made to the local interface. *)
Definition announce (sent : list (nat * list DiscoveredDevice)) : M Daemon unit :=
  iterM (fun e : nat * list DiscoveredDevice => if (e.1 =? ipc_listener)%nat then on_devices_changed e.2 else mret tt) sent.
Definition on_discovery (f : DiscoveryManager -> DiscoveryManager) : M Daemon unit :=
  d ← get;
  let m := fs_discovery (ip_service d) in
  on_ferry (modify (set_discovery (f m)));;
  announce (drop (length (dm_sent m)) (dm_sent (f m))).

(** [start], where [bound] and [ipc_bound] tell whether the port and the socket
    of the local interface could be bound.  The monitor is there afterwards. *)
Definition start_service (bound ipc_bound : bool) : M Daemon unit :=
  d ← get;
  if fs_running (ip_service d) then mret tt
  else
    on_ferry (modify (fun f => set_running true (fs_server f) (fs_ipc f) f));;
    on_daemon prepare_files;;
    on_discovery start;;
    on_discovery (add_listener ipc_listener);;
    lift (raise_if (negb bound) OSError);;
    on_ferry (modify (fun f => set_running (fs_running f) true (fs_ipc f) f));;
    lift (raise_if (negb ipc_bound) OSError);;
    on_ferry (modify (fun f => set_running (fs_running f) (fs_server f) true f)).

(** A connection whose transport is still attached to the listener. *)
Definition open_peer (p : PeerSession) : bool := negb (s_is_initiator (p_session p)) && negb (p_closed p) && negb (p_lost p).
Definition open_client (c : IPCClient) : bool := negb (ic_shut c) && negb (ic_lost c).

(** [task.cancel()] for every task of a session that is not done: it asks for a
    cancellation, which the task sees when it runs next. *)
Definition unfinished (s : Service) : list nat :=
  List.filter (fun pid => in_phase Handshaking pid s || in_phase Looping pid s) (seq 0 (length (v_peers s))).
Definition cancel (pids : list nat) : M Daemon unit := on_ferry (modify (fun f => set_cancelled (fs_cancelled f ++ pids) f)).
Definition cancel_tasks : M Daemon unit := d ← get; cancel (unfinished (core d)).

(** [stop], from one of its waits to the next.  [Server.wait_closed] returns when
    every connection that the listener accepted is gone. *)
Definition stop_begin : M Daemon unit :=
  d ← get;
  if negb (fs_running (ip_service d)) then mret tt
  else
    on_ferry (modify (fun f => set_running false (fs_server f) (fs_ipc f) f));;
    on_discovery stop;;
    on_ferry (modify (fun f => set_stop (if fs_server f then DrainPeers else DrainClients) f)).
Definition peers_drained (d : Daemon) : bool := negb (existsb open_peer (v_peers (core d))).
Definition stop_peers : M Daemon unit :=
  on_ferry (modify (fun f => set_running (fs_running f) false (fs_ipc f) f));;
  on_ferry (modify (set_stop DrainClients)).
Definition clients_drained (d : Daemon) : bool :=
  negb (fs_ipc (ip_service d)) || negb (existsb open_client (ip_objs d)).
Definition stop_clients : M Daemon unit :=
  on_ferry (modify (fun f => set_running (fs_running f) (fs_server f) false f));;
  ipc_stop;;
  cancel_tasks;;
  on_ferry (modify (set_stop Stopped)).

(** ** Connections *)

Definition addr_port (host : pystr) (port : option Z) : pystr :=
  host ++ u ":" ++ match port with Some z => int_text z | None => u "None" end.
Definition open_session (is_initiator : bool) (remote_addr : pystr) : M Service nat := fun s =>
  (Ok (length (v_peers s)), set_peers (v_peers s ++ [new_peer is_initiator remote_addr]) s).
(** [connect_to_peer] up to its wait, where [ok] tells whether the host answers:
    the session whose handshake task it started. *)
Definition connect_to_peer (device : DiscoveredDevice) (ok : bool) : M Service (option nat) :=
  match dd_addresses device with
  | [] => mret None
  | host :: _ => if (ok : bool) then pid ← open_session true (addr_port host (dd_port device)); mret (Some pid) else mret None
  end.
Definition handle_incoming_connection (peername : option (pystr * Z)) : M Service nat :=
  open_session false (match peername with Some (host, port) => addr_port host (Some port) | None => u "unknown" end).

(** ** The coroutines that the local interface schedules *)

Definition send_file_of (remote_addr : json) (file_path : path) : M Service unit :=
  k ← lift (as_key remote_addr);
  match k with
  | None => raise RuntimeError
  | Some addr => send_file_begin identity addr file_path None [] [];; mret tt
  end.
Definition send_batch_of (remote_addr : json) (paths : list path) (batch_name : pystr) : M Service unit :=
  k ← lift (as_key remote_addr);
  match k with
  | None => mret tt
  | Some addr => send_batch_begin identity addr paths batch_name;; mret tt
  end.
Definition request_resume_of (remote_addr transfer_id : json) : M Service unit :=
  ka ← lift (as_key remote_addr);
  s ← get;
  match ka ≫= fun a => _ ← aget a (v_sessions s); Some a with
  | None => lift (slice8 transfer_id)
  | Some addr =>
      k ← lift (db_key transfer_id);
      match k with
      | None => lift (slice8 transfer_id)
      | Some tid => request_resume_begin addr tid;; mret tt
      end
  end.

(** A scheduled coroutine, up to its end or its first long wait.  The name of a
    batch is a text, as the user interface sends it. *)
Inductive run_job (connects : bool) : job -> M Daemon unit -> Prop :=
  | run_broadcast ty payload : run_job connects (JBroadcast ty payload) (broadcast ty payload)
  | run_send_file addr p : run_job connects (JSendFile addr p) (on_daemon (send_file_of addr p))
  | run_send_batch addr l n : run_job connects (JSendBatch addr l (JStr n)) (on_daemon (send_batch_of addr l n))
  | run_connect device : run_job connects (JConnect device) (on_daemon (connect_to_peer device connects);; mret tt)
  | run_resume addr tid : run_job connects (JResume addr tid) (on_daemon (request_resume_of addr tid))
  | run_clipboard pid payload : run_job connects (JClipboard pid payload) (on_daemon (send_encrypted pid CLIPBOARD_SYNC payload)).

(** ** Everything that happens to the daemon *)

Abbreviation run := (run_event identity device_id device_name).
Definition phase_of (d : Daemon) : stop_phase := fs_stop (ip_service d).
(** The connection of a local client breaks. *)
Definition ic_lose (c : IPCClient) : IPCClient :=
  {| ic_out := ic_out c; ic_closed := ic_closed c; ic_shut := ic_shut c; ic_lost := true |}.
Definition client_lost (cid : nat) : M Daemon unit := modify (fun d => set_objs (alter ic_lose cid (ip_objs d)) d).

(** The events that may come next: those with a step of their own below do not,
    nor does anything of a task that was cancelled, and a task that is not started
    before [stop] returns never is. *)
Definition may_happen (d : Daemon) (e : event) : bool :=
  match e with
  | EvConnect _ _ | EvStart | EvCancelled _ => false
  | EvFrame pid _ | EvOver pid => bool_decide (pid ∉ fs_cancelled (ip_service d))
  | EvHandshake pid _ _ _ => bool_decide (pid ∉ fs_cancelled (ip_service d)) && negb (bool_decide (phase_of d = Stopped))
  | EvTimeout _ | EvStall => negb (bool_decide (phase_of d = Stopped))
  | _ => true
  end.
Definition on_event (e : event) (d : Daemon) : Daemon := set_service (set_core (run e (core d)) (ip_service d)) d.

(** Connections are accepted only as long as their listener is open;
    [run_forever] starts and stops once. *)
Inductive daemon_step : Daemon -> Daemon -> Prop :=
  | step_event e d : may_happen d e = true -> daemon_step d (on_event e d)
  | step_incoming peername d :
      fs_server (ip_service d) = true -> phase_of d = Serving -> daemon_step d (on_daemon (handle_incoming_connection peername) d).2
  | step_accept d :
      fs_ipc (ip_service d) = true -> phase_of d ∈ [Serving; DrainPeers] -> daemon_step d (accept_client d).2
  | step_message cid msg d : daemon_step d (handle_message cid msg d).2
  | step_over cid d : daemon_step d (client_over cid d).2
  | step_lost cid d : daemon_step d (client_lost cid d).2
  | step_notice n d : n ∈ v_notices (core d) -> daemon_step d (on_notice n d).2
  | step_discovery e pending d : daemon_step d (on_discovery (fun m => (handle e (m, pending)).1) d).2
  | step_job j connects m l1 l2 d :
      ip_jobs d = l1 ++ j :: l2 -> run_job connects j m -> daemon_step d (m (set_jobs (l1 ++ l2) d)).2
  (** The wait of [connect_to_peer] ends before the handshake does. *)
  | step_connect_timeout pid d :
      in_phase Handshaking pid (core d) = true -> is_initiator_of pid (core d) = true -> daemon_step d (cancel [pid] d).2
  (** A cancelled task runs: the exception ends it. *)
  | step_cancelled pid l1 l2 d :
      fs_cancelled (ip_service d) = l1 ++ pid :: l2 ->
      daemon_step d (on_event (EvCancelled pid) (set_service (set_cancelled (l1 ++ l2) (ip_service d)) d))
  | step_start bound ipc_bound d : phase_of d = Serving -> daemon_step d (start_service bound ipc_bound d).2
  | step_stop d : phase_of d = Serving -> daemon_step d (stop_begin d).2
  | step_stop_peers d : phase_of d = DrainPeers -> peers_drained d = true -> daemon_step d (stop_peers d).2
  | step_stop_clients d : phase_of d = DrainClients -> clients_drained d = true -> daemon_step d (stop_clients d).2.

(** ** What a step does to the service *)

(** [m] leaves the service alone; [m] is at most one event of it, of the kind
    [P].  Neither takes part in stopping. *)
Definition life (f : FerryService) : bool * bool * bool * stop_phase * list nat :=
  (fs_running f, fs_server f, fs_ipc f, fs_stop f, fs_cancelled f).
Definition life_of (d : Daemon) := life (ip_service d).
Definition view_of (d : Daemon) := (core d, life_of d).
Definition quiet {A} (m : M Daemon A) : Prop := forall c, stable (fun d => view_of d = c) m.
Definition after_event (P : event -> Prop) (d d' : Daemon) : Prop :=
  life_of d' = life_of d /\ (core d' = core d \/ exists e, P e /\ core d' = run e (core d)).
Definition evented {A} (P : event -> Prop) (m : M Daemon A) : Prop := forall d, wp m (fun _ d' => after_event P d d') d.
(** The same of a method of the service. *)
Definition is_event {A} (P : event -> Prop) (m : M Service A) : Prop :=
  forall s, (m s).2 = s \/ exists e, P e /\ (m s).2 = run e s.

Lemma quiet_bind {A B} (m : M Daemon A) (f : A -> M Daemon B) : quiet m -> (forall a, quiet (f a)) -> quiet (m ≫= f).
Proof. intros Hm Hf c. apply stable_bind; [apply Hm|intros a; apply Hf]. Qed.
Lemma quiet_ret {A} (a : A) : quiet (mret a).
Proof. intros c. apply stable_ret. Qed.
Lemma quiet_raise {A} e : quiet (raise (A := A) e).
Proof. intros c. apply stable_raise. Qed.
Lemma quiet_lift {A} (r : res A) : quiet (lift r).
Proof. intros c. apply stable_lift. Qed.
Lemma quiet_get : quiet get.
Proof. by intros c d H. Qed.
Lemma quiet_modify f : (forall d, view_of (f d) = view_of d) -> quiet (modify f).
Proof. intros Hf c d Hd. wp_step. by rewrite Hf. Qed.
Lemma quiet_iterM {A} (f : A -> M Daemon unit) l : (forall x, quiet (f x)) -> quiet (iterM f l).
Proof. intros Hf. induction l as [|x l IH]; cbn [iterM]; [apply quiet_ret|]. by apply quiet_bind. Qed.
Lemma quiet_ferry f : (forall x, fs_core (f x) = fs_core x /\ life (f x) = life x) -> quiet (on_ferry (modify f)).
Proof.
  intros Hf c d Hd. unfold wp. cbn. unfold view_of, core, life_of in *. cbn. by rewrite (proj1 (Hf _)), (proj2 (Hf _)).
Qed.

Lemma view_of_eq d d' : view_of d' = view_of d -> core d' = core d /\ life_of d' = life_of d.
Proof. intros H. split; [exact (f_equal fst H)|exact (f_equal snd H)]. Qed.

Lemma evented_quiet {A} P (m : M Daemon A) : quiet m -> evented P m.
Proof. intros Hm d. eapply wp_mono; [by apply (Hm (view_of d))|]. intros r d' [H ?]%view_of_eq. split; [done|by left]. Qed.
Lemma evented_after {A B} P (m : M Daemon A) (f : A -> M Daemon B) :
  quiet m -> (forall a, evented P (f a)) -> evented P (m ≫= f).
Proof.
  intros Hm Hf d. wp_step. eapply wp_mono; [by apply (Hm (view_of d))|]. intros [a|e] d1 [H1 H2]%view_of_eq; [|split; [done|by left]].
  eapply wp_mono; [apply Hf|]. unfold after_event. cbn. by rewrite H1, H2.
Qed.
Lemma evented_before {A B} P (m : M Daemon A) (f : A -> M Daemon B) :
  evented P m -> (forall a, quiet (f a)) -> evented P (m ≫= f).
Proof.
  intros Hm Hf d. wp_step. eapply wp_mono; [apply Hm|]. intros [a|e] d1 H1; [|done].
  eapply wp_mono; [by apply (Hf a (view_of d1))|]. cbn. unfold after_event. by intros r d2 [-> ->]%view_of_eq.
Qed.
Lemma evented_try {A} P (m : M Daemon A) p h : evented P m -> (forall e, quiet (h e)) -> evented P (try_except m p h).
Proof.
  intros Hm Hh d. wp_step. eapply wp_mono; [apply Hm|]. intros [a|e] d1 H1; [done|]. destruct (p e); [|done].
  eapply wp_mono; [by apply (Hh e (view_of d1))|]. cbn. unfold after_event. by intros r d2 [-> ->]%view_of_eq.
Qed.
Lemma evented_on_daemon {A} P (m : M Service A) : is_event P m -> evented P (on_daemon m).
Proof.
  intros Hm d. unfold wp, on_daemon, on_service, on_core, after_event, core, life_of.
  destruct (Hm (fs_core (ip_service d))) as [E|(e & HP & E)];
    destruct (m (fs_core (ip_service d))) as [r s']; cbn in *; (split; [done|]); [by left|right]. eauto.
Qed.

(** ** The methods for the local user are events of the service *)

Definition user_event (e : event) : Prop :=
  match e with
  | EvAccept _ _ | EvReject _ _ | EvAcceptBatch _ _ | EvRejectBatch _ _ | EvCancel _ _ | EvDiscard _ | EvForget _
  | EvAcceptPairing _ | EvRejectPairing _ => True
  | _ => False
  end.

Lemma is_event_of {A} (P : event -> Prop) (m : M Service A) e : P e -> (forall s, (m s).2 = run e s) -> is_event P m.
Proof. intros HP H s. right. by exists e. Qed.
Lemma is_event_lift {A B} P (r : res A) (f : A -> M Service B) : (forall a, is_event P (f a)) -> is_event P (lift r ≫= f).
Proof. intros H s. unfold mbind, M_bind, lift. destruct r as [a|e]; [apply H|by left]. Qed.
Lemma is_event_get {B} P (f : Service -> M Service B) :
  (forall s, (f s s).2 = s \/ exists e, P e /\ (f s s).2 = run e s) -> is_event P (get ≫= f).
Proof. intros H s. apply H. Qed.
Lemma is_event_ret {A} P (a : A) : is_event P (mret a).
Proof. intros s. by left. Qed.
Lemma is_event_keyed P j f : (forall k, is_event P (f k)) -> is_event P (keyed j f).
Proof. intros H. apply is_event_lift. intros [k|]; [apply H|apply is_event_ret]. Qed.

(** An address that no session has. *)
Lemma unknown_addr (s : Service) : exists addr, aget addr (v_sessions s) = None.
Proof. exists (fresh (v_sessions s).*1). apply aget_None, infinite_is_fresh. Qed.

Lemma is_event_accept_batch a b : is_event user_event (accept_batch_of a b).
Proof.
  apply is_event_keyed. intros id. apply is_event_get. intros s. case_bool_decide; [|by left].
  apply is_event_keyed. intros addr. by apply (is_event_of _ _ (EvAcceptBatch addr id)).
Qed.
Lemma is_event_accept a t : is_event user_event (accept_transfer_of a t).
Proof.
  apply is_event_keyed. intros tid. apply is_event_get. intros s. case_bool_decide; [|by left].
  apply is_event_keyed. intros addr. by apply (is_event_of _ _ (EvAccept addr tid)).
Qed.
Lemma is_event_reject_batch a b : is_event user_event (reject_batch_of a b).
Proof.
  apply is_event_keyed. intros id. destruct (as_key a) as [[addr|]|e]; [by apply (is_event_of _ _ (EvRejectBatch addr id))| |].
  all: intros s; right; destruct (unknown_addr s) as [addr Ha]; exists (EvRejectBatch addr id); split; [done|].
  all: cbn [run_event]; unfold reject_batch, pop_batch, mbind, M_bind, get, modify, lift; rewrite Ha.
  all: destruct (aget id (v_batches s)); [rewrite bool_decide_eq_true_2 by done|rewrite bool_decide_eq_false_2 by (by intros [])]; done.
Qed.
Lemma is_event_reject a t : is_event user_event (reject_transfer_of a t).
Proof.
  apply is_event_keyed. intros tid. destruct (as_key a) as [[addr|]|e]; [by apply (is_event_of _ _ (EvReject addr tid))| |].
  all: intros s; right; destruct (unknown_addr s) as [addr Ha]; exists (EvReject addr tid); split; [done|].
  all: cbn [run_event]; unfold reject_transfer, reject_batch, pop_incoming, pop_batch, mbind, M_bind, get, modify, lift; rewrite Ha.
  all: destruct s; cbn in *; destruct (aget tid v_incoming); [rewrite bool_decide_eq_true_2 by done; done|rewrite bool_decide_eq_false_2 by (by intros [])].
  all: destruct (aget tid v_batches) eqn:Eb; [rewrite bool_decide_eq_true_2 by done|rewrite bool_decide_eq_false_2 by (by intros [])]; cbn; by rewrite ?Eb, ?Ha.
Qed.
Lemma is_event_cancel t r : is_event user_event (cancel_transfer_of t r).
Proof.
  apply is_event_lift. intros [tid|]; [|apply is_event_ret]. by apply (is_event_of _ _ (EvCancel tid r)).
Qed.
Lemma is_event_remove k : is_event user_event (remove_device_of k).
Proof. apply is_event_lift. intros [key|]; [by apply (is_event_of _ _ (EvForget key))|apply is_event_ret]. Qed.
Lemma is_event_discard t : is_event user_event (discard_interrupted_transfer t).
Proof. by apply (is_event_of _ _ (EvDiscard t)). Qed.
Lemma is_event_accept_pairing a : is_event user_event (keyed a accept_pairing).
Proof. apply is_event_keyed. intros addr. by apply (is_event_of _ _ (EvAcceptPairing addr)). Qed.
Lemma is_event_reject_pairing a : is_event user_event (keyed a reject_pairing).
Proof. apply is_event_keyed. intros addr. by apply (is_event_of _ _ (EvRejectPairing addr)). Qed.

(** ** The local interface leaves the service alone, its commands apart *)

Local Ltac quiet_step :=
  match goal with
  | |- forall _, _ => intros ?
  | |- quiet (_ ≫= _) => apply quiet_bind
  | |- quiet (iterM _ _) => apply quiet_iterM
  | |- quiet (modify _) => apply quiet_modify; done
  | |- quiet (match _ with _ => _ end) => case_match
  | |- quiet _ => first [apply quiet_ret | apply quiet_raise | apply quiet_lift | apply quiet_get]
  end.
Lemma quiet_client_send cid ty payload : quiet (client_send cid ty payload).
Proof. unfold client_send. quiet_step. Qed.
Lemma quiet_send_error cid text : quiet (send_error cid text).
Proof. apply quiet_client_send. Qed.
Lemma quiet_schedule j : quiet (schedule j).
Proof. unfold schedule. quiet_step. Qed.
Local Ltac quiets := repeat first [quiet_step | apply quiet_client_send | apply quiet_send_error | apply quiet_schedule].
Lemma quiet_broadcast ty payload : quiet (broadcast ty payload).
Proof.
  unfold broadcast. assert (forall l dead, quiet (broadcast_to ty payload l dead)) as H.
  { induction l as [|c l IH]; intros dead; cbn [broadcast_to]; quiets; apply IH. }
  apply quiet_bind; [quiets|]. intros d. apply quiet_bind; [apply H|]. unfold drop_client. quiets.
Qed.
Lemma quiet_on_notice n : quiet (on_notice n).
Proof.
  destruct n; cbn [on_notice];
    unfold on_session_changed, on_ipc_transfer_request, on_transfer_progress, on_ipc_transfer_complete, on_pairing_request; quiets.
Qed.
Lemma quiet_client_over cid : quiet (client_over cid).
Proof. unfold client_over, drop_client. quiets. Qed.
Lemma quiet_discovery f : quiet (on_discovery f).
Proof.
  unfold on_discovery, announce, on_devices_changed. do 2 (apply quiet_bind; [first [by quiets | by apply quiet_ferry]|intros ?]). quiets.
Qed.

Lemma evented_command cid ty payload : evented user_event (command cid ty payload).
Proof.
  unfold command, get_item, get_item_or, clipboard_send. cbv zeta. repeat case_match;
    first [ by apply evented_quiet; quiets
          | repeat (apply evented_after; [apply quiet_lift|intros ?]); first [apply evented_on_daemon | apply evented_before; [apply evented_on_daemon|quiets]] ];
    first [apply is_event_accept | apply is_event_reject | apply is_event_cancel | apply is_event_accept_batch | apply is_event_reject_batch
          | apply is_event_accept_pairing | apply is_event_reject_pairing | apply is_event_discard | apply is_event_remove].
Qed.
Lemma evented_message cid msg : evented user_event (handle_message cid msg).
Proof.
  unfold handle_message, send_state_snapshot. apply evented_after; [quiets|intros d]. cbv zeta. apply evented_after; [quiets|intros s].
  destruct (eq_str _ _); [apply evented_quiet; quiets|]. destruct (negb _); [apply evented_quiet; quiets|].
  apply evented_try; [apply evented_command|quiets].
Qed.

(** ** The daemon refines the service *)

Definition run_all (es : list event) (s : Service) : Service := fold_left (fun s e => run e s) es s.

Lemma client_loop_events fuel cid : forall stream (d : Daemon),
  exists es, Forall user_event es /\ core (client_loop fuel cid stream d).2 = run_all es (core d).
Proof.
  induction fuel as [|n IH]; intros stream d; cbn [client_loop]; [by exists []|]. unfold mbind, M_bind, lift.
  destruct (read_ipc_frame stream) as [[[msg rest]|]|e]; [|by exists []..].
  pose proof (evented_message cid msg d) as H. unfold wp in H. destruct (handle_message cid msg d) as [r d1]. cbn [snd] in H.
  assert (exists es, Forall user_event es /\ core d1 = run_all es (core d)) as (es & He & E).
  { destruct H as [_ [H|(e & He & H)]]; [by exists []|]. exists [e]. split; [by repeat constructor|done]. }
  destruct r as [[]|e]; [|by exists es]. destruct (IH rest d1) as (es' & He' & E'). exists (es ++ es').
  split; [by apply Forall_app|]. unfold run_all in *. by rewrite fold_left_app, <-E.
Qed.

(** C8. A local client has the powers of the local user and no others: whatever
    octets it sends, the service goes through actions of the user (answers to
    transfers, batches and pairings, cancelling, discarding, unpairing), one
    after the other, and through nothing else. *)
Theorem local_client_is_the_user cid stream (d : Daemon) :
  exists es, Forall user_event es /\ core (handle_client cid stream d).2 = run_all es (core d).
Proof.
  unfold handle_client, swallow, try_except, mbind, M_bind. destruct (client_loop_events (S (length stream)) cid stream d) as (es & He & E).
  assert (forall x : Daemon, core (client_over cid x).2 = core x) as Hover.
  { intros x. by apply (view_of_eq x), (quiet_client_over cid (view_of x) x). }
  exists es. split; [done|]. rewrite <-E. destruct (client_loop _ _ _ _) as [[[]|e] d1]; apply Hover.
Qed.

Lemma evented_mono {A} (P Q : event -> Prop) (m : M Daemon A) : (forall e, P e -> Q e) -> evented P m -> evented Q m.
Proof.
  intros H Hm d. eapply wp_mono; [apply Hm|]. intros r d' [Hl [?|(e & He & ?)]]; (split; [done|]); [by left|right]. exists e. auto.
Qed.
Lemma user_spontaneous e : user_event e -> spontaneous e.
Proof. by destruct e. Qed.
Lemma then_unit {A} (m : M Service A) s : ((m;; mret tt) s).2 = (m s).2.
Proof. unfold mbind, M_bind. by destruct (m s) as [[]]. Qed.
Lemma is_event_resume a t : is_event spontaneous (request_resume_of a t).
Proof.
  apply is_event_lift. intros ka. apply is_event_get. intros s. destruct (_ ≫= _) as [addr|]; [|by left].
  unfold mbind at 1, M_bind at 1, lift at 1. destruct (db_key t) as [[tid|]|e]; [right|by left..].
  exists (EvResume addr tid). split; [done|]. apply then_unit.
Qed.
Lemma is_event_send_file a p : is_event spontaneous (send_file_of a p).
Proof.
  apply is_event_lift. intros [addr|]; [|by left]. apply (is_event_of _ _ (EvSendFile addr p None [] [])); [done|]. intros s. apply then_unit.
Qed.
Lemma is_event_send_batch a l n : is_event spontaneous (send_batch_of a l n).
Proof.
  apply is_event_lift. intros [addr|]; [|by left]. apply (is_event_of _ _ (EvSendBatch addr l n)); [done|]. intros s. apply then_unit.
Qed.
Lemma is_event_open i addr : is_event spontaneous (open_session i addr).
Proof. by apply (is_event_of _ _ (EvConnect i addr)). Qed.
Lemma is_event_connect device ok : is_event spontaneous (connect_to_peer device ok).
Proof.
  unfold connect_to_peer. destruct (dd_addresses device) as [|host l]; [apply is_event_ret|]. destruct ok; [|apply is_event_ret].
  intros s. right. by exists (EvConnect true (addr_port host (dd_port device))).
Qed.
Lemma evented_job connects j m : run_job connects j m -> evented spontaneous m.
Proof.
  destruct 1 as [ty payload|addr p|addr l n|device|addr tid|pid payload].
  - apply evented_quiet, quiet_broadcast.
  - apply evented_on_daemon, is_event_send_file.
  - apply evented_on_daemon, is_event_send_batch.
  - apply evented_before; [apply evented_on_daemon, is_event_connect|intros; apply quiet_ret].
  - apply evented_on_daemon, is_event_resume.
  - apply evented_on_daemon. by apply (is_event_of _ _ (EvClipboard pid payload)).
Qed.

(** ** Starting and stopping *)

(** Starting leaves the stopping and the cancelled tasks alone. *)
Definition start_view (d : Daemon) := (core d, phase_of d, fs_cancelled (ip_service d)).
Definition mild {A} (m : M Daemon A) : Prop := forall c, stable (fun d => start_view d = c) m.
Lemma mild_bind {A B} (m : M Daemon A) (f : A -> M Daemon B) : mild m -> (forall a, mild (f a)) -> mild (m ≫= f).
Proof. intros Hm Hf c. apply stable_bind; [apply Hm|intros a; apply Hf]. Qed.
Lemma mild_quiet {A} (m : M Daemon A) : quiet m -> mild m.
Proof.
  intros Hm c d <-. eapply wp_mono; [by apply (Hm (view_of d))|]. intros r d' [H1 H2]%view_of_eq.
  unfold start_view. rewrite H1. injection H2 as _ _ _ E4 E5. unfold phase_of. by rewrite E4, E5.
Qed.
Lemma mild_ferry f : (forall x, fs_core (f x) = fs_core x /\ fs_stop (f x) = fs_stop x /\ fs_cancelled (f x) = fs_cancelled x) ->
  mild (on_ferry (modify f)).
Proof. intros Hf c d <-. unfold wp, start_view, core, phase_of. cbn. by destruct (Hf (ip_service d)) as (-> & -> & ->). Qed.

Definition started_by (d d' : Daemon) : Prop :=
  phase_of d' = phase_of d /\ fs_cancelled (ip_service d') = fs_cancelled (ip_service d)
  /\ exists es, Forall spontaneous es /\ core d' = run_all es (core d).
Lemma mild_started {A} (m : M Daemon A) d0 : mild m -> stable (started_by d0) m.
Proof.
  intros Hm d (H1 & H2 & es & He & H3). eapply wp_mono; [by apply (Hm (start_view d))|]. intros r d' [= E1 E2 E3].
  split_and!; [congruence|congruence|]. exists es. split; [done|congruence].
Qed.
Lemma start_moves bound ipc_bound d : started_by d (start_service bound ipc_bound d).2.
Proof.
  assert (started_by d d) as H0 by (split_and!; [done|done|by exists []]).
  assert (stable (started_by d) (start_service bound ipc_bound)) as H; [|by apply (H d)].
  unfold start_service. apply stable_bind; [by apply mild_started, mild_quiet, quiet_get|intros d1].
  case_match; [by apply mild_started, mild_quiet, quiet_ret|].
  apply stable_bind; [by apply mild_started, mild_ferry|intros _]. apply stable_bind; [|intros _].
  - intros d2 (H1 & H2 & es & He & H3). eapply wp_mono; [by apply (evented_on_daemon spontaneous), (is_event_of _ _ EvStart)|].
    intros r d3 [[= _ _ _ L4 L5] Hc]. split_and!; [unfold phase_of in *; congruence|congruence|].
    destruct Hc as [->|(e & Hsp & ->)]; [by exists es|]. exists (es ++ [e]). split; [apply Forall_app; by repeat constructor|].
    unfold run_all in *. by rewrite fold_left_app, H3.
  - apply mild_started. repeat (apply mild_bind; [first [apply mild_quiet, quiet_discovery | apply mild_quiet, quiet_lift | by apply mild_ferry]|intros _]).
    by apply mild_ferry.
Qed.

(** The calls of [stop]: what each does to the service and to its life. *)
Lemma on_discovery_Ok f d : (on_discovery f d).1 = Ok tt.
Proof.
  unfold on_discovery, announce, mbind, M_bind, get. cbn.
  generalize (drop (length (dm_sent (fs_discovery (ip_service d)))) (dm_sent (f (fs_discovery (ip_service d))))). intros l.
  match goal with |- (iterM _ _ ?x).1 = _ => generalize x end.
  induction l as [|e l IH]; intros d2; cbn [iterM]; [done|]. unfold mbind, M_bind. by destruct (_ =? _)%nat; cbn; apply IH.
Qed.
Lemma stop_begin_spec d :
  let d' := (stop_begin d).2 in
  core d' = core d
  /\ life_of d' = if fs_running (ip_service d)
                  then (false, fs_server (ip_service d), fs_ipc (ip_service d),
                        if fs_server (ip_service d) then DrainPeers else DrainClients, fs_cancelled (ip_service d))
                  else life_of d.
Proof.
  cbv zeta. unfold stop_begin, mbind, M_bind, get. destruct (fs_running (ip_service d)) eqn:Er; cbn [negb]; [|done].
  set (d1 := set_service (set_running false (fs_server (ip_service d)) (fs_ipc (ip_service d)) (ip_service d)) d).
  change (on_ferry _ d) with (Ok tt, d1). cbv iota.
  pose proof (quiet_discovery stop (view_of d1) d1 eq_refl) as H. unfold wp in H. pose proof (on_discovery_Ok stop d1) as Hok.
  destruct (on_discovery stop d1) as [r d2]. cbn in Hok, H. subst r. apply view_of_eq in H as [H1 H2].
  split; [exact H1|]. injection H2 as E1 E2 E3 E4 E5. unfold life_of, life. cbn. by rewrite E1, E2, E3, E5.
Qed.
Lemma ipc_stop_spec (d : Daemon) : exists d', ipc_stop d = (Ok tt, d') /\ ip_clients d' = [] /\ ip_service d' = ip_service d.
Proof.
  unfold ipc_stop, mbind at 1, M_bind at 1, get. generalize (ip_clients d). intros l. unfold mbind, M_bind.
  assert (exists d', iterM (fun c => modify (fun s => set_objs (alter ic_close c (ip_objs s)) s)) l d = (Ok tt, d') /\ ip_service d' = ip_service d) as (d' & -> & E).
  { revert d. induction l as [|c l IH]; intros d; cbn [iterM]; [eauto|]. unfold mbind, M_bind, modify at 1.
    match goal with |- context [iterM _ _ ?x] => destruct (IH x) as (d' & -> & E) end. eauto. }
  eexists. split; [reflexivity|]. done.
Qed.
Lemma stop_clients_spec d :
  let d' := (stop_clients d).2 in
  core d' = core d /\ ip_clients d' = []
  /\ life_of d' = (fs_running (ip_service d), fs_server (ip_service d), false, Stopped,
                   fs_cancelled (ip_service d) ++ unfinished (core d)).
Proof.
  cbv zeta. unfold stop_clients, mbind, M_bind. change (on_ferry _ d) with
    (Ok tt, set_service (set_running (fs_running (ip_service d)) (fs_server (ip_service d)) false (ip_service d)) d).
  cbv iota. match goal with |- context [ipc_stop ?x] => destruct (ipc_stop_spec x) as (d2 & -> & Hc & E2) end.
  unfold cancel_tasks, cancel, mbind, M_bind, get, core, life_of, life. cbn. rewrite E2. cbn. by rewrite Hc.
Qed.

(** One step of the daemon is a few events of the service; the stopping goes on
    only by its own steps, at the end of its waits. *)
Definition stop_moves (d d' : Daemon) : Prop :=
  life_of d' = life_of d
  \/ started_by d d' /\ phase_of d = Serving
  \/ phase_of d = Serving /\ d' = (stop_begin d).2
  \/ (exists pid, phase_of d' = phase_of d /\ fs_ipc (ip_service d') = fs_ipc (ip_service d)
        /\ fs_cancelled (ip_service d') = fs_cancelled (ip_service d) ++ [pid] /\ core d' = core d
        /\ in_phase Handshaking pid (core d) = true /\ is_initiator_of pid (core d) = true)
  \/ (exists pid l1 l2, fs_cancelled (ip_service d) = l1 ++ pid :: l2 /\ fs_cancelled (ip_service d') = l1 ++ l2
        /\ phase_of d' = phase_of d /\ fs_ipc (ip_service d') = fs_ipc (ip_service d) /\ core d' = run (EvCancelled pid) (core d))
  \/ phase_of d = DrainPeers /\ peers_drained d = true /\ d' = (stop_peers d).2
  \/ phase_of d = DrainClients /\ clients_drained d = true /\ d' = (stop_clients d).2.
Definition moved (d d' : Daemon) : Prop :=
  exists es, core d' = run_all es (core d) /\ (phase_of d = Stopped -> Forall spontaneous es).
Lemma moved_still d d' : core d' = core d -> moved d d'.
Proof. intros E. exists []. split; [done|constructor]. Qed.
Lemma moved_one e d d' : core d' = run e (core d) -> (phase_of d = Stopped -> spontaneous e) -> moved d d'.
Proof. intros E H. exists [e]. split; [done|]. intros Hs. repeat constructor. auto. Qed.
Lemma daemon_step_events d d' : daemon_step d d' -> moved d d' /\ stop_moves d d'.
Proof.
  assert (forall d d', moved d d' /\ life_of d' = life_of d -> moved d d' /\ stop_moves d d') as Hs.
  { intros d1 d2 [H1 H2]. split; [done|by left]. }
  assert (forall A (m : M Daemon A) x y, evented spontaneous m -> core y = core x -> life_of y = life_of x -> moved x (m y).2 /\ life_of (m y).2 = life_of x) as Hev.
  { intros A m x y Hm Hc Hl. destruct (Hm y) as [Hph H]. split; [|congruence]. destruct H as [H|(e & He & H)].
    - apply moved_still. congruence.
    - apply (moved_one e); [congruence|done]. }
  assert (forall A (m : M Daemon A) x, quiet m -> moved x (m x).2 /\ life_of (m x).2 = life_of x) as Hq.
  { intros A m x Hm. apply Hev; [by apply evented_quiet|done..]. }
  intros H. destruct H as [e d He|peername d _ _|d _ _|cid msg d|cid d|cid d|n d _|e pending d|j connects m l1 l2 d _ Hj|pid d Hp Hi
    |pid l1 l2 d Hc|bound ib d Hp|d Hp|d Hp Hg|d Hp Hg].
  - apply Hs. split; [|done]. apply (moved_one e); [done|]. intros Hst. destruct e; try done. cbn in He. by rewrite Hst, andb_false_r in He.
  - apply Hs, Hev; [apply evented_on_daemon, is_event_open|done..].
  - apply Hs. split; [by apply moved_still|done].
  - apply Hs, Hev; [eapply evented_mono; [apply user_spontaneous|apply evented_message]|done..].
  - apply Hs, Hq, quiet_client_over.
  - apply Hs. split; [by apply moved_still|done].
  - apply Hs, Hq, quiet_on_notice.
  - apply Hs, Hq, quiet_discovery.
  - apply Hs, Hev; [by apply (evented_job _ _ _ Hj)|done..].
  - split; [by apply moved_still|]. right; right; right; left. by exists pid.
  - split; [by apply (moved_one (EvCancelled pid))|]. right; right; right; right; left. by exists pid, l1, l2.
  - pose proof (start_moves bound ib d) as Hst. split; [|by right; left]. destruct Hst as (_ & _ & es & He & E). by exists es.
  - destruct (stop_begin_spec d) as [E _]. split; [by apply moved_still|]. by right; right; left.
  - split; [by apply moved_still|]. by right; right; right; right; right; left.
  - destruct (stop_clients_spec d) as (E & _). split; [by apply moved_still|]. by right; right; right; right; right; right.
Qed.

Lemma run_all_app es1 es2 s : run_all (es1 ++ es2) s = run_all es2 (run_all es1 s).
Proof. apply fold_left_app. Qed.
Lemma daemon_steps_events d d' : rtc daemon_step d d' -> exists es, core d' = run_all es (core d).
Proof.
  induction 1 as [d|d d1 d' H1 _ [es IH]]; [by exists []|]. apply daemon_step_events in H1 as [(es1 & H1 & _) _].
  exists (es1 ++ es). by rewrite run_all_app, IH, H1.
Qed.

(** The last event of a run that moved the session of [pid]. *)
Lemma last_move pid es s :
  sess pid (run_all es s) = sess pid s
  \/ exists es1 e es2, es = es1 ++ e :: es2 /\ legitimate e pid (run_all es1 s) (run e (run_all es1 s))
     /\ sess pid (run e (run_all es1 s)) = sess pid (run_all es s).
Proof.
  induction es as [|e es IH] using rev_ind; [by left|]. rewrite run_all_app. cbn [run_all fold_left].
  destruct (event_legitimate identity device_id device_name e pid (run_all es s)) as [Hs|Hl].
  - rewrite Hs. destruct IH as [?|(es1 & e' & es2 & -> & Hl & Hp)]; [by left|right].
    exists es1, e', (es2 ++ [e]). split; [by rewrite <-app_assoc|]. done.
  - right. exists es, e, []. done.
Qed.
(** The event of a run that made the service trust [key]. *)
Lemma first_trust key es s :
  trusts key (run_all es s) -> trusts key s
  \/ exists es1 e es2 pid, es = es1 ++ e :: es2 /\ completing e pid (run_all es1 s) /\ static_of pid (run_all es1 s) = Some key.
Proof.
  induction es as [|e es IH] using rev_ind; [by left|]. rewrite run_all_app. cbn [run_all fold_left].
  intros [H|(pid & Hk & Hc)]%(event_trust identity device_id device_name).
  - destruct (IH H) as [?|(es1 & e' & es2 & pid & -> & Hc & Hk)]; [by left|right].
    exists es1, e', (es2 ++ [e]), pid. split; [by rewrite <-app_assoc|]. done.
  - right. exists es, e, [], pid. done.
Qed.

(** C6. The daemon refines the service: whatever sequence of things happens to it
    (messages of local clients, scheduled work, discovery, connections, starting
    and stopping), its tables go through a run of the service's events.  In that
    very run, a session that is elsewhere at the end got there by a legitimate
    event, and every key that is trusted at the end and was not before became so
    by an event that completed the pairing of a session with this key. *)
Theorem daemon_refines_service d d' :
  rtc daemon_step d d' ->
  exists es, core d' = run_all es (core d)
  /\ (forall pid, sess pid (core d') = sess pid (core d)
      \/ exists es1 e es2, let s := run_all es1 (core d) in
           es = es1 ++ e :: es2 /\ legitimate e pid s (run e s) /\ sess pid (run e s) = sess pid (core d'))
  /\ (forall key, trusts key (core d') -> trusts key (core d)
      \/ exists es1 e es2 pid, let s := run_all es1 (core d) in
           es = es1 ++ e :: es2 /\ completing e pid s /\ static_of pid s = Some key).
Proof.
  intros [es E]%daemon_steps_events. exists es. split; [done|]. rewrite E. split; [intros pid; apply last_move|intros key; apply first_trust].
Qed.
End lifecycle.
