(* ===== verification/Stopping.v ===== *)
(** * How the daemon stops

    [stop] waits twice, for the connections that its listener accepted and for
    those of the local clients, and then asks for the cancellation of the
    sessions' tasks: what keeps it waiting, what still runs when it returns, and
    what is left of the service once the cancelled tasks have run. *)
From S2P Require Import Prelude PyStr Json Protocol Session Bridge Config Db Identity Discovery Peers Service Handshake Ipc WellFormed Pairing Registry Daemon.

Section stopping.
Context `{HC : Crypto} `{HE : Ed25519} `{HR : PyRepr} `{HH : Host} `{HI : IpcHost}.
Context (identity : IdentityManager) (device_id device_name : pystr).
Abbreviation Daemon := (IpcServer FerryService).
Abbreviation step := (daemon_step identity device_id device_name).
Abbreviation run_all := (Daemon.run_all identity device_id device_name).
Definition cancelled (d : Daemon) : list nat := fs_cancelled (ip_service d).

(** ** The first wait *)

(** The transport of the connection [pid] is still attached to the listener. *)
Definition attached (pid : nat) (d : Daemon) : Prop := exists p, v_peers (core d) !! pid = Some p /\ open_peer p = true.
Lemma attached_waits pid d : attached pid d -> peers_drained d = false.
Proof.
  intros (p & Hp & Ho). unfold peers_drained. apply negb_false_iff, existsb_exists. exists p. split; [|done].
  apply list_elem_of_In. by eapply list_elem_of_lookup_2.
Qed.
Lemma attached_accepted pid d : attached pid d -> is_initiator_of pid (core d) = false.
Proof.
  intros (p & Hp & Ho). unfold is_initiator_of, peer_at. rewrite Hp. cbn. unfold open_peer in Ho. by destruct (s_is_initiator _).
Qed.

(** [stop] is in its first wait, and nobody asked the task of [pid] to end. *)
Definition in_first_wait (pid : nat) (ipc : bool) (d : Daemon) : Prop :=
  phase_of d = DrainPeers /\ fs_ipc (ip_service d) = ipc /\ pid ∉ cancelled d.
Lemma first_wait_begins pid d :
  fs_running (ip_service d) = true -> fs_server (ip_service d) = true -> pid ∉ cancelled d ->
  in_first_wait pid (fs_ipc (ip_service d)) (stop_begin d).2.
Proof.
  intros Hr Hs Hc. destruct (stop_begin_spec d) as [_ E]. rewrite Hr, Hs in E. injection E as E1 E2 E3 E4 E5.
  split_and!; [exact E4|exact E3|]. unfold cancelled. by rewrite E5.
Qed.
Lemma first_wait_goes_on pid ipc d d' : attached pid d -> in_first_wait pid ipc d -> step d d' -> in_first_wait pid ipc d'.
Proof.
  intros Ha (Hp & Hi & Hc) [_ [Hl|[[_ H]|[[H _]|[(q & E1 & E2 & E3 & _ & _ & Hq)|[(q & l1 & l2 & E1 & E2 & E3 & E4 & _)|[(_ & H & _)|[H _]]]]]]]]%daemon_step_events.
  - injection Hl as _ _ E3 E4 E5. unfold in_first_wait, phase_of, cancelled in *. by rewrite E3, E4, E5.
  - congruence.
  - congruence.
  - split_and!; [congruence|congruence|]. unfold cancelled in *. rewrite E3. apply attached_accepted in Ha.
    assert (pid <> q) as Hne by congruence. rewrite elem_of_app, list_elem_of_singleton. tauto.
  - split_and!; [congruence|congruence|]. unfold cancelled in *. rewrite E2. rewrite E1, elem_of_app, elem_of_cons in Hc. rewrite elem_of_app. tauto.
  - by rewrite (attached_waits pid) in H.
  - congruence.
Qed.

(** C20. Stopping waits for the peers, and until then it takes nothing from them.
    When [stop] is called with one accepted connection open and this connection
    stays open, then whatever else happens [stop] is still in its first wait, the
    local interface is listening as before and takes new clients, the task of the
    connection has not been cancelled, and whatever the peer sends, a handshake or
    a frame, is still handled. *)
Theorem stop_waits_for_peers pid d d' :
  fs_running (ip_service d) = true -> fs_server (ip_service d) = true -> pid ∉ cancelled d -> attached pid d ->
  rtc (fun x y => step x y /\ attached pid y) (stop_begin d).2 d' ->
  phase_of d' = DrainPeers /\ fs_ipc (ip_service d') = fs_ipc (ip_service d) /\ pid ∉ cancelled d'
  /\ (forall data, step d' (on_event identity device_id device_name (EvFrame pid data) d'))
  /\ (forall fresh nonce stream, step d' (on_event identity device_id device_name (EvHandshake pid fresh nonce stream) d'))
  /\ (fs_ipc (ip_service d) = true -> step d' (accept_client d').2).
Proof.
  intros Hr Hs Hc Ha Hrtc. assert (attached pid (stop_begin d).2) as Ha'.
  { destruct (stop_begin_spec d) as [E _]. unfold attached. by rewrite E. }
  assert (in_first_wait pid (fs_ipc (ip_service d)) d') as (Hp & Hi & Hc').
  { pose proof (first_wait_begins pid d Hr Hs Hc) as H0. revert Ha' H0. induction Hrtc as [x|x y z [H1 Hy] _ IH]; [done|].
    intros Hx H0. apply IH; [done|]. by apply (first_wait_goes_on pid _ x). }
  split_and!; try done.
  - intros data. apply step_event. cbn. by rewrite bool_decide_eq_true_2.
  - intros fresh nonce stream. apply step_event. cbn. rewrite Hp, bool_decide_eq_true_2 by done. done.
  - intros Ht. apply step_accept; [congruence|]. rewrite Hp. set_solver.
Qed.

(** ** The end *)






(** Once the connections are gone [stop] returns. *)
Theorem stop_returns d :
  phase_of d = DrainPeers -> peers_drained d = true -> clients_drained d = true -> exists d', rtc step d d' /\ phase_of d' = Stopped.
Proof.
  intros Hd Hp Hc. exists (stop_clients (stop_peers d).2).2. split.
  - eapply rtc_l; [by apply step_stop_peers|]. eapply rtc_once. by apply step_stop_clients.
  - destruct (stop_clients_spec (stop_peers d).2) as (_ & _ & E). by injection E as _ _ _ E _.
Qed.
End stopping.
