(* ===== verification/Witnesses.v ===== *)
(** * Concrete runs of the properties

    For every property with a hypothesis, inputs at which all its hypotheses
    hold.  The libraries that the model takes as parameters (the X25519, HKDF
    and AEAD primitives, Ed25519, [repr], the host) are instantiated by small
    computable functions which satisfy the laws that are assumed of them. *)
From S2P Require Import Prelude PyStr Sha256 Json Protocol Payloads Transfer Fs Incoming Outgoing Session Bridge Clipboard Db.
From S2P Require Import Identity Discovery Peers Service Sending Handshake Views FirstContact Channel Delivery Enrolment Kernel Pairing Trust.
From S2P Require Import Config Ipc UiClient App Window WellFormed Daemon.

(** ** Instances of the parameters *)

Module Toy.
#[export] Instance repr : PyRepr := {| float_repr _ := []; container_str _ := []; str_repr s := s |}.

Definition fill (n : nat) (l : bytes) : bytes := take n (l ++ replicate n Byte.x00).
Definition tag (k n : bytes) : bytes := fill 16 (n ++ k).
Definition cut_tag (c : bytes) : bytes := take (length c - 16) c.
#[export] Instance crypto : Crypto := {|
  x_public a := a;
  x_exchange a b := Ok (be_bytes 32 (be_val a + be_val b));
  hkdf_sha256 l salt info m := fill (Z.to_nat l) (info ++ m ++ salt);
  aead_encrypt k n p := p ++ tag k n;
  aead_decrypt k n c := if bool_decide (c = cut_tag c ++ tag k n) then Some (cut_tag c) else None |}.

Lemma fill_length n l : length (fill n l) = n.
Proof. unfold fill. rewrite length_take, length_app, length_replicate. lia. Qed.

Lemma cut_tag_app k n p : cut_tag (p ++ tag k n) = p.
Proof.
  unfold cut_tag. rewrite length_app. unfold tag at 1. rewrite fill_length. apply take_app_length'. lia.
Qed.

#[export] Instance crypto_laws : CryptoLaws.
Proof.
  split.
  - intros a b. cbn. by rewrite Z.add_comm.
  - intros k n c p. cbn. split.
    + case_bool_decide as H; [|done]. intros [= <-]. exact H.
    + intros ->. rewrite cut_tag_app, bool_decide_eq_true_2; done.
  - intros k n p. cbn. unfold zlen, AEAD_TAG_SIZE. rewrite length_app. unfold tag. rewrite fill_length. lia.
  - intros l s i m Hl. cbn. unfold zlen. rewrite fill_length. lia.
Qed.

#[export] Instance ed : Ed25519 := {|
  ed_public k := k;
  ed_sign k m := fill 64 (sha256 (k ++ m));
  ed_from_public p := Ok p;
  ed_verify p s m := raise_if (negb (bool_decide (s = fill 64 (sha256 (p ++ m))))) ValueError;
  pem_dump k := k;
  pem_load c := Ok (PemEd25519 c) |}.
#[export] Instance ed_laws : Ed25519Laws.
Proof. split; intros; cbn; [|done]. by rewrite bool_decide_eq_true_2. Qed.

(** No symbolic links; a component with a slash in it is no path. *)
Definition realpath (p : path) : res path :=
  q ← lexical_realpath p;
  if forallb (fun c => negb (bool_decide (c = [])) && negb (bool_decide (SLASH ∈ c))) q then Ok q else Err OSError.

Lemma realpath_ok p q : realpath p = Ok q -> comps_ok q.
Proof.
  unfold realpath. destruct (lexical_realpath p) as [x|]; [|done]. cbn. case_match eqn:E; [|done]. intros [= <-].
  rewrite forallb_forall in E. apply Forall_forall. intros c Hc. apply list_elem_of_In, E in Hc. by bool_prop.
Qed.

#[export] Instance host : Host := {|
  h_realpath := realpath; h_uuid4 n := uuid_str (Z.of_nat n mod 2 ^ 128); h_exn_text _ := []; h_sqlite_real _ := [];
  h_lower := lower_hex; h_download_dir := Runs.dir; h_guess_type _ := None; h_notify_reply _ := Some 1 |}.
#[export] Instance host_laws : HostLaws.
Proof. split. intros n. cbn. eexists. split; [by apply Z.mod_pos_bound|done]. Qed.
End Toy.
Import Toy.

Lemma pair_fst {A B} (p : A * B) a : p.1 = a -> p = (a, p.2).
Proof. destruct p. by intros <-. Qed.
Lemma ok_pair_inj {A S} (a b : A) (s s' : S) : (Ok a, s) = (Ok b, s') -> a = b /\ s = s'.
Proof. by intros [= -> ->]. Qed.

(** ** Frames *)

Module Frames.
Definition envelope : FerryEnvelope :=
  new_envelope (uuid_str 7) 1000 TRANSFER_ACCEPT (mkdict [("transfer_id", JStr Runs.tid)])%string.
Definition frame : bytes := match encode_frame envelope with Ok b => b | Err _ => [] end.
Definition id : pystr := u "12345678123412341234123456789ABC".
Definition chunk : bytes := match encode_chunk_frame id 3 Runs.content with Ok b => b | Err _ => [] end.
End Frames.

Lemma decode_encode_frame_witness :
  decode_frame [] 0 (Frames.frame ++ map z2b [1; 2; 3]) = Ok (Some Frames.envelope, zlen Frames.frame).
Proof. apply decode_encode_frame; by vm_compute. Defined.

Lemma decode_frame_incomplete_witness : decode_frame [] 0 (take 9 Frames.frame) = Ok (None, 0).
Proof.
  apply (decode_frame_incomplete [] 0 Frames.envelope Frames.frame _ (drop 9 Frames.frame)); by vm_compute.
Defined.

Lemma chunk_roundtrip_witness :
  is_chunk_frame Frames.chunk = true
  /\ exists n, uuid_int Frames.id = Ok n
     /\ decode_chunk_frame (Frames.chunk ++ []) = Ok {| f_transfer_id := uuid_str n; f_seq := 3; f_data := Runs.content |}.
Proof. apply chunk_roundtrip. by vm_compute. Defined.

Lemma notification_post_bounded_witness :
  let d := mkdict [("ferry_id", JStr (u "f1")); ("package", JStr (u "org.app")); ("app_label", JStr (u "App"));
                   ("title", JStr (repeat 65 300)); ("body", JStr (u "b")); ("posted_at", JInt 5)]%string in
  exists p, NotificationPostPayload.from_dict d = Ok p /\ NotificationPostPayload.bounded p
    /\ NotificationPostPayload.from_dict (NotificationPostPayload.to_dict p) = Ok p.
Proof.
  intros d. destruct (NotificationPostPayload.from_dict d) as [p|] eqn:E; [|by vm_compute in E].
  exists p. split; [done|]. by apply (notification_post_bounded d).
Defined.

(** ** Destinations and received files *)

Lemma resolve_contained_witness :
  exists dest, resolve_safe_destination realpath Runs.dir (u "a.bin") (u "x/../y/a.bin") = Ok dest
    /\ exists base s n, realpath Runs.dir = Ok base /\ dest = base ++ s
       /\ sanitise_filename (u "a.bin") = Ok n /\ safe_name n
       /\ realpath (path_join Runs.dir (asked_name n (u "x/../y/a.bin"))) = Ok dest.
Proof.
  destruct (resolve_safe_destination realpath Runs.dir (u "a.bin") (u "x/../y/a.bin")) as [dest|] eqn:E; [|by vm_compute in E].
  exists dest. split; [done|]. by apply (resolve_contained realpath Runs.dir (u "a.bin") (u "x/../y/a.bin") realpath_ok).
Defined.

Module Receiving.
(** A user's file at the very destination of the transfer. *)
Definition final : path := Runs.dir ++ [u "a.bin"].
Definition mine : bytes := map z2b [42].
Definition occupied : world :=
  {| w_fs := <[final := NFile mine]> (<[[u "home"; u "dl"] := NDir]> (<[[u "home"] := NDir]> ∅)); w_pending := ∅; w_oracle := [] |}.
Definition s0 : st := (new_incoming (Runs.meta 4 []) Runs.dir, Runs.empty).
Definition states (ops : list op) : st := run_ops lexical_realpath ops s0.

(** A run in which no call raises [OSError] and no system call fails. *)
Fixpoint quiet (ops : list op) (s : st) : bool :=
  match ops with
  | [] => true
  | o :: ops => let '(r, s') := run_op lexical_realpath o s in
      negb (bool_decide (r = Err OSError)) && bool_decide (w_oracle s.2 = []) && quiet ops s'
  end.

Lemma quiet_reach meta dir ops s :
  quiet ops s = true -> reach lexical_realpath meta dir s -> reach lexical_realpath meta dir (run_ops lexical_realpath ops s).
Proof.
  revert s; induction ops as [|o ops IH]; intros s; cbn [quiet run_ops]; [done|].
  destruct (run_op lexical_realpath o s) as [r s'] eqn:E.
  rewrite !andb_true_iff, negb_true_iff, bool_decide_eq_false, bool_decide_eq_true. intros [[H1 H2] H3] Hs.
  unfold run_ops. cbn [fold_left]. rewrite E. apply IH; [done|]. eapply reach_op; [exact Hs|exact E|done|].
  intros k _. unfold reads_back. by rewrite H2.
Qed.
Lemma reach_states ops : quiet ops s0 = true -> reach lexical_realpath (Runs.meta 4 []) Runs.dir (states ops).
Proof. intros H. apply quiet_reach; [done|]. apply reach_new. Qed.
End Receiving.

Lemma incoming_keeps_files_witness :
  w_fs (run_ops lexical_realpath (Runs.received_all ++ [OFinalise]) (new_incoming (Runs.meta 4 []) Runs.dir, Receiving.occupied)).2
    !! Receiving.final = Some (NFile Receiving.mine).
Proof.
  apply incoming_keeps_files; [by vm_compute|by vm_compute|]. intros f Hf. vm_compute in Hf. injection Hf as <-. by vm_compute.
Defined.

Lemma finalise_verified_witness :
  let s := Receiving.states Runs.received_all in
  exists s', finalise s = (Ok true, s') /\ i_state s'.1 = COMPLETED
  /\ exists f dest, resolve_safe_destination lexical_realpath Runs.dir (u "a.bin") [] = Ok f
     /\ (dest = f \/ dest = clash_path (Runs.meta 4 []) f)
     /\ w_fs s'.2 !! dest = Some (NFile (i_hasher s.1))
     /\ hexdigest (i_hasher s.1) = lower_hex (m_sha256 (Runs.meta 4 [])).
Proof.
  intros s. assert (reach lexical_realpath (Runs.meta 4 []) Runs.dir (s.1, s.2)) as Hr.
  { rewrite <-surjective_pairing. apply Receiving.reach_states. by vm_compute. }
  destruct (finalise s) as [r [t' w']] eqn:E. exists (t', w').
  assert ((finalise s).1 = Ok true) as Hok by (by vm_compute). rewrite E in Hok. cbn [fst] in Hok. subst r. split; [done|].
  rewrite (surjective_pairing s) in E. exact (finalise_verified _ _ _ _ _ _ _ Hr E).
Defined.

Lemma delivery_contained_witness :
  exists f, resolve_safe_destination realpath Runs.dir (u "a.bin") [] = Ok f
    /\ Runs.dir `prefix_of` f /\ Runs.dir `prefix_of` clash_path (Runs.meta 4 []) f.
Proof.
  destruct (resolve_safe_destination realpath Runs.dir (u "a.bin") []) as [f|] eqn:E; [|by vm_compute in E].
  destruct (uuid_int Runs.tid) as [n|] eqn:En; [|by vm_compute in En].
  exists f. split; [done|]. apply (delivery_contained realpath (Runs.meta 4 []) Runs.dir Runs.dir f n realpath_ok); [by vm_compute|done|done|].
  vm_compute in E. injection E as <-. by vm_compute.
Defined.

Lemma resume_impossible_other_chunk_size_witness :
  let s := Receiving.states [OBegin; Runs.chunk 0 0 4; Runs.chunk 1 4 8] in
  exists s1 s2, interrupt (s.1, s.2) = (Ok tt, s1) /\ i_state s1.1 = INTERRUPTED
    /\ prepare_resume_request None None s1 = (Err ValueError, s2).
Proof.
  intros s. apply (resume_impossible_other_chunk_size lexical_realpath (Runs.meta 4 []) Runs.dir).
  - rewrite <-surjective_pairing. apply Receiving.reach_states. by vm_compute.
  - by vm_compute.
  - apply (bool_decide_unpack _). by vm_compute.
  - by vm_compute.
  - by vm_compute.
  - by vm_compute.
  - by vm_compute.
Defined.

(** ** A file sent and received, and the same interrupted *)

Module Sending.
Definition source : path := [u "home"; u "a.bin"].
Definition guess (p : path) : option pystr := None.
(** A world that holds the one file [c]. *)
Definition holds (c : bytes) : world :=
  {| w_fs := <[source := NFile c]> (<[[u "home"] := NDir]> ∅); w_pending := ∅; w_oracle := [] |}.
Definition n : Z := match uuid_int Runs.tid with Ok n => n | Err _ => 0 end.
Definition sender : OutgoingTransfer := new_outgoing (uuid_str n) source [] None [] [].
Definition final : path := Runs.dir ++ [u "a.bin"].

Lemma holds_readable c : readable source c (holds c).
Proof. split; [|by constructor]. cbn [holds w_fs]. unfold fs_get. by rewrite lookup_insert_eq. Qed.
Lemma nothing_in_the_way meta f w : w_fs w = ∅ -> fs_get ∅ (part_path meta Runs.dir) <> Some NDir ->
  ~ part_path meta Runs.dir `prefix_of` parent f -> unobstructed (new_incoming meta Runs.dir) f w.
Proof. intros Hw H1 H2. split_and!; [|by rewrite Hw|done]. intros q c. by rewrite Hw, lookup_empty. Qed.
End Sending.

Lemma transfer_end_to_end_witness :
  exists m frames t2 w2 t' w',
    build_metadata Sending.guess 0 (u "me") (Sending.sender, Sending.holds Runs.content) = (Ok m, (Sending.sender, Sending.holds Runs.content))
    /\ drain 2 stream_chunks (Sending.sender, Sending.holds Runs.content) = (Ok frames, (t2, w2)) /\ o_state t2 = COMPLETED
    /\ receive_file lexical_realpath frames (new_incoming m Runs.dir, Runs.empty) = (Ok true, (t', w'))
    /\ i_state t' = COMPLETED /\ w_fs w' !! Sending.final = Some (NFile Runs.content).
Proof.
  destruct (transfer_end_to_end Sending.guess lexical_realpath Sending.sender (Sending.holds Runs.content) Runs.content Sending.n 1 0 (u "me"))
    as (m & w1 & frames & t2 & w2 & Hm & Hd & Hs & _ & Hrecv).
  - by vm_compute.
  - by vm_compute.
  - by vm_compute.
  - by vm_compute.
  - apply Sending.holds_readable.
  - by vm_compute.
  - by vm_compute.
  - assert (exists m0, build_metadata Sending.guess 0 (u "me") (Sending.sender, Sending.holds Runs.content)
              = (Ok m0, (Sending.sender, Sending.holds Runs.content))
            /\ metadata_from_dict 0 (metadata_to_dict m0) = Ok m0
            /\ resolve_safe_destination lexical_realpath Runs.dir (m_file_name m0) (m_relative_path m0) = Ok Sending.final
            /\ part_path m0 Runs.dir = Runs.dir ++ [u "staging"; uuid_str Sending.n ++ u ".part"]) as (m0 & Hm0 & Hrt & Hf & Hp).
    { eexists. split; [by vm_compute|]. split_and!; by vm_compute. }
    rewrite Hm0 in Hm. apply ok_pair_inj in Hm as [<- [_ <-]%pair_equal_spec].
    destruct (Hrecv 0 m0 Runs.dir Sending.final Runs.empty) as (t' & w' & Hr & Hc & Hw & _); [exact Hrt|by constructor|exact Hf|..].
    + apply Sending.nothing_in_the_way; [done|rewrite Hp; by vm_compute|rewrite Hp; apply (bool_decide_unpack _); by vm_compute].
    + split_and!; [by vm_compute|done|by rewrite Hp|apply (bool_decide_unpack _); by vm_compute].
    + exists m0, frames, t2, w2, t', w'. split_and!; assumption.
Defined.

(** Two chunks of the largest size, the second one octet long; the digest of the
    offer is left open, since no step up to the interruption reads it. *)
Module Big.
Definition first : bytes := replicate 65536 Byte.x61.
Definition content : bytes := first ++ [Byte.x62].
Definition meta (sha : pystr) : TransferMetadata :=
  {| m_transfer_id := uuid_str Sending.n; m_file_name := u "a.bin"; m_file_size := 65537; m_mime_type := [];
     m_sha256 := sha; m_chunk_size := 65536; m_chunk_count := 2; m_sender_identity := []; m_created_at := 0;
     m_protocol_version := 1; m_batch_id := []; m_relative_path := [] |}.
Definition start (sha : pystr) : st := (new_incoming (meta sha) Runs.dir, Runs.empty).
Definition ops : list op := [OBegin; OChunk {| f_transfer_id := uuid_str Sending.n; f_seq := 0; f_data := first |}].
Definition received (sha : pystr) : st := run_ops lexical_realpath ops (start sha).

Lemma received_reach sha : reach lexical_realpath (meta sha) Runs.dir ((received sha).1, (received sha).2).
Proof.
  rewrite <-surjective_pairing. unfold received. apply Receiving.quiet_reach; [by vm_compute|]. unfold start. apply reach_new.
Qed.
Lemma received_state sha : i_state (received sha).1 = TRANSFERRING.
Proof. by vm_compute. Qed.
Lemma received_calm sha : calm (received sha).2.
Proof. assert (w_oracle (received sha).2 = []) as E by (by vm_compute). unfold calm. rewrite E. constructor. Qed.
Lemma received_hasher sha : i_hasher (received sha).1 = first.
Proof. apply (bool_decide_unpack _). by vm_compute. Qed.
Lemma received_final sha : i_final_path (received sha).1 = Some Sending.final.
Proof. by vm_compute. Qed.
Lemma received_parent sha : fs_get (w_fs (received sha).2) (parent Sending.final) = Some NDir.
Proof. by vm_compute. Qed.
Lemma parent_not_part sha : parent Sending.final <> part_path (meta sha) Runs.dir.
Proof. by vm_compute. Qed.
Lemma received_free sha : free_destination (meta sha) Runs.dir Sending.final (received sha).2.
Proof. split_and!; [by vm_compute|done|by vm_compute|]. apply (bool_decide_unpack _). by vm_compute. Qed.
Lemma first_length : zlen first = 65536.
Proof. by vm_compute. Qed.
Lemma content_length : zlen content = 65537.
Proof. by vm_compute. Qed.
End Big.

Lemma interrupt_resume_consistent_witness :
  let s := Big.received [] in
  exists s1 s2 s3,
    interrupt (s.1, s.2) = (Ok tt, s1) /\ i_state s1.1 = INTERRUPTED
    /\ prepare_resume_request None None s1
       = (Ok (TransferResumeRequestPayload.mk (m_transfer_id (Big.meta [])) (zlen (i_hasher s.1) / 65536 * 65536)
            (zlen (i_hasher s.1) / 65536)
            (hexdigest (take (Z.to_nat (zlen (i_hasher s.1) / 65536 * 65536)) (i_hasher s.1))) 1), s2)
    /\ resume (zlen (i_hasher s.1) / 65536) s2 = (Ok tt, s3)
    /\ i_state s3.1 = RESUMING /\ i_hasher s3.1 = take (Z.to_nat (zlen (i_hasher s.1) / 65536 * 65536)) (i_hasher s.1)
    /\ i_next_seq s3.1 = zlen (i_hasher s.1) / 65536 /\ synced s3.
Proof.
  intros s. destruct (uuid_int (uuid_str Sending.n)) as [n|] eqn:En; [|by vm_compute in En].
  apply (interrupt_resume_consistent lexical_realpath (Big.meta []) Runs.dir s.1 s.2 n).
  - apply Big.received_reach.
  - apply Big.received_state.
  - apply Big.received_calm.
  - exact En.
  - done.
  - unfold s. by rewrite Big.received_hasher, Big.first_length.
  - unfold s. by rewrite Big.received_hasher, Big.first_length.
  - done.
Defined.

Lemma resume_end_to_end_witness :
  let s := Big.received (hexdigest Big.content) in
  exists s1 req s2 g frames sS s3 s4,
    interrupt (s.1, s.2) = (Ok tt, s1)
    /\ prepare_resume_request None None s1 = (Ok req, s2)
    /\ stream_chunks_from (TransferResumeRequestPayload.resume_chunk_index req) = Ok g
    /\ drain 3 g (Sending.sender, Sending.holds Big.content) = (Ok frames, sS)
    /\ resume (TransferResumeRequestPayload.resume_chunk_index req) s2 = (Ok tt, s3)
    /\ (receive_frames frames;; finalise) s3 = (Ok true, s4)
    /\ i_state s4.1 = COMPLETED /\ w_fs s4.2 !! Sending.final = Some (NFile Big.content)
    /\ w_fs s4.2 !! part_path (Big.meta (hexdigest Big.content)) Runs.dir = None.
Proof.
  intros s. apply (resume_end_to_end Sending.guess lexical_realpath (Big.meta (hexdigest Big.content)) Runs.dir s.1 s.2 _ _ _ _ Sending.n).
  - apply Big.received_reach.
  - apply Big.received_state.
  - apply Big.received_calm.
  - apply Big.received_final.
  - reflexivity.
  - by vm_compute.
  - reflexivity.
  - by rewrite Big.content_length.
  - by rewrite Big.content_length.
  - symmetry. apply lower_hexdigest.
  - unfold s. rewrite Big.received_hasher. by exists [Byte.x62].
  - unfold s. by rewrite Big.received_hasher, Big.first_length.
  - apply Big.received_free.
  - apply Big.received_parent.
  - apply Big.parent_not_part.
  - by vm_compute.
  - reflexivity.
  - reflexivity.
  - apply Sending.holds_readable.
  - by rewrite Big.content_length.
  - by vm_compute.
Defined.

(** ** Sessions *)

Module Sessions.
Definition key (b : Z) : bytes := be_bytes 32 b.
(** Both sides of a handshake, each with its own data and the other's. *)
Definition local (i : bool) (static eph : Z) : FerrySession * HandshakeData :=
  match build_local_handshake (key eph) (be_bytes 16 eph) (key static) (new_session i) with
  | (Ok h, s) => (s, h)
  | (Err _, s) => (s, {| static_pub_key := []; ephemeral_pub_key := []; nonce := [] |})
  end.
Definition a0 := local true 1 11.
Definition b0 := local false 2 22.
Definition a : FerrySession := (accept_remote_handshake b0.2 a0.1).2.
Definition b : FerrySession := (accept_remote_handshake a0.2 b0.1).2.
(** The same after [derive_keys]. *)
Definition ak : FerrySession := (derive_keys a).2.
Definition bk : FerrySession := (derive_keys b).2.
Definition msgs : list bytes := [map z2b [1; 2; 3]; []; map z2b [9]].
Definition out (m : bytes) : bytes := match encrypt_frame m ak with (Ok f, _) => f | _ => [] end.
End Sessions.

Lemma key_agreement_witness :
  build_auth_transcript Sessions.a = build_auth_transcript Sessions.b
  /\ exists ka kb a' b', derive_keys Sessions.a = (Ok ka, a') /\ derive_keys Sessions.b = (Ok kb, b')
     /\ send_key ka = recv_key kb /\ recv_key ka = send_key kb /\ sas_code a' = sas_code b'.
Proof.
  destruct (key_agreement Sessions.a Sessions.b (Sessions.key 11) (Sessions.key 22) Sessions.a0.2 Sessions.b0.2) as (Ht & _ & Hok).
  - split_and!; reflexivity.
  - split; [exact Ht|]. destruct (Hok _ eq_refl) as (ka & kb & a' & b' & H1 & H2 & H3 & H4 & H5 & _).
    by exists ka, kb, a', b'.
Defined.

Lemma channel_in_order_witness :
  exists frames a' b', encrypt_all Sessions.msgs Sessions.ak = (map Ok frames, a') /\ decrypt_all frames Sessions.bk = (map Ok Sessions.msgs, b')
    /\ s_send_counter a' = s_recv_counter b' /\ s_send_counter a' = s_send_counter Sessions.ak + Z.of_nat (length Sessions.msgs).
Proof.
  destruct (s_send_cipher Sessions.ak) as [key|] eqn:E; [|by vm_compute in E].
  apply (channel_in_order Sessions.msgs key Sessions.ak Sessions.bk).
  - exact E.
  - rewrite <-E. by vm_compute.
  - by vm_compute.
  - by vm_compute.
  - by vm_compute.
  - by repeat constructor.
Defined.

Lemma decrypt_frame_authentic_witness :
  exists p s', decrypt_frame (Sessions.out (map z2b [5; 6])) Sessions.bk = (Ok p, s')
    /\ (exists key n rest, s_recv_cipher Sessions.bk = Some key /\ make_nonce (s_recv_counter Sessions.bk) = Ok n
        /\ Sessions.out (map z2b [5; 6]) = be_bytes 4 (zlen (aead_encrypt key n p)) ++ n ++ aead_encrypt key n p ++ rest)
    /\ s_recv_counter s' = s_recv_counter Sessions.bk + 1.
Proof.
  destruct (decrypt_frame (Sessions.out (map z2b [5; 6])) Sessions.bk) as [[p|e] s'] eqn:E; [|by vm_compute in E].
  exists p, s'. split; [done|].
  destruct (decrypt_frame_authentic (Sessions.out (map z2b [5; 6])) Sessions.bk p s') as (H1 & H2 & _); [by vm_compute|exact E|done].
Defined.

(** ** Notifications, clipboard, database *)

(** A bridge that has been idle for a minute; then twelve posts at once. *)
Module Quiet.
Definition before : list bridge_call := [CStart (Some (Some [])); CPost 5 (Some 1) (u "a") (u "App") (u "t") []].
Definition during : list bridge_call := replicate 12 (CPost (60 * NANO) (Some 2) (u "b") (u "App") (u "t") []).
End Quiet.
Lemma rate_limit_bound_witness :
  notified Quiet.during (bridge_after 5 Quiet.before) = 10
  /\ notified Quiet.during (bridge_after 5 Quiet.before) * NANO <= RL_BURST * NANO + (60 * NANO - 60 * NANO).
Proof.
  split; [by vm_compute|]. apply rate_limit_bound; [|repeat constructor; unfold NANO; lia|lia].
  cbn [post_times omap app Quiet.before Quiet.during]. vm_compute. repeat split; discriminate.
Defined.

Lemma clipboard_no_echo_witness :
  let m := set_on_send_callback (set_enabled true new_clipboard) in
  exists out m', on_remote_clipboard (u "hello") (u "peer") m = Ok (out, m')
    /\ on_local_clipboard_changed (u "hello") (u "peer") m' = Ok (None, m').
Proof.
  intros m. destruct (on_remote_clipboard (u "hello") (u "peer") m) as [[out m']|] eqn:E; [|by vm_compute in E].
  exists out, m'. split; [done|]. apply (clipboard_no_echo (u "hello") (u "peer") m out m' E). eexists. by vm_compute.
Defined.

Module Stored.
Definition info : InterruptedTransferInfo :=
  {| r_transfer_id := u "t1"; r_bytes_received := 65536; r_resume_chunk_index := 1; r_partial_sha256 := u "ab";
     r_sender_identity := u "me"; r_original_metadata_json := u "{}"; r_interrupted_at := 10; r_expire_at := make_expire_at 10 |}.
Definition empty : db := {| db_devices := []; db_history := [] |}.
Definition filled : db := match save_interrupted_transfer 10 info empty with Ok d => d | Err _ => empty end.
End Stored.

Lemma save_interrupted_roundtrip_witness :
  exists d, save_interrupted_transfer 10 Stored.info Stored.empty = Ok d
    /\ get_interrupted_transfer (u "t1") d = Ok (Some Stored.info).
Proof.
  destruct (save_interrupted_transfer 10 Stored.info Stored.empty) as [d|] eqn:E; [|by vm_compute in E].
  exists d. split; [done|]. by apply (save_interrupted_roundtrip 10 Stored.info Stored.empty d).
Defined.

Lemma expire_exact_witness :
  exists n d, expire_interrupted_transfers (make_expire_at 10 + 1) Stored.filled = Ok (n, d)
    /\ n = zlen (List.filter (expired (make_expire_at 10 + 1)) (db_history Stored.filled))
    /\ expire_interrupted_transfers (make_expire_at 10 + 1) d = Ok (0, d).
Proof.
  destruct (expire_interrupted_transfers (make_expire_at 10 + 1) Stored.filled) as [[n d]|] eqn:E; [|by vm_compute in E].
  exists n, d. split; [done|]. by destruct (expire_exact (make_expire_at 10 + 1) Stored.filled n d E) as (H1 & _ & _ & H4).
Defined.

(** ** Identity and handshake *)

Lemma identity_persistent_witness :
  let s := {| kr_world := Runs.empty; kr_modes := ∅ |} in
  let p := [u "home"; u "key"] in
  exists m s', new_identity 18 (Sessions.key 5) p s = (Ok m, s') /\ stored p (id_private_key m) s'
    /\ id_private_key m = Sessions.key 5 /\ kr_modes s' !! p = Some KEY_FILE_MODE.
Proof.
  intros s p. destruct (new_identity 18 (Sessions.key 5) p s) as [[m|e] s'] eqn:E; [|by vm_compute in E].
  exists m, s'. split; [done|].
  destruct (identity_persistent 18 (Sessions.key 5) p s m s') as (H1 & [(Hs & _)|(H2 & H3)] & _); [by constructor|exact E| |done].
  exfalso. destruct Hs as (_ & c & Hc & _). by vm_compute in Hc.
Defined.

(** Two devices that have never met: what each writes is what the other reads. *)
Module Meeting.
Definition manager (k : Z) : IdentityManager :=
  {| id_key_file := []; id_private_key := Sessions.key k; id_public_key_bytes := Sessions.key k |}.
Definition service (i : bool) : Service :=
  {| v_peers := [new_peer i (u "10.0.0.2:4242")]; v_xfers := []; v_sends := []; v_sessions := []; v_incoming := [];
     v_incoming_peers := []; v_outgoing := []; v_batches := []; v_timeouts := []; v_tasks := []; v_last_chunk := [];
     v_recorded := []; v_db := Stored.empty; v_world := Runs.empty; v_bridge := new_bridge 0; v_notices := []; v_now := 7;
     v_clock := 0; v_fresh := 0; v_batch_objs := [] |}.
Definition run (i : bool) (stream : bytes) : res bool * Service :=
  run_handshake (manager (if i then 1 else 2)) (u "dev") (u "name") 0 i (Sessions.key (if i then 11 else 22))
    (be_bytes 16 (if i then 33 else 44)) stream (service i).
Definition writes (i : bool) (stream : bytes) : bytes := concat (p_out (peer_at 0 (run i stream).2)).
(** The responder answers the first frame; the initiator goes on; both end. *)
Definition from_responder : bytes := writes false (writes true (writes false (writes true []))).
End Meeting.

Lemma handshake_authenticates_witness :
  let p := run_handshake (Meeting.manager 1) (u "dev") (u "name") 0 true (Sessions.key 11) (be_bytes 16 33)
             Meeting.from_responder (Meeting.service true) in
  p.1 = Ok true /\ sess 0 p.2 = PAIRING /\ authenticated 0 p.2
  /\ (forall key, trusts key p.2 -> trusts key (Meeting.service true))
  /\ exists key, static_of 0 p.2 = Some key /\ ~ trusts key (Meeting.service true).
Proof.
  intros p. assert (p.1 = Ok true) as Hok by (by vm_compute). assert (sess 0 p.2 = PAIRING) as Hp by (by vm_compute).
  pose proof (handshake_authenticates (Meeting.manager 1) (u "dev") (u "name") 0 true (Sessions.key 11) (be_bytes 16 33)
              Meeting.from_responder (Meeting.service true) (Ok true) p.2) as H.
  specialize (H ltac:(by vm_compute) ltac:(by vm_compute) (pair_fst p _ Hok)).
  generalize dependent p.2. generalize (Meeting.service true). intros s0 s Hp [_ [(_ & Ha & Ht & key & Hk & Hs)|(Hf & _)]]; [|discriminate Hf].
  split; [exact Hok|]. split; [exact Hp|]. split; [exact Ha|]. split; [exact Ht|]. exists key. split; [exact Hk|].
  destruct Hs as [[He _]|[_ Hs]]; [rewrite Hp in He; discriminate He|exact Hs].
Defined.

(** The same meeting, from the two parties' side. *)
Module Strangers.
Definition party (k : Z) (name : string) : party :=
  {| y_identity := Meeting.manager k; y_id := u "dev"; y_name := u name; y_fresh := Sessions.key (10 + k); y_nonce := be_bytes 16 k |}.

Lemma key_length k : zlen (Sessions.key k) = 32.
Proof. unfold zlen, Sessions.key. by rewrite length_be_bytes. Qed.
Lemma party_fits k name : fits (party k name) <-> forallb is_scalar (u name) = true /\ zlen (u name) <= 1000.
Proof.
  split; [by intros [[_ H1] [_ H2] _ _]|]. intros [H1 H2]. split.
  - by split; [vm_compute|].
  - split; [by vm_compute|done].
  - split; [exact (key_length k)|]. split; [exact (key_length (10 + k))|]. change (zlen (be_bytes 16 k) = 16). unfold zlen. by rewrite length_be_bytes.
  - intros m. unfold sign, zlen. cbn [ed_sign ed]. by rewrite fill_length.
Qed.
Lemma unknown i o k name : newcomer i (party k name) o 0 (Meeting.service i) <-> fits (party k name) /\ get_device_by_public_key (y_key o) Stored.empty = Ok None.
Proof.
  split; [by intros []|]. intros [H1 H2]. split; [done|done|by eexists|done|done].
Qed.
End Strangers.

Lemma strangers_meet_witness :
  let a := Strangers.party 1 "Laptop" in let b := Strangers.party 2 "Desktop" in
  let sa := Meeting.service true in let sb := Meeting.service false in
  let a1 := written 0 (attempt true a 0 [] sa) in
  let b1 := written 0 (attempt false b 0 a1 sb) in
  let a2 := written 0 (attempt true a 0 b1 sa) in
  let b2 := written 0 (attempt false b 0 a2 sb) in
  exists sa' sb' code, attempt true a 0 b2 sa = (Ok true, sa') /\ attempt false b 0 a2 sb = (Ok true, sb')
    /\ sas_code (p_session (peer_at 0 sa')) = Some code /\ sas_code (p_session (peer_at 0 sb')) = Some code.
Proof.
  intros a b sa sb a1 b1 a2 b2.
  destruct (strangers_meet a b 0 0 sa sb (be_bytes 32 (11 + 12))) as (_ & _ & sa' & sb' & Ha & Hb & _ & _ & _ & _ & _ & _ & _ & _ & _ & _ & code & Sa & Sb).
  - apply Strangers.unknown. split; [apply Strangers.party_fits; split; by vm_compute|]. by vm_compute.
  - apply Strangers.unknown. split; [apply Strangers.party_fits; split; by vm_compute|]. by vm_compute.
  - by vm_compute.
  - exists sa', sb', code. split; [exact Ha|]. split; [exact Hb|]. split; [exact Sa|exact Sb].
Defined.

(** The same two devices, when both users accept at the same time. *)
Lemma strangers_become_connected_witness :
  let a := Strangers.party 1 "Laptop" in let b := Strangers.party 2 "Desktop" in
  let sa := Meeting.service true in let sb := Meeting.service false in
  exists sa' sb', crossed (place_of 0 sa b) (place_of 0 sb a)
    (fun s s' => connected 0 0 s s' /\ enrolled_with b (place_of 0 sa b) s /\ enrolled_with a (place_of 0 sb a) s') sa' sb'.
Proof.
  intros a b sa sb. destruct (strangers_become_connected a b 0 0 sa sb (be_bytes 32 (11 + 12))) as (sa' & sb' & _ & _ & _ & _ & H).
  - apply Strangers.unknown. split; [apply Strangers.party_fits; split; by vm_compute|]. by vm_compute.
  - apply Strangers.unknown. split; [apply Strangers.party_fits; split; by vm_compute|]. by vm_compute.
  - by vm_compute.
  - split; discriminate.
  - split; discriminate.
  - exists sa', sb'. exact H.
Defined.

(** Two services with an established session between them; one holds a file. *)
Module Connected.
Definition peer (send recv : Z) : PeerSession :=
  let fs := new_session true in
  p_set_phase Looping (p_set_remote (JStr (u "id")) (JStr (u "Peer")) (u "key")
    (p_set_session (with_keys {| send_key := Sessions.key send; recv_key := Sessions.key recv; sas_bytes := [] |}
      (with_state ESTABLISHED fs)) (new_peer true (u "10.0.0.2:4242")))).
Definition service (send recv : Z) (w : world) : Service :=
  let p := peer send recv in
  set_peers [p] (set_sessions [(p_addr p, 0%nat)] (set_world w (Meeting.service true))).
Definition sa : Service := service 1 2 (Sending.holds Runs.content).
Definition sb : Service := service 2 1 Runs.empty.
Definition addr : pystr := u "10.0.0.2:4242".
Definition m : TransferMetadata := offered_by (Meeting.manager 1) 0 Sending.source Runs.content sa.
Definition m' : TransferMetadata := match metadata_from_dict 7 (metadata_to_dict m) with Ok x => x | Err _ => m end.

Lemma connected_services : connected 0 0 sa sb.
Proof.
  split; [by split; apply (bool_decide_unpack _); vm_compute| |by split; apply (bool_decide_unpack _); vm_compute].
  exists (Sessions.key 1), (Sessions.key 2), 0, 0. split; [by split|]. split; [by split|]. lia.
Qed.
End Connected.

Lemma file_between_services_witness :
  exists k sa1 sb1 sb2 sa2 n k' sa3 sb3,
    send_file_begin (Meeting.manager 1) Connected.addr Sending.source None [] [] Connected.sa = (Ok (inl k), sa1)
  /\ hears 0 (news 0 Connected.sa sa1) Connected.sb = (Ok tt, sb1)
  /\ accept_transfer Connected.addr (k_tid k) sb1 = (Ok tt, sb2)
  /\ hears 0 (news 0 Connected.sb sb2) sa1 = (Ok tt, sa2)
  /\ send_steps n k sa2 = (Ok (inl k'), sa3)
  /\ hears 0 (news 0 sa2 sa3) sb2 = (Ok tt, sb3)
  /\ w_fs (v_world sb3) !! Sending.final = Some (NFile Runs.content).
Proof.
  destruct (file_between_services (Meeting.manager 1) 0 0 Connected.sa Connected.sb Connected.addr Connected.addr Sending.source
    Runs.content Connected.m' Sending.final (u "Peer"))
    as (k & sa1 & sb1 & sb2 & sa2 & n & k' & sa3 & sb3 & sa4 & sa5 & H1 & H2 & H3 & H4 & H5 & _ & H6 & _ & _ & H7 & _).
  - exact Connected.connected_services.
  - by vm_compute.
  - by vm_compute.
  - exact (Sending.holds_readable Runs.content).
  - split; [by vm_compute|]. apply (bool_decide_unpack _). by vm_compute.
  - apply not_elem_of_nil.
  - reflexivity.
  - by vm_compute.
  - by vm_compute.
  - by constructor.
  - by vm_compute.
  - apply Sending.nothing_in_the_way; [done|by vm_compute|apply (bool_decide_unpack _); by vm_compute].
  - split_and!; [by vm_compute|done|by vm_compute|apply (bool_decide_unpack _); by vm_compute].
  - exists k, sa1, sb1, sb2, sa2, n, k', sa3, sb3. split_and!; assumption.
Defined.

(** ** The daemon and its local clients *)

Module Desk.
#[export] Instance ipc_host : IpcHost := {|
  ih_path s := split SLASH s;
  ih_float _ := Corelib.Floats.SpecFloat.S754_zero false;
  ih_sql_limit j := match j with JInt z => Ok z | _ => Err SqliteError end |}.
Definition config : FerryConfig :=
  {| c_device_name := JStr (u "Laptop"); c_device_id := JStr (uuid_str 5); c_listen_port := JInt 53770;
     c_download_dir := JStr (u "/home/dl"); c_auto_accept_paired := JBool false; c_max_chunk_size := JInt 65536 |}.
Definition service : FerryService :=
  {| fs_core := Connected.sa; fs_config := config; fs_discovery := new_discovery (uuid_str 5); fs_public_key := u "key";
     fs_running := true; fs_server := true; fs_ipc := true; fs_stop := Serving; fs_cancelled := [] |}.
(** Two connections; only the second one subscribed. *)
Definition daemon : IpcServer FerryService :=
  {| ip_service := service; ip_objs := [new_client; new_client]; ip_clients := [1%nat]; ip_jobs := [] |}.
Definition frame (ty : string) (payload : jdict) : bytes :=
  match encode_ipc_frame 5 (JStr (u ty)) (JObj payload) with Ok f => f | Err _ => [] end.
Definition cancel : ui_command := UCancelTransfer (u "t1").
Definition cancel_frame : bytes := frame (command_message cancel).1 (command_message cancel).2.
Definition client : UiClient :=
  {| uc_closing := false; uc_connected := true; uc_writer := true; uc_lost := false; uc_out := [];
     uc_callbacks := [("session_update"%string, CbSessionUpdate)]; uc_idle := []; uc_now := 0 |}.
Definition update : jdict := mkdict [("remote_addr", JStr (u "10.0.0.2:4242")); ("state", JStr (u "ESTABLISHED"))]%string.
End Desk.
Import Desk.

(** A command before any subscription is answered with an error, and no more. *)
Lemma commands_need_subscription_witness :
  exists s', handle_client 0 (Desk.cancel_frame ++ map z2b [1; 2]) Desk.daemon = (Ok tt, s')
    /\ ip_service s' = Desk.service /\ ip_clients s' = [1%nat] /\ ip_jobs s' = [].
Proof.
  pose proof (commands_need_subscription 0 (Desk.cancel_frame ++ map z2b [1; 2]) Desk.daemon) as H.
  specialize (H ltac:(apply (bool_decide_unpack _); by vm_compute) ltac:(by repeat constructor)).
  destruct (wp_run _ _ _ H) as (r & s' & E & -> & A & B & C & _). exists s'. split_and!; assumption.
Defined.

Lemma handle_client_ends_witness :
  exists s', handle_client 1 Desk.cancel_frame Desk.daemon = (Ok tt, s') /\ is_closed 1 s' = true.
Proof.
  destruct (handle_client_ends 1 Desk.cancel_frame 1000 Desk.daemon) as (s' & H1 & H2 & _); [apply (bool_decide_unpack _); by vm_compute|].
  exists s'. split; assumption.
Defined.

Lemma broadcast_delivers_witness :
  exists s', broadcast "IPC_SESSION_UPDATE" (JObj Desk.update) Desk.daemon = (Ok tt, s') /\ ip_service s' = Desk.service
    /\ sent_to (frame_for "IPC_SESSION_UPDATE" (JObj Desk.update) Desk.daemon) [1%nat] [new_client; new_client] (ip_objs s').
Proof.
  pose proof (broadcast_delivers "IPC_SESSION_UPDATE" (JObj Desk.update) Desk.daemon) as H.
  destruct (wp_run _ _ _ H) as (r & s' & E & -> & H1 & _ & H2 & _). exists s'. split_and!; assumption.
Defined.

Lemma ui_command_reaches_service_witness :
  exists msg, read_ipc_frame (Desk.cancel_frame ++ [Byte.x00]) = Ok (Some (msg, [Byte.x00]))
    /\ handle_message 1 msg Desk.daemon = answered 1 (perform 1 Desk.cancel) Desk.daemon.
Proof.
  apply (ui_command_reaches_service 1 Desk.cancel 5 Desk.cancel_frame [Byte.x00] Desk.daemon).
  - apply (bool_decide_unpack _). by vm_compute.
  - by vm_compute.
  - by vm_compute.
  - lia.
  - by vm_compute.
Defined.

Lemma event_reaches_window_witness :
  read_turn (Desk.frame "IPC_SESSION_UPDATE" Desk.update ++ []) Desk.client
  = (Ok (UReading, []), uc_call CbSessionUpdate (Some (JObj Desk.update)) Desk.client).
Proof. apply (event_reaches_window 5 "IPC_SESSION_UPDATE" "session_update"); by vm_compute. Defined.

(** The user rejects the peer: the session is over. *)
Lemma daemon_refines_service_witness :
  let d' := (handle_message 1 (JObj (mkdict [("type", JStr (u "IPC_REJECT_PAIRING"));
                                             ("payload", JObj (mkdict [("remote_addr", JStr Connected.addr)]))]%string)) Desk.daemon).2 in
  sess 0 (core d') = SFAILED
  /\ exists es, core d' = run_all (Meeting.manager 1) (u "dev") (u "name") es (core Desk.daemon)
     /\ forall key, trusts key (core d') -> trusts key (core Desk.daemon)
        \/ exists es1 e es2 pid, let s := run_all (Meeting.manager 1) (u "dev") (u "name") es1 (core Desk.daemon) in
             es = es1 ++ e :: es2 /\ completing e pid s /\ static_of pid s = Some key.
Proof.
  intros d'. split; [by vm_compute|].
  destruct (daemon_refines_service (Meeting.manager 1) (u "dev") (u "name") Desk.daemon d') as (es & H1 & _ & H3).
  - eapply rtc_l; [apply step_message|apply rtc_refl].
  - exists es. split; [exact H1|exact H3].
Defined.

(** ** The configuration *)

Module Settings.
Definition env : Environ :=
  {| x_home := [u "home"; u "me"]; x_hostname := u "laptop"; x_run_user := [u "run"]; x_config_home := None; x_data_home := None;
     x_runtime_dir := None |}.
Definition dir : path := [u "cfg"].
(** A file that holds an id and a port, and nothing else. *)
Definition content : bytes :=
  match (text ← json_dumps_indent 2 (JObj (mkdict [("device_id", JStr (u "me")); ("listen_port", JInt 4000)]%string)); utf8_encode text) with
  | Ok b => b
  | Err _ => []
  end.
Definition disk : world :=
  {| w_fs := <[dir ++ [u "config.json"] := NFile content]> (<[dir := NDir]> ∅); w_pending := ∅; w_oracle := [] |}.
Lemma disk_usable : usable dir [u "data"] [u "run"] disk.
Proof.
  split; [by constructor|by vm_compute| |by vm_compute]. intros q c Hq.
  assert (q = [] \/ q = dir) as [->| ->] by (destruct q as [|x q]; [by left|right; destruct Hq as [k Hk]; unfold dir in *; destruct q; naive_solver]);
    by vm_compute.
Qed.
End Settings.

Lemma config_settles_witness :
  exists c n1 w1, load_config Settings.env h_uuid4 (manager_at Settings.dir [u "data"] [u "run"]) (0%nat, Settings.disk) = (Ok c, (n1, w1))
    /\ c_listen_port c = JInt 4000.
Proof.
  destruct (config_settles Settings.env h_uuid4 Settings.dir [u "data"] [u "run"]) with (n := 0%nat) (w := Settings.disk)
    as (c & n1 & w1 & H & _).
  - by vm_compute.
  - intros n. destruct (uuid4_text n) as [H1 H2]. split; [exact H1|]. intros H3. rewrite H3 in H2. by vm_compute in H2.
  - exact Settings.disk_usable.
  - intros content H d Hd. assert (content = Settings.content) as -> by (vm_compute in H; by injection H as <-).
    vm_compute in Hd. injection Hd as <-. by vm_compute.
  - exists c, n1, w1. split; [exact H|].
    assert (c_listen_port <$> match (load_config Settings.env h_uuid4 (manager_at Settings.dir [u "data"] [u "run"]) (0%nat, Settings.disk)).1 with
                              | Ok c => Some c | Err _ => None end = Some (JInt 4000)) as E by (by vm_compute).
    rewrite H in E. cbn in E. by injection E.
Defined.

(** ** The window *)

Module Glass.
#[export] Instance toolkit : Toolkit := {|
  tk_capitalize s := s; tk_markup_escape s := s; tk_close_response := Some (u "close") |}.
Definition addr : pystr := u "10.0.0.2:4242".
(** A request to pair is shown, and the user agrees. *)
Definition agree : list window_event :=
  [WCall (WPairing (JStr addr) (JStr (u "Phone")) (JStr (u "123456"))); WIdle; WIdle; WIdle; WIdle; WRespond 0 (u "accept")].
(** A file is offered and accepted. *)
Definition offer : list window_event :=
  [WCall (WTransferRequest (JStr addr) (JStr (u "t1")) (JStr (u "a.txt")) (JInt 1536)); WIdle; WIdle; WIdle; WIdle;
   WRespond 0 (u "accept")].
Definition heard : list (feed (S := FerryService)) :=
  [FSnapshot Desk.service; FOther WIdle; FNotice Desk.daemon addr ESTABLISHED; FOther WIdle].
(** A window that was told of a session, and the stored device that it is with. *)
Definition window : Window := window_run [WCall (WSession (JObj Desk.update))] new_window.
Definition devices : json :=
  JArr [JObj (mkdict [("device_id", JStr (u "phone-1")); ("device_name", JStr (u "Phone")); ("identity_public_key_b64", JStr (u "key"))]%string)].
End Glass.
Import Glass.

Lemma accepting_is_the_users_witness :
  exists es1 k es2 d, Glass.agree = es1 ++ WRespond k (u "accept") :: es2
  /\ dg_objs (w_dialogs (window_run es1 new_window)) !! k = Some d /\ dl_open d = true /\ dl_kind d = DPairing Glass.addr
  /\ exists name code, dl_body d = pairing_body name code.
Proof.
  destruct (accepting_is_the_users Glass.agree (UAcceptPairing Glass.addr)) as (es1 & k & es2 & d & E & Hd & Ho & H).
  - discriminate.
  - exact I.
  - apply list_elem_of_lookup_2 with 2%nat. vm_compute. reflexivity.
  - exists es1, k, es2, d. split; [exact E|]. split; [exact Hd|]. split; [exact Ho|].
    destruct (dl_kind d); try contradiction. destruct H as (-> & n & c & name & code & _ & _ & _ & Hb). split; [reflexivity|].
    exists name, code. exact Hb.
Defined.

Lemma established_shown_witness :
  exists row, row ∈ vw_trusted (w_views (update_trusted_devices_from_db Glass.devices Glass.window).2) /\ tr_connected row = true.
Proof.
  destruct (established_shown Glass.devices Glass.window (update_trusted_devices_from_db Glass.devices Glass.window).2) as [H _].
  - vm_compute. reflexivity.
  - destruct (H (Glass.addr, aset (u "remote_addr") (JStr Glass.addr) Desk.update)) as (row & id & name & key & db & Hin & Hc & _); [|exists row; split; assumption].
    apply list_elem_of_lookup_2 with 0%nat. vm_compute. reflexivity.
Defined.

Lemma window_follows_daemon_witness :
  (established (window_run (concat (map feed_events Glass.heard)) new_window)).*1
  = (List.filter (fun x : pystr * SessionState => bool_decide (x.2 = ESTABLISHED)) (fold_left told_state Glass.heard [])).*1
  /\ Glass.addr ∈ (established (window_run (concat (map feed_events Glass.heard)) new_window)).*1.
Proof.
  destruct (window_follows_daemon Glass.heard) as [_ H]; [by repeat constructor|]. split; [exact H|].
  rewrite H. apply list_elem_of_lookup_2 with 0%nat. vm_compute. reflexivity.
Defined.

Lemma active_rows_ok_witness :
  exists r, pn_objs (w_panel (window_run Glass.offer new_window)) !! 1%nat = Some r /\ xr_transfer r = Some (u "t1").
Proof.
  destruct (active_rows_ok Glass.offer (u "t1") 1%nat 1536) as (_ & (r & Hr & Ht & _) & _); [vm_compute; reflexivity|].
  exists r. split; assumption.
Defined.
