(* ===== verification/LifeWitnesses.v ===== *)
(** * Concrete runs of the daemon's life

    The witnesses of [Advert], [Notifier] and [Stopping], on the instances of
    [Witnesses]. *)
From S2P Require Import Prelude PyStr Sha256 Json Protocol Payloads Transfer Fs Incoming Session Bridge Db Config Identity Discovery Advert.
From S2P Require Import Peers Service Sending Handshake Ipc Window Notifier WellFormed Pairing Registry Daemon Stopping Witnesses.
Import Toy Desk.

(** ** The advertisement of a laptop with one address *)

Module Beacon.
Definition adapters : option (list (list ip_info)) :=
  Some [[{| ip_is_IPv4 := true; ip_text := u "127.0.0.1" |}];
        [{| ip_is_IPv4 := true; ip_text := u "10.0.0.5" |}; {| ip_is_IPv4 := true; ip_text := u "10.0.0.5" |}]].
Definition ad : Advertisement :=
  match advertise Desk.config (get_local_ip_addresses adapters None) (u "laptop") with
  | Ok ad => ad
  | Err _ => {| ad_type := []; ad_name := []; ad_port := JNull; ad_properties := []; ad_addresses := []; ad_server := [] |}
  end.
Definition resolved : ServiceInfo :=
  {| si_properties := map (fun kv : bytes * bytes => (kv.1, Some kv.2)) (ad_properties ad); si_v4 := [u "10.0.0.5"]; si_v6 := [];
     si_port := Some 53770; si_name := ad_name ad |}.
End Beacon.

Lemma advertised_is_discovered_witness :
  exists d, from_service_info 7 Beacon.resolved = Some d /\ dd_device_name d = u "Laptop" /\ dd_addresses d = [u "10.0.0.5"]
    /\ get_device (uuid_str 5) (service_resolved 7 (ad_name Beacon.ad) Beacon.resolved (new_discovery (u "other"))) = Some d.
Proof.
  destruct (advertised_is_discovered Desk.config Beacon.adapters None (u "laptop") ltac:(done) Beacon.ad Beacon.resolved 7)
    as (id & name & [= <-] & [= <-] & H & _ & _).
  - by vm_compute.
  - split_and!; [done|by vm_compute|done| |done]. by intros z [= <-].
  - destruct H as (d & H1 & _ & H2 & _ & _ & H3 & _ & _ & H4); [by vm_compute|by vm_compute|].
    exists d. split; [exact H1|]. split; [exact H2|]. split; [exact H3|]. apply H4. by vm_compute.
Defined.

(** ** A transfer request is shown *)

Lemma request_notified_witness :
  exists size, desktop_size (m_file_size Connected.m') = Ok size
  /\ (incoming_transfer_request (JStr (u "Phone")) (m_file_name Connected.m') (m_file_size Connected.m') (new_notifications true true)).2
     = nm_set [{| dn_title := u "Incoming file from Phone";
                  dn_body := quoted (m_file_name Connected.m') ++ u " (" ++ size ++ u ")" ++ TO_ANSWER |}] [] (new_notifications true true).
Proof.
  assert (metadata_from_dict 7 (metadata_to_dict Connected.m) = Ok Connected.m') as Hm by (by vm_compute).
  destruct (request_notified 7 (metadata_to_dict Connected.m) Connected.m' (JStr (u "Phone")) (new_notifications true true) Hm) as (_ & size & Hs & H).
  exists size. split; [exact Hs|exact H].
Defined.

(** ** Stopping *)

Module Closing.
Definition me : IdentityManager := Meeting.manager 1.
Definition ferry (core : Service) (running : bool) : FerryService :=
  {| fs_core := core; fs_config := Desk.config; fs_discovery := new_discovery (uuid_str 5); fs_public_key := u "key";
     fs_running := running; fs_server := running; fs_ipc := running; fs_stop := Serving; fs_cancelled := [] |}.
Definition daemon (f : FerryService) (jobs : list job) : IpcServer FerryService :=
  {| ip_service := f; ip_objs := []; ip_clients := []; ip_jobs := jobs |}.
(** With one accepted connection open; asked to stop; and a second later. *)
Definition visited : IpcServer FerryService := daemon (ferry (Meeting.service false) true) [].
Definition waiting := (stop_begin visited).2.
Definition later := on_event me (u "dev") (u "name") (EvTick 8 1) waiting.

Abbreviation step := (daemon_step me (u "dev") (u "name")).

End Closing.

Lemma stop_waits_for_peers_witness :
  phase_of Closing.later = DrainPeers /\ fs_ipc (ip_service Closing.later) = true
  /\ Closing.step Closing.later (accept_client Closing.later).2.
Proof.
  destruct (stop_waits_for_peers Closing.me (u "dev") (u "name") 0 Closing.visited Closing.later) as (H1 & H2 & _ & _ & _ & H3).
  - done.
  - done.
  - apply (bool_decide_unpack _). by vm_compute.
  - by eexists.
  - apply rtc_once. split; [apply step_event; by vm_compute|]. eexists. split; [vm_compute; reflexivity|by vm_compute].
  - split; [exact H1|]. split; [exact H2|]. by apply H3.
Defined.

